(* ===== verification/_CoqProject ===== *)
-Q . S2P
Prelude.v
GoStd.v
GoNet.v
GoMd5.v
Json.v
Version.v
LbApi.v
LbValid.v
Ports.v
NodeNetwork.v
Sysctl.v
Workqueue.v
WorkqueueSpec.v
Controller.v
ControllerSystem.v
ControllerProgress.v
ControllerSettles.v
Execd.v
Ingress.v
Iptables.v
Keepalived.v
KeepalivedTmpl.v
Ipvsdr.v
IpvsdrFacts.v
IpvsdrHost.v
IpvsdrUpdate.v
IpvsdrFile.v
IpvsdrExample.v
IpvsdrSystem.v
AzureNet.v
AzureIds.v
AzureRules.v
AzureOrder.v
AzureConfig.v
AzureSecurity.v
AzureSecurityFacts.v
AzureGroups.v
AzurePools.v
AzurePoolsFacts.v
AzureClient.v
AzureWrappers.v
NodeLookup.v
AzureCloud.v
Azure.v
AzureFacts.v
AzurePatches.v
AzureSync.v
AzureHistory.v
AzureSyncGroups.v
AzureCleanup.v
AzureUpdate.v
AzureExample.v
AzureSyncExample.v
AzureGroupsExample.v
AzureSystem.v
Program.v
