(* ===== verification/Prelude.v ===== *)
(** * LoadBalancer provider: a verification development

    The program keeps a load balancer of a Kubernetes cluster in step with its
    LoadBalancer resource.  A generic provider (src/core/provider) watches the
    resource and its ConfigMaps and calls a backend; there are three backends:
    ipvs-dr (src/providers/ipvsdr, which configures iptables, kernel parameters
    and keepalived on a node), azure (src/providers/azure, which configures a
    load balancer in the Azure cloud) and the ingress sidecar
    (src/providers/ingress, which sets kernel parameters).  One program per
    backend (src/cmd) puts them together.

    ** How the program is modelled

    A Go function is a Rocq function.  A function that may fail or panic returns
    a [result]: [Ok], [Err] with the error, or [Panic] (a nil dereference, an
    index out of range, a closed channel, [log.Fatal]).  A function with effects
    is a [prog W A], a function of the state [W] that returns a result and the
    state it leaves, on errors and panics too, because Go does not roll back.
    What lies outside the repository (the API server, the informer, iptables,
    the operating system, the Azure SDK) is a type class over the state with one
    operation per call and, where the program relies on it, a second class with
    the laws it documents ([ProcFSLaws], [OSLaws], [IptablesLaws], [IpvsEnvLaws],
    [IpvsFrame], [AzureNics], [AzureLBs], [AzureSGs], [AzureGroupFrame],
    [StartHostLaws]).  No law says that a call succeeds.  Where the program drops
    an error, or cannot observe what it asked for, the state carries a history
    variable that no program reads and that any state can be extended by: the
    number of failed calls ([CallHistory], [IptablesHistory], [ConfigHistory]) and
    the deletions and patches sent ([AzureHistory]); theorems about what is
    reached have the hypothesis that no call of this run failed.  Every class has
    an instance in memory, so the theorems are applied to concrete runs.  Integers are [Z];
    [to_int32] wraps where the code converts, and [strconv.Atoi] and
    [ParseUint] keep their range errors.  Go visits a map in a random order:
    every function that ranges over a map takes the order as a parameter, and
    the theorems hold for all orders ([map_order], [set_order]).

    Objects that the informer shares are addresses in a [store], because the
    backends write into them: that the ipvs-dr provider and the azure provider
    change the cached object, and that the azure provider keeps a pointer into
    its own copy ([old_pointer], [lb_pointer]), is what several theorems are
    about.

    ** Files, components and code

    - Prelude, GoStd, GoNet, GoMd5: Go values, results and programs, their rules
      and tactics ([run_back] inverts a successful run, [steps_auto] proves what a
      program leaves alone, [maintains] is a Hoare logic without panics);
      strings, strconv, sort, path, net and crypto/md5 of the Go library.
    - Json, Version (pkg/version): JSON values, the grammar of their texts
      ([denotes]), a reader for it and the texts the program writes; the build
      information of a binary.
    - LbApi, LbValid: the LoadBalancer resource of clientset's
      loadbalance/v1alpha2, [ValidateLoadBalancer], and what it decides.
    - Ports (core/provider/ports.go), NodeNetwork (providers/ipvsdr/nodenetwork.go
      and util.go), Sysctl (core/pkg/sysctl), NodeLookup (core/pkg/node,
      core/util): the helpers, as functions.
    - Workqueue, WorkqueueSpec: client-go's work queue with its delays and
      retries, and SyncQueue.  State [workqueue] and [SyncQueue], one function
      per method; the abstract queue [line] is what the implementation refines.
    - Controller, ControllerSystem (core/provider/controller.go): the handlers,
      the sync handler, Start and Stop of [GenericProvider] over the class
      [Provider] of backends; then the system of informer, worker, timers and
      a concurrent Stop as a step relation ([system], [action], [step]).
      ControllerProgress watches it with a [monitor] that remembers the last
      call of the sync handler and counts failures in a row; ControllerSettles
      measures what the process still has to do ([potential]) and says what it is
      when nothing is left ([at_rest]).
    - Execd (pkg/execd): a daemon, its channels and its goroutines as a state
      machine ([daemon], [action], [step]).
    - Ingress (providers/ingress/sidecar.go).
    - Iptables, Keepalived, Ipvsdr (providers/ipvsdr/ipvsdr.go and
      keepalived.go): the rules, the configuration, the provider [IpvsProvider]
      with [ipvsdr_OnUpdate], [ipvsdr_Start], [ipvsdr_Stop].  IpvsdrFacts and
      IpvsdrHost prove its parts, IpvsdrUpdate a whole update over hosts whose
      parts do not interfere ([IpvsFrame]), IpvsdrSystem the
      provider under the controller.  KeepalivedTmpl is the shipped template
      (build/ipvsdr/keepalived.tmpl) as a function to text and a reader of such
      files, IpvsdrFile what is read after an update; IpvsdrExample is a host in
      memory.
    - AzureNet, AzureClient, AzureWrappers (providers/azure/client and the SDK's
      models): resources, errors, secrets, the wrappers that wait for futures
      and collect pages.
    - AzureIds, AzureRules, AzureOrder, AzureConfig, AzureSecurity,
      AzureSecurityFacts, AzureGroups, AzurePools, AzurePoolsFacts (providers/azure/utils.go
      and loadbalancer.go): resource IDs, load balancing rules, the default
      configuration, security groups, backend pools.
    - AzureCloud (loadbalancer.go), Azure (azure.go): the steps on the cloud load
      balancer and the provider [AzureState] with [azure_OnUpdate], [azure_Stop].
      AzureFacts, AzureSync, AzureSyncGroups and AzureCleanup prove what updates,
      syncs and clean-ups achieve (AzureHistory: what was asked of Azure and of
      the API server), AzurePatches what the patches it sends mean,
      AzureUpdate what a whole update comes to, AzureSystem the provider under the
      controller; AzureExample, AzureSyncExample and AzureGroupsExample are a
      cloud in memory.
    - Program (src/cmd, src/core/options): the mains of the three programs, from
      the list of flags to the exit code, and the SIGTERM handler.

    The components meet in interfaces: [Provider] (with [ProviderLaws]) between
    the controller and the backends, with one instance per backend; [Iptables],
    [ProcFS], [OS] and [IpvsEnv] between the ipvs-dr provider and its host;
    [AzureSDK], [StoreLister] and [LBPatcher] between the azure provider and the
    cloud and the cluster, where AzureWrappers implements [AzureSDK] with the
    wrappers of the code.

    ** What the theorems show

    - The controller: when nothing is left to do, the backend has seen the current
      version of the load balancer, its last sync succeeded or was the last of
      more than [maxRetries] failures in a row, and the backend is as this sync
      left it ([quiescent_up_to_date], [quiescent_synced]); and it gets there: in
      every state the process has a bounded number of steps of its own left,
      however they interleave and whatever the backend returns, and ends where
      everything is done or the worker has ended ([internal_steps_bounded],
      [controller_settles]); only the configured
      key is ever queued; a failing sync is tried as often as [maxRetries] says;
      the queue is a first-in-first-out line without duplicates, hands an item
      to one worker at a time and loses none.
    - ipvs-dr: which instances and servers are configured for the virtual IPs and
      that one node is master; the marks the iptables rules give to packets;
      what is published about the node; OnUpdate never panics and writes nothing
      into the store but the node statuses of its load balancer; a successful
      update does nothing, publishes or configures the host, as far as none of
      its calls failed ([OnUpdate_configures]), and the next one finds nothing to
      do, whether or not one failed ([OnUpdate_settles]); the file of keepalived,
      read line by line, is the blocks that were computed, whatever the load
      balancer and the published statuses contain ([OnUpdate_file]); together with
      the controller, that at rest the last update was for the current version
      ([ipvsdr_converges]); kernel parameters are put back.  Supervision: what
      RunForever, a tick and Stop do, and how many keepers there are.
    - azure: after a sync the rules follow the ports and the backend pool is that
      of the nodes ([ensureSync_establishes], from the theorems about rules,
      default rules, pools and IDs); a successful update cleans up, does nothing
      or establishes this ([azure_OnUpdate_establishes]), and together with the
      controller this holds for the current version when nothing is left to do
      ([azure_converges]); the default configuration settles; a second
      update with nothing new does nothing; security rules follow the ports with
      distinct priorities, and so does the group the nodes share after a sync with
      a public address ([ensureSync_secures]), which [azure_OnUpdate_establishes]
      and [azure_converges] include; a clean-up empties a reserved load balancer
      and has Azure grant the deletion of another one, which is not waited for;
      the provider remembers what a failed one was for ([cleanup_outcome]), but
      the retry of the update does not start it again
      ([failed_cleanup_not_retried]); the status of the object is set and sent as
      a patch; the patches are the JSON objects they should be, unless an error
      message contains a quote.
    - Programs: the outcome of the start for every failure.
    - Behaviours that are not what was meant are theorems too: changes that are
      forgotten after an error, statuses that are not published again, a host that
      stays unconfigured after a dropped error ([dropped_error_not_retried]),
      clean-ups that are not started again, panics of a second Stop or a second
      update.

    ** Bounds and fuel

    [search] (the priorities 1000, 1010, ... of security rules) gets 400 turns; it
    ends after at most 311, because it stops above 4096, and [getValidPriority_spec]
    shows that the fuel never runs out.  [run_queue] takes the number of turns
    of the worker; [sync_attempts] gives the number that is enough.  [collect]
    takes the number of pages; [ListAll_pages] shows that the length of the chain
    is enough.  [wait.Poll] has a number of ticks, arbitrary in the theorems.
    [Md5.blocks] gets one turn per word of the text, and a block takes sixteen
    ([Md5.blocks_fuel]).  [Unmarshal] gives the JSON reader three steps per byte, which
    [Unmarshal_complete] shows to be enough.  All other recursion is structural.

    ** Not modelled

    Logging and metrics (text only); the parsing of flags by the cli library, of
    which the list of flags is modelled; leader election and the construction of
    informers and clients in NewLoadBalancerProvider; the parser of text
    templates: the template that was loaded is a parameter ([rendered]), which
    [ShippedTemplate] sets to the shipped one; the HTTP of the SDK and the fields
    of its resources that the provider never reads.  Durations are not modelled: a
    delayed item or a tick may come at any time.  Strings are bytes, and folding
    and trimming are those of ASCII. *)

From stdpp Require Export base tactics option list gmap sets strings pretty sorting.
From Stdlib Require Export ZArith Lia.

(** ** Go values

    A Go slice is [nil] or a backing list; [len] and [range] do not tell a nil
    slice from an empty one, [reflect.DeepEqual] does. *)
Abbreviation slice A := (option (list A)).

Definition elems {A} (s : slice A) : list A := default [] s.

(** [append(s, xs...)]: a nil slice stays nil when nothing is appended. *)
Definition append {A} (s : slice A) (xs : list A) : slice A :=
  match s, xs with
  | None, [] => None
  | _, _ => Some (elems s ++ xs)
  end.

(** A Go map of strings: [nil] or a finite map.  [range] and lookup do not tell
    a nil map from an empty one, [reflect.DeepEqual] does. *)
Abbreviation gomap V := (option (gmap string V)).

Definition entries {V} (m : gomap V) : gmap string V := default ∅ m.

(** A pointer to a value that is never shared: [nil] or the value itself.
    [to.String], [to.Int32] and [to.Bool] of go-autorest. *)
Definition to_String (p : option string) : string := default "" p.
Definition to_Int32 (p : option Z) : Z := default 0%Z p.
Definition to_Bool (p : option bool) : bool := default false p.

(** The conversion [int32(x)] keeps the low 32 bits in two's complement. *)
Definition to_int32 (x : Z) : Z := ((x + 2 ^ 31) mod 2 ^ 32 - 2 ^ 31)%Z.

Definition is_int32 (x : Z) : Prop := (- 2 ^ 31 <= x < 2 ^ 31)%Z.

Lemma to_int32_id x : is_int32 x → to_int32 x = x.
Proof. unfold is_int32, to_int32. intros. rewrite Z.mod_small; lia. Qed.

Lemma to_int32_range x : is_int32 (to_int32 x).
Proof.
  unfold is_int32, to_int32.
  pose proof (Z.mod_pos_bound (x + 2 ^ 31) (2 ^ 32)). lia.
Qed.

(** ** Errors

    The error values the program distinguishes.  [ErrorString] is what
    [errors.New] and [fmt.Errorf] build; [StatusError] is a Kubernetes API
    error with its reason; [DetailedError] is go-autorest's, whose status code
    is [None] when the interface does not hold an int and whose [original] is
    the [azure.ServiceError] found inside it, if any; [ServiceErr] is
    [client.ServiceError]. *)
Record service_error := ServiceError {
  StatusCode : Z;
  Code : string;
  Message : string;
  Target : string;
}.

Inductive original_error :=
| NoOriginal
| OriginalService (code message : string) (target : option string)
| OriginalRequest (service : option (string * string * option string))
| OriginalOther.

Inductive error :=
| ErrorString (msg : string)
| StatusError (reason msg : string)
| DetailedError (status : option Z) (original : original_error) (msg : string)
| ServiceErr (e : service_error).

#[export] Instance service_error_eq_dec : EqDecision service_error.
Proof. solve_decision. Defined.
#[export] Instance original_error_eq_dec : EqDecision original_error.
Proof. solve_decision. Defined.
#[export] Instance error_eq_dec : EqDecision error.
Proof. solve_decision. Defined.

(** [errors.IsNotFound] and [errors.IsConflict] of k8s.io/apimachinery; a nil
    error is neither. *)
Definition k8s_IsNotFound (e : option error) : bool :=
  match e with
  | Some (StatusError reason _) => bool_decide (reason = "NotFound")
  | _ => false
  end.

Definition k8s_IsConflict (e : option error) : bool :=
  match e with
  | Some (StatusError reason _) => bool_decide (reason = "Conflict")
  | _ => false
  end.

(** ** Results and programs

    A call returns a value, returns an error, or panics.  A stateful function
    is a [prog]: the state it leaves behind is kept on every outcome, because
    Go does not roll a state back when a call fails. *)
Inductive result (A : Type) : Type :=
| Ok (a : A)
| Err (e : error)
| Panic (why : string).
Arguments Ok {A} a.
Arguments Err {A} e.
Arguments Panic {A} why.

#[export] Instance result_eq_dec {A} `{EqDecision A} : EqDecision (result A).
Proof. solve_decision. Defined.

#[export] Instance result_ret : MRet result := @Ok.
#[export] Instance result_bind : MBind result := λ A B f m,
  match m with
  | Ok a => f a
  | Err e => Err e
  | Panic why => Panic why
  end.

Definition nil_dereference {A} : result A := Panic "nil pointer dereference".

(** [*p]: reading through a pointer panics on nil. *)
Definition deref {A} (p : option A) : result A :=
  match p with
  | Some a => Ok a
  | None => nil_dereference
  end.

Definition is_panic {A} (r : result A) : bool :=
  match r with Panic _ => true | _ => false end.

Definition prog (W A : Type) : Type := W → result A * W.

#[export] Instance prog_ret {W} : MRet (prog W) := λ A a w, (Ok a, w).
#[export] Instance prog_bind {W} : MBind (prog W) := λ A B f m w,
  match m w with
  | (Ok a, w') => f a w'
  | (Err e, w') => (Err e, w')
  | (Panic why, w') => (Panic why, w')
  end.

Definition lift {W A} (r : result A) : prog W A := λ w, (r, w).
Definition fail {W A} (e : error) : prog W A := λ w, (Err e, w).
Definition get {W} : prog W W := λ w, (Ok w, w).
Definition reads {W A} (f : W → result A) : prog W A := λ w, (f w, w).
Definition modify {W} (f : W → W) : prog W unit := λ w, (Ok (), f w).

(** [err := m()]: the error is a value of the program, a panic is not. *)
Definition catch {W A} (m : prog W A) : prog W (A + error) := λ w,
  match m w with
  | (Ok a, w') => (Ok (inl a), w')
  | (Err e, w') => (Ok (inr e), w')
  | (Panic why, w') => (Panic why, w')
  end.

(** [_ = m()]: the error is dropped. *)
Definition ignore {W A} (m : prog W A) : prog W unit := catch m ≫= λ _, mret ().

(** [for _, x := range l { f(x) }] where [f] may return from the function. *)
Fixpoint for_each {W A} (l : list A) (f : A → prog W unit) : prog W unit :=
  match l with
  | [] => mret ()
  | x :: l' => f x ≫= λ _, for_each l' f
  end.

Lemma for_each_fmap {W A B} (g : A → B) (l : list A) (f : B → prog W unit) w :
  for_each (g <$> l) f w = for_each l (λ x, f (g x)) w.
Proof.
  revert w. induction l as [|x l IH]; intros w; [done|]. cbn [fmap list_fmap for_each].
  unfold mbind, prog_bind. by destruct (f (g x) w) as [[]].
Qed.

(** ** Running a program step by step *)
Lemma prog_bind_Ok {W A B} (m : prog W A) (f : A → prog W B) w a w' :
  m w = (Ok a, w') → (m ≫= f) w = f a w'.
Proof. intros H. unfold mbind, prog_bind. by rewrite H. Qed.

Lemma prog_bind_eq {W A B} (m : prog W A) (f : A → prog W B) w r w' :
  m w = (r, w') →
  (m ≫= f) w = match r with
               | Ok a => f a w'
               | Err e => (Err e, w')
               | Panic why => (Panic why, w')
               end.
Proof. intros H. unfold mbind, prog_bind. rewrite H. by destruct r. Qed.

Lemma prog_bind_assoc {W A B C} (m : prog W A) (f : A → prog W B) (g : B → prog W C) w :
  ((m ≫= f) ≫= g) w = (m ≫= λ a, f a ≫= g) w.
Proof. unfold mbind, prog_bind. by destruct (m w) as [[]]. Qed.

Lemma prog_bind_get {W B} (f : W → prog W B) w : (get ≫= f) w = f w w.
Proof. done. Qed.

Lemma prog_bind_lift {W A B} (r : result A) (f : A → prog W B) w :
  (lift r ≫= f) w = match r with
                    | Ok a => f a w
                    | Err e => (Err e, w)
                    | Panic why => (Panic why, w)
                    end.
Proof. by destruct r. Qed.

Lemma prog_bind_reads {W A B} (g : W → result A) (f : A → prog W B) w :
  (reads g ≫= f) w = match g w with
                     | Ok a => f a w
                     | Err e => (Err e, w)
                     | Panic why => (Panic why, w)
                     end.
Proof. unfold reads, mbind, prog_bind. by destruct (g w). Qed.

(** A program that returns no error: it returns a value or panics. *)
Definition no_error {W A} (m : prog W A) : Prop := ∀ w, match (m w).1 with Err _ => False | _ => True end.

Lemma no_error_bind {W A B} (m : prog W A) (f : A → prog W B) :
  no_error m → (∀ a, no_error (f a)) → no_error (m ≫= f).
Proof.
  intros Hm Hf w. specialize (Hm w). unfold mbind, prog_bind.
  destruct (m w) as [[a| |] w']; [apply Hf|done|done].
Qed.

Lemma no_error_ignore {W A} (m : prog W A) : no_error (ignore m).
Proof. intros w. unfold ignore, catch, mbind, prog_bind. by destruct (m w) as [[]]. Qed.

Lemma no_error_for_each {W A} (l : list A) (f : A → prog W unit) :
  (∀ x, no_error (f x)) → no_error (for_each l f).
Proof. intros Hf. induction l as [|x l IH]; [done|]. by apply no_error_bind. Qed.

(** *** Running it backwards: what a successful run was made of *)
Lemma prog_bind_inv {W A B} (m : prog W A) (f : A → prog W B) w b w' :
  (m ≫= f) w = (Ok b, w') → ∃ a w1, m w = (Ok a, w1) ∧ f a w1 = (Ok b, w').
Proof. unfold mbind, prog_bind. destruct (m w) as [[a| |] w1]; [|done..]. by exists a, w1. Qed.

Lemma prog_lift_inv {W A} (r : result A) w a (w' : W) :
  lift r w = (Ok a, w') → r = Ok a ∧ w' = w.
Proof. unfold lift. by intros [= -> ->]. Qed.

Lemma prog_ret_inv {W A} (a b : A) (w w' : W) :
  (mret a : prog W A) w = (Ok b, w') → a = b ∧ w' = w.
Proof. unfold mret, prog_ret. by intros [= -> ->]. Qed.

Lemma prog_reads_inv {W A} (f : W → result A) w a w' :
  reads f w = (Ok a, w') → f w = Ok a ∧ w' = w.
Proof. unfold reads. by intros [= -> ->]. Qed.

Lemma prog_catch_inv {W A} (m : prog W A) w r w' :
  catch m w = (Ok r, w') →
  m w = (match r with inl a => Ok a | inr e => Err e end, w').
Proof. unfold catch. destruct (m w) as [[a| |] w1]; [| |done]; by intros [= <- <-]. Qed.

Lemma result_bind_inv {A B} (r : result A) (f : A → result B) b :
  r ≫= f = Ok b → ∃ a, r = Ok a ∧ f a = Ok b.
Proof. destruct r as [a| |]; [|done..]. by exists a. Qed.

Lemma deref_inv {A} (p : option A) a : deref p = Ok a → p = Some a.
Proof. destruct p; [|done]. by intros [= ->]. Qed.

(** One step back in every hypothesis about a successful run. *)
Ltac run_back :=
  repeat match goal with
  | H : (_ ≫= _) _ = (Ok _, _) |- _ =>
      let a := fresh "a" in let w := fresh "w" in let H1 := fresh "Hrun" in
      apply prog_bind_inv in H as (a & w & H1 & H)
  | H : (match ?x with pair _ _ => _ end) _ = (Ok _, _) |- _ => destruct x
  | u : unit |- _ => destruct u
  | H : lift _ _ = (Ok _, _) |- _ => apply prog_lift_inv in H as [H ->]
  | H : mret _ _ = (Ok _, _) |- _ => apply prog_ret_inv in H as [H ->]
  | H : reads _ _ = (Ok _, _) |- _ => apply prog_reads_inv in H as [H ->]
  | H : deref _ = Ok _ |- _ => apply deref_inv in H
  | H : fail _ _ = (Ok _, _) |- _ => discriminate H
  | H : Ok _ = Ok _ |- _ => injection H as H
  | H : mret _ = Ok _ |- _ => injection H as H
  end.

(** ** What a program leaves alone

    [m] relates every state to the one it leaves by [R], on every outcome. *)
Definition steps {W A} (R : W → W → Prop) (m : prog W A) : Prop := ∀ w, R w (m w).2.

Section steps.
Context {W : Type} (R : W → W → Prop) `{!PreOrder R}.

Lemma steps_ret {A} (a : A) : steps R (mret a).
Proof. intros w. reflexivity. Qed.

Lemma steps_lift {A} (r : result A) : steps R (lift r).
Proof. intros w. reflexivity. Qed.

Lemma steps_fail {A} err : steps R (@fail W A err).
Proof. intros w. reflexivity. Qed.

Lemma steps_reads {A} (f : W → result A) : steps R (reads f).
Proof. intros w. reflexivity. Qed.

Lemma steps_get : steps R get.
Proof. intros w. reflexivity. Qed.

Lemma steps_bind {A B} (m : prog W A) (f : A → prog W B) :
  steps R m → (∀ a, steps R (f a)) → steps R (m ≫= f).
Proof.
  intros Hm Hf w. unfold mbind, prog_bind. specialize (Hm w).
  destruct (m w) as [[a| |] w1]; simpl in *; [|done..]. etransitivity; [exact Hm|apply Hf].
Qed.

Lemma steps_catch {A} (m : prog W A) : steps R m → steps R (catch m).
Proof. intros Hm w. specialize (Hm w). unfold catch. by destruct (m w) as [[a| |] w1]. Qed.

Lemma steps_ignore {A} (m : prog W A) : steps R m → steps R (ignore m).
Proof. intros Hm. apply steps_bind; [by apply steps_catch|]. intros. apply steps_ret. Qed.

Lemma steps_modify f : (∀ w, R w (f w)) → steps R (modify f).
Proof. intros Hf w. apply Hf. Qed.

Lemma steps_for_each {A} (l : list A) (f : A → prog W ()) :
  (∀ x, steps R (f x)) → steps R (for_each l f).
Proof. intros Hf. induction l as [|x l IH]; [apply steps_ret|]. by apply steps_bind. Qed.
End steps.

Create HintDb steps.

(** [steps] for the constructs of the language; the calls are in the database. *)
Ltac steps_auto :=
  repeat lazymatch goal with
  | |- ∀ _, _ => intro
  | |- steps _ (mret _) => apply steps_ret; apply _
  | |- steps _ (lift _) => apply steps_lift; apply _
  | |- steps _ (fail _) => apply steps_fail; apply _
  | |- steps _ (reads _) => apply steps_reads; apply _
  | |- steps _ get => apply steps_get; apply _
  | |- steps _ (_ ≫= _) => apply steps_bind; [apply _| |]
  | |- steps _ (catch _) => apply steps_catch
  | |- steps _ (ignore _) => apply steps_ignore; [apply _|]
  | |- steps _ (for_each _ _) => apply steps_for_each; [apply _|]
  | |- steps _ (modify _) => apply steps_modify
  | |- steps _ (match _ with _ => _ end) => case_match
  | |- _ => solve [auto with steps nocore]
  end.

(** ** Reasoning about programs: Hoare triples *)
Definition triple {W A} (P : W → Prop) (m : prog W A) (Q : result A → W → Prop) : Prop :=
  ∀ w, P w → Q (fst (m w)) (snd (m w)).

Section triples.
Context {W : Type}.
Implicit Types P : W → Prop.

Lemma triple_ret {A} P (a : A) (Q : result A → W → Prop) :
  (∀ w, P w → Q (Ok a) w) → triple P (mret a) Q.
Proof. intros H w Hw. by apply H. Qed.

Lemma triple_bind {A B} P (m : prog W A) (f : A → prog W B) (R : A → W → Prop)
    (Q : result B → W → Prop) :
  triple P m (λ r w, match r with
                     | Ok a => R a w
                     | Err e => Q (Err e) w
                     | Panic why => Q (Panic why) w
                     end) →
  (∀ a, triple (R a) (f a) Q) →
  triple P (m ≫= f) Q.
Proof.
  intros Hm Hf w Hw. specialize (Hm w Hw). unfold mbind, prog_bind.
  destruct (m w) as [[a|e|why] w']; simpl in *; [by apply Hf|done|done].
Qed.

Lemma triple_consequence {A} P P' (m : prog W A) (Q Q' : result A → W → Prop) :
  triple P' m Q' → (∀ w, P w → P' w) → (∀ r w, Q' r w → Q r w) → triple P m Q.
Proof. intros H HP HQ w Hw. apply HQ, H, HP, Hw. Qed.

Lemma triple_catch {A} P (m : prog W A) (Q : result (A + error) → W → Prop) :
  triple P m (λ r w, match r with
                     | Ok a => Q (Ok (inl a)) w
                     | Err e => Q (Ok (inr e)) w
                     | Panic why => Q (Panic why) w
                     end) →
  triple P (catch m) Q.
Proof.
  intros H w Hw. specialize (H w Hw). unfold catch.
  by destruct (m w) as [[a|e|why] w'].
Qed.

Lemma triple_ignore {A} P (m : prog W A) (Q : result unit → W → Prop) :
  triple P m (λ r w, match r with
                     | Panic why => Q (Panic why) w
                     | _ => Q (Ok ()) w
                     end) →
  triple P (ignore m) Q.
Proof.
  intros H w Hw. specialize (H w Hw). unfold ignore, catch, mbind, prog_bind.
  by destruct (m w) as [[a|e|why] w'].
Qed.

(** The loop rule: an invariant over the elements already visited. *)
Lemma triple_for_each {A} (I : list A → W → Prop) (l : list A) (f : A → prog W unit)
    (Q : result unit → W → Prop) :
  (∀ done x todo, l = done ++ x :: todo →
     triple (I done) (f x) (λ r w, match r with
                                   | Ok _ => I (done ++ [x]) w
                                   | _ => Q r w
                                   end)) →
  (∀ w, I l w → Q (Ok ()) w) →
  triple (I []) (for_each l f) Q.
Proof.
  intros Hstep Hend.
  assert (∀ todo done, l = done ++ todo → triple (I done) (for_each todo f) Q) as Hgo;
    [|by apply (Hgo l [])].
  induction todo as [|x todo IH]; intros done Hl; simpl.
  - apply triple_ret. intros w Hw. apply Hend. by rewrite Hl, app_nil_r.
  - apply triple_bind with (R := λ _, I (done ++ [x])).
    + eapply triple_consequence; [by apply Hstep with (todo := todo)|done|].
      by intros [] w.
    + intros _. apply IH. by rewrite <-(assoc_L (++)).
Qed.
(** [m] does not panic and keeps [I]. *)
Definition maintains {A} (I : W → Prop) (m : prog W A) : Prop :=
  triple I m (λ r t, I t ∧ is_panic r = false).

Lemma maintains_ret {A} I (a : A) : maintains I (mret a).
Proof. by apply triple_ret. Qed.

Lemma maintains_bind {A B} I (m : prog W A) (f : A → prog W B) :
  maintains I m → (∀ a, maintains I (f a)) → maintains I (m ≫= f).
Proof.
  intros Hm Hf. apply triple_bind with (R := λ _, I); [|exact Hf].
  eapply triple_consequence; [exact Hm|done|]. intros [] t [??]; done.
Qed.

Lemma maintains_ignore {A} I (m : prog W A) : maintains I m → maintains I (ignore m).
Proof.
  intros Hm. apply triple_ignore. eapply triple_consequence; [exact Hm|done|].
  intros [] t [??]; done.
Qed.

Lemma maintains_for_each {A} I (l : list A) (f : A → prog W ()) :
  (∀ x, maintains I (f x)) → maintains I (for_each l f).
Proof.
  intros Hf. induction l as [|x l IH]; simpl; [apply maintains_ret|].
  apply maintains_bind; [apply Hf|by intros _].
Qed.

Lemma maintains_catch {A} I (m : prog W A) : maintains I m → maintains I (catch m).
Proof.
  intros Hm. apply triple_catch. eapply triple_consequence; [exact Hm|done|].
  intros [] t [??]; done.
Qed.

Lemma maintains_fail {A} I e : maintains I (@fail W A e).
Proof. by intros w. Qed.

(** A result that is not a panic, read in any state. *)
Lemma maintains_lift {A} I (r : result A) : is_panic r = false → maintains I (lift r).
Proof. by intros Hr w. Qed.
End triples.

(** ** Iterating over a Go map

    The order of [range] over a map is not specified: a model of such a loop
    takes the order as an argument, and this is what makes a list an order of
    the map. *)
Definition map_order {V} (ord : list (string * V)) (m : gmap string V) : Prop :=
  ord ≡ₚ map_to_list m.

Definition set_order {A} `{Countable A} (ord : list A) (s : gset A) : Prop :=
  ord ≡ₚ elements s.

Lemma map_order_lookup {V} ord (m : gmap string V) k v :
  map_order ord m → ((k, v) ∈ ord ↔ m !! k = Some v).
Proof. intros H. rewrite H. apply elem_of_map_to_list. Qed.

Lemma map_order_keys_NoDup {V} ord (m : gmap string V) :
  map_order ord m → NoDup ord.*1.
Proof. intros H. rewrite H. apply NoDup_fst_map_to_list. Qed.

Lemma map_order_keys {V} ord (m : gmap string V) k :
  map_order ord m → (k ∈ ord.*1 ↔ is_Some (m !! k)).
Proof.
  intros H. rewrite list_elem_of_fmap. split.
  - intros [[k' v] [-> Hin]]. exists v. by apply (map_order_lookup ord).
  - intros [v Hv]. exists (k, v). split; [done|]. by apply (map_order_lookup ord m).
Qed.

Lemma map_order_self {V} (m : gmap string V) : map_order (map_to_list m) m.
Proof. by unfold map_order. Qed.

Lemma set_order_elem {A} `{Countable A} ord (s : gset A) x :
  set_order ord s → (x ∈ ord ↔ x ∈ s).
Proof. intros H1. rewrite H1. apply elem_of_elements. Qed.

(** The map without the keys of a list. *)
Definition without {V} (ks : list string) (m : gmap string V) : gmap string V :=
  filter (λ kv, kv.1 ∉ ks) m.

Lemma without_lookup {V} ks (m : gmap string V) k :
  without ks m !! k = if bool_decide (k ∈ ks) then None else m !! k.
Proof.
  unfold without. case_bool_decide.
  - apply map_lookup_filter_None. right. intros v _ Hn. by apply Hn.
  - destruct (m !! k) eqn:E; [by apply map_lookup_filter_Some|].
    apply map_lookup_filter_None. by left.
Qed.

Lemma without_order {V} ord (m : gmap string V) : map_order ord m → without ord.*1 m = ∅.
Proof.
  intros Ho. apply map_empty. intros k. rewrite without_lookup. case_bool_decide as Hk; [done|].
  destruct (m !! k) eqn:E; [|done]. exfalso. apply Hk. apply (map_order_keys ord m k Ho). by eexists.
Qed.

(** Whether a key was in a map before a step and is not in it after. *)
Definition used_up {V} (before after : option V) : nat :=
  match before, after with Some _, None => 1 | _, _ => 0 end.

(** ** Lists *)
Lemma NoDup_snoc {A} (l : list A) x : NoDup (l ++ [x]) ↔ (x ∉ l) ∧ NoDup l.
Proof.
  rewrite NoDup_app. split.
  - intros (? & Hl & _). split; [|done]. intros Hx. apply (Hl x Hx). by left.
  - intros [Hx ?]. split_and!; [done| |apply NoDup_singleton].
    intros y Hy ->%list_elem_of_singleton. done.
Qed.

Lemma filter_fmap {A B} (f : A → B) (P : B → Prop) `{∀ x, Decision (P x)} (l : list A) :
  filter P (f <$> l) = f <$> filter (P ∘ f) l.
Proof.
  induction l as [|x l IH]; [done|]. rewrite fmap_cons. destruct (decide (P (f x))).
  - rewrite !filter_cons_True by done. by rewrite IH.
  - rewrite !filter_cons_False by done. exact IH.
Qed.

Lemma last_snoc_inv {A} (l : list A) x : last l = Some x → ∃ l', l = l' ++ [x].
Proof. rewrite last_Some. done. Qed.

(** ** Automation *)
Create HintDb go discriminated.
#[export] Hint Resolve map_order_self to_int32_range : go.
#[export] Hint Extern 5 (_ < _)%Z => lia : go.
#[export] Hint Extern 5 (_ <= _)%Z => lia : go.
#[export] Hint Extern 5 (_ ∈ _) => set_solver : go.

Ltac unfold_prog :=
  unfold ignore, catch, lift, fail, get, modify, mbind, mret,
    prog_bind, prog_ret, result_bind, result_ret in *.

(** Runs a program symbolically: unfolds the monad and splits every [match]. *)
Ltac run_prog := repeat (unfold_prog; simplify_eq/=; try case_match); simplify_eq/=.

Ltac by_cases :=
  repeat match goal with
  | H : context [bool_decide ?P] |- _ => destruct (bool_decide_reflect P)
  | |- context [bool_decide ?P] => destruct (bool_decide_reflect P)
  end; simplify_eq/=.

(** Proves a decidable proposition by evaluating its decision procedure; unlike
    [vm_compute; reflexivity] it does not normalise the proofs inside a [gmap]. *)
Ltac by_compute := apply (bool_decide_unpack _); vm_compute; exact I.
