(* ===== verification/GoStd.v ===== *)
(** * The parts of the Go standard library the program uses

    [strconv], [strings], [path], [sort] and [fmt] of Go 1.13, over byte
    strings.  Case folding and white space are those of ASCII: every string the
    program folds, lowers or trims is an Azure resource ID, a protocol name or
    a number read from /proc/sys. *)

From S2P Require Import Prelude.
From Stdlib Require Import Ascii.

Definition byte_of (c : ascii) : Z := Z.of_N (N_of_ascii c).

(** ** strconv *)
Module Strconv.

Definition maxUint64 : Z := 2 ^ 64 - 1.

Definition digit (c : ascii) : option Z :=
  if bool_decide (48 <= byte_of c <= 57)%Z then Some (byte_of c - 48)%Z else None.

Inductive num_error := ErrSyntax | ErrRange.

(** [ParseUint(s, 10, 64)] on a non-empty string: the digits are consumed one
    by one, so an overflow is reported before a later illegal byte is seen. *)
Fixpoint ParseUint (n : Z) (s : string) : Z * option num_error :=
  match s with
  | "" => (n, None)
  | String c s' =>
      match digit c with
      | None => (0%Z, Some ErrSyntax)
      | Some d =>
          if bool_decide (n * 10 + d > maxUint64)%Z then (maxUint64, Some ErrRange)
          else ParseUint (n * 10 + d) s'
      end
  end.

Definition sign (s : string) : bool * string :=
  match s with
  | "" => (false, s)
  | String c r =>
      if bool_decide (c = "-"%char) then (true, r)
      else if bool_decide (c = "+"%char) then (false, r)
      else (false, s)
  end.

(** [Atoi(s)]: [ParseInt(s, 10, 64)] on a 64-bit platform.  A range error comes
    with the nearest representable value, a syntax error with zero. *)
Definition Atoi (s : string) : Z * option num_error :=
  let '(neg, ds) := sign s in
  match ds with
  | "" => (0%Z, Some ErrSyntax)
  | _ =>
      match ParseUint 0 ds with
      | (_, Some ErrSyntax) => (0%Z, Some ErrSyntax)
      | (un, e) =>
          if neg then
            if bool_decide (un > 2 ^ 63)%Z then (- 2 ^ 63, Some ErrRange)%Z else (- un, e)%Z
          else
            if bool_decide (un >= 2 ^ 63)%Z then (2 ^ 63 - 1, Some ErrRange)%Z else (un, e)
      end
  end.

Definition num_error_msg (e : num_error) : string :=
  match e with
  | ErrSyntax => "invalid syntax"
  | ErrRange => "value out of range"
  end.

(** [Itoa] and [FormatInt(_, 10)]. *)
Definition Itoa (z : Z) : string := pretty z.

Lemma Itoa_inj x y : Itoa x = Itoa y → x = y.
Proof. apply (inj pretty). Qed.

Lemma digit_range c d : digit c = Some d → (0 <= d <= 9)%Z.
Proof. unfold digit. intros. case_bool_decide; simplify_eq. lia. Qed.

Lemma ParseUint_app n s c d :
  (0 <= n)%Z → (n * 10 + d <= maxUint64)%Z →
  digit c = Some d → ParseUint n (String c s) = ParseUint (n * 10 + d) s.
Proof. intros ?? Hd. simpl. rewrite Hd. rewrite bool_decide_false by lia. done. Qed.

Lemma digit_pretty_N_char x : (x < 10)%N → digit (pretty_N_char x) = Some (Z.of_N x).
Proof.
  intros H. destruct x as [|p]; [done|].
  do 4 (destruct p as [p|p|]; try lia; try done).
Qed.

(** Parsing what [pretty] prints, digit by digit. *)
Lemma ParseUint_pretty_N_go x s :
  (Z.of_N x <= maxUint64)%Z → (0 < x)%N →
  ParseUint 0 (pretty_N_go x s) = ParseUint (Z.of_N x) s.
Proof.
  revert s.
  induction (N.lt_wf_0 x) as [x _ IH]. intros s Hx Hpos.
  rewrite pretty_N_go_step by lia.
  destruct (decide (x < 10)%N) as [Hlt|Hge].
  - rewrite N.div_small, pretty_N_go_0, N.mod_small by lia.
    simpl. rewrite digit_pretty_N_char by lia. rewrite bool_decide_false by lia. done.
  - assert (x `div` 10 < x)%N by (apply N.div_lt; lia).
    assert (0 < x `div` 10)%N by (apply N.div_str_pos; lia).
    assert (x `mod` 10 < 10)%N by (apply N.mod_lt; lia).
    pose proof (N.div_mod x 10 ltac:(lia)) as Hdm.
    assert (Z.of_N (x `div` 10) * 10 + Z.of_N (x `mod` 10) = Z.of_N x)%Z as Hz by lia.
    rewrite IH by lia.
    rewrite (ParseUint_app _ s _ (Z.of_N (x `mod` 10)));
      [by rewrite Hz|lia|lia|by apply digit_pretty_N_char].
Qed.

Lemma ParseUint_pretty_N x :
  (Z.of_N x <= maxUint64)%Z → ParseUint 0 (pretty x) = (Z.of_N x, None).
Proof.
  intros Hx. unfold pretty, pretty_N. case_decide; subst; [done|].
  rewrite (ParseUint_pretty_N_go x "") by lia. done.
Qed.

Definition starts_with_digit (s : string) : Prop :=
  match s with "" => False | String c _ => is_Some (digit c) end.

Lemma pretty_N_go_head y s :
  starts_with_digit s → starts_with_digit (pretty_N_go y s).
Proof.
  revert s. induction (N.lt_wf_0 y) as [y _ IH]. intros s Hs.
  destruct (decide (y = 0)%N) as [->|]; [by rewrite pretty_N_go_0|].
  rewrite pretty_N_go_step by lia. apply IH; [apply N.div_lt; lia|].
  eexists. apply digit_pretty_N_char, N.mod_lt. lia.
Qed.

Lemma pretty_N_head x : (0 < x)%N → starts_with_digit (pretty x).
Proof.
  intros Hx. unfold pretty, pretty_N. rewrite decide_False by lia.
  rewrite pretty_N_go_step by lia. apply pretty_N_go_head.
  eexists. apply digit_pretty_N_char, N.mod_lt. lia.
Qed.

(** Printing then parsing an [int] is the identity. *)
Lemma Atoi_Itoa z : (0 <= z < 2 ^ 63)%Z → Atoi (Itoa z) = (z, None).
Proof.
  intros Hz. destruct (decide (z = 0)%Z) as [->|Hnz]; [done|].
  assert (∃ x, z = Z.of_N x ∧ (0 < x)%N) as (x & -> & Hx).
  { exists (Z.to_N z). lia. }
  assert (Itoa (Z.of_N x) = pretty x) as Hp.
  { unfold Itoa, pretty at 1, pretty_Z. by destruct x as [|p]. }
  unfold Atoi. rewrite Hp.
  pose proof (pretty_N_head x Hx) as Hd.
  pose proof (ParseUint_pretty_N x) as Hparse.
  destruct (pretty x) as [|c s]; [done|].
  assert (c ≠ "-"%char ∧ c ≠ "+"%char) as [Hminus Hplus].
  { split; intros ->; by destruct Hd. }
  unfold sign. rewrite !bool_decide_false by done.
  rewrite Hparse by (unfold maxUint64; lia).
  rewrite bool_decide_false by lia. done.
Qed.

End Strconv.

(** ** strings *)
Module GoStrings.

Definition HasPrefix (s pre : string) : bool := String.prefix pre s.

(** [Index(s, sub)]: [None] is Go's -1. *)
Definition Index (s sub : string) : option nat := String.index 0 sub s.

(** [s[:i]] and [s[i:]] for an index within the string. *)
Fixpoint take_str (i : nat) (s : string) : string :=
  match i, s with
  | S i', String c s' => String c (take_str i' s')
  | _, _ => ""
  end.

Fixpoint drop_str (i : nat) (s : string) : string :=
  match i, s with
  | S i', String _ s' => drop_str i' s'
  | _, _ => s
  end.

(** [Split(s, sep)] for a separator of one byte: never empty. *)
Fixpoint Split (s : string) (sep : ascii) : list string :=
  match s with
  | "" => [""]
  | String c s' =>
      if bool_decide (c = sep) then "" :: Split s' sep
      else match Split s' sep with
           | w :: ws => String c w :: ws
           | [] => [String c ""]
           end
  end.

Definition Join (l : list string) (sep : string) : string := String.concat sep l.

Fixpoint map_str (f : ascii → ascii) (s : string) : string :=
  match s with
  | "" => ""
  | String c s' => String (f c) (map_str f s')
  end.

Definition lower (c : ascii) : ascii :=
  if bool_decide (65 <= byte_of c <= 90)%Z then ascii_of_N (N_of_ascii c + 32) else c.

Definition ToLower (s : string) : string := map_str lower s.

Definition EqualFold (s t : string) : bool := bool_decide (ToLower s = ToLower t).

(** [Replace(s, old, new, -1)] for strings of one byte. *)
Definition Replace (s : string) (old new : ascii) : string :=
  map_str (λ c, if bool_decide (c = old) then new else c) s.

(** [TrimSpace]: tab, newline, vertical tab, form feed, return and space. *)
Definition is_space (c : ascii) : bool :=
  bool_decide (byte_of c = 32 ∨ 9 <= byte_of c <= 13)%Z.

Fixpoint trim_left (s : string) : string :=
  match s with
  | String c s' => if is_space c then trim_left s' else s
  | "" => ""
  end.

Fixpoint trim_right (s : string) : string :=
  match s with
  | "" => ""
  | String c s' =>
      match trim_right s' with
      | "" => if is_space c then "" else String c ""
      | t => String c t
      end
  end.

Definition TrimSpace (s : string) : string := trim_right (trim_left s).

(** Whether the byte [c] occurs in [s]. *)
Fixpoint contains (c : ascii) (s : string) : bool :=
  match s with
  | "" => false
  | String c' s' => bool_decide (c' = c) || contains c s'
  end.

Lemma Split_non_empty s sep : Split s sep ≠ [].
Proof. destruct s; simpl; [done|]. repeat case_match; done. Qed.

Lemma Split_no_sep s sep : contains sep s = false → Split s sep = [s].
Proof.
  induction s as [|c s IH]; simpl; [done|].
  intros [Hc Hs]%orb_false_iff. rewrite Hc, IH by done. done.
Qed.

Lemma Split_app_sep s t sep :
  contains sep s = false → Split (s +:+ String sep t) sep = s :: Split t sep.
Proof.
  induction s as [|c s IH]; intros Hs; unfold String.append; fold String.append; simpl in *.
  - by rewrite bool_decide_true.
  - apply orb_false_iff in Hs as [Hc Hs]. rewrite Hc, IH by done. done.
Qed.

Lemma app_assoc_str (s t u : string) : (s +:+ t) +:+ u = s +:+ (t +:+ u).
Proof. induction s as [|c s IH]; [done|]. unfold String.append in *. simpl. by f_equal. Qed.

Lemma app_nil_r_str (s : string) : s +:+ "" = s.
Proof. induction s as [|c s IH]; [done|]. unfold String.append in *. simpl. by f_equal. Qed.

Lemma length_app_str (s t : string) :
  String.length (s +:+ t) = (String.length s + String.length t)%nat.
Proof. induction s as [|c s IH]; [done|]. unfold String.append in *. simpl. lia. Qed.

Lemma contains_app c s t : contains c (s +:+ t) = contains c s || contains c t.
Proof.
  induction s as [|c' s IH]; [done|]. unfold String.append in *. simpl.
  by rewrite IH, orb_assoc.
Qed.

Lemma HasPrefix_iff s pre : HasPrefix s pre = true ↔ ∃ t, s = pre +:+ t.
Proof.
  unfold HasPrefix. revert s. induction pre as [|c pre IH]; intros s.
  - split; [intros _; by exists s|by destruct s].
  - destruct s as [|c' s]; simpl.
    + split; [done|]. by intros [t ?].
    + destruct (Ascii.ascii_dec c c') as [->|Hne].
      * rewrite IH. split; intros [t Ht].
        -- exists t. rewrite Ht. done.
        -- exists t. by injection Ht.
      * split; [done|]. intros [t Ht]. by injection Ht.
Qed.

Lemma drop_str_app s t : drop_str (String.length s) (s +:+ t) = t.
Proof. induction s as [|c s IH]; [by destruct t|]. done. Qed.

Lemma take_str_app s t : take_str (String.length s) (s +:+ t) = s.
Proof. induction s as [|c s IH]; [by destruct t|]. unfold String.append in *. simpl. by f_equal. Qed.

(** [Index] finds [sub] at the end of a prefix in which it does not start
    earlier. *)
Lemma Index_first pre sub suf :
  (∀ i, i < String.length pre →
     HasPrefix (drop_str i (pre +:+ sub +:+ suf)) sub = false) →
  Index (pre +:+ sub +:+ suf) sub = Some (String.length pre).
Proof.
  unfold Index. induction pre as [|c pre IH]; intros H.
  - destruct sub as [|c sub]; [by destruct suf|].
    change ("" +:+ String c sub +:+ suf) with (String c (sub +:+ suf)).
    simpl. destruct (Ascii.ascii_dec c c) as [_|]; [|done].
    destruct (String.prefix sub (sub +:+ suf)) eqn:E; [done|].
    exfalso. eapply eq_true_false_abs; [|exact E].
    apply (HasPrefix_iff (sub +:+ suf) sub). by exists suf.
  - assert (String.prefix sub (String c (pre +:+ sub +:+ suf)) = false) as H0.
    { apply (H 0). simpl. lia. }
    assert (String.index 0 sub (pre +:+ sub +:+ suf) = Some (String.length pre)) as IH'.
    { apply IH. intros i Hi. apply (H (S i)). simpl. lia. }
    change (String c pre +:+ sub +:+ suf) with (String c (pre +:+ sub +:+ suf)).
    cbn [String.index]. rewrite H0, IH'. done.
Qed.

Lemma Index_Some s sub i :
  Index s sub = Some i →
  ∃ t, drop_str i s = sub +:+ t ∧ take_str i s +:+ drop_str i s = s.
Proof.
  unfold Index. revert i. induction s as [|c s IH]; intros i.
  - destruct sub; simpl; intros [= <-]. by exists "".
  - cbn [String.index]. destruct (String.prefix sub (String c s)) eqn:E.
    + intros [= <-]. apply HasPrefix_iff in E as [t Ht]. by exists t.
    + destruct (String.index 0 sub s) as [j|]; intros [= <-].
      destruct (IH j eq_refl) as (t & Hd & Ht). exists t. split; [done|].
      unfold String.append in *. simpl. by f_equal.
Qed.

Lemma map_str_length f s : String.length (map_str f s) = String.length s.
Proof. induction s; simpl; congruence. Qed.

Lemma Replace_no_old s old new :
  old ≠ new → contains old (Replace s old new) = false.
Proof.
  intros Hne. unfold Replace. induction s as [|c s IH]; [done|]. simpl.
  rewrite IH, orb_false_r. repeat case_bool_decide; congruence.
Qed.

Lemma EqualFold_refl s : EqualFold s s = true.
Proof. apply bool_decide_true. done. Qed.

Lemma EqualFold_sym s t : EqualFold s t = EqualFold t s.
Proof. unfold EqualFold. apply bool_decide_ext. split; congruence. Qed.

Lemma EqualFold_trans s t u : EqualFold s t = true → EqualFold s u = EqualFold t u.
Proof. unfold EqualFold. rewrite bool_decide_eq_true. by intros ->. Qed.

Lemma trim_right_idem s : trim_right (trim_right s) = trim_right s.
Proof.
  induction s as [|c s IH]; [done|]. simpl.
  destruct (trim_right s) as [|c' t] eqn:E.
  - destruct (is_space c) eqn:Hc; [done|]. simpl. by rewrite Hc.
  - cbn [trim_right] in *. by rewrite IH.
Qed.

Lemma trim_left_idem s : trim_left (trim_left s) = trim_left s.
Proof.
  induction s as [|c s IH]; [done|]. simpl.
  destruct (is_space c) eqn:Hc; [done|]. simpl. by rewrite Hc.
Qed.

Lemma trim_left_trim_right s : trim_left s = s → trim_left (trim_right s) = trim_right s.
Proof.
  destruct s as [|c s]; [done|]. simpl. intros H.
  destruct (is_space c) eqn:Hc.
  - exfalso. assert (String.length (trim_left s) <= String.length s) as Hl.
    { clear. induction s as [|c s IH]; simpl; [lia|]. destruct (is_space c); simpl; lia. }
    rewrite H in Hl. simpl in Hl. lia.
  - destruct (trim_right s); simpl; by rewrite Hc.
Qed.

Lemma TrimSpace_idem s : TrimSpace (TrimSpace s) = TrimSpace s.
Proof.
  unfold TrimSpace. rewrite (trim_left_trim_right (trim_left s)) by apply trim_left_idem.
  apply trim_right_idem.
Qed.

End GoStrings.

(** ** path *)
Module GoPath.
Import GoStrings.

(** [Clean] of a rooted path: empty and "." elements go, ".." removes the
    element before it. *)
Definition clean_step (acc : list string) (w : string) : list string :=
  if bool_decide (w = "" ∨ w = ".") then acc
  else if bool_decide (w = "..") then removelast acc
  else acc ++ [w].

Definition Clean (p : string) : string :=
  "/" +:+ GoStrings.Join (foldl clean_step [] (Split p "/")) "/".

(** [Join(base, rel)] for a non-empty rooted base. *)
Definition Join (base rel : string) : string :=
  match rel with
  | "" => Clean base
  | _ => Clean (base +:+ "/" +:+ rel)
  end.

End GoPath.

(** ** sort *)
Module GoSort.

(** [sort.Strings]: byte-wise lexicographic order. *)
Definition Strings (l : list string) : list string := merge_sort String.le l.

Lemma Strings_perm l : Strings l ≡ₚ l.
Proof. apply merge_sort_Permutation. Qed.

Lemma Strings_sorted l : Sorted String.le (Strings l).
Proof. apply Sorted_merge_sort. apply _. Qed.

(** The order of equal strings cannot be observed, so the result depends only
    on the contents of the slice. *)
Lemma Strings_ext l1 l2 : l1 ≡ₚ l2 → Strings l1 = Strings l2.
Proof.
  intros H. apply (Sorted_unique String.le); [apply Strings_sorted..|].
  by rewrite !Strings_perm.
Qed.

Lemma Strings_id l : Sorted String.le l → Strings l = l.
Proof.
  intros H. apply (Sorted_unique String.le); [apply Strings_sorted|done|].
  apply Strings_perm.
Qed.

Lemma Strings_elem x l : x ∈ Strings l ↔ x ∈ l.
Proof. by rewrite Strings_perm. Qed.

Lemma Strings_length l : length (Strings l) = length l.
Proof. by rewrite Strings_perm. Qed.

End GoSort.
Create Rewrite HintDb gostd.
#[export] Hint Rewrite GoSort.Strings_length GoStrings.app_nil_r_str
  GoStrings.length_app_str : gostd.
