(* ===== verification/GoNet.v ===== *)
(** * The parts of Go's package net the program uses

    [ParseIP], [IP.String], [IP.To4], [IP.To16], [IP.IsGlobalUnicast] and
    [HardwareAddr.String] of Go 1.13.  An [IP] is a byte slice: [None] for nil,
    else its bytes as numbers below 256. *)

From S2P Require Import Prelude GoStd.
From Stdlib Require Import Ascii.

Abbreviation IP := (option (list Z)).

Definition IPv4len : nat := 4.
Definition IPv6len : nat := 16.

Definition v4InV6Prefix : list Z := ([0; 0; 0; 0; 0; 0; 0; 0; 0; 0; 255; 255])%Z.

(** [IPv4(a, b, c, d)] is the 16-byte form. *)
Definition IPv4 (a b c d : Z) : list Z := v4InV6Prefix ++ [a; b; c; d].

(** ** Numbers inside addresses *)
Definition big : Z := 16777215.

Definition hexdigit (c : ascii) : option Z :=
  let b := byte_of c in
  if bool_decide (48 <= b <= 57)%Z then Some (b - 48)%Z
  else if bool_decide (97 <= b <= 102)%Z then Some (b - 97 + 10)%Z
  else if bool_decide (65 <= b <= 70)%Z then Some (b - 65 + 10)%Z
  else None.

(** [dtoi] and [xtoi]: the number at the start of the string and the rest of
    the string, or [None] when there is no digit or the number is too big. *)
Fixpoint scan (dig : ascii → option Z) (base n : Z) (started : bool) (s : string)
    : option (Z * string) :=
  match s with
  | String c s' =>
      match dig c with
      | Some d =>
          if bool_decide (n * base + d >= big)%Z then None
          else scan dig base (n * base + d) true s'
      | None => if started then Some (n, s) else None
      end
  | "" => if started then Some (n, "") else None
  end.

Definition dtoi : string → option (Z * string) := scan Strconv.digit 10 0 false.
Definition xtoi : string → option (Z * string) := scan hexdigit 16 0 false.

(** ** ParseIP *)
Definition is_byte (c d : ascii) : bool := bool_decide (c = d).

Fixpoint parse_octets (k : nat) (first : bool) (s : string) : option (list Z) :=
  match k with
  | O => if bool_decide (s = "") then Some [] else None
  | S k' =>
      match s with
      | "" => None
      | String c s' =>
          if negb first && negb (is_byte c ".") then None
          else
            match dtoi (if first then s else s') with
            | Some (n, rest) =>
                if bool_decide (n > 255)%Z then None
                else cons n <$> parse_octets k' false rest
            | None => None
            end
      end
  end.

Definition parseIPv4 (s : string) : IP := app v4InV6Prefix <$> parse_octets IPv4len true s.

(** The IPv4 address that may end an IPv6 address. *)
Definition embed_ipv4 (acc : list Z) (ellipsis : option nat) (s : string)
    : option (list Z * option nat * string) :=
  if bool_decide (ellipsis = None ∧ length acc ≠ IPv6len - IPv4len) then None
  else if bool_decide (IPv6len < length acc + IPv4len) then None
  else match parse_octets IPv4len true s with
       | None => None
       | Some ip4 => Some (acc ++ ip4, ellipsis, "")
       end.

(** The loop of [parseIPv6]: bytes written so far, position of the ellipsis and
    the rest of the string.  Each round writes two bytes, so nine rounds reach
    the end of the address. *)
Fixpoint parse6_loop (fuel : nat) (acc : list Z) (ellipsis : option nat) (s : string)
    : option (list Z * option nat * string) :=
  match fuel with
  | O => None
  | S fuel' =>
      if bool_decide (length acc < IPv6len) then
        match xtoi s with
        | None => None
        | Some (n, rest) =>
            if bool_decide (n > 65535)%Z then None
            else
              match rest with
              | "" => Some (acc ++ [n / 256; n mod 256]%Z, ellipsis, "")
              | String c rest1 =>
                  if is_byte c "." then embed_ipv4 acc ellipsis s
                  else if is_byte c ":" then
                    let acc' := acc ++ [n / 256; n mod 256]%Z in
                    match rest1 with
                    | "" => None
                    | String c1 rest2 =>
                        if is_byte c1 ":" then
                          match ellipsis with
                          | Some _ => None
                          | None =>
                              if bool_decide (rest2 = "") then Some (acc', Some (length acc'), "")
                              else parse6_loop fuel' acc' (Some (length acc')) rest2
                          end
                        else parse6_loop fuel' acc' ellipsis rest1
                    end
                  else None
              end
        end
      else Some (acc, ellipsis, s)
  end.

Definition expand_ellipsis (acc : list Z) (ellipsis : option nat) : IP :=
  if bool_decide (length acc < IPv6len) then
    match ellipsis with
    | None => None
    | Some e => Some (take e acc ++ replicate (IPv6len - length acc) 0%Z ++ drop e acc)
    end
  else match ellipsis with
       | Some _ => None
       | None => Some acc
       end.

Definition parseIPv6 (s : string) : IP :=
  let '(ellipsis, s1) :=
    if GoStrings.HasPrefix s "::" then (Some 0, GoStrings.drop_str 2 s) else (None, s) in
  if bool_decide (ellipsis = Some 0 ∧ s1 = "") then Some (replicate IPv6len 0%Z)
  else match parse6_loop 9 [] ellipsis s1 with
       | Some (acc, e, "") => expand_ellipsis acc e
       | _ => None
       end.

(** The first dot or colon tells the family. *)
Fixpoint ip_family (s : string) : option bool :=
  match s with
  | "" => None
  | String c s' =>
      if is_byte c "." then Some true
      else if is_byte c ":" then Some false
      else ip_family s'
  end.

Definition ParseIP (s : string) : IP :=
  match ip_family s with
  | Some true => parseIPv4 s
  | Some false => parseIPv6 s
  | None => None
  end.

(** ** Methods of IP *)
Definition To4 (ip : IP) : IP :=
  match ip with
  | None => None
  | Some b =>
      if bool_decide (length b = IPv4len) then Some b
      else if bool_decide (length b = IPv6len ∧ take 12 b = v4InV6Prefix) then Some (drop 12 b)
      else None
  end.

Definition To16 (ip : IP) : IP :=
  match ip with
  | None => None
  | Some b =>
      if bool_decide (length b = IPv4len) then Some (v4InV6Prefix ++ b)
      else if bool_decide (length b = IPv6len) then Some b
      else None
  end.

(** [ip.Equal(x)]: an IPv4 address equals its 16-byte form. *)
Definition ip_Equal (a b : list Z) : bool :=
  if bool_decide (length a = length b) then bool_decide (a = b)
  else if bool_decide (length a = IPv4len ∧ length b = IPv6len)
  then bool_decide (v4InV6Prefix ++ a = b)
  else if bool_decide (length a = IPv6len ∧ length b = IPv4len)
  then bool_decide (a = v4InV6Prefix ++ b)
  else false.

Definition byte_at (b : list Z) (i : nat) : Z := default 0%Z (b !! i).

Definition IsUnspecified (b : list Z) : bool :=
  ip_Equal b (IPv4 0 0 0 0) || ip_Equal b (replicate IPv6len 0%Z).

Definition IsLoopback (b : list Z) : bool :=
  match To4 (Some b) with
  | Some b4 => bool_decide (byte_at b4 0 = 127)%Z
  | None => ip_Equal b (replicate 15 0%Z ++ [1%Z])
  end.

Definition IsMulticast (b : list Z) : bool :=
  match To4 (Some b) with
  | Some b4 => bool_decide (Z.land (byte_at b4 0) 240 = 224)%Z
  | None => bool_decide (length b = IPv6len ∧ byte_at b 0 = 255%Z)
  end.

Definition IsLinkLocalUnicast (b : list Z) : bool :=
  match To4 (Some b) with
  | Some b4 => bool_decide (byte_at b4 0 = 169 ∧ byte_at b4 1 = 254)%Z
  | None =>
      bool_decide (length b = IPv6len ∧ byte_at b 0 = 254%Z ∧ Z.land (byte_at b 1) 192 = 128%Z)
  end.

Definition IsGlobalUnicast (ip : IP) : bool :=
  match ip with
  | None => false
  | Some b =>
      bool_decide (length b = IPv4len ∨ length b = IPv6len) &&
      negb (ip_Equal b (IPv4 255 255 255 255)) &&
      negb (IsUnspecified b) && negb (IsLoopback b) &&
      negb (IsMulticast b) && negb (IsLinkLocalUnicast b)
  end.

(** ** Printing *)
Definition hexchar (n : Z) : ascii :=
  ascii_of_N (Z.to_N (if bool_decide (n < 10)%Z then n + 48 else n - 10 + 97))%Z.

(** [appendHex]: no leading zeros, "0" for zero. *)
Fixpoint hex_go (fuel : nat) (n : Z) (acc : string) : string :=
  match fuel with
  | O => acc
  | S fuel' =>
      let acc' := String (hexchar (n mod 16)) acc in
      if bool_decide (n < 16)%Z then acc' else hex_go fuel' (n / 16) acc'
  end.

Definition appendHex (n : Z) : string := hex_go 8 n "".

Definition hexString (b : list Z) : string :=
  foldr (λ x s, String (hexchar (x / 16)) (String (hexchar (x mod 16)) s)) "" b.

(** The 16-bit groups of a 16-byte address. *)
Fixpoint groups (b : list Z) : list Z :=
  match b with
  | x :: y :: b' => (x * 256 + y)%Z :: groups b'
  | _ => []
  end.

Fixpoint zero_run (g : list Z) : nat :=
  match g with
  | n :: g' => if bool_decide (n = 0)%Z then S (zero_run g') else 0
  | [] => 0
  end.

(** Start and length of the longest run of zero groups, the first one if
    several have that length. *)
Fixpoint longest_run (i : nat) (g : list Z) (best : nat * nat) : nat * nat :=
  match g with
  | [] => best
  | _ :: g' =>
      let r := zero_run g in
      longest_run (S i) g' (if bool_decide (best.2 < r) then (i, r) else best)
  end.

Definition join_groups (g : list Z) : string := GoStrings.Join (appendHex <$> g) ":".

Definition string_of_groups (g : list Z) : string :=
  let '(e, r) := longest_run 0 g (0, 0) in
  if bool_decide (r <= 1) then join_groups g
  else join_groups (take e g) +:+ "::" +:+ join_groups (drop (e + r) g).

Definition dotted (b4 : list Z) : string := GoStrings.Join (Strconv.Itoa <$> b4) ".".

Definition IP_String (ip : IP) : string :=
  match ip with
  | None | Some [] => "<nil>"
  | Some b =>
      match To4 ip with
      | Some b4 => dotted b4
      | None =>
          if bool_decide (length b = IPv6len) then string_of_groups (groups b)
          else "?" +:+ hexString b
      end
  end.

(** [HardwareAddr.String]. *)
Definition HardwareAddr_String (b : list Z) : string :=
  GoStrings.Join ((λ x, hexString [x]) <$> b) ":".

(** ** Facts *)
Example parse_v4 : ParseIP "10.0.3.200" = Some (IPv4 10 0 3 200).
Proof. reflexivity. Qed.
Example parse_v6 : IP_String (ParseIP "FE80:0:0:0:0:0:1:20") = "fe80::1:20".
Proof. reflexivity. Qed.
Example parse_v6_embedded : ParseIP "::ffff:1.2.3.4" = Some (IPv4 1 2 3 4).
Proof. reflexivity. Qed.
Example parse_bad : (λ s, ParseIP s) <$> ["1.2.3"; "256.1.1.1"; "1::2::3"; ""; "eth0"; "1.2.3.4."]
  = [None; None; None; None; None; None].
Proof. reflexivity. Qed.

Lemma parse_octets_length k first s b : parse_octets k first s = Some b → length b = k.
Proof.
  revert first s b. induction k as [|k IH]; intros first s b; simpl.
  - case_bool_decide; intros; by simplify_eq.
  - destruct s as [|c s]; [done|]. destruct (negb first && _); [done|].
    destruct (dtoi _) as [[n rest]|]; [|done]. destruct (bool_decide _); [done|].
    intros (b' & Hb & ->)%fmap_Some. simpl. f_equal. eauto.
Qed.

Lemma To4_v4_form b : length b = IPv4len → To4 (Some (v4InV6Prefix ++ b)) = Some b.
Proof.
  intros Hb. unfold To4. rewrite length_app, Hb.
  rewrite bool_decide_false, bool_decide_true; [done|done|].
  unfold v4InV6Prefix, IPv4len. simpl. lia.
Qed.

Lemma parseIPv4_To4 s ip : parseIPv4 s = Some ip → ∃ b4, To4 (Some ip) = Some b4.
Proof.
  unfold parseIPv4. intros (b & Hb & ->)%fmap_Some.
  exists b. by apply To4_v4_form, (parse_octets_length _ _ _ _ Hb).
Qed.

Definition parse6_ok (acc : list Z) (e : option nat) : Prop :=
  length acc <= IPv6len ∧ Nat.Even (length acc) ∧ (∀ p, e = Some p → p <= length acc).

Lemma parse6_ok_group acc e x y :
  parse6_ok acc e → length acc < IPv6len → parse6_ok (acc ++ [x; y]) e.
Proof.
  intros (Hle & [m Hm] & He) Hlt. unfold parse6_ok, IPv6len in *. rewrite length_app. simpl.
  split_and!; [lia|exists (S m); lia|]. intros p Hp. specialize (He p Hp). lia.
Qed.

Lemma parse6_ok_ellipsis acc e : parse6_ok acc e → parse6_ok acc (Some (length acc)).
Proof. intros (? & ? & _). split_and!; [done..|]. by intros p [= <-]. Qed.

Lemma embed_ipv4_ok acc e s acc' e' s' :
  parse6_ok acc e → embed_ipv4 acc e s = Some (acc', e', s') → parse6_ok acc' e'.
Proof.
  intros (Hle & [m Hm] & He). unfold embed_ipv4.
  case_bool_decide; [done|]. case_bool_decide; [done|].
  destruct (parse_octets _ _ _) as [ip4|] eqn:E; [|done]. intros [= <- <- <-].
  apply parse_octets_length in E. unfold parse6_ok, IPv4len, IPv6len in *.
  rewrite length_app, E. split_and!; [lia|exists (m + 2); lia|].
  intros p Hp. specialize (He p Hp). lia.
Qed.

Lemma parse6_loop_ok fuel acc e s acc' e' s' :
  parse6_loop fuel acc e s = Some (acc', e', s') →
  parse6_ok acc e → parse6_ok acc' e'.
Proof.
  revert acc e s. induction fuel as [|fuel IH]; intros acc e s; [done|].
  cbn [parse6_loop].
  destruct (bool_decide_reflect (length acc < IPv6len)) as [Hlt|];
    [|by intros [= <- <- <-]].
  destruct (xtoi s) as [[n rest]|]; [|done].
  destruct (bool_decide (n > 65535)%Z); [done|].
  intros H Hok. pose proof (parse6_ok_group _ _ (n / 256) (n mod 256) Hok Hlt) as Hok'.
  destruct rest as [|c rest]; [by injection H as <- <- <-|].
  destruct (is_byte c "."); [exact (embed_ipv4_ok _ _ _ _ _ _ Hok H)|].
  destruct (is_byte c ":"); [|done].
  destruct rest as [|c1 rest]; [done|].
  destruct (is_byte c1 ":"); [|by eauto].
  destruct e; [done|]. apply parse6_ok_ellipsis in Hok'.
  case_bool_decide; [by injection H as <- <- <-|by eauto].
Qed.

(** Every address [ParseIP] returns has sixteen bytes. *)
Lemma ParseIP_length s b : ParseIP s = Some b → length b = IPv6len.
Proof.
  unfold ParseIP. destruct (ip_family s) as [[]|]; [| |done].
  - unfold parseIPv4. intros (b4 & Hb & ->)%fmap_Some.
    rewrite length_app. by rewrite (parse_octets_length _ _ _ _ Hb).
  - unfold parseIPv6.
    destruct (if GoStrings.HasPrefix s "::" then _ else _) as [e s1] eqn:E.
    case_bool_decide; [by intros [= <-]|].
    destruct (parse6_loop 9 [] e s1) as [[[acc e'] r]|] eqn:El; [|done].
    destruct r; [|done].
    apply parse6_loop_ok in El as (Hacc & _ & Hp).
    + unfold expand_ellipsis. case_bool_decide as Hlt.
      * destruct e' as [p|]; [|done]. intros [= <-]. specialize (Hp p eq_refl).
        rewrite !length_app, length_take, length_replicate, length_drop.
        unfold IPv6len in *. lia.
      * destruct e'; [done|]. intros [= <-]. unfold IPv6len in *. lia.
    + split_and!; [unfold IPv6len; simpl; lia|by exists 0|].
      intros p ->. simpl. case_match; by simplify_eq.
Qed.

(** A valid address is IPv4 or IPv6, never of another length. *)
Lemma ParseIP_version s b :
  ParseIP s = Some b → is_Some (To16 (Some b)).
Proof.
  intros H%ParseIP_length. unfold To16. rewrite H. simpl. by eexists.
Qed.
