(* ===== verification/GoMd5.v ===== *)
(** * The parts of Go's crypto/md5 and encoding/hex the program uses

    [md5.New], [io.Copy] into the hash and [hash.Sum]: the MD5 sum of RFC 1321,
    executable, over the bytes of a text; a 32-bit word is a number below 2^32. *)

From S2P Require Import Prelude GoStd GoNet.
From Stdlib Require Import Ascii.

Module Md5.
Local Open Scope Z_scope.

(** ** Words *)
Definition word (x : Z) : Z := x mod 2 ^ 32.
Definition not32 (x : Z) : Z := Z.lxor x (2 ^ 32 - 1).
Definition rotl (x s : Z) : Z := Z.lor (word (Z.shiftl x s)) (Z.shiftr x (32 - s)).

(** A word from four bytes and back, the lowest byte first. *)
Definition of_bytes (b0 b1 b2 b3 : Z) : Z := b0 + 256 * (b1 + 256 * (b2 + 256 * b3)).

Fixpoint to_bytes (n : nat) (x : Z) : list Z :=
  match n with
  | O => []
  | S n' => x mod 256 :: to_bytes n' (x / 256)
  end.

Fixpoint words (bytes : list Z) : list Z :=
  match bytes with
  | b0 :: b1 :: b2 :: b3 :: rest => of_bytes b0 b1 b2 b3 :: words rest
  | _ => []
  end.

(** ** The rounds *)
Definition table : list Z := [
  0xd76aa478; 0xe8c7b756; 0x242070db; 0xc1bdceee; 0xf57c0faf; 0x4787c62a; 0xa8304613; 0xfd469501;
  0x698098d8; 0x8b44f7af; 0xffff5bb1; 0x895cd7be; 0x6b901122; 0xfd987193; 0xa679438e; 0x49b40821;
  0xf61e2562; 0xc040b340; 0x265e5a51; 0xe9b6c7aa; 0xd62f105d; 0x02441453; 0xd8a1e681; 0xe7d3fbc8;
  0x21e1cde6; 0xc33707d6; 0xf4d50d87; 0x455a14ed; 0xa9e3e905; 0xfcefa3f8; 0x676f02d9; 0x8d2a4c8a;
  0xfffa3942; 0x8771f681; 0x6d9d6122; 0xfde5380c; 0xa4beea44; 0x4bdecfa9; 0xf6bb4b60; 0xbebfbc70;
  0x289b7ec6; 0xeaa127fa; 0xd4ef3085; 0x04881d05; 0xd9d4d039; 0xe6db99e5; 0x1fa27cf8; 0xc4ac5665;
  0xf4292244; 0x432aff97; 0xab9423a7; 0xfc93a039; 0x655b59c3; 0x8f0ccc92; 0xffeff47d; 0x85845dd1;
  0x6fa87e4f; 0xfe2ce6e0; 0xa3014314; 0x4e0811a1; 0xf7537e82; 0xbd3af235; 0x2ad7d2bb; 0xeb86d391].

Definition shifts : list Z := [7; 12; 17; 22; 5; 9; 14; 20; 4; 11; 16; 23; 6; 10; 15; 21].

Record state := { sA : Z; sB : Z; sC : Z; sD : Z }.

Definition init_state : state :=
  {| sA := 0x67452301; sB := 0xefcdab89; sC := 0x98badcfe; sD := 0x10325476 |}.

(** The function of the registers and the word of the block for step [i]. *)
Definition mix (i : nat) (b c d : Z) : Z * nat :=
  match (i / 16)%nat with
  | 0%nat => (Z.lor (Z.land b c) (Z.land (not32 b) d), i)
  | 1%nat => (Z.lor (Z.land d b) (Z.land (not32 d) c), (5 * i + 1) mod 16)%nat
  | 2%nat => (Z.lxor b (Z.lxor c d), (3 * i + 5) mod 16)%nat
  | _ => (Z.lxor c (Z.lor b (not32 d)), (7 * i) mod 16)%nat
  end.

Definition step (block : list Z) (s : state) (i : nat) : state :=
  let '(f, g) := mix i (sB s) (sC s) (sD s) in
  let x := word (sA s + f + nth i table 0 + nth g block 0) in
  {| sA := sD s;
     sB := word (sB s + rotl x (nth (4 * (i / 16) + i mod 4)%nat shifts 0));
     sC := sB s; sD := sC s |}.

Definition add_block (s : state) (block : list Z) : state :=
  let s' := foldl (step block) s (seq 0 64) in
  {| sA := word (sA s + sA s'); sB := word (sB s + sB s');
     sC := word (sC s + sC s'); sD := word (sD s + sD s') |}.

(** The blocks of sixteen words; [n] is at least their number. *)
Fixpoint blocks (n : nat) (s : state) (l : list Z) : state :=
  match n with
  | O => s
  | S n' =>
      match l with
      | [] => s
      | _ => blocks n' (add_block s (take 16 l)) (drop 16 l)
      end
  end.

(** ** The sum *)
Definition bytes_of (text : string) : list Z := byte_of <$> String.list_ascii_of_string text.

(** One byte 128, zeros up to eight bytes before the end of a block, and the
    number of bits. *)
Definition pad (msg : list Z) : list Z :=
  let n := Z.of_nat (length msg) in
  msg ++ [128] ++ replicate (Z.to_nat ((55 - n) mod 64)) 0 ++ to_bytes 8 (8 * n).

Definition Sum (text : string) : list Z :=
  let l := words (pad (bytes_of text)) in
  let s := blocks (length l) init_state l in
  to_bytes 4 (sA s) ++ to_bytes 4 (sB s) ++ to_bytes 4 (sC s) ++ to_bytes 4 (sD s).

(** ** The test suite of the RFC *)
Example Sum_empty : hexString (Sum "") = "d41d8cd98f00b204e9800998ecf8427e".
Proof. vm_compute. reflexivity. Qed.
Example Sum_abc : hexString (Sum "abc") = "900150983cd24fb0d6963f7d28e17f72".
Proof. vm_compute. reflexivity. Qed.
Example Sum_alphabet :
  hexString (Sum "abcdefghijklmnopqrstuvwxyz") = "c3fcd3d76192e4007dfb496cca67e13b".
Proof. vm_compute. reflexivity. Qed.
Example Sum_two_blocks :
  hexString (Sum "12345678901234567890123456789012345678901234567890123456789012345678901234567890")
    = "57edf4a22be3c955ac49da2e2107b67a".
Proof. vm_compute. reflexivity. Qed.

(** ** What is padded and summed *)
Lemma length_to_bytes n x : length (to_bytes n x) = n.
Proof. revert x. induction n as [|n IH]; intros x; [done|]. simpl. by rewrite IH. Qed.

Lemma to_bytes_range n x : Forall (λ b, 0 <= b < 256) (to_bytes n x).
Proof.
  revert x. induction n as [|n IH]; intros x; constructor; [|apply IH].
  by apply Z.mod_pos_bound.
Qed.

(** The padded message is a number of whole blocks. *)
Lemma pad_blocks msg : (Z.of_nat (length (pad msg)) mod 64 = 0)%Z.
Proof.
  unfold pad. cbv zeta. rewrite !length_app, length_replicate, length_to_bytes. simpl length.
  set (n := Z.of_nat (length msg)).
  replace (Z.of_nat _) with (n + 9 + (55 - n) mod 64).
  - rewrite <-Z.add_mod_idemp_r, Z.mod_mod, Z.add_mod_idemp_r by done.
    by replace (n + 9 + (55 - n)) with 64 by lia.
  - pose proof (Z.mod_pos_bound (55 - n) 64). lia.
Qed.

Lemma words_length l : length (words l) = (length l / 4)%nat.
Proof.
  cut (∀ n l, (length l <= n)%nat → length (words l) = (length l / 4)%nat); [by eauto|].
  clear l. induction n as [|n IH]; intros l Hn; [by destruct l; [|simpl in Hn; lia]|].
  destruct l as [|b0 [|b1 [|b2 [|b3 l]]]]; try done. cbn [words length]. rewrite IH by (simpl in Hn; lia).
  change (S (S (S (S (length l))))) with (4 + length l)%nat.
  rewrite (Nat.add_comm 4). replace (length l + 4)%nat with (length l + 1 * 4)%nat by lia.
  rewrite Nat.div_add by done. lia.
Qed.

(** Fuel: the number of words is enough, for a block takes at least one. *)
Lemma blocks_fuel n m s l :
  (length l <= n)%nat → (length l <= m)%nat → blocks n s l = blocks m s l.
Proof.
  revert m s l. induction n as [|n IH]; intros [|m] s [|w l] Hn Hm; try done; try (simpl in *; lia).
  cbn [blocks]. apply IH; rewrite length_drop; simpl in *; lia.
Qed.

(** The sum is sixteen bytes. *)
Lemma Sum_length text : length (Sum text) = 16%nat.
Proof. unfold Sum. cbv zeta. by rewrite !length_app, !length_to_bytes. Qed.

Lemma Sum_bytes text : Forall (λ b, 0 <= b < 256) (Sum text).
Proof. unfold Sum. cbv zeta. rewrite !Forall_app. split_and!; apply to_bytes_range. Qed.
End Md5.
