(* ===== verification/Json.v ===== *)
(** * JSON

    JSON values and their texts (RFC 8259), as far as the program needs them:
    it compares encodings of Azure resources, puts patches of load balancers
    together by hand and prints its version.  [denotes] is the grammar,
    [Unmarshal] a reader that finds the value of every text of the grammar, so a
    text it refuses is not JSON.  A number occurs in no text of the program and
    has none here; a byte above 127 belongs to a UTF-8 sequence and stands for
    itself. *)

From S2P Require Import Prelude GoStd.
From Stdlib Require Import Ascii.

Inductive json :=
| JNull
| JBool (b : bool)
| JNumber (n : Z)
| JString (s : string)
| JArray (l : list json)
| JObject (m : list (string * json)).

#[export] Instance json_eq_dec : EqDecision json.
Proof.
  refine (fix go x y := let _ : EqDecision json := @go in
    match x, y with
    | JNull, JNull => left eq_refl
    | JBool b, JBool c => cast_if (decide (b = c))
    | JNumber n, JNumber m => cast_if (decide (n = m))
    | JString s, JString t => cast_if (decide (s = t))
    | JArray l, JArray k => cast_if (decide (l = k))
    | JObject m, JObject n => cast_if (decide (m = n))
    | _, _ => right _
    end); abstract congruence.
Defined.

Abbreviation members := (list (string * json)).

(** ** The grammar *)
Definition quote : ascii := ascii_of_nat 34.
Definition backslash : ascii := ascii_of_nat 92.

Definition is_blank (c : ascii) : bool :=
  bool_decide (byte_of c = 32 ∨ byte_of c = 9 ∨ byte_of c = 10 ∨ byte_of c = 13)%Z.

Fixpoint blanks (s : string) : bool :=
  match s with
  | "" => true
  | String c s' => is_blank c && blanks s'
  end.

(** A byte that stands for itself in a string. *)
Definition plain_byte (c : ascii) : bool :=
  bool_decide (32 <= byte_of c ∧ c ≠ quote ∧ c ≠ backslash)%Z.

Fixpoint plain (s : string) : bool :=
  match s with
  | "" => true
  | String c s' => plain_byte c && plain s'
  end.

Definition escaped (c : ascii) : option ascii :=
  if bool_decide (c = quote ∨ c = backslash ∨ c = "/"%char) then Some c
  else if bool_decide (c = "b"%char) then Some (ascii_of_nat 8)
  else if bool_decide (c = "f"%char) then Some (ascii_of_nat 12)
  else if bool_decide (c = "n"%char) then Some (ascii_of_nat 10)
  else if bool_decide (c = "r"%char) then Some (ascii_of_nat 13)
  else if bool_decide (c = "t"%char) then Some (ascii_of_nat 9)
  else None.

Definition hex_value (c : ascii) : option nat :=
  let n := nat_of_ascii c in
  if bool_decide (48 <= n <= 57) then Some (n - 48)
  else if bool_decide (97 <= n <= 102) then Some (n - 87)
  else if bool_decide (65 <= n <= 70) then Some (n - 55)
  else None.

(** The ASCII character of the four digits after a backslash and [u]. *)
Definition unicode (a b c d : ascii) : option ascii :=
  match hex_value a, hex_value b, hex_value c, hex_value d with
  | Some 0, Some 0, Some i, Some j =>
      if bool_decide (i < 8) then Some (ascii_of_nat (16 * i + j)) else None
  | _, _, _, _ => None
  end.

(** [string_text s t]: between quotes, [s] stands for the text [t]. *)
Inductive string_text : string → string → Prop :=
| text_end : string_text "" ""
| text_plain c s t :
    plain_byte c = true → string_text s t → string_text (String c s) (String c t)
| text_escape c x s t :
    escaped c = Some x → string_text s t →
    string_text (String backslash (String c s)) (String x t)
| text_unicode a b c d x s t :
    unicode a b c d = Some x → string_text s t →
    string_text (String backslash (String "u" (String a (String b (String c (String d s))))))
                (String x t).

(** [denotes s j]: the text [s] without blanks around it stands for [j].  The
    texts of elements and of members include the closing bracket. *)
Inductive denotes : string → json → Prop :=
| denotes_null : denotes "null" JNull
| denotes_true : denotes "true" (JBool true)
| denotes_false : denotes "false" (JBool false)
| denotes_string s t :
    string_text s t → denotes (String quote (s +:+ String quote "")) (JString t)
| denotes_empty_array w : blanks w = true → denotes (String "[" (w +:+ "]")) (JArray [])
| denotes_array s l : denotes_elements s l → denotes (String "[" s) (JArray l)
| denotes_empty_object w : blanks w = true → denotes (String "{" (w +:+ "}")) (JObject [])
| denotes_object s m : denotes_fields s m → denotes (String "{" s) (JObject m)
with denotes_elements : string → list json → Prop :=
| elements_last w1 s w2 j :
    blanks w1 = true → denotes s j → blanks w2 = true → denotes_elements (w1 +:+ s +:+ w2 +:+ "]") [j]
| elements_more w1 s w2 j r l :
    blanks w1 = true → denotes s j → blanks w2 = true → denotes_elements r l →
    denotes_elements (w1 +:+ s +:+ w2 +:+ String "," r) (j :: l)
with denotes_field : string → string * json → Prop :=
| field_text k' k w1 w2 s j :
    string_text k' k → blanks w1 = true → blanks w2 = true → denotes s j →
    denotes_field (String quote (k' +:+ String quote (w1 +:+ String ":" (w2 +:+ s)))) (k, j)
with denotes_fields : string → members → Prop :=
| fields_last w1 s w2 f :
    blanks w1 = true → denotes_field s f → blanks w2 = true → denotes_fields (w1 +:+ s +:+ w2 +:+ "}") [f]
| fields_more w1 s w2 f r m :
    blanks w1 = true → denotes_field s f → blanks w2 = true → denotes_fields r m →
    denotes_fields (w1 +:+ s +:+ w2 +:+ String "," r) (f :: m).

Scheme denotes_rec := Minimality for denotes Sort Prop
  with elements_rec := Minimality for denotes_elements Sort Prop
  with field_rec := Minimality for denotes_field Sort Prop
  with fields_rec := Minimality for denotes_fields Sort Prop.
Combined Scheme json_text_ind from denotes_rec, elements_rec, field_rec, fields_rec.

(** ** The reader *)
Fixpoint skip_blanks (s : string) : string :=
  match s with
  | String c s' => if is_blank c then skip_blanks s' else s
  | "" => ""
  end.

Definition expect (c : ascii) (s : string) : option string :=
  match s with
  | String d r => if bool_decide (d = c) then Some r else None
  | "" => None
  end.

Fixpoint strip (pre s : string) : option string :=
  match pre with
  | "" => Some s
  | String c pre' => r ← expect c s; strip pre' r
  end.

(** The text of a string after its opening quote, and what follows it. *)
Fixpoint read_string (s : string) : option (string * string) :=
  match s with
  | "" => None
  | String c s1 =>
      if bool_decide (c = quote) then Some ("", s1)
      else if bool_decide (c = backslash) then
        match s1 with
        | "" => None
        | String u s2 =>
            if bool_decide (u = "u"%char) then
              match s2 with
              | String h1 (String h2 (String h3 (String h4 s3))) =>
                  x ← unicode h1 h2 h3 h4; '(t, r) ← read_string s3; Some (String x t, r)
              | _ => None
              end
            else x ← escaped u; '(t, r) ← read_string s2; Some (String x t, r)
        end
      else if plain_byte c then '(t, r) ← read_string s1; Some (String c t, r)
      else None
  end.

Definition read_literal (s : string) : option (json * string) :=
  match strip "null" s, strip "true" s, strip "false" s with
  | Some r, _, _ => Some (JNull, r)
  | _, Some r, _ => Some (JBool true, r)
  | _, _, Some r => Some (JBool false, r)
  | _, _, _ => None
  end.

Fixpoint read_value (n : nat) (s : string) : option (json * string) :=
  match n, s with
  | S n, String c s' =>
      if bool_decide (c = quote) then '(t, r) ← read_string s'; Some (JString t, r)
      else if bool_decide (c = "["%char) then
        match expect "]" (skip_blanks s') with
        | Some r => Some (JArray [], r)
        | None => '(l, r) ← read_elements n s'; Some (JArray l, r)
        end
      else if bool_decide (c = "{"%char) then
        match expect "}" (skip_blanks s') with
        | Some r => Some (JObject [], r)
        | None => '(m, r) ← read_fields n s'; Some (JObject m, r)
        end
      else read_literal s
  | _, _ => None
  end
with read_elements (n : nat) (s : string) : option (list json * string) :=
  match n with
  | S n =>
      '(j, r) ← read_value n (skip_blanks s);
      match expect "," (skip_blanks r) with
      | Some r => '(l, r) ← read_elements n r; Some (j :: l, r)
      | None => r ← expect "]" (skip_blanks r); Some ([j], r)
      end
  | O => None
  end
with read_field (n : nat) (s : string) : option ((string * json) * string) :=
  match n with
  | S n =>
      r ← expect quote s;
      '(k, r) ← read_string r;
      r ← expect ":" (skip_blanks r);
      '(j, r) ← read_value n (skip_blanks r);
      Some ((k, j), r)
  | O => None
  end
with read_fields (n : nat) (s : string) : option (members * string) :=
  match n with
  | S n =>
      '(f, r) ← read_field n (skip_blanks s);
      match expect "," (skip_blanks r) with
      | Some r => '(m, r) ← read_fields n r; Some (f :: m, r)
      | None => r ← expect "}" (skip_blanks r); Some ([f], r)
      end
  | O => None
  end.

(** The fuel is enough for every text of the grammar (see [Unmarshal_complete]). *)
Definition Unmarshal (s : string) : option json :=
  '(j, r) ← read_value (3 * String.length s) (skip_blanks s);
  if bool_decide (skip_blanks r = "") then Some j else None.

(** ** Texts put together *)
Definition quoted (s : string) : string := String quote (s +:+ String quote "").

Definition hex_digit (n : nat) : ascii :=
  ascii_of_nat (if bool_decide (n < 10) then 48 + n else 87 + n).

(** What [encoding/json] writes for an ASCII byte, HTML escapes included. *)
Definition encode_byte (c : ascii) : string :=
  if bool_decide (c = quote ∨ c = backslash) then String backslash (String c "")
  else if bool_decide (byte_of c = 10)%Z then String backslash "n"
  else if bool_decide (byte_of c = 13)%Z then String backslash "r"
  else if bool_decide (byte_of c = 9)%Z then String backslash "t"
  else if bool_decide (byte_of c < 32 ∨ c = "<"%char ∨ c = ">"%char ∨ c = "&"%char)%Z then
    String backslash ("u00" +:+ String (hex_digit (nat_of_ascii c / 16))
                                  (String (hex_digit (nat_of_ascii c mod 16)) ""))
  else String c "".

Fixpoint encode_string (s : string) : string :=
  match s with
  | "" => ""
  | String c s' => encode_byte c +:+ encode_string s'
  end.

(** A member, the blanks before it and those after its colon. *)
Record item := { it_before : string; it_key : string; it_after : string; it_text : string }.

Definition item_text (i : item) : string :=
  it_before i +:+ quoted (it_key i) +:+ ":" +:+ it_after i +:+ it_text i.

(** The text of an object with at least one member. *)
Definition object_text (l : list item) (after : string) : string :=
  "{" +:+ GoStrings.Join (item_text <$> l) "," +:+ after +:+ "}".

(** [json.Marshal] and [json.MarshalIndent] of a struct of strings. *)
Definition Marshal (m : list (string * string)) : string :=
  object_text ((λ '(k, v), {| it_before := ""; it_key := k; it_after := ""; it_text := quoted (encode_string v) |})
                 <$> m) "".

Definition MarshalIndent (indent : string) (m : list (string * string)) : string :=
  let newline := String (ascii_of_nat 10) "" in
  object_text ((λ '(k, v), {| it_before := newline +:+ indent; it_key := k; it_after := " ";
                              it_text := quoted (encode_string v) |}) <$> m) newline.

(** ** The reader finds what the grammar says *)
Lemma cons_app_str c (s t : string) : String c s +:+ t = String c (s +:+ t).
Proof. done. Qed.

Lemma expect_here c s : expect c (String c s) = Some s.
Proof. simpl. by rewrite bool_decide_true. Qed.

Lemma skip_blanks_here c s : is_blank c = false → skip_blanks (String c s) = String c s.
Proof. simpl. by intros ->. Qed.

Lemma skip_blanks_app w s : blanks w = true → skip_blanks (w +:+ s) = skip_blanks s.
Proof.
  induction w as [|c w IH]; [done|]. intros [Hc Hw]%andb_true_iff.
  change (String c w +:+ s) with (String c (w +:+ s)). simpl. rewrite Hc. by apply IH.
Qed.

Lemma string_text_plain s : plain s = true → string_text s s.
Proof.
  induction s as [|c s IH]; [constructor|]. intros [Hc Hs]%andb_true_iff. constructor; auto.
Qed.

Lemma read_string_complete s t rest :
  string_text s t → read_string (s +:+ String quote rest) = Some (t, rest).
Proof.
  induction 1 as [|c s t Hc _ IH|c x s t Hc _ IH|a b c d x s t Hc _ IH].
  - done.
  - change (String c s +:+ String quote rest) with (String c (s +:+ String quote rest)).
    cbn [read_string]. rewrite Hc, IH. apply bool_decide_eq_true in Hc as (_ & ? & ?).
    by rewrite !bool_decide_false.
  - change (String backslash (String c s) +:+ String quote rest)
      with (String backslash (String c (s +:+ String quote rest))).
    cbn [read_string]. rewrite (bool_decide_false (c = "u"%char)), Hc, IH; [done|].
    by intros ->.
  - change (String backslash (String "u" (String a (String b (String c (String d s))))) +:+
             String quote rest)
      with (String backslash (String "u" (String a (String b (String c (String d
             (s +:+ String quote rest))))))).
    cbn [read_string]. by rewrite Hc, IH.
Qed.

(** A value starts with a byte that is not blank and closes nothing. *)
Definition starts (s : string) : Prop :=
  ∃ c s', s = String c s' ∧ is_blank c = false ∧ c ≠ "]"%char ∧ c ≠ "}"%char.

Lemma denotes_starts s j : denotes s j → starts s.
Proof. by destruct 1; do 2 eexists; split_and!. Qed.

Lemma field_starts s f : denotes_field s f → starts s.
Proof. by destruct 1; do 2 eexists; split_and!. Qed.

Lemma skip_blanks_starts w s rest :
  blanks w = true → starts s → skip_blanks (w +:+ s +:+ rest) = s +:+ rest.
Proof.
  intros Hw (c & s' & -> & Hc & _). rewrite skip_blanks_app by done.
  change (String c s' +:+ rest) with (String c (s' +:+ rest)). simpl. by rewrite Hc.
Qed.

Lemma expect_starts c s rest :
  starts s → c = "]"%char ∨ c = "}"%char → expect c (s +:+ rest) = None.
Proof.
  intros (d & s' & -> & _ & ? & ?) Hc. simpl.
  rewrite bool_decide_false; [done|]. naive_solver.
Qed.

(** Normal forms of texts. *)
Lemma nil_app_str (t : string) : "" +:+ t = t.
Proof. done. Qed.

Create Rewrite HintDb json.
#[export] Hint Rewrite GoStrings.app_assoc_str cons_app_str GoStrings.app_nil_r_str nil_app_str
  : json.

(** There is fuel for one more step. *)
#[local] Ltac fuel n :=
  repeat (rewrite ?cons_app_str in *; rewrite ?GoStrings.length_app_str in *;
          cbn [String.length] in * );
  destruct n as [|n]; [lia|]; autorewrite with json.

(** What follows the opening bracket of elements or of fields closes nothing. *)
Definition opens (c : ascii) (s : string) : Prop := ∀ rest, expect c (skip_blanks (s +:+ rest)) = None.

Lemma opens_item w s c t :
  blanks w = true → starts s → c = "]"%char ∨ c = "}"%char → opens c (w +:+ s +:+ t).
Proof.
  intros ??? rest. autorewrite with json. rewrite skip_blanks_starts by done. by apply expect_starts.
Qed.

Lemma read_complete :
  (∀ s j, denotes s j → ∀ n rest,
     3 * String.length s <= n → read_value n (s +:+ rest) = Some (j, rest)) ∧
  (∀ s l, denotes_elements s l → opens "]" s ∧ ∀ n rest,
     3 * String.length s + 2 <= n → read_elements n (s +:+ rest) = Some (l, rest)) ∧
  (∀ s f, denotes_field s f → ∀ n rest,
     3 * String.length s <= n → read_field n (s +:+ rest) = Some (f, rest)) ∧
  (∀ s m, denotes_fields s m → opens "}" s ∧ ∀ n rest,
     3 * String.length s + 2 <= n → read_fields n (s +:+ rest) = Some (m, rest)).
Proof.
  apply json_text_ind.
  1-3: intros n rest Hn; by destruct n; [simpl in Hn; lia|].
  - intros s t Hs n rest Hn. fuel n. cbn [read_value].
    by rewrite (read_string_complete _ _ rest Hs).
  - intros w Hw n rest Hn. fuel n. cbn [read_value].
    by rewrite (skip_blanks_app w), skip_blanks_here, expect_here.
  - intros s l _ [Hs IH] n rest Hn. fuel n. cbn [read_value].
    rewrite (Hs rest), IH by lia. done.
  - intros w Hw n rest Hn. fuel n. cbn [read_value].
    by rewrite (skip_blanks_app w), skip_blanks_here, expect_here.
  - intros s m _ [Hs IH] n rest Hn. fuel n. cbn [read_value].
    rewrite (Hs rest), IH by lia. done.
  - intros w1 s w2 j Hw1 Hj%denotes_starts IH Hw2. split; [apply opens_item; auto|].
    intros n rest Hn. fuel n. cbn [read_elements].
    rewrite skip_blanks_starts, IH by (done || lia). simpl.
    by rewrite (skip_blanks_app w2), skip_blanks_here.
  - intros w1 s w2 j r l Hw1 Hj%denotes_starts IH Hw2 _ [_ IHr]. split; [apply opens_item; auto|].
    intros n rest Hn. fuel n. cbn [read_elements].
    rewrite skip_blanks_starts, IH by (done || lia). simpl.
    rewrite (skip_blanks_app w2), skip_blanks_here, expect_here, IHr by (done || lia). done.
  - intros k' k w1 w2 s j Hk Hw1 Hw2 Hj%denotes_starts IH n rest Hn. fuel n. cbn [read_field].
    rewrite expect_here. simpl. rewrite (read_string_complete _ _ _ Hk). simpl.
    rewrite (skip_blanks_app w1), skip_blanks_here, expect_here by done. simpl.
    rewrite skip_blanks_starts, IH by (done || lia). done.
  - intros w1 s w2 f Hw1 Hf%field_starts IH Hw2. split; [apply opens_item; auto|].
    intros n rest Hn. fuel n. cbn [read_fields].
    rewrite skip_blanks_starts, IH by (done || lia). simpl.
    by rewrite (skip_blanks_app w2), skip_blanks_here.
  - intros w1 s w2 f r m Hw1 Hf%field_starts IH Hw2 _ [_ IHr]. split; [apply opens_item; auto|].
    intros n rest Hn. fuel n. cbn [read_fields].
    rewrite skip_blanks_starts, IH by (done || lia). simpl.
    rewrite (skip_blanks_app w2), skip_blanks_here, expect_here, IHr by (done || lia). done.
Qed.

(** The reader finds the value of every text of the grammar. *)
Theorem Unmarshal_complete s j : denotes s j → Unmarshal s = Some j.
Proof.
  intros H. unfold Unmarshal.
  pose proof (skip_blanks_starts "" s "" eq_refl (denotes_starts _ _ H)) as Hs.
  autorewrite with json in Hs. rewrite Hs.
  pose proof (proj1 read_complete s j H (3 * String.length s) "" ltac:(lia)) as Hr.
  autorewrite with json in Hr. by rewrite Hr.
Qed.

(** ** Texts put together *)
Lemma string_text_app s1 t1 s2 t2 :
  string_text s1 t1 → string_text s2 t2 → string_text (s1 +:+ s2) (t1 +:+ t2).
Proof. intros H1 H2. by induction H1; [done|constructor..]. Qed.

Lemma denotes_quoted s t : string_text s t → denotes (quoted s) (JString t).
Proof. apply denotes_string. Qed.

Lemma denotes_plain s : plain s = true → denotes (quoted s) (JString s).
Proof. intros. by apply denotes_quoted, string_text_plain. Qed.

Definition item_denotes (i : item) (f : string * json) : Prop :=
  blanks (it_before i) = true ∧ blanks (it_after i) = true ∧
  plain (it_key i) = true ∧ f.1 = it_key i ∧ denotes (it_text i) f.2.

Lemma item_value w k a s j :
  blanks w = true → blanks a = true → plain k = true → denotes s j →
  item_denotes {| it_before := w; it_key := k; it_after := a; it_text := s |} (k, j).
Proof. done. Qed.

Lemma item_plain w k a v :
  blanks w = true → blanks a = true → plain k = true → plain v = true →
  item_denotes {| it_before := w; it_key := k; it_after := a; it_text := quoted v |} (k, JString v).
Proof. intros. apply item_value; auto using denotes_plain. Qed.

Lemma item_field i k j :
  item_denotes i (k, j) → denotes_field (quoted (it_key i) +:+ ":" +:+ it_after i +:+ it_text i) (k, j).
Proof.
  intros (? & ? & ? & Hk & ?). simpl in *. subst k. unfold quoted. autorewrite with json.
  apply (field_text _ _ "" (it_after i)); auto using string_text_plain.
Qed.

Lemma join_fields l m after :
  blanks after = true → l ≠ [] → Forall2 item_denotes l m →
  denotes_fields (GoStrings.Join (item_text <$> l) "," +:+ after +:+ "}") m.
Proof.
  intros Ha Hne Hl. induction Hl as [|i [k j] l m Hi Hl IH]; [done|].
  pose proof (item_field _ _ _ Hi) as Hf. destruct Hi as [Hb _].
  destruct Hl as [|i' f l m Hi' Hl].
  - pose proof (fields_last _ _ after _ Hb Hf Ha) as Ht.
    unfold item_text. simpl. by autorewrite with json in *.
  - pose proof (fields_more _ _ "" _ _ _ Hb Hf eq_refl (IH ltac:(done))) as Ht.
    unfold item_text in *. simpl in *. by autorewrite with json in *.
Qed.

(** The text of an object denotes its members. *)
Lemma object_text_denotes l m after :
  blanks after = true → l ≠ [] → Forall2 item_denotes l m →
  denotes (object_text l after) (JObject m).
Proof. intros. by apply denotes_object, join_fields. Qed.

(** What [encoding/json] writes stands for what it encodes. *)
Lemma encode_byte_text c : string_text (encode_byte c) (String c "").
Proof.
  destruct c as [[] [] [] [] [] [] [] []];
    first [ apply text_plain; [reflexivity|apply text_end]
          | apply text_escape; [reflexivity|apply text_end]
          | apply text_unicode; [reflexivity|apply text_end] ].
Qed.

Lemma encode_text s : string_text (encode_string s) s.
Proof.
  induction s as [|c s IH]; [constructor|].
  exact (string_text_app _ _ _ _ (encode_byte_text c) IH).
Qed.

#[local] Lemma encoded_items w a m :
  blanks w = true → blanks a = true → Forall (λ '(k, _), plain k = true) m →
  Forall2 item_denotes
    ((λ '(k, v), {| it_before := w; it_key := k; it_after := a; it_text := quoted (encode_string v) |})
       <$> m) (prod_map id JString <$> m).
Proof.
  intros Hw Ha. induction 1 as [|[k v] m Hk _ IH]; constructor; [|done].
  split_and!; [done..|]. apply denotes_quoted, encode_text.
Qed.

Lemma Marshal_denotes m :
  m ≠ [] → Forall (λ '(k, _), plain k = true) m →
  denotes (Marshal m) (JObject (prod_map id JString <$> m)).
Proof.
  intros. apply object_text_denotes; [done|by destruct m|]. by apply encoded_items.
Qed.

Lemma MarshalIndent_denotes indent m :
  blanks indent = true → m ≠ [] → Forall (λ '(k, _), plain k = true) m →
  denotes (MarshalIndent indent m) (JObject (prod_map id JString <$> m)).
Proof.
  intros. apply object_text_denotes; [done|by destruct m|]. by apply encoded_items.
Qed.

Lemma join_elements l js :
  l ≠ [] → Forall2 denotes l js → denotes_elements (GoStrings.Join l "," +:+ "]") js.
Proof.
  intros Hne Hl. induction Hl as [|s j l js Hs Hl IH]; [done|]. destruct Hl as [|s' j' l js Hs' Hl].
  - apply (elements_last "" s "" j); done.
  - pose proof (elements_more "" s "" j _ _ eq_refl Hs eq_refl (IH ltac:(done))) as Ht.
    simpl in *. by autorewrite with json in *.
Qed.

Lemma array_text_denotes l js :
  Forall2 denotes l js → denotes (String "[" (GoStrings.Join l "," +:+ "]")) (JArray js).
Proof.
  intros Hl. destruct Hl as [|s j l js Hs Hl]; [by apply (denotes_empty_array "")|].
  apply denotes_array, join_elements; [done|by constructor].
Qed.

(** An object with one member. *)
Definition nested (k s : string) : string := "{" +:+ quoted k +:+ ":" +:+ s +:+ "}".

Lemma nested_denotes k s j :
  plain k = true → denotes s j → denotes (nested k s) (JObject [(k, j)]).
Proof.
  intros Hk Hs.
  pose proof (object_text_denotes [{| it_before := ""; it_key := k; it_after := ""; it_text := s |}]
                [(k, j)] "") as H.
  unfold object_text, item_text in H. simpl in H. unfold nested. autorewrite with json in *.
  apply H; [done..|]. by repeat constructor.
Qed.

(** ** Texts the reader refuses *)
Lemma read_string_plain s rest :
  plain s = true → read_string (s +:+ String quote rest) = Some (s, rest).
Proof. intros. by apply read_string_complete, string_text_plain. Qed.

Lemma read_field_plain k s n :
  plain k = true → skip_blanks s = s →
  read_field n (quoted k +:+ String ":" s) =
    match n with S n => '(j, r) ← read_value n s; Some ((k, j), r) | O => None end.
Proof.
  intros Hk Hs. destruct n as [|n]; [done|]. unfold quoted. autorewrite with json.
  cbn [read_field]. rewrite expect_here. simpl. rewrite read_string_plain by done. simpl.
  by rewrite Hs.
Qed.

Lemma read_value_plain v s n :
  plain v = true →
  read_value n (quoted v +:+ s) = match n with S n => Some (JString v, s) | O => None end.
Proof.
  intros Hv. destruct n as [|n]; [done|]. unfold quoted. autorewrite with json.
  cbn [read_value]. rewrite bool_decide_true, read_string_plain by done. done.
Qed.

Lemma skip_blanks_quoted k s : skip_blanks (quoted k +:+ s) = quoted k +:+ s.
Proof. done. Qed.

(** A text that no value starts with. *)
Definition refused (s : string) : Prop :=
  (∃ c s', s = String c s' ∧ is_blank c = false) ∧ ∀ n rest, read_value n (s +:+ rest) = None.

Lemma Unmarshal_refused s : refused s → Unmarshal s = None.
Proof.
  intros [(c & s' & -> & Hc) Hn]. unfold Unmarshal. rewrite skip_blanks_here by done.
  specialize (Hn (3 * String.length (String c s')) ""). autorewrite with json in Hn. by rewrite Hn.
Qed.

Lemma refused_nested k s : plain k = true → refused s → refused (nested k s).
Proof.
  intros Hk [(c & s' & -> & Hc) Hn]. split; [by do 2 eexists|].
  unfold nested. intros [|n] rest; [done|]. autorewrite with json.
  cbn [read_value]. rewrite skip_blanks_quoted.
  enough (read_fields n (quoted k +:+ String ":" (String c (s' +:+ String "}" rest))) = None)
    as -> by done.
  destruct n as [|n]; [done|]. cbn [read_fields].
  rewrite skip_blanks_quoted, read_field_plain by (done || by apply skip_blanks_here).
  destruct n as [|n]; [done|]. by rewrite <-(cons_app_str c s'), Hn.
Qed.

Lemma refused_object k s :
  (∀ n rest, read_fields n (quoted k +:+ s +:+ rest) = None) → refused (String "{" (quoted k +:+ s)).
Proof.
  intros Hn. split; [by do 2 eexists|]. intros [|n] rest; [done|]. autorewrite with json.
  cbn [read_value]. rewrite skip_blanks_quoted, Hn. done.
Qed.

(** The members after the first are refused. *)
Lemma refused_later k v s :
  plain k = true → plain v = true → (∀ n, read_fields n s = None) →
  ∀ n, read_fields n (quoted k +:+ String ":" (quoted v +:+ String "," s)) = None.
Proof.
  intros Hk Hv Hn [|n]; [done|]. cbn [read_fields].
  rewrite skip_blanks_quoted, read_field_plain by done. destruct n as [|n]; [done|].
  rewrite read_value_plain by done. destruct n; [done|]. cbn [mbind option_bind].
  rewrite skip_blanks_here, expect_here by done. by rewrite Hn.
Qed.

(** What follows a text neither continues nor ends the object. *)
Lemma refused_here k v c s :
  plain k = true → plain v = true → is_blank c = false → c ≠ ","%char → c ≠ "}"%char →
  ∀ n, read_fields n (quoted k +:+ String ":" (quoted v +:+ String c s)) = None.
Proof.
  intros Hk Hv Hc ?? [|n]; [done|]. cbn [read_fields].
  rewrite skip_blanks_quoted, read_field_plain by done. destruct n as [|n]; [done|].
  rewrite read_value_plain by done. destruct n; [done|]. simpl. rewrite Hc. simpl.
  by rewrite !bool_decide_false.
Qed.
