(* ===== verification/Version.v ===== *)
(** * Version information

    What a binary tells of itself (src/pkg/version): the linker sets [base], the
    Go runtime knows the rest.  The programs print the text of [Pretty] when they
    start, the providers repeat a part of it in their [Info]. *)

From S2P Require Import Prelude GoStd Json.

(** The package variables, which [-ldflags] may set. *)
Record base := {
  version : string;
  gitRemote : string;
  gitCommit : string;
  gitTreeState : string;
  buildDate : string;
}.

Definition default_base : base := {|
  version := "v0.0.0-master+$Format:%h$"; gitRemote := ""; gitCommit := "$Format:%H$";
  gitTreeState := ""; buildDate := "1970-01-01T00:00:00Z" |}.

(** The package [runtime]. *)
Record runtime := {
  runtime_Version : string;
  runtime_Compiler : string;
  runtime_GOOS : string;
  runtime_GOARCH : string;
}.

Record VersionInfo := {
  Version : string;
  GitRemote : string;
  GitCommit : string;
  GitTreeState : string;
  BuildDate : string;
  GoVersion : string;
  Compiler : string;
  Platform : string;
}.

Definition GetInfo (b : base) (r : runtime) : VersionInfo := {|
  Version := version b;
  GitRemote := gitRemote b;
  GitCommit := gitCommit b;
  GitTreeState := gitTreeState b;
  BuildDate := buildDate b;
  GoVersion := runtime_Version r;
  Compiler := runtime_Compiler r;
  Platform := runtime_GOOS r +:+ "/" +:+ runtime_GOARCH r |}.

(** The fields in their order, with their JSON names. *)
Definition info_fields (info : VersionInfo) : list (string * string) :=
  [("version", Version info); ("gitRemote", GitRemote info); ("gitCommit", GitCommit info);
   ("gitTreeState", GitTreeState info); ("buildDate", BuildDate info);
   ("goVersion", GoVersion info); ("compiler", Compiler info); ("platform", Platform info)].

Definition Pretty (info : VersionInfo) : string := MarshalIndent "    " (info_fields info).

Definition InfoString (info : VersionInfo) : string := Marshal (info_fields info).

(** What a provider tells of itself: [Info] of src/core/provider/types.go. *)
Record ProviderInfo := {
  pi_Name : string;
  pi_Version : string;
  pi_GitCommit : string;
  pi_GitRemote : string;
}.

Definition provider_info (name : string) (info : VersionInfo) : ProviderInfo := {|
  pi_Name := name; pi_Version := Version info;
  pi_GitCommit := GitCommit info; pi_GitRemote := GitRemote info |}.

Definition ipvsdr_Info (info : VersionInfo) : ProviderInfo := provider_info "ipvsdr" info.
Definition ingress_Info (info : VersionInfo) : ProviderInfo := provider_info "ingress-sidecar" info.
Definition azure_Info (info : VersionInfo) : ProviderInfo := provider_info "azure" info.

(** ** Reading it back *)

(** [json.Unmarshal] into an [Info]: the members by their names, the last one of
    a name; one that is missing leaves its field empty. *)
Definition string_member (name : string) (m : members) : string :=
  match list_find (λ f, f.1 = name) (reverse m) with
  | Some (_, (_, JString s)) => s
  | _ => ""
  end.

Definition read_info (s : string) : option VersionInfo :=
  match Unmarshal s with
  | Some (JObject m) =>
      let get name := string_member name m in
      Some {| Version := get "version"; GitRemote := get "gitRemote"; GitCommit := get "gitCommit";
              GitTreeState := get "gitTreeState"; BuildDate := get "buildDate";
              GoVersion := get "goVersion"; Compiler := get "compiler"; Platform := get "platform" |}
  | _ => None
  end.

Lemma info_fields_plain info : Forall (λ '(k, _), plain k = true) (info_fields info).
Proof. by repeat constructor. Qed.

(** Both texts of a build, the one on one line and the indented one, are JSON and
    give back the information they were made from, whatever ASCII the linker put
    into it: quotes, backslashes and control characters are escaped. *)
Theorem info_roundtrip info :
  read_info (InfoString info) = Some info ∧ read_info (Pretty info) = Some info.
Proof.
  assert (info_fields info ≠ []) as Hne by done.
  pose proof (info_fields_plain info) as Hp. unfold read_info, InfoString, Pretty.
  rewrite (Unmarshal_complete _ _ (Marshal_denotes _ Hne Hp)).
  rewrite (Unmarshal_complete _ _ (MarshalIndent_denotes "    " _ eq_refl Hne Hp)).
  by destruct info.
Qed.
