(* ===== verification/LbApi.v ===== *)
(** * The LoadBalancer resource

    The objects of loadbalance/v1alpha2 and of the core API the providers read,
    with the fields they read or compare, and [ValidateLoadBalancer].  A pointer
    to a struct that is never shared is an [option]; decidable equality of a
    record is [reflect.DeepEqual]. *)

From S2P Require Import Prelude GoStd GoNet.

(** ** Spec *)
Record NodesSpec := {
  Replicas : option Z;
  Names : slice string;
  Effect : option string;
}.

Record KeepalivedBind := {
  Iface : string;
  NodeIPAnnotation : string;
}.

Record KeepalivedProvider := {
  kp_VIP : string;
  kp_VIPs : slice string;
  kp_Scheduler : string;
  kp_HAMode : string;
  kp_Bind : option KeepalivedBind;
}.

Definition ActiveActiveHA : string := "ActiveActive".
Definition ActivePassiveHA : string := "ActivePassive".

Definition ipvs_schedulers : list string := ["rr"; "wrr"; "lc"; "wlc"; "lblc"; "dh"; "sh"].

Record IpvsdrProvider := {
  ip_KeepalivedProvider : KeepalivedProvider;
  ip_Slaves : slice KeepalivedProvider;
}.

Record ExternalProvider := {
  ext_VIP : string;
  ext_VIPs : slice string;
}.

Record AzurePrivateIPAddressProperties := {
  pri_IPAllocationMethod : string;
  pri_VPCID : string;
  pri_SubnetID : string;
  pri_PrivateIPAddress : option string;
}.

Record AzurePublicIPAddressProperties := {
  pub_IPAllocationMethod : string;
  pub_PublicIPAddressID : option string;
}.

Record AzureIPAddressProperties := {
  Private : option AzurePrivateIPAddressProperties;
  Public : option AzurePublicIPAddressProperties;
}.

Record AzureProvider := {
  az_Name : string;
  az_ResourceGroupName : string;
  az_Location : string;
  az_SKU : string;
  az_ClusterID : string;
  az_ReserveAzure : option bool;
  az_IPAddressProperties : AzureIPAddressProperties;
}.

(** The Aliyun provider has no code in the repository and is left out. *)
Record ProvidersSpec := {
  External : option ExternalProvider;
  Ipvsdr : option IpvsdrProvider;
  Azure : option AzureProvider;
}.

(** [Config], [Resources] and [PortRanges] of the proxy are read by no provider. *)
Record ProxySpec := {
  ProxyType : string;
  HTTPPort : Z;
  HTTPSPort : Z;
}.

Record LoadBalancerSpec := {
  Nodes : NodesSpec;
  Proxy : ProxySpec;
  Providers : ProvidersSpec;
}.

(** ** Status *)
Record InterfaceNet := {
  if_Name : string;
  if_Mac : string;
  if_IPs : slice string;
}.

(** [IfaceNetList] is a slice of non-nil pointers. *)
Record NodeStatus := {
  ns_Name : string;
  ns_IfaceNetList : slice InterfaceNet;
}.

Abbreviation NodeStatuses := (slice NodeStatus).

Record ProxyStatus := {
  TCPConfigMap : string;
  UDPConfigMap : string;
}.

Record AzureProviderStatus := {
  Phase : string;
  Reason : string;
  azs_Message : string;
  ProvisioningState : string;
  PublicIPAddress : option string;
}.

(** [Vrid] is [Status.ProvidersStatuses.Ipvsdr.Vrid], [None] when the ipvsdr
    status or the number is nil. *)
Record LoadBalancerStatus := {
  lb_ProxyStatus : ProxyStatus;
  Vrid : option Z;
  AzureStatus : option AzureProviderStatus;
  lb_NodeStatuses : NodeStatuses;
}.

Record LoadBalancer := {
  lb_Namespace : string;
  lb_Name : string;
  lb_ResourceVersion : string;
  lb_DeletionTimestamp : option string;
  lb_Finalizers : slice string;
  Spec : LoadBalancerSpec;
  Status : LoadBalancerStatus;
}.

(** ** Core resources *)
Record NodeAddress := {
  addr_Type : string;
  addr_Address : string;
}.

Record Node := {
  node_Name : string;
  node_Labels : gomap string;
  node_Annotations : gomap string;
  node_Addresses : list NodeAddress;
}.

Record ConfigMap := {
  cm_Namespace : string;
  cm_Name : string;
  cm_ResourceVersion : string;
  cm_Data : gomap string;
}.

(** ** reflect.DeepEqual *)
#[export] Instance NodesSpec_eq_dec : EqDecision NodesSpec.
Proof. solve_decision. Defined.
#[export] Instance KeepalivedBind_eq_dec : EqDecision KeepalivedBind.
Proof. solve_decision. Defined.
#[export] Instance KeepalivedProvider_eq_dec : EqDecision KeepalivedProvider.
Proof. solve_decision. Defined.
#[export] Instance IpvsdrProvider_eq_dec : EqDecision IpvsdrProvider.
Proof. solve_decision. Defined.
#[export] Instance ExternalProvider_eq_dec : EqDecision ExternalProvider.
Proof. solve_decision. Defined.
#[export] Instance AzurePrivate_eq_dec : EqDecision AzurePrivateIPAddressProperties.
Proof. solve_decision. Defined.
#[export] Instance AzurePublic_eq_dec : EqDecision AzurePublicIPAddressProperties.
Proof. solve_decision. Defined.
#[export] Instance AzureIPAddressProperties_eq_dec : EqDecision AzureIPAddressProperties.
Proof. solve_decision. Defined.
#[export] Instance AzureProvider_eq_dec : EqDecision AzureProvider.
Proof. solve_decision. Defined.
#[export] Instance ProvidersSpec_eq_dec : EqDecision ProvidersSpec.
Proof. solve_decision. Defined.
#[export] Instance ProxySpec_eq_dec : EqDecision ProxySpec.
Proof. solve_decision. Defined.
#[export] Instance LoadBalancerSpec_eq_dec : EqDecision LoadBalancerSpec.
Proof. solve_decision. Defined.
#[export] Instance InterfaceNet_eq_dec : EqDecision InterfaceNet.
Proof. solve_decision. Defined.
#[export] Instance NodeStatus_eq_dec : EqDecision NodeStatus.
Proof. solve_decision. Defined.
#[export] Instance ProxyStatus_eq_dec : EqDecision ProxyStatus.
Proof. solve_decision. Defined.
#[export] Instance AzureProviderStatus_eq_dec : EqDecision AzureProviderStatus.
Proof. solve_decision. Defined.
#[export] Instance LoadBalancerStatus_eq_dec : EqDecision LoadBalancerStatus.
Proof. solve_decision. Defined.
#[export] Instance LoadBalancer_eq_dec : EqDecision LoadBalancer.
Proof. solve_decision. Defined.

Definition DeepEqual {A} `{EqDecision A} (x y : A) : bool := bool_decide (x = y).

(** ** Updates *)
Definition set_Status (lb : LoadBalancer) (st : LoadBalancerStatus) : LoadBalancer :=
  {| lb_Namespace := lb_Namespace lb; lb_Name := lb_Name lb;
     lb_ResourceVersion := lb_ResourceVersion lb;
     lb_DeletionTimestamp := lb_DeletionTimestamp lb;
     lb_Finalizers := lb_Finalizers lb; Spec := Spec lb; Status := st |}.

Definition set_NodeStatuses (lb : LoadBalancer) (ns : NodeStatuses) : LoadBalancer :=
  set_Status lb
    {| lb_ProxyStatus := lb_ProxyStatus (Status lb); Vrid := Vrid (Status lb);
       AzureStatus := AzureStatus (Status lb); lb_NodeStatuses := ns |}.

Definition set_AzureStatus (lb : LoadBalancer) (az : option AzureProviderStatus) : LoadBalancer :=
  set_Status lb
    {| lb_ProxyStatus := lb_ProxyStatus (Status lb); Vrid := Vrid (Status lb);
       AzureStatus := az; lb_NodeStatuses := lb_NodeStatuses (Status lb) |}.

(** ** ValidateLoadBalancer *)
Definition reject_if (b : bool) (msg : string) : result () :=
  if b then Err (ErrorString msg) else Ok ().

Definition invalid_ip (s : string) : bool := bool_decide (ParseIP s = None).

Fixpoint ValidateVIPs (provider : string) (i : Z) (vips : list string) : result () :=
  match vips with
  | [] => Ok ()
  | vip :: vips' =>
      _ ← reject_if (invalid_ip vip)
            (provider +:+ ": vips[" +:+ Strconv.Itoa i +:+ "] " +:+ vip +:+ " is invalid");
      ValidateVIPs provider (i + 1) vips'
  end.

Definition ValidateIpvsdr (ipvsdr : IpvsdrProvider) : result () :=
  let kp := ip_KeepalivedProvider ipvsdr in
  _ ← reject_if (negb (bool_decide (kp_VIP kp = "")) && invalid_ip (kp_VIP kp))
        ("ipvsdr: vip " +:+ kp_VIP kp +:+ " is invalid");
  _ ← ValidateVIPs "ipvsdr" 0 (elems (kp_VIPs kp));
  _ ← reject_if (bool_decide (kp_VIP kp = "" ∧ elems (kp_VIPs kp) = []))
        "ipvsdr: vips is empty";
  reject_if (bool_decide (kp_Scheduler kp ∉ ipvs_schedulers))
    ("ipvsdr: scheduler " +:+ kp_Scheduler kp +:+ " is invalid").

Definition ValidateExternal (external : ExternalProvider) : result () :=
  _ ← reject_if (negb (bool_decide (ext_VIP external = "")) && invalid_ip (ext_VIP external))
        "external: vip is invalid";
  _ ← ValidateVIPs "external" 0 (elems (ext_VIPs external));
  reject_if (bool_decide (ext_VIP external = "" ∧ elems (ext_VIPs external) = []))
    "external: vips is empty".

Definition ValidatePrivate (private : AzurePrivateIPAddressProperties) : result () :=
  _ ← reject_if (bool_decide (pri_SubnetID private = ""))
        "azure: subnet id cant't be empty when use private network";
  if bool_decide (pri_IPAllocationMethod private = "Static") then
    match pri_PrivateIPAddress private with
    | None => Err (ErrorString
        "azure: private ip address can't be nil when allocation method is static")
    | Some ip => reject_if (invalid_ip ip) "azure: private ip is invalid"
    end
  else reject_if (bool_decide (pri_IPAllocationMethod private ≠ "Dynamic"))
         ("azure: private allocation method " +:+ pri_IPAllocationMethod private +:+
          " is invalid").

Definition ValidatePublic (public : AzurePublicIPAddressProperties) : result () :=
  if bool_decide (pub_IPAllocationMethod public = "Static") then
    reject_if (bool_decide (pub_PublicIPAddressID public = None))
      "azure: public ip address can't be nil when allocation method is static"
  else reject_if (bool_decide (pub_IPAllocationMethod public ≠ "Dynamic"))
         ("azure: public allocation method " +:+ pub_IPAllocationMethod public +:+
          " is invalid").

Definition when_some {A} (p : option A) (f : A → result ()) : result () :=
  match p with Some a => f a | None => Ok () end.

Definition ValidateAzure (azure : AzureProvider) : result () :=
  let props := az_IPAddressProperties azure in
  _ ← reject_if (bool_decide (az_Location azure = "")) "azure: location cant't be empty";
  _ ← reject_if (bool_decide (az_ResourceGroupName azure = ""))
        "azure: group name cant't be empty";
  _ ← reject_if (bool_decide (az_ClusterID azure = "")) "azure: cluster id cant't be empty";
  _ ← reject_if (bool_decide (az_SKU azure ≠ "Standard" ∧ az_SKU azure ≠ "Basic"))
        ("azure: sku " +:+ az_SKU azure +:+ " is invalid");
  _ ← reject_if (bool_decide (Public props = None ∧ Private props = None))
        "azure: private and public ip address can't be nil at the same time";
  _ ← reject_if (negb (bool_decide (Public props = None)) &&
                 negb (bool_decide (Private props = None)))
        "azure: private and public ip address can't have value at the same time";
  _ ← when_some (Private props) ValidatePrivate;
  when_some (Public props) ValidatePublic.

Definition ValidateProviders (spec : ProvidersSpec) : result () :=
  _ ← when_some (Ipvsdr spec) ValidateIpvsdr;
  _ ← when_some (External spec) ValidateExternal;
  when_some (Azure spec) ValidateAzure.

Definition ValidateProxy (spec : ProxySpec) : result () :=
  reject_if (bool_decide (ProxyType spec ∉ ["nginx"; "haproxy"; "traefik"]))
    ("unknown proxy type " +:+ ProxyType spec).

Definition ValidateLoadBalancer (lb : LoadBalancer) : result () :=
  _ ← ValidateProviders (Providers (Spec lb));
  ValidateProxy (Proxy (Spec lb)).

(** ** Facts about validation *)
Lemma reject_if_Ok b msg : reject_if b msg = Ok () ↔ b = false.
Proof. by destruct b. Qed.

Lemma bind_Ok {A B} (m : result A) (f : A → result B) b :
  (m ≫= f) = Ok b ↔ ∃ a, m = Ok a ∧ f a = Ok b.
Proof. destruct m; unfold mbind, result_bind; naive_solver. Qed.

(** Opens a successful sequence of checks, one hypothesis per check. *)
Ltac open_checks H :=
  repeat (let H1 := fresh H in apply bind_Ok in H as ([] & H1 & H)).

Lemma ValidateVIPs_Ok provider i vips :
  ValidateVIPs provider i vips = Ok () ↔ Forall (λ v, is_Some (ParseIP v)) vips.
Proof.
  revert i. induction vips as [|v vips IH]; intros i; simpl; [split; by constructor|].
  rewrite Forall_cons, <-(IH (i + 1)%Z), <-not_eq_None_Some. unfold invalid_ip.
  case_bool_decide; simpl; unfold mbind, result_bind; naive_solver.
Qed.

(** A validated ipvsdr provider has at least one virtual IP, and every virtual
    IP it lists is an IP address. *)
Lemma ValidateIpvsdr_vips p :
  ValidateIpvsdr p = Ok () →
  let kp := ip_KeepalivedProvider p in
  Forall (λ v, is_Some (ParseIP v)) (elems (kp_VIPs kp)) ∧
  (elems (kp_VIPs kp) = [] → is_Some (ParseIP (kp_VIP kp))).
Proof.
  unfold ValidateIpvsdr. intros H. open_checks H.
  apply ValidateVIPs_Ok in H1. apply reject_if_Ok in H0, H2.
  apply bool_decide_eq_false in H2. split; [done|]. intros Hnil.
  assert (kp_VIP (ip_KeepalivedProvider p) ≠ "") as Hne by naive_solver.
  rewrite (bool_decide_false _ Hne) in H0. apply bool_decide_eq_false in H0.
  by apply not_eq_None_Some.
Qed.

Lemma ValidateLoadBalancer_ipvsdr lb p :
  ValidateLoadBalancer lb = Ok () → Ipvsdr (Providers (Spec lb)) = Some p →
  ValidateIpvsdr p = Ok ().
Proof.
  unfold ValidateLoadBalancer. intros H Hp. open_checks H.
  unfold ValidateProviders in H0. open_checks H0. by rewrite Hp in H1.
Qed.

Lemma ValidateLoadBalancer_azure lb p :
  ValidateLoadBalancer lb = Ok () → Azure (Providers (Spec lb)) = Some p →
  ValidateAzure p = Ok ().
Proof.
  unfold ValidateLoadBalancer. intros H Hp. open_checks H.
  unfold ValidateProviders in H0. open_checks H0. by rewrite Hp in H0.
Qed.
