(* ===== verification/LbValid.v ===== *)
(** * Well-formed load balancers

    What [ValidateLoadBalancer] demands, as a predicate on the data.  The
    functions of LbApi.v decide it. *)

From S2P Require Import Prelude GoStd GoNet LbApi.

(** ** Well-formedness *)
Definition is_ip (s : string) : Prop := is_Some (ParseIP s).

(** A virtual IP, a list of them, or both, all of them addresses. *)
Definition valid_vips (vip : string) (vips : slice string) : Prop :=
  (vip ≠ "" → is_ip vip) ∧ Forall is_ip (elems vips) ∧ (vip ≠ "" ∨ elems vips ≠ []).

Definition valid_ipvsdr (p : IpvsdrProvider) : Prop :=
  let kp := ip_KeepalivedProvider p in
  valid_vips (kp_VIP kp) (kp_VIPs kp) ∧ kp_Scheduler kp ∈ ipvs_schedulers.

Definition valid_external (p : ExternalProvider) : Prop := valid_vips (ext_VIP p) (ext_VIPs p).

Definition valid_private (p : AzurePrivateIPAddressProperties) : Prop :=
  pri_SubnetID p ≠ "" ∧
  (pri_IPAllocationMethod p = "Static" ∧ (∃ ip, pri_PrivateIPAddress p = Some ip ∧ is_ip ip) ∨
   pri_IPAllocationMethod p = "Dynamic").

Definition valid_public (p : AzurePublicIPAddressProperties) : Prop :=
  pub_IPAllocationMethod p = "Static" ∧ is_Some (pub_PublicIPAddressID p) ∨
  pub_IPAllocationMethod p = "Dynamic".

Definition valid_azure (p : AzureProvider) : Prop :=
  az_Location p ≠ "" ∧ az_ResourceGroupName p ≠ "" ∧ az_ClusterID p ≠ "" ∧
  (az_SKU p = "Standard" ∨ az_SKU p = "Basic") ∧
  match Private (az_IPAddressProperties p), Public (az_IPAddressProperties p) with
  | Some private, None => valid_private private
  | None, Some public => valid_public public
  | _, _ => False
  end.

Definition valid_if {A} (P : A → Prop) (x : option A) : Prop :=
  match x with Some a => P a | None => True end.

Definition well_formed_lb (lb : LoadBalancer) : Prop :=
  valid_if valid_ipvsdr (Ipvsdr (Providers (Spec lb))) ∧
  valid_if valid_external (External (Providers (Spec lb))) ∧
  valid_if valid_azure (Azure (Providers (Spec lb))) ∧
  ProxyType (Proxy (Spec lb)) ∈ ["nginx"; "haproxy"; "traefik"].

(** ** The validation decides it *)
Lemma then_Ok {B} (m : result ()) (f : () → result B) b : (m ≫= f) = Ok b ↔ m = Ok () ∧ f () = Ok b.
Proof. rewrite bind_Ok. split; [by intros ([] & ? & ?)|]. intros [? ?]. by exists (). Qed.

Lemma reject_unless P `{Decision P} msg : reject_if (bool_decide (¬ P)) msg = Ok () ↔ P.
Proof. rewrite reject_if_Ok, bool_decide_eq_false. by destruct (decide P); intuition. Qed.

Lemma reject_when P `{Decision P} msg : reject_if (bool_decide P) msg = Ok () ↔ ¬ P.
Proof. by rewrite reject_if_Ok, bool_decide_eq_false. Qed.

Lemma reject_ip s msg : reject_if (invalid_ip s) msg = Ok () ↔ is_ip s.
Proof.
  unfold invalid_ip, is_ip. rewrite reject_if_Ok, bool_decide_eq_false. apply not_eq_None_Some.
Qed.

Lemma reject_named_ip s msg :
  reject_if (negb (bool_decide (s = "")) && invalid_ip s) msg = Ok () ↔ (s ≠ "" → is_ip s).
Proof.
  rewrite <-(reject_ip s msg), !reject_if_Ok. case_bool_decide; simpl; intuition.
Qed.

Create Rewrite HintDb valid.
#[local] Hint Rewrite @then_Ok @reject_ip @reject_named_ip ValidateVIPs_Ok : valid.

Lemma when_some_Ok {A} (x : option A) (f : A → result ()) P :
  (∀ a, f a = Ok () ↔ P a) → when_some x f = Ok () ↔ valid_if P x.
Proof. intros Hf. destruct x as [a|]; simpl; [apply Hf|by split]. Qed.

Lemma no_vip vip vips :
  ¬ (vip = "" ∧ elems vips = []) ↔ vip ≠ "" ∨ elems vips ≠ ([] : list string).
Proof. destruct (decide (vip = "")), (elems vips); naive_solver. Qed.

Lemma ValidateIpvsdr_Ok p : ValidateIpvsdr p = Ok () ↔ valid_ipvsdr p.
Proof.
  unfold ValidateIpvsdr, valid_ipvsdr, valid_vips. cbv zeta. autorewrite with valid.
  rewrite reject_when, no_vip, reject_unless. tauto.
Qed.

Lemma ValidateExternal_Ok p : ValidateExternal p = Ok () ↔ valid_external p.
Proof.
  unfold ValidateExternal, valid_external, valid_vips. autorewrite with valid.
  rewrite reject_when, no_vip. tauto.
Qed.

Lemma ValidatePrivate_Ok p : ValidatePrivate p = Ok () ↔ valid_private p.
Proof.
  unfold ValidatePrivate, valid_private. rewrite then_Ok, reject_when.
  case_bool_decide as Hs.
  - rewrite Hs. destruct (pri_PrivateIPAddress p) as [ip|].
    + rewrite reject_ip. naive_solver.
    + split; [by intros [_ ?]|]. intros [_ [[_ (ip & ? & _)]|?]]; done.
  - rewrite reject_unless. naive_solver.
Qed.

Lemma ValidatePublic_Ok p : ValidatePublic p = Ok () ↔ valid_public p.
Proof.
  unfold ValidatePublic, valid_public. case_bool_decide as Hs.
  - rewrite reject_when, not_eq_None_Some, Hs. naive_solver.
  - rewrite reject_unless. naive_solver.
Qed.

Lemma ValidateAzure_Ok p : ValidateAzure p = Ok () ↔ valid_azure p.
Proof.
  unfold ValidateAzure, valid_azure. cbv zeta. rewrite !then_Ok, !reject_when.
  rewrite (when_some_Ok _ _ _ ValidatePrivate_Ok), (when_some_Ok _ _ _ ValidatePublic_Ok).
  assert (¬ (az_SKU p ≠ "Standard" ∧ az_SKU p ≠ "Basic") ↔ az_SKU p = "Standard" ∨ az_SKU p = "Basic")
    as -> by (destruct (decide (az_SKU p = "Standard")), (decide (az_SKU p = "Basic")); tauto).
  rewrite reject_if_Ok.
  destruct (Private (az_IPAddressProperties p)), (Public (az_IPAddressProperties p)); simpl;
    naive_solver.
Qed.

(** ** No panic *)
Lemma bind_calm {A B} (m : result A) (f : A → result B) :
  is_panic m = false → (∀ a, is_panic (f a) = false) → is_panic (m ≫= f) = false.
Proof. destruct m; simpl; auto. Qed.

Lemma reject_calm b msg : is_panic (reject_if b msg) = false.
Proof. by destruct b. Qed.

Lemma when_some_calm {A} (x : option A) f : (∀ a, is_panic (f a) = false) → is_panic (when_some x f) = false.
Proof. destruct x; simpl; auto. Qed.

Lemma ValidateVIPs_calm provider i vips : is_panic (ValidateVIPs provider i vips) = false.
Proof.
  revert i. induction vips as [|vip vips IH]; intros i; [done|].
  apply bind_calm; [apply reject_calm|]. intros _. apply IH.
Qed.

Create HintDb calm.
#[local] Hint Resolve bind_calm reject_calm when_some_calm ValidateVIPs_calm : calm.

Lemma ValidateIpvsdr_calm p : is_panic (ValidateIpvsdr p) = false.
Proof. unfold ValidateIpvsdr. cbv zeta. auto 10 with calm. Qed.

Lemma ValidateExternal_calm p : is_panic (ValidateExternal p) = false.
Proof. unfold ValidateExternal. auto 10 with calm. Qed.

Lemma ValidateAzure_calm p : is_panic (ValidateAzure p) = false.
Proof.
  unfold ValidateAzure. cbv zeta.
  repeat (apply bind_calm; [try apply reject_calm|intros _]); apply when_some_calm; intros q.
  - unfold ValidatePrivate. apply bind_calm; [apply reject_calm|intros _].
    repeat case_match; auto with calm.
  - unfold ValidatePublic. case_match; auto with calm.
Qed.

(** C34: The sync handler accepts exactly the well-formed load balancers, and its
    validation never panics: a provider with a bad address, scheduler or
    allocation method, or with both or neither of the Azure addresses, is an
    error. *)
Theorem ValidateLoadBalancer_iff lb :
  (ValidateLoadBalancer lb = Ok () ↔ well_formed_lb lb) ∧ is_panic (ValidateLoadBalancer lb) = false.
Proof.
  unfold ValidateLoadBalancer, ValidateProviders, ValidateProxy, well_formed_lb. split.
  - rewrite !then_Ok, (when_some_Ok _ _ _ ValidateIpvsdr_Ok), (when_some_Ok _ _ _ ValidateExternal_Ok),
      (when_some_Ok _ _ _ ValidateAzure_Ok), reject_unless. tauto.
  - repeat (apply bind_calm; [try apply when_some_calm|intros _]);
      auto using ValidateIpvsdr_calm, ValidateExternal_calm with calm.
    apply when_some_calm, ValidateAzure_calm.
Qed.
