(* ===== verification/Ports.v ===== *)
(** * core/provider/ports.go

    The listen ports of a load balancer: the reserved ports, the HTTP and HTTPS
    port of its proxy and the keys of its TCP and UDP ConfigMaps. *)

From S2P Require Import Prelude GoStd LbApi.

Definition ReservedTCPPorts : list string := ["450"; "451"].
Definition ReservedUDPPorts : list string := [].

Definition GetHTTPPort (lb : LoadBalancer) : Z :=
  let p := HTTPPort (Proxy (Spec lb)) in
  if bool_decide (p > 1 ∧ p < 65535)%Z then p else 80%Z.

Definition GetHTTPSPort (lb : LoadBalancer) : Z :=
  let p := HTTPSPort (Proxy (Spec lb)) in
  if bool_decide (p > 1 ∧ p < 65535)%Z then p else 443%Z.

(** [tcpOrd] and [udpOrd] are the orders in which [range] visits the data of
    the two ConfigMaps; they are not used when the ConfigMap is nil. *)
Definition GetExportedPorts (lb : LoadBalancer) (tcpcm udpcm : option ConfigMap)
    (tcpOrd udpOrd : list (string * string)) : list string * list string :=
  let tcpPorts := ReservedTCPPorts ++
    [Strconv.Itoa (GetHTTPPort lb); Strconv.Itoa (GetHTTPSPort lb)] in
  let tcpPorts :=
    match tcpcm with
    | Some _ => tcpPorts ++ tcpOrd.*1
    | None => tcpPorts
    end in
  let udpPorts :=
    match udpcm with
    | Some _ => ReservedUDPPorts ++ udpOrd.*1
    | None => ReservedUDPPorts
    end in
  (tcpPorts, udpPorts).

(** ** Facts *)
Definition cm_entries (cm : option ConfigMap) : gmap string string :=
  match cm with Some c => entries (cm_Data c) | None => ∅ end.

(** The order of [range] matters only when the ConfigMap exists. *)
Definition cm_order (ord : list (string * string)) (cm : option ConfigMap) : Prop :=
  map_order ord (cm_entries cm).

Lemma GetHTTPPort_range lb : (1 < GetHTTPPort lb < 65535)%Z.
Proof. unfold GetHTTPPort. case_bool_decide; lia. Qed.

Lemma GetHTTPSPort_range lb : (1 < GetHTTPSPort lb < 65535)%Z.
Proof. unfold GetHTTPSPort. case_bool_decide; lia. Qed.

Lemma GetExportedPorts_perm lb tcpcm udpcm t1 u1 t2 u2 :
  cm_order t1 tcpcm → cm_order u1 udpcm → cm_order t2 tcpcm → cm_order u2 udpcm →
  (GetExportedPorts lb tcpcm udpcm t1 u1).1 ≡ₚ (GetExportedPorts lb tcpcm udpcm t2 u2).1 ∧
  (GetExportedPorts lb tcpcm udpcm t1 u1).2 ≡ₚ (GetExportedPorts lb tcpcm udpcm t2 u2).2.
Proof.
  unfold cm_order, map_order, GetExportedPorts. simpl. intros H1 H2 H3 H4.
  split; case_match; try done; by rewrite ?H1, ?H2, ?H3, ?H4.
Qed.

Lemma GetExportedPorts_tcp_elem lb tcpcm udpcm t u port :
  cm_order t tcpcm →
  (port ∈ (GetExportedPorts lb tcpcm udpcm t u).1 ↔
   port ∈ ReservedTCPPorts ∨ port = Strconv.Itoa (GetHTTPPort lb) ∨
   port = Strconv.Itoa (GetHTTPSPort lb) ∨ is_Some (cm_entries tcpcm !! port)).
Proof.
  intros Ht. pose proof (map_order_keys _ _ port Ht) as Hk. unfold GetExportedPorts.
  destruct tcpcm as [c|]; simpl in *.
  - rewrite !elem_of_cons, Hk. set_solver.
  - rewrite lookup_empty. pose proof (is_Some_None (A := string)). set_solver.
Qed.

Lemma GetExportedPorts_udp_elem lb tcpcm udpcm t u port :
  cm_order u udpcm →
  (port ∈ (GetExportedPorts lb tcpcm udpcm t u).2 ↔ is_Some (cm_entries udpcm !! port)).
Proof.
  intros Hu. pose proof (map_order_keys _ _ port Hu) as Hk. unfold GetExportedPorts.
  destruct udpcm as [c|]; simpl in *; [done|].
  rewrite lookup_empty. pose proof (is_Some_None (A := string)). set_solver.
Qed.
