(* ===== verification/NodeNetwork.v ===== *)
(** * providers/ipvsdr/nodenetwork.go and util.go

    Which network interface and which address a node uses for the virtual IPs,
    and the keepalived priority of a node. *)

From S2P Require Import Prelude GoStd GoNet LbApi.

(** ** util.go *)
Definition ipv4Version : string := "4".
Definition ipv6Version : string := "6".

(** [stringSlice.pos]: -1 when the value is not in the slice. *)
Fixpoint pos_from (p : Z) (slice : list string) (value : string) : Z :=
  match slice with
  | [] => -1
  | v :: slice' => if bool_decide (v = value) then p else pos_from (p + 1) slice' value
  end.

Definition pos : list string → string → Z := pos_from 0.

Definition getNodePriority (node : string) (nodes : list string) : Z :=
  100 + pos nodes node * 60.

Definition getIPVersion (ip : IP) : string :=
  match To4 ip with
  | Some _ => ipv4Version
  | None =>
      match To16 ip with
      | Some _ => ipv6Version
      | None => "unknown"
      end
  end.

(** The first address of a list that parses. *)
Fixpoint first_ip (addresses : list NodeAddress) : IP :=
  match addresses with
  | [] => None
  | a :: rest =>
      match ParseIP (addr_Address a) with
      | Some ip => Some ip
      | None => first_ip rest
      end
  end.

(** [addressMap[t]]: the addresses of one type, in their order. *)
Definition addresses_of_type (t : string) (l : list NodeAddress) : list NodeAddress :=
  filter (λ a, addr_Type a = t) l.

(** The error is returned with a nil IP; its caller looks at the IP only. *)
Definition getK8sNodeIP (node : Node) : IP * option error :=
  match first_ip (addresses_of_type "ExternalIP" (node_Addresses node)) with
  | Some ip => (Some ip, None)
  | None =>
      match first_ip (addresses_of_type "InternalIP" (node_Addresses node)) with
      | Some ip => (Some ip, None)
      | None => (None, Some (ErrorString "host IP unknown"))
      end
  end.

Definition getIPFromMap (source : gomap string) (key : string) : IP :=
  match entries source !! key with
  | None => None
  | Some v => ParseIP v
  end.

Definition getK8sNodeMetadataIP (node : Node) (key : string) : IP :=
  match getIPFromMap (node_Labels node) key with
  | Some ip => Some ip
  | None => getIPFromMap (node_Annotations node) key
  end.

Record IPNet := {
  ipnet_IP : IP;
  ipnet_Mask : list Z;
}.

Definition isMaskAllFF (n : IPNet) : bool := forallb (λ c, bool_decide (c = 255)%Z) (ipnet_Mask n).

(** ** Selectors *)
Record nodeNetSelector := {
  k8sNodeIP : string;
  ifaces : gmap string bool;
  ips : gmap string string;
}.

Record ifacePreferredNet := {
  pn_InterfaceNet : InterfaceNet;
  preferredIP : string;
}.

(** A [net.Addr] is a possibly nil [*net.IPNet] or something else. *)
Inductive Addr :=
| AddrIPNet (n : option IPNet)
| AddrOther.

(** [net.Interface] with what its method [Addrs] returns. *)
Record net_Interface := {
  iface_Name : string;
  iface_HardwareAddr : list Z;
  iface_Flags : Z;
  iface_Addrs : result (list Addr);
}.

Definition FlagLoopback : Z := 4.
Definition FlagPointToPoint : Z := 8.

(** Whether some value of the map [nns.ips] is [ip]; the order in which the map
    is visited does not matter. *)
Definition annotated_ip (nns : nodeNetSelector) (ip : string) : bool :=
  bool_decide (ip ∈ (map_to_list (ips nns)).*2).

Definition eligible (n : IPNet) : bool := IsGlobalUnicast (ipnet_IP n) && negb (isMaskAllFF n).

(** The loop of [selectIface]. *)
Fixpoint select_addrs (nns : nodeNetSelector) (selected : bool) (acc : list string)
    (addrs : list Addr) : result (bool * list string) :=
  match addrs with
  | [] => Ok (selected, acc)
  | AddrOther :: _ => Panic "interface conversion"
  | AddrIPNet None :: rest => select_addrs nns selected acc rest
  | AddrIPNet (Some n) :: rest =>
      if negb (eligible n) then select_addrs nns selected acc rest
      else
        let ip := IP_String (ipnet_IP n) in
        let selected := selected || bool_decide (ip = k8sNodeIP nns) in
        let selected := if selected then selected else annotated_ip nns ip in
        select_addrs nns selected (acc ++ [ip]) rest
  end.

Definition selectIface (nns : nodeNetSelector) (iface : net_Interface) (addrs : list Addr)
    : result (option InterfaceNet) :=
  let selected := bool_decide (is_Some (ifaces nns !! iface_Name iface)) in
  r ← select_addrs nns selected [] addrs;
  if fst r : bool then
    Ok (Some {| if_Name := iface_Name iface;
                if_Mac := HardwareAddr_String (iface_HardwareAddr iface);
                if_IPs := Some (GoSort.Strings (snd r)) |})
  else Ok None.

(** [getIP]: "" when the interface has no address of that version. *)
Definition getIP (p : ifacePreferredNet) (ipVersion : string) : string :=
  if negb (bool_decide (preferredIP p = "")) &&
     bool_decide (getIPVersion (ParseIP (preferredIP p)) = ipVersion)
  then preferredIP p
  else default "" (List.find (λ ip, bool_decide (getIPVersion (ParseIP ip) = ipVersion))
                             (elems (if_IPs (pn_InterfaceNet p)))).

Definition if_le (a b : InterfaceNet) : Prop := String.le (if_Name a) (if_Name b).

#[export] Instance if_le_dec : RelDecision if_le.
Proof. intros a b. unfold if_le. apply _. Defined.
#[export] Instance if_le_total : Total if_le.
Proof. intros a b. apply (total String.le). Qed.

(** The loop over the interfaces: loopback and point-to-point interfaces are
    skipped, and so is one whose addresses cannot be listed. *)
Fixpoint select_ifaces (nns : nodeNetSelector) (l : list net_Interface)
    : result (slice InterfaceNet) :=
  match l with
  | [] => Ok None
  | iface :: rest =>
      if negb (bool_decide (Z.land (iface_Flags iface) FlagLoopback = 0)%Z) then
        select_ifaces nns rest
      else if negb (bool_decide (Z.land (iface_Flags iface) FlagPointToPoint = 0)%Z) then
        select_ifaces nns rest
      else
        match iface_Addrs iface with
        | Err _ => select_ifaces nns rest
        | Panic why => Panic why
        | Ok addrs =>
            i ← selectIface nns iface addrs;
            l' ← select_ifaces nns rest;
            match i with
            | Some i => Ok (Some (i :: elems l'))
            | None => Ok l'
            end
        end
  end.

(** [interfaces] is what [net.Interfaces()] returns. *)
Definition getCurrentNodeIfaceIPs (interfaces : result (list net_Interface))
    (nodeName : string) (nns : nodeNetSelector) : result NodeStatus :=
  l ← interfaces;
  nets ← select_ifaces nns l;
  Ok {| ns_Name := nodeName; ns_IfaceNetList := merge_sort if_le <$> nets |}.

Definition getAllBinds (p : IpvsdrProvider) : list KeepalivedBind :=
  option_list (kp_Bind (ip_KeepalivedProvider p)) ++
  omap kp_Bind (elems (ip_Slaves p)).

Definition getNodeNetwork (nns : nodeNetSelector) (nets : list InterfaceNet)
    (bind : option KeepalivedBind) : option ifacePreferredNet :=
  let bindIface := match bind with Some b => Iface b | None => "" end in
  let preferred :=
    match bind with
    | Some b => default "" (ips nns !! NodeIPAnnotation b)
    | None => k8sNodeIP nns
    end in
  if negb (bool_decide (bindIface = "")) then
    match List.find (λ iface, bool_decide (bindIface = if_Name iface)) nets with
    | Some iface =>
        Some {| pn_InterfaceNet := iface;
                preferredIP := if bool_decide (preferred ∈ elems (if_IPs iface))
                               then preferred else "" |}
    | None => None
    end
  else if negb (bool_decide (preferred = "")) then
    match List.find (λ iface, bool_decide (preferred ∈ elems (if_IPs iface))) nets with
    | Some iface => Some {| pn_InterfaceNet := iface; preferredIP := preferred |}
    | None => None
    end
  else None.

(** The selector [getNodeNetSelector] builds for a node. *)
Definition bind_selector (n : Node) (nns : nodeNetSelector) (b : KeepalivedBind)
    : nodeNetSelector :=
  if bool_decide (NodeIPAnnotation b ≠ "") then
    match getK8sNodeMetadataIP n (NodeIPAnnotation b) with
    | None => nns
    | Some ip =>
        {| k8sNodeIP := k8sNodeIP nns; ifaces := ifaces nns;
           ips := <[NodeIPAnnotation b := IP_String (Some ip)]> (ips nns) |}
    end
  else
    {| k8sNodeIP := k8sNodeIP nns; ifaces := <[Iface b := true]> (ifaces nns);
       ips := ips nns |}.

Definition newNodeNetSelector (n : Node) (binds : list KeepalivedBind) : nodeNetSelector :=
  let nns :=
    {| k8sNodeIP := match (getK8sNodeIP n).1 with Some ip => IP_String (Some ip) | None => "" end;
       ifaces := ∅; ips := ∅ |} in
  foldl (bind_selector n) nns binds.

(** ** Priorities *)
Lemma pos_from_lookup p l v i :
  NoDup l → l !! i = Some v → pos_from p l v = (p + Z.of_nat i)%Z.
Proof.
  revert p i. induction l as [|w l IH]; intros p i Hnd Hi; [done|].
  apply NoDup_cons in Hnd as [Hw Hnd]. destruct i as [|i]; simplify_eq/=.
  - rewrite bool_decide_true by done. lia.
  - rewrite bool_decide_false; [rewrite (IH (p + 1)%Z i) by done; lia|].
    intros ->. apply Hw. by eapply list_elem_of_lookup_2.
Qed.

Lemma pos_from_not_elem p l v : v ∉ l → pos_from p l v = (-1)%Z.
Proof.
  revert p. induction l as [|w l IH]; intros p Hv; simpl; [done|].
  apply not_elem_of_cons in Hv as [Hne Hv].
  rewrite bool_decide_false by congruence. by apply IH.
Qed.

Lemma getNodePriority_lookup nodes i n :
  NoDup nodes → nodes !! i = Some n → getNodePriority n nodes = (100 + Z.of_nat i * 60)%Z.
Proof.
  intros Hnd Hi. unfold getNodePriority, pos. rewrite (pos_from_lookup 0 nodes n i) by done. lia.
Qed.

(** The keepalived priorities of the nodes of a load balancer are pairwise
    distinct, at least 60 apart and increasing along the node list, and start
    at 100; a node that is not in the list gets 40. *)
Theorem getNodePriority_ranks nodes :
  NoDup nodes →
  (∀ (i j : nat) a b, nodes !! i = Some a → nodes !! j = Some b → (i < j)%nat →
     100 <= getNodePriority a nodes ∧
     getNodePriority a nodes + 60 <= getNodePriority b nodes)%Z ∧
  (∀ n, n ∉ nodes → getNodePriority n nodes = 40%Z).
Proof.
  intros Hnd. split.
  - intros i j a b Ha Hb Hij.
    rewrite (getNodePriority_lookup nodes i a), (getNodePriority_lookup nodes j b) by done. lia.
  - intros n Hn. unfold getNodePriority, pos. by rewrite pos_from_not_elem.
Qed.

Lemma getNodePriority_ranks_witness :
  NoDup ["a"; "b"] ∧ (100 <= getNodePriority "a" ["a"; "b"] ∧
    getNodePriority "a" ["a"; "b"] + 60 <= getNodePriority "b" ["a"; "b"])%Z.
Proof.
  assert (NoDup ["a"; "b"]) as H by (apply (bool_decide_unpack _); vm_compute; exact I).
  split; [exact H|].
  destruct (getNodePriority_ranks ["a"; "b"] H) as [H1 _].
  exact (H1 0 1 "a" "b" eq_refl eq_refl (le_n 1)).
Defined.

(** VRRP allows the priorities 1 to 254.  All nodes of a load balancer have
    such a priority exactly when it has at most three nodes. *)
Theorem getNodePriority_vrrp_range nodes :
  NoDup nodes →
  ((∀ n, n ∈ nodes → 1 <= getNodePriority n nodes <= 254)%Z ↔ length nodes <= 3).
Proof.
  intros Hnd. split.
  - intros H. destruct (decide (length nodes <= 3)) as [|Hlen]; [done|exfalso].
    destruct (lookup_lt_is_Some_2 nodes 3) as [n Hn]; [lia|].
    specialize (H n ltac:(by eapply list_elem_of_lookup_2)).
    rewrite (getNodePriority_lookup nodes 3 n) in H by done. lia.
  - intros Hlen n [i Hi]%list_elem_of_lookup.
    rewrite (getNodePriority_lookup nodes i n) by done. apply lookup_lt_Some in Hi. lia.
Qed.

Lemma getNodePriority_vrrp_range_witness :
  NoDup ["a"; "b"; "c"; "d"] ∧
  ¬ (∀ n, n ∈ ["a"; "b"; "c"; "d"] →
       1 <= getNodePriority n ["a"; "b"; "c"; "d"] <= 254)%Z.
Proof.
  assert (NoDup ["a"; "b"; "c"; "d"]) as H
    by (apply (bool_decide_unpack _); vm_compute; exact I).
  split; [exact H|]. intros Hall.
  apply (getNodePriority_vrrp_range _ H) in Hall. simpl in Hall. lia.
Defined.

(** ** Addresses of a node *)
Lemma first_ip_Some l ip :
  first_ip l = Some ip ↔
  ∃ l1 a l2, l = l1 ++ a :: l2 ∧ ParseIP (addr_Address a) = Some ip ∧
    Forall (λ b, ParseIP (addr_Address b) = None) l1.
Proof.
  split.
  - induction l as [|a l IH]; simpl; [done|].
    destruct (ParseIP (addr_Address a)) eqn:E.
    + intros [= ->]. by exists [], a, l.
    + intros (l1 & b & l2 & -> & Hb & Hl)%IH. exists (a :: l1), b, l2. by auto.
  - intros (l1 & a & l2 & -> & Ha & Hl). induction Hl as [|b l1 Hb Hl IH]; simpl.
    + by rewrite Ha.
    + by rewrite Hb.
Qed.

Lemma first_ip_None l : first_ip l = None ↔ Forall (λ b, ParseIP (addr_Address b) = None) l.
Proof.
  induction l as [|a l IH]; simpl; [split; by constructor|].
  rewrite Forall_cons, <-IH. destruct (ParseIP (addr_Address a)); naive_solver.
Qed.

(** ** Interface selection *)
Definition eligible_ips (addrs : list Addr) : list string :=
  omap (λ a, match a with
             | AddrIPNet (Some n) => if eligible n then Some (IP_String (ipnet_IP n)) else None
             | _ => None
             end) addrs.

Definition wanted_ip (nns : nodeNetSelector) (ip : string) : Prop :=
  ip = k8sNodeIP nns ∨ ∃ k, ips nns !! k = Some ip.

Definition is_ipnet (a : Addr) : Prop := a ≠ AddrOther.

Lemma annotated_ip_iff nns ip : annotated_ip nns ip = true ↔ ∃ k, ips nns !! k = Some ip.
Proof.
  unfold annotated_ip. rewrite bool_decide_eq_true, list_elem_of_fmap. split.
  - intros ([k v] & -> & Hin%elem_of_map_to_list). by exists k.
  - intros [k Hk%elem_of_map_to_list]. by exists (k, ip).
Qed.

Lemma select_flag nns (sel : bool) ip :
  (if sel || bool_decide (ip = k8sNodeIP nns) then sel || bool_decide (ip = k8sNodeIP nns)
   else annotated_ip nns ip) = true ↔ sel = true ∨ wanted_ip nns ip.
Proof.
  unfold wanted_ip. rewrite <-annotated_ip_iff.
  destruct sel; simpl; [tauto|]. case_bool_decide; intuition congruence.
Qed.

Lemma select_addrs_spec nns sel acc addrs :
  Forall is_ipnet addrs →
  ∃ sel', select_addrs nns sel acc addrs = Ok (sel', acc ++ eligible_ips addrs) ∧
    (sel' = true ↔ sel = true ∨ ∃ ip, ip ∈ eligible_ips addrs ∧ wanted_ip nns ip).
Proof.
  revert sel acc. induction addrs as [|a addrs IH]; intros sel acc Hok.
  - exists sel. simpl. rewrite app_nil_r. split; [done|]. set_solver.
  - apply Forall_cons in Hok as [Ha Hok]. destruct a as [[n|]|]; [|by apply IH|done].
    cbn [select_addrs]. unfold eligible_ips. cbn [omap list_omap]. fold (eligible_ips addrs).
    destruct (eligible n); cbn [negb]; [|by apply IH].
    set (ip := IP_String (ipnet_IP n)).
    match goal with |- context [select_addrs nns ?s (acc ++ [ip]) addrs] =>
      destruct (IH s (acc ++ [ip]) Hok) as (sel' & Heq & Hsel) end.
    exists sel'. rewrite Heq, <-app_assoc. split; [done|]. rewrite Hsel, select_flag.
    setoid_rewrite elem_of_cons. fold ip. split.
    + intros [[?|?]|(x & ? & ?)]; [by left|right; by exists ip; auto|right; by exists x; auto].
    + intros [?|(x & [->|?] & ?)]; [by auto|by auto|]. right. by exists x.
Qed.

(** [selectIface] selects an interface exactly when a bind names it or one
    of its global unicast addresses (with a mask that is not all ones) is the
    node's IP or an annotated IP; a selected interface carries its name, and its
    addresses are exactly those eligible ones, sorted. *)
Theorem selectIface_spec nns iface addrs :
  Forall is_ipnet addrs →
  ∃ r, selectIface nns iface addrs = Ok r ∧
    (is_Some r ↔ is_Some (ifaces nns !! iface_Name iface) ∨
       ∃ ip, ip ∈ eligible_ips addrs ∧ wanted_ip nns ip) ∧
    (∀ i, r = Some i → if_Name i = iface_Name iface ∧
       ∃ l, if_IPs i = Some l ∧ Sorted String.le l ∧ l ≡ₚ eligible_ips addrs).
Proof.
  intros Hok. unfold selectIface.
  destruct (select_addrs_spec nns (bool_decide (is_Some (ifaces nns !! iface_Name iface)))
              [] addrs Hok) as (sel & -> & Hsel).
  rewrite bool_decide_eq_true in Hsel. unfold mbind, result_bind. simpl.
  destruct sel; eexists; (split; [done|]); rewrite <-Hsel.
  - split; [by split; eauto|]. intros i [= <-]. split; [done|].
    eexists. split; [done|]. split; [apply GoSort.Strings_sorted|apply GoSort.Strings_perm].
  - split; [|done]. split; [by intros []|done].
Qed.

Definition eth0_addrs : list Addr :=
  [AddrIPNet (Some {| ipnet_IP := Some [10; 0; 0; 7]%Z; ipnet_Mask := [255; 255; 255; 0]%Z |});
   AddrIPNet (Some {| ipnet_IP := ParseIP "fe80::1"; ipnet_Mask := replicate 8 255%Z |});
   AddrIPNet (Some {| ipnet_IP := Some [10; 0; 0; 100]%Z; ipnet_Mask := [255; 255; 255; 255]%Z |})].

Definition eth0 : net_Interface :=
  {| iface_Name := "eth0"; iface_HardwareAddr := [2; 66; 10; 0; 0; 7]%Z;
     iface_Flags := 19; iface_Addrs := Ok eth0_addrs |}.

Example eth0_selected :
  selectIface {| k8sNodeIP := "10.0.0.7"; ifaces := ∅; ips := ∅ |} eth0 eth0_addrs =
  Ok (Some {| if_Name := "eth0"; if_Mac := "02:42:0a:00:00:07"; if_IPs := Some ["10.0.0.7"] |}).
Proof. vm_compute. reflexivity. Qed.

Lemma eth0_addrs_ipnet : Forall is_ipnet eth0_addrs.
Proof. repeat constructor; done. Qed.

Lemma selectIface_spec_witness :
  ∃ r, selectIface {| k8sNodeIP := "10.0.0.7"; ifaces := ∅; ips := ∅ |} eth0 eth0_addrs = Ok r ∧
    is_Some r.
Proof.
  destruct (selectIface_spec {| k8sNodeIP := "10.0.0.7"; ifaces := ∅; ips := ∅ |} eth0
              eth0_addrs eth0_addrs_ipnet) as (r & Hr & Hsome & _).
  exists r. split; [exact Hr|]. apply Hsome. right. exists "10.0.0.7".
  split; [apply (bool_decide_unpack _); vm_compute; exact I|left; reflexivity].
Defined.

(** ** The interface and address used for a virtual IP *)
Lemma find_Some_iff {A} (p : A → bool) (l : list A) x :
  List.find p l = Some x ↔
  ∃ l1 l2, l = l1 ++ x :: l2 ∧ p x = true ∧ Forall (λ y, p y = false) l1.
Proof.
  split.
  - induction l as [|y l IH]; simpl; [done|]. destruct (p y) eqn:E.
    + intros [= ->]. by exists [], l.
    + intros (l1 & l2 & -> & Hx & Hl)%IH. exists (y :: l1), l2. by auto.
  - intros (l1 & l2 & -> & Hx & Hl). induction Hl as [|y l1 Hy Hl IH]; simpl.
    + by rewrite Hx.
    + by rewrite Hy.
Qed.

Lemma find_None_iff {A} (p : A → bool) (l : list A) :
  List.find p l = None ↔ Forall (λ y, p y = false) l.
Proof.
  induction l as [|y l IH]; simpl; [split; by constructor|].
  rewrite Forall_cons, <-IH. destruct (p y); naive_solver.
Qed.

Lemma ParseIP_nonempty v ver : getIPVersion (ParseIP v) = ver → ver ≠ "unknown" → v ≠ "".
Proof. intros <- H ->. by apply H. Qed.

Lemma getIP_facts p ver :
  ver ≠ "unknown" →
  let candidates := preferredIP p :: elems (if_IPs (pn_InterfaceNet p)) in
  (getIP p ver = "" ↔ Forall (λ ip, getIPVersion (ParseIP ip) ≠ ver) candidates) ∧
  (getIP p ver ≠ "" → getIPVersion (ParseIP (getIP p ver)) = ver ∧ getIP p ver ∈ candidates).
Proof.
  intros Hver. simpl. unfold getIP.
  pose proof (ParseIP_nonempty (preferredIP p) ver) as Hpne.
  destruct (bool_decide_reflect (getIPVersion (ParseIP (preferredIP p)) = ver)) as [Hpv|Hpv].
  - rewrite bool_decide_false by auto. simpl. rewrite Forall_cons.
    split; [naive_solver|]. intros _. split; [done|by left].
  - rewrite andb_false_r, Forall_cons.
    destruct (List.find _ _) as [ip|] eqn:E.
    + apply find_Some_iff in E as (l1 & l2 & -> & Hip%bool_decide_eq_true & _). simpl.
      pose proof (ParseIP_nonempty ip ver Hip Hver) as Hne. split.
      * split; [done|]. intros [_ Hall]. exfalso.
        apply Forall_app in Hall as [_ [Hv _]%Forall_cons]. done.
      * intros _. split; [done|]. set_solver.
    + apply find_None_iff in E. simpl. split; [|done]. split; [|done]. intros _.
      split; [done|]. eapply Forall_impl; [exact E|].
      intros ip Hip%bool_decide_eq_false. done.
Qed.

(** For a version that can be used ("4" or "6"), [getIP] returns "" exactly
    when neither the preferred IP nor any address of the interface has that
    version; what it returns otherwise has that version and is the preferred IP
    or an address of the interface. *)
Theorem getIP_spec p ver :
  ver ≠ "unknown" →
  let candidates := preferredIP p :: elems (if_IPs (pn_InterfaceNet p)) in
  (getIP p ver = "" ↔ Forall (λ ip, getIPVersion (ParseIP ip) ≠ ver) candidates) ∧
  (getIP p ver ≠ "" → getIPVersion (ParseIP (getIP p ver)) = ver ∧ getIP p ver ∈ candidates).
Proof. apply getIP_facts. Qed.

Lemma getIP_spec_witness :
  let p := {| pn_InterfaceNet :=
                {| if_Name := "eth0"; if_Mac := ""; if_IPs := Some ["10.0.0.7"; "2001:db8::7"] |};
              preferredIP := "10.0.0.7" |} in
  getIPVersion (ParseIP (getIP p "6")) = "6".
Proof.
  refine (proj1 (proj2 (getIP_spec {| pn_InterfaceNet := _; preferredIP := _ |} "6" _) _));
    apply (bool_decide_unpack _); vm_compute; exact I.
Defined.

(** The address the bind asks for. *)
Definition preferred_address (nns : nodeNetSelector) (bind : option KeepalivedBind) : string :=
  match bind with
  | Some b => default "" (ips nns !! NodeIPAnnotation b)
  | None => k8sNodeIP nns
  end.

(** [getNodeNetwork] follows the bind.  With an interface name it returns
    that interface or nothing; without one it returns the first interface that
    holds the preferred address (the annotated IP of the bind, or the node IP
    when there is no bind), and nothing when no interface holds it or no address
    is preferred.  The preferred IP of the result is always one of its own
    addresses or empty. *)
Theorem getNodeNetwork_spec nns nets bind :
  match getNodeNetwork nns nets bind with
  | Some p =>
      pn_InterfaceNet p ∈ nets ∧
      (preferredIP p = "" ∨
       preferredIP p = preferred_address nns bind ∧
       preferredIP p ∈ elems (if_IPs (pn_InterfaceNet p))) ∧
      (∀ b, bind = Some b → Iface b ≠ "" → if_Name (pn_InterfaceNet p) = Iface b) ∧
      ((∀ b, bind = Some b → Iface b = "") → preferredIP p = preferred_address nns bind)
  | None =>
      (∃ b, bind = Some b ∧ Iface b ≠ "" ∧ Forall (λ i, if_Name i ≠ Iface b) nets) ∨
      ((∀ b, bind = Some b → Iface b = "") ∧
       (preferred_address nns bind = "" ∨
        Forall (λ i, preferred_address nns bind ∉ elems (if_IPs i)) nets))
  end.
Proof.
  unfold getNodeNetwork. fold (preferred_address nns bind).
  destruct (bool_decide_reflect (match bind with Some b => Iface b | None => "" end = ""))
    as [Hb|Hb]; simpl.
  - assert (∀ b, bind = Some b → Iface b = "") as Hb' by (by intros b ->).
    destruct (bool_decide_reflect (preferred_address nns bind = "")) as [Hp|Hp]; simpl.
    { right. auto. }
    destruct (List.find _ nets) as [i|] eqn:E; simpl.
    + apply find_Some_iff in E as (l1 & l2 & -> & Hi%bool_decide_eq_true & _).
      split; [set_solver|]. split; [right; done|]. split; [|done].
      intros b Hbb Hne. by rewrite (Hb' b Hbb) in Hne.
    + apply find_None_iff in E. right. split; [done|]. right.
      eapply Forall_impl; [exact E|]. intros i Hi%bool_decide_eq_false. done.
  - destruct bind as [b|]; [|done]. destruct (List.find _ nets) as [i|] eqn:E; simpl.
    + apply find_Some_iff in E as (l1 & l2 & -> & Hi%bool_decide_eq_true & _).
      split; [set_solver|]. split; [|split].
      * case_bool_decide; [right; done|by left].
      * by intros b' [= <-] _.
      * intros Hall. by rewrite (Hall b eq_refl) in Hb.
    + apply find_None_iff in E. left. exists b. split; [done|]. split; [done|].
      eapply Forall_impl; [exact E|]. intros i Hi%bool_decide_eq_false. done.
Qed.

(** ** The selector of a node *)
Definition annotations_of (binds : list KeepalivedBind) : list string :=
  filter (λ a, a ≠ "") (NodeIPAnnotation <$> binds).

Lemma elem_of_annotations k binds :
  k ∈ annotations_of binds ↔ k ≠ "" ∧ k ∈ NodeIPAnnotation <$> binds.
Proof. unfold annotations_of. by rewrite list_elem_of_filter. Qed.

Lemma bind_selector_ifaces n nns b i :
  is_Some (ifaces (bind_selector n nns b) !! i) ↔
  is_Some (ifaces nns !! i) ∨ (NodeIPAnnotation b = "" ∧ Iface b = i).
Proof.
  unfold bind_selector. destruct (bool_decide_reflect (NodeIPAnnotation b ≠ "")) as [Hne|Heq].
  - destruct (getK8sNodeMetadataIP _ _); simpl; tauto.
  - apply dec_stable in Heq. simpl. rewrite lookup_insert. case_decide; [|tauto].
    split; [by auto|by eauto].
Qed.

Lemma bind_selector_ips n nns b k :
  ips (bind_selector n nns b) !! k =
  if decide (k ≠ "" ∧ k = NodeIPAnnotation b) then
    match getK8sNodeMetadataIP n k with
    | Some ip => Some (IP_String (Some ip))
    | None => ips nns !! k
    end
  else ips nns !! k.
Proof.
  unfold bind_selector. destruct (bool_decide_reflect (NodeIPAnnotation b ≠ "")) as [Hne|Heq].
  - destruct (decide _) as [[_ ->]|Hk].
    + destruct (getK8sNodeMetadataIP _ _); simpl; [apply lookup_insert_eq|done].
    + destruct (getK8sNodeMetadataIP _ _); simpl; [|done].
      apply lookup_insert_ne. intros <-. by apply Hk.
  - apply dec_stable in Heq. rewrite decide_False by (intros [? ->]; done). done.
Qed.

Lemma bind_selector_fold n binds nns :
  let r := foldl (bind_selector n) nns binds in
  (∀ i, is_Some (ifaces r !! i) ↔
     is_Some (ifaces nns !! i) ∨ ∃ b, b ∈ binds ∧ NodeIPAnnotation b = "" ∧ Iface b = i) ∧
  (∀ k, ips r !! k =
     if decide (k ∈ annotations_of binds) then
       match getK8sNodeMetadataIP n k with
       | Some ip => Some (IP_String (Some ip))
       | None => ips nns !! k
       end
     else ips nns !! k).
Proof.
  revert nns. induction binds as [|b binds IH]; intros nns; cbn [foldl].
  - split; [set_solver|]. intros k. rewrite decide_False; [done|].
    unfold annotations_of. set_solver.
  - destruct (IH (bind_selector n nns b)) as (H2 & H3). split.
    + intros i. rewrite H2, bind_selector_ifaces. set_solver.
    + intros k. rewrite H3, bind_selector_ips.
      assert (k ∈ annotations_of (b :: binds) ↔
        (k ≠ "" ∧ k = NodeIPAnnotation b) ∨ k ∈ annotations_of binds) as Hk.
      { rewrite !elem_of_annotations. set_solver. }
      destruct (decide (k ∈ annotations_of (b :: binds))) as [Hin|Hin];
        repeat case_decide; try tauto; by destruct (getK8sNodeMetadataIP n k).
Qed.

(** The selector of a node names exactly the interfaces of the binds without
    an annotation, and for every annotated bind the node's label or annotation
    when it is an IP address, written in canonical form. *)
Theorem newNodeNetSelector_spec n binds :
  (∀ i, is_Some (ifaces (newNodeNetSelector n binds) !! i) ↔
     ∃ b, b ∈ binds ∧ NodeIPAnnotation b = "" ∧ Iface b = i) ∧
  (∀ k ip, ips (newNodeNetSelector n binds) !! k = Some ip ↔
     k ≠ "" ∧ k ∈ NodeIPAnnotation <$> binds ∧
     ∃ a, getK8sNodeMetadataIP n k = Some a ∧ ip = IP_String (Some a)).
Proof.
  unfold newNodeNetSelector.
  match goal with |- context [foldl _ ?s binds] =>
    destruct (bind_selector_fold n binds s) as (H2 & H3) end.
  split.
  - intros i. rewrite H2. simpl. rewrite lookup_empty.
    pose proof (is_Some_None (A := bool)). set_solver.
  - intros k ip. rewrite H3. simpl. rewrite lookup_empty. unfold annotations_of.
    case_decide as Hk; rewrite list_elem_of_filter in Hk.
    + destruct (getK8sNodeMetadataIP n k); naive_solver.
    + naive_solver.
Qed.

(** The node IP is the first parsable ExternalIP address, and the first
    parsable InternalIP address only when no ExternalIP address parses. *)
Theorem getK8sNodeIP_spec n :
  match getK8sNodeIP n with
  | (Some ip, err) =>
      err = None ∧
      ((∃ a, a ∈ node_Addresses n ∧ addr_Type a = "ExternalIP" ∧
          ParseIP (addr_Address a) = Some ip) ∨
       (∃ a, a ∈ node_Addresses n ∧ addr_Type a = "InternalIP" ∧
          ParseIP (addr_Address a) = Some ip) ∧
       (∀ a, a ∈ node_Addresses n → addr_Type a = "ExternalIP" →
          ParseIP (addr_Address a) = None))
  | (None, err) =>
      err ≠ None ∧
      ∀ a, a ∈ node_Addresses n → addr_Type a = "ExternalIP" ∨ addr_Type a = "InternalIP" →
        ParseIP (addr_Address a) = None
  end.
Proof.
  assert (∀ t ip, first_ip (addresses_of_type t (node_Addresses n)) = Some ip →
    ∃ a, a ∈ node_Addresses n ∧ addr_Type a = t ∧ ParseIP (addr_Address a) = Some ip) as Hsome.
  { intros t ip (l1 & a & l2 & Hl & Ha & _)%first_ip_Some. exists a.
    assert (a ∈ addresses_of_type t (node_Addresses n)) as Hin by (rewrite Hl; set_solver).
    unfold addresses_of_type in Hin. apply list_elem_of_filter in Hin. naive_solver. }
  assert (∀ t, first_ip (addresses_of_type t (node_Addresses n)) = None →
    ∀ a, a ∈ node_Addresses n → addr_Type a = t → ParseIP (addr_Address a) = None) as Hnone.
  { intros t Ht a Ha Hat. apply first_ip_None in Ht. rewrite Forall_forall in Ht.
    apply Ht. unfold addresses_of_type. by apply list_elem_of_filter. }
  unfold getK8sNodeIP.
  destruct (first_ip (addresses_of_type "ExternalIP" _)) as [ip|] eqn:E1; [by auto|].
  destruct (first_ip (addresses_of_type "InternalIP" _)) as [ip|] eqn:E2; [by eauto 6|].
  split; [done|]. intros a Ha []; eauto.
Qed.

(** ** The node's status *)
Lemma if_le_trans : Transitive if_le.
Proof. intros a b c. unfold if_le. apply transitivity. Qed.

Lemma select_ifaces_elem nns l nets i :
  select_ifaces nns l = Ok nets → i ∈ elems nets →
  ∃ iface addrs, iface ∈ l ∧ iface_Addrs iface = Ok addrs ∧
    selectIface nns iface addrs = Ok (Some i) ∧
    Z.land (iface_Flags iface) FlagLoopback = 0%Z ∧
    Z.land (iface_Flags iface) FlagPointToPoint = 0%Z.
Proof.
  revert nets. induction l as [|iface l IH]; intros nets; cbn [select_ifaces].
  { intros [= <-]. set_solver. }
  assert (∀ nets, select_ifaces nns l = Ok nets → i ∈ elems nets →
    ∃ iface0 addrs, iface0 ∈ iface :: l ∧ iface_Addrs iface0 = Ok addrs ∧
      selectIface nns iface0 addrs = Ok (Some i) ∧
      Z.land (iface_Flags iface0) FlagLoopback = 0%Z ∧
      Z.land (iface_Flags iface0) FlagPointToPoint = 0%Z) as IH'.
  { intros nets' H Hi. destruct (IH nets' H Hi) as (x & y & ? & ?). exists x, y. set_solver. }
  destruct (bool_decide_reflect (Z.land (iface_Flags iface) FlagLoopback = 0)%Z); [|by apply IH'].
  destruct (bool_decide_reflect (Z.land (iface_Flags iface) FlagPointToPoint = 0)%Z);
    [|by apply IH'].
  destruct (iface_Addrs iface) as [addrs|err|why] eqn:Ea; [|by apply IH'|done]. simpl.
  unfold mbind, result_bind.
  destruct (selectIface nns iface addrs) as [[j|]| |] eqn:Ej; [| |done|done];
    destruct (select_ifaces nns l) as [l'| |] eqn:El; try done; intros [= <-].
  - simpl. rewrite elem_of_cons. intros [->|Hi]; [|by apply (IH' l')].
    exists iface, addrs. set_solver.
  - by apply (IH' l').
Qed.

(** The status a node publishes lists only selected interfaces that are
    neither loopback nor point-to-point, ordered by name, under the node's
    name. *)
Theorem getCurrentNodeIfaceIPs_spec l nodeName nns st :
  getCurrentNodeIfaceIPs (Ok l) nodeName nns = Ok st →
  ns_Name st = nodeName ∧
  Sorted if_le (elems (ns_IfaceNetList st)) ∧
  (∀ i, i ∈ elems (ns_IfaceNetList st) →
     ∃ iface addrs, iface ∈ l ∧ iface_Addrs iface = Ok addrs ∧
       selectIface nns iface addrs = Ok (Some i) ∧
       Z.land (iface_Flags iface) FlagLoopback = 0%Z ∧
       Z.land (iface_Flags iface) FlagPointToPoint = 0%Z).
Proof.
  unfold getCurrentNodeIfaceIPs, mbind, result_bind.
  destruct (select_ifaces nns l) as [nets| |] eqn:E; try done. intros [= <-]. simpl.
  split; [done|]. destruct nets as [nets|]; simpl.
  - split; [apply Sorted_merge_sort; apply _|]. intros i Hi.
    rewrite merge_sort_Permutation in Hi. by apply (select_ifaces_elem nns l (Some nets)).
  - split; [constructor|set_solver].
Qed.

Lemma getCurrentNodeIfaceIPs_spec_witness :
  let nns := {| k8sNodeIP := "10.0.0.7"; ifaces := ∅; ips := ∅ |} in
  ∃ st, getCurrentNodeIfaceIPs (Ok [eth0]) "node1" nns = Ok st ∧ ns_Name st = "node1".
Proof.
  eexists. split; [vm_compute; reflexivity|].
  refine (proj1 (getCurrentNodeIfaceIPs_spec [eth0] "node1"
    {| k8sNodeIP := "10.0.0.7"; ifaces := ∅; ips := ∅ |} _ _)).
  vm_compute. reflexivity.
Defined.
