(* ===== verification/Sysctl.v ===== *)
(** * core/pkg/sysctl

    Bulk changes of kernel parameters under /proc/sys and their restoration.
    The file system is an interface: what the program relies on is that a
    successful write is what a later read returns (up to surrounding white
    space), that a failed write changes nothing, and that a write to one file
    does not change another. *)

From S2P Require Import Prelude GoStd.
From Stdlib Require Import Ascii.

Class ProcFS (W : Type) := {
  ReadFile : string → W → result string;
  WriteFile : string → string → W → result () * W;
}.

Class ProcFSLaws (W : Type) `{!ProcFS W} := {
  write_read p v w w' :
    WriteFile p v w = (Ok (), w') →
    ∃ c, ReadFile p w' = Ok c ∧ GoStrings.TrimSpace c = GoStrings.TrimSpace v;
  write_fails p v w e w' : WriteFile p v w = (Err e, w') → ReadFile p w' = ReadFile p w;
  write_frame p q v w r w' : WriteFile p v w = (r, w') → p ≠ q → ReadFile q w' = ReadFile q w;
  write_returns p v w why w' : WriteFile p v w ≠ (Panic why, w');
  read_returns p w why : ReadFile p w ≠ Panic why;
}.

Definition sysctlBase : string := "/proc/sys".

Definition sysctlPath (name : string) : string :=
  GoPath.Join sysctlBase (GoStrings.Replace name "."%char "/"%char).

Section sysctl.
Context {W : Type} `{!ProcFS W}.
(** [runtime.GOOS]. *)
Context (GOOS : string).

Definition GetSysctl (sysctl : string) : prog W string := λ w,
  if bool_decide (GOOS ≠ "linux") then (Err (ErrorString ("not support on os: " +:+ GOOS)), w)
  else (data ← ReadFile (sysctlPath sysctl) w; Ok (GoStrings.TrimSpace data), w).

Definition SetSysctl (sysctl newVal : string) : prog W () := λ w,
  if bool_decide (GOOS ≠ "linux") then (Err (ErrorString ("not support on os: " +:+ GOOS)), w)
  else WriteFile (sysctlPath sysctl) newVal w.

(** [BulkModify] in the order [ord] of its map; it returns the original values
    it has read so far together with the error that stopped it, if any. *)
Fixpoint bulk_loop (ord : list (string * string)) (originalSysctl : gmap string string)
    : prog W (gmap string string * option error) :=
  match ord with
  | [] => mret (originalSysctl, None)
  | (k, v) :: rest =>
      defVar ← catch (GetSysctl k);
      match defVar with
      | inr err => mret (originalSysctl, Some err)
      | inl defVar =>
          let originalSysctl := <[k := defVar]> originalSysctl in
          r ← catch (SetSysctl k v);
          match r with
          | inr err => mret (originalSysctl, Some err)
          | inl _ => bulk_loop rest originalSysctl
          end
      end
  end.

Definition BulkModify (ord : list (string * string))
    : prog W (gmap string string * option error) :=
  bulk_loop ord ∅.

(** The current value of a parameter. *)
Definition sysctl_value (k : string) (w : W) : result string := fst (GetSysctl k w).

Definition distinct_paths (keys : list string) : Prop := NoDup (sysctlPath <$> keys).

Lemma GetSysctl_pure k w : GetSysctl k w = (sysctl_value k w, w).
Proof. unfold sysctl_value, GetSysctl. by case_bool_decide. Qed.

Lemma sysctl_value_path k k' w w' :
  ReadFile (sysctlPath k) w = ReadFile (sysctlPath k') w' →
  sysctl_value k w = sysctl_value k' w'.
Proof. unfold sysctl_value, GetSysctl. intros Heq. case_bool_decide; simpl; by rewrite ?Heq. Qed.

Section laws.
Context `{!ProcFSLaws W}.

Lemma SetSysctl_frame k k' v w r w' :
  SetSysctl k v w = (r, w') → sysctlPath k ≠ sysctlPath k' →
  sysctl_value k' w' = sysctl_value k' w.
Proof.
  unfold SetSysctl. case_bool_decide; intros Heq Hne; simplify_eq; [done|].
  apply sysctl_value_path. by eapply write_frame.
Qed.

Lemma SetSysctl_cases k v w :
  ∃ r w', SetSysctl k v w = (r, w') ∧
    ((r = Ok () ∧ sysctl_value k w' = Ok (GoStrings.TrimSpace v)) ∨
     (∃ e, r = Err e ∧ sysctl_value k w' = sysctl_value k w)).
Proof.
  unfold SetSysctl, sysctl_value, GetSysctl.
  destruct (bool_decide_reflect (GOOS ≠ "linux")) as [Hos|Hos].
  { eexists _, _. split; [done|]. right. by eexists. }
  destruct (WriteFile (sysctlPath k) v w) as [[[]|e|why] w'] eqn:Hw.
  - eexists _, _. split; [done|]. left. split; [done|].
    destruct (write_read _ _ _ _ Hw) as (c & Hc & Htrim). simpl. by rewrite Hc, <-Htrim.
  - eexists _, _. split; [done|]. right. exists e. split; [done|]. simpl.
    by rewrite (write_fails _ _ _ _ _ Hw).
  - exfalso. by eapply write_returns.
Qed.

Lemma GetSysctl_returns k w why : sysctl_value k w ≠ Panic why.
Proof.
  unfold sysctl_value, GetSysctl. case_bool_decide; [done|]. simpl.
  pose proof (read_returns (sysctlPath k) w) as Hr.
  unfold mbind, result_bind. by destruct (ReadFile _ w); naive_solver.
Qed.

(** What the loop leaves behind, whether or not an error stopped it: it visited
    a prefix of the settings, saved their original values, and touched nothing
    else. *)
Definition bulk_post (ord : list (string * string)) (orig : gmap string string) (w : W)
    (orig' : gmap string string) (err : option error) (w' : W) : Prop :=
  ∃ visited rest, ord = visited ++ rest ∧
    (∀ k, k ∈ visited.*1 → Ok <$> orig' !! k = Some (sysctl_value k w)) ∧
    (∀ k, k ∉ visited.*1 → orig' !! k = orig !! k) ∧
    (∀ k, sysctlPath k ∉ sysctlPath <$> visited.*1 → sysctl_value k w' = sysctl_value k w) ∧
    (err = None → rest = [] ∧
      ∀ k v, (k, v) ∈ ord → sysctl_value k w' = Ok (GoStrings.TrimSpace v)).

Lemma bulk_loop_spec ord orig w :
  distinct_paths ord.*1 →
  ∃ orig' err w', bulk_loop ord orig w = (Ok (orig', err), w') ∧
    bulk_post ord orig w orig' err w'.
Proof.
  revert orig w. induction ord as [|[k v] ord IH]; intros orig w Hnd.
  { eexists _, _, _. split; [done|]. exists [], []. set_solver. }
  unfold distinct_paths in Hnd. rewrite !fmap_cons in Hnd. simpl in Hnd.
  apply NoDup_cons in Hnd as [Hk Hnd].
  cbn [bulk_loop]. unfold mbind at 1, prog_bind at 1, catch at 1. rewrite GetSysctl_pure.
  destruct (sysctl_value k w) as [old|e|why] eqn:Hold; [| |by apply GetSysctl_returns in Hold].
  2: { eexists _, _, _. split; [done|]. exists [], ((k, v) :: ord). set_solver. }
  unfold mbind at 1, prog_bind at 1, catch at 1.
  destruct (SetSysctl_cases k v w) as (r & w1 & Hset & Hr). rewrite Hset.
  assert (∀ k', sysctlPath k' ≠ sysctlPath k → sysctl_value k' w1 = sysctl_value k' w) as Hframe.
  { intros k' Hne. by eapply SetSysctl_frame. }
  destruct Hr as [[-> Hval]|(e & -> & Hval)].
  - destruct (IH (<[k := old]> orig) w1 Hnd)
      as (orig' & err & w' & Heq & vis & rest & -> & Hs & Hn & Hf & Hd).
    eexists _, _, _. split; [exact Heq|]. exists ((k, v) :: vis), rest.
    rewrite !fmap_app in Hk.
    assert (sysctlPath k ∉ sysctlPath <$> vis.*1) as Hkv by set_solver.
    assert (k ∉ vis.*1) as Hkv' by (intros ?; apply Hkv; set_solver).
    split; [done|]. simpl. split_and!.
    + intros k' [->|Hk']%elem_of_cons.
      * rewrite Hn, lookup_insert_eq by done. simpl. congruence.
      * rewrite Hs by done. f_equal. apply Hframe. intros Hp. apply Hkv. rewrite <-Hp.
        set_solver.
    + intros k' [Hne Hk']%not_elem_of_cons. rewrite Hn by done. by rewrite lookup_insert_ne.
    + intros k' [Hne Hk']%not_elem_of_cons. rewrite Hf by done. by apply Hframe.
    + intros He. destruct (Hd He) as [-> Hd']. split; [done|].
      intros k' v' [[= -> ->]|Hin]%elem_of_cons; [|by apply Hd'].
      by rewrite Hf, Hval.
  - eexists _, _, _. split; [done|]. exists [(k, v)], ord. simpl.
    split_and!; [done| | | |done].
    + intros k' ->%list_elem_of_singleton. rewrite lookup_insert_eq. simpl. congruence.
    + intros k' Hk'. rewrite lookup_insert_ne; [done|]. set_solver.
    + intros k' Hk'. destruct (decide (sysctlPath k' = sysctlPath k)) as [Hp|Hp];
        [set_solver|by apply Hframe].
Qed.

(** However the loop ends, a parameter has its old value or that of a setting. *)
Lemma bulk_loop_values ord orig w r w' k :
  bulk_loop ord orig w = (r, w') →
  sysctl_value k w' = sysctl_value k w ∨
  ∃ k1 v, (k1, v) ∈ ord ∧ sysctlPath k1 = sysctlPath k ∧
    sysctl_value k w' = Ok (GoStrings.TrimSpace v).
Proof.
  revert orig w. induction ord as [|[k1 v] ord IH]; intros orig w; cbn [bulk_loop].
  { intros [= _ <-]. by left. }
  unfold mbind at 1, prog_bind at 1, catch at 1. rewrite GetSysctl_pure.
  destruct (sysctl_value k1 w); [|intros [= _ <-]; by left..].
  unfold mbind at 1, prog_bind at 1, catch at 1.
  destruct (SetSysctl_cases k1 v w) as (r1 & w1 & Hset & Hr). rewrite Hset.
  assert (sysctl_value k w1 = sysctl_value k w ∨
    sysctlPath k1 = sysctlPath k ∧ sysctl_value k w1 = Ok (GoStrings.TrimSpace v)) as Hk.
  { destruct (decide (sysctlPath k1 = sysctlPath k)) as [Hp|Hp];
      [|left; by eapply SetSysctl_frame].
    assert (∀ u, sysctl_value k u = sysctl_value k1 u) as Hsame
      by (intros u; apply sysctl_value_path; by rewrite Hp).
    rewrite !Hsame. destruct Hr as [[_ ->]|(e & _ & ->)]; auto. }
  assert (∀ r0 (w0 : W), (Ok r0 : result (gmap string string * option error), w1) = (r, w0) → w0 = w1)
    as Hend by by intros ?? [= _ ->].
  destruct Hr as [[-> _]|(e & -> & _)].
  - intros [->|(k2 & v2 & Hin & Hp & Hv)]%IH.
    + destruct Hk as [->|[Hp ->]]; [by left|]. right. exists k1, v. split; [by left|done].
    + right. exists k2, v2. split; [by right|done].
  - intros ->%Hend. destruct Hk as [->|[Hp ->]]; [by left|]. right. exists k1, v. split; [by left|done].
Qed.

Lemma distinct_paths_inj ord k k' :
  distinct_paths ord → k ∈ ord → k' ∈ ord → sysctlPath k = sysctlPath k' → k = k'.
Proof.
  unfold distinct_paths. intros Hnd [i Hi]%list_elem_of_lookup [j Hj]%list_elem_of_lookup Hp.
  assert (i = j) as ->; [|congruence].
  eapply NoDup_lookup; [exact Hnd|rewrite list_lookup_fmap, Hi; done|].
  rewrite list_lookup_fmap, Hj. simpl. by rewrite Hp.
Qed.

(** When [BulkModify] succeeds, every setting has its new value and the
    returned map holds exactly the original values of the settings. *)
Theorem BulkModify_success ord adjustments w orig w' :
  map_order ord adjustments → distinct_paths ord.*1 →
  BulkModify ord w = (Ok (orig, None), w') →
  (∀ k v, adjustments !! k = Some v → sysctl_value k w' = Ok (GoStrings.TrimSpace v)) ∧
  (∀ k, is_Some (orig !! k) ↔ is_Some (adjustments !! k)) ∧
  (∀ k old, orig !! k = Some old → sysctl_value k w = Ok old).
Proof.
  intros Hord Hnd Heq. unfold BulkModify in Heq.
  destruct (bulk_loop_spec ord ∅ w Hnd)
    as (o1 & e1 & w1' & Heq' & vis & rest & Hvis & Hs & Hn & Hf & Hd).
  rewrite Heq in Heq'. injection Heq' as <- <- <-.
  destruct (Hd eq_refl) as [-> Hd']. rewrite app_nil_r in *. subst vis.
  pose proof (λ k, map_order_keys _ _ k Hord) as Hkeys.
  split_and!.
  - intros k v Hk. apply Hd'. by apply (map_order_lookup _ _ _ _ Hord).
  - intros k. rewrite <-Hkeys. split.
    + intros Hsome. destruct (decide (k ∈ ord.*1)) as [|Hk]; [done|].
      rewrite (Hn k Hk), lookup_empty in Hsome. by destruct Hsome.
    + intros Hk. specialize (Hs k Hk). destruct (_ !! k); [by eexists|done].
  - intros k old Hk. destruct (decide (k ∈ ord.*1)) as [Hin|Hin].
    + specialize (Hs k Hin). rewrite Hk in Hs. simpl in Hs. congruence.
    + by rewrite (Hn k Hin), lookup_empty in Hk.
Qed.

Lemma sysctl_value_trimmed k w v : sysctl_value k w = Ok v → GoStrings.TrimSpace v = v.
Proof.
  unfold sysctl_value, GetSysctl. case_bool_decide; [done|]. simpl. unfold mbind, result_bind.
  destruct (ReadFile _ w); [|done..]. intros [= <-]. apply GoStrings.TrimSpace_idem.
Qed.

(** The map that is returned has the settings that were visited. *)
Lemma saved_distinct ord w orig err w1 ord' :
  map_order ord' orig → distinct_paths ord.*1 → BulkModify ord w = (Ok (orig, err), w1) →
  distinct_paths ord'.*1.
Proof.
  intros Hord' Hnd Heq1. unfold BulkModify in *.
  destruct (bulk_loop_spec ord ∅ w Hnd) as (o1 & e1 & w1' & Heq' & vis & rest & -> & _ & Hn & _).
  rewrite Heq1 in Heq'. injection Heq' as <- <- <-.
  assert (∀ k, k ∈ ord'.*1 → k ∈ vis.*1) as Hsame.
  { intros k Hk%(map_order_keys _ _ _ Hord'). destruct (decide (k ∈ vis.*1)) as [|Hk']; [done|].
    rewrite (Hn k Hk'), lookup_empty in Hk. by destruct Hk. }
  unfold distinct_paths. apply NoDup_fmap_2_strong.
  - intros a b Ha%Hsame Hb%Hsame. apply (distinct_paths_inj (vis ++ rest).*1);
      [done|rewrite fmap_app; set_solver..].
  - by apply (map_order_keys_NoDup _ _ Hord').
Qed.

(** Writing back the saved values, shared by the providers. *)
Lemma restore_after ord adjustments w orig err w1 ord' orig' w2 k :
  map_order ord adjustments → distinct_paths ord.*1 →
  BulkModify ord w = (Ok (orig, err), w1) →
  map_order ord' orig →
  BulkModify ord' w1 = (Ok (orig', None), w2) →
  sysctl_value k w2 = sysctl_value k w.
Proof.
  intros Hord Hnd Heq1 Hord' Heq2. pose proof (saved_distinct _ _ _ _ _ _ Hord' Hnd Heq1) as Hnd'.
  unfold BulkModify in *. destruct (bulk_loop_spec ord ∅ w Hnd)
    as (o1 & e1 & w1' & Heq' & vis & rest & Hvis & Hs & Hn & Hf & _).
  rewrite Heq1 in Heq'. injection Heq' as <- <- <-. subst ord.
  pose proof (λ k, map_order_keys _ _ k Hord') as Hkeys.
  assert (∀ k, k ∈ ord'.*1 ↔ k ∈ vis.*1) as Hsame.
  { intros k'. rewrite Hkeys. split.
    - intros Hsome. destruct (decide (k' ∈ vis.*1)) as [|Hk]; [done|].
      rewrite (Hn k' Hk), lookup_empty in Hsome. by destruct Hsome.
    - intros Hk. specialize (Hs k' Hk). destruct (_ !! k'); [by eexists|done]. }
  destruct (bulk_loop_spec ord' ∅ w1 Hnd')
    as (o1 & e1 & w1' & Heq' & vis' & rest' & Hvis' & _ & _ & Hf' & Hd').
  rewrite Heq2 in Heq'. injection Heq' as <- <- <-. destruct (Hd' eq_refl) as [-> Hd].
  rewrite app_nil_r in *. subst vis'.
  destruct (decide (sysctlPath k ∈ sysctlPath <$> ord'.*1)) as [Hin|Hin].
  - apply list_elem_of_fmap in Hin as (k1 & Hp & Hk1).
    assert (∀ u, sysctl_value k u = sysctl_value k1 u) as Hk.
    { intros u. apply sysctl_value_path. by rewrite Hp. }
    rewrite !Hk.
    apply list_elem_of_fmap in Hk1 as ([k2 v] & Hk12 & Hin). simpl in Hk12. subst k2.
    rewrite (Hd _ _ Hin). apply (map_order_lookup _ _ _ _ Hord') in Hin.
    specialize (Hs k1 ltac:(apply Hsame, Hkeys; eauto)). rewrite Hin in Hs. simpl in Hs.
    injection Hs as Hs. rewrite <-Hs. f_equal. by eapply sysctl_value_trimmed.
  - rewrite Hf' by done. apply Hf. intros Hk. apply Hin.
    apply list_elem_of_fmap in Hk as (k1 & -> & Hk1). apply list_elem_of_fmap_2.
    by apply Hsame.
Qed.

(** Writing back the saved values, however far it gets: every parameter has the
    value from before the change or is still as the change left it. *)
Lemma restore_partial ord w orig err w1 ord' r w2 k :
  distinct_paths ord.*1 →
  BulkModify ord w = (Ok (orig, err), w1) → map_order ord' orig → BulkModify ord' w1 = (r, w2) →
  sysctl_value k w2 = sysctl_value k w ∨ sysctl_value k w2 = sysctl_value k w1.
Proof.
  intros Hnd Heq1 Hord' Heq2. unfold BulkModify in *.
  destruct (bulk_loop_spec ord ∅ w Hnd) as (o1 & e1 & w1' & Heq' & vis & rest & _ & Hs & Hn & _).
  rewrite Heq1 in Heq'. injection Heq' as <- <- <-.
  apply bulk_loop_values with (k := k) in Heq2 as [->|(k1 & v & Hin & Hp & ->)]; [by right|left].
  apply (map_order_lookup _ _ _ _ Hord') in Hin.
  assert (sysctl_value k1 w = Ok v) as Hv.
  { destruct (decide (k1 ∈ vis.*1)) as [Hk|Hk].
    - specialize (Hs k1 Hk). rewrite Hin in Hs. simpl in Hs. congruence.
    - by rewrite (Hn k1 Hk), lookup_empty in Hin. }
  rewrite (sysctl_value_trimmed _ _ _ Hv), <-Hv. apply sysctl_value_path. by rewrite Hp.
Qed.

(** C32: Restoring works even after a partial failure: whatever error stopped
    [BulkModify], writing back the map it returned, when that succeeds, leaves
    every kernel parameter with the value it had before. *)
Theorem BulkModify_restore ord adjustments w orig err w1 ord' orig' w2 k :
  map_order ord adjustments → distinct_paths ord.*1 →
  BulkModify ord w = (Ok (orig, err), w1) →
  map_order ord' orig →
  BulkModify ord' w1 = (Ok (orig', None), w2) →
  sysctl_value k w2 = sysctl_value k w.
Proof. apply restore_after. Qed.

End laws.
End sysctl.

(** ** An in-memory /proc/sys

    Reading a missing file fails, so does writing one; the kernel ends every
    value with a newline. *)
Definition newline : string := String "010" "".

#[export] Instance memory_fs : ProcFS (gmap string string) := {
  ReadFile p w := match w !! p with
                  | Some c => Ok (c +:+ newline)
                  | None => Err (ErrorString "no such file or directory")
                  end;
  WriteFile p v w := match w !! p with
                     | Some _ => (Ok (), <[p := v]> w)
                     | None => (Err (ErrorString "no such file or directory"), w)
                     end;
}.

Lemma trim_right_newline s :
  GoStrings.trim_right (s +:+ newline) = GoStrings.trim_right s.
Proof.
  induction s as [|c s IH]; [done|].
  change (String c s +:+ newline) with (String c (s +:+ newline)).
  cbn [GoStrings.trim_right]. by rewrite IH.
Qed.

Lemma TrimSpace_newline s :
  GoStrings.TrimSpace (s +:+ newline) = GoStrings.TrimSpace s.
Proof.
  unfold GoStrings.TrimSpace. induction s as [|c s IH]; [done|].
  change (String c s +:+ newline) with (String c (s +:+ newline)).
  cbn [GoStrings.trim_left]. destruct (GoStrings.is_space c); [done|].
  apply (trim_right_newline (String c s)).
Qed.

#[export] Instance memory_fs_laws : ProcFSLaws (gmap string string).
Proof.
  split; simpl.
  - intros p v w w' H. destruct (w !! p); simplify_eq. rewrite lookup_insert_eq.
    eexists. split; [done|]. apply TrimSpace_newline.
  - intros p v w e w' H. destruct (w !! p) eqn:E; [done|].
    injection H as _ <-. by rewrite E.
  - intros p q v w r w' H Hne. destruct (w !! p); simplify_eq; [|done].
    by rewrite lookup_insert_ne.
  - intros p v w why w' H. destruct (w !! p); discriminate.
  - intros p w why H. destruct (w !! p); discriminate.
Qed.

(** Two settings on a file system that has both files. *)
Definition somaxconn_fs : gmap string string :=
  {[ "/proc/sys/net/core/somaxconn" := "128"; "/proc/sys/net/ipv4/tcp_max_syn_backlog" := "512" ]}.

Definition somaxconn_settings : gmap string string :=
  {[ "net.core.somaxconn" := "2048"; "net.ipv4.tcp_max_syn_backlog" := "8192" ]}.

Lemma somaxconn_distinct : distinct_paths (map_to_list somaxconn_settings).*1.
Proof. apply (bool_decide_unpack _). vm_compute. exact I. Qed.

(** The state after the change, the saved values and the state after the
    restoration. *)
Definition somaxconn_order : list (string * string) := map_to_list somaxconn_settings.
Definition changed_fs : gmap string string :=
  snd (BulkModify "linux" somaxconn_order somaxconn_fs).
Definition saved_of (r : result (gmap string string * option error)) : gmap string string :=
  match r with Ok (orig, _) => orig | _ => ∅ end.
Definition saved_settings : gmap string string :=
  saved_of (fst (BulkModify "linux" somaxconn_order somaxconn_fs)).
Definition restore_order : list (string * string) := map_to_list saved_settings.
Definition restored_fs : gmap string string :=
  snd (BulkModify "linux" restore_order changed_fs).
Definition resaved_settings : gmap string string :=
  saved_of (fst (BulkModify "linux" restore_order changed_fs)).

Lemma BulkModify_success_witness :
  BulkModify "linux" somaxconn_order somaxconn_fs = (Ok (saved_settings, None), changed_fs) ∧
  sysctl_value "linux" "net.core.somaxconn" changed_fs = Ok (GoStrings.TrimSpace "2048").
Proof.
  assert (BulkModify "linux" somaxconn_order somaxconn_fs =
    (Ok (saved_settings, None), changed_fs)) as H by by_compute.
  split; [exact H|].
  refine (proj1 (BulkModify_success "linux" _ somaxconn_settings _ _ _
    (map_order_self _) somaxconn_distinct H) "net.core.somaxconn" "2048" _).
  vm_compute. reflexivity.
Defined.

Lemma BulkModify_restore_witness :
  BulkModify "linux" restore_order changed_fs = (Ok (resaved_settings, None), restored_fs) ∧
  sysctl_value "linux" "net.core.somaxconn" restored_fs =
  sysctl_value "linux" "net.core.somaxconn" somaxconn_fs.
Proof.
  assert (BulkModify "linux" somaxconn_order somaxconn_fs =
    (Ok (saved_settings, None), changed_fs)) as H1 by by_compute.
  assert (BulkModify "linux" restore_order changed_fs =
    (Ok (resaved_settings, None), restored_fs)) as H2 by by_compute.
  split; [exact H2|].
  exact (BulkModify_restore "linux" _ somaxconn_settings _ _ _ _ _ _ _ "net.core.somaxconn"
    (map_order_self _) somaxconn_distinct H1 (map_order_self _) H2).
Defined.
