(* ===== verification/Workqueue.v ===== *)
(** * The work queue of the controller

    [workqueue.Type] of client-go with its delayed and rate limited additions,
    and [syncqueue.SyncQueue] on top of it.  Every method of [Type] holds the
    queue's lock, so it is one function on the state.  The delays of the rate
    limiter are not modelled: an item waiting for its delay may be added at any
    later time.  The channel of waiting items is unbounded here; in the code a
    sender blocks when 1000 items wait. *)

From S2P Require Import Prelude.

Record workqueue := {
  queue : list string;
  dirty : gset string;
  processing : gset string;
  shuttingDown : bool;
}.

Definition new_workqueue : workqueue :=
  {| queue := []; dirty := ∅; processing := ∅; shuttingDown := false |}.

Definition Add (q : workqueue) (item : string) : workqueue :=
  if shuttingDown q then q
  else if bool_decide (item ∈ dirty q) then q
  else
    let dirty' := {[ item ]} ∪ dirty q in
    if bool_decide (item ∈ processing q) then
      {| queue := queue q; dirty := dirty'; processing := processing q;
         shuttingDown := shuttingDown q |}
    else
      {| queue := queue q ++ [item]; dirty := dirty'; processing := processing q;
         shuttingDown := shuttingDown q |}.

(** [Get] blocks on an empty queue until the queue is shut down. *)
Inductive get_result :=
| GetBlocks
| GetShutdown
| GetItem (item : string) (q : workqueue).

Definition Get (q : workqueue) : get_result :=
  match queue q with
  | [] => if shuttingDown q then GetShutdown else GetBlocks
  | item :: rest =>
      GetItem item
        {| queue := rest; dirty := dirty q ∖ {[ item ]};
           processing := {[ item ]} ∪ processing q; shuttingDown := shuttingDown q |}
  end.

Definition Done (q : workqueue) (item : string) : workqueue :=
  let processing' := processing q ∖ {[ item ]} in
  {| queue := if bool_decide (item ∈ dirty q) then queue q ++ [item] else queue q;
     dirty := dirty q; processing := processing'; shuttingDown := shuttingDown q |}.

Definition ShutDown (q : workqueue) : workqueue :=
  {| queue := queue q; dirty := dirty q; processing := processing q; shuttingDown := true |}.

(** ** SyncQueue *)
Definition maxRetries : nat := 3.

Record SyncQueue := {
  sq_queue : workqueue;
  (** the failures counted by the rate limiter *)
  failures : gmap string nat;
  (** [waitingForAddCh] and the entries of [waitingForQueue] *)
  waitingCh : list string;
  waitingFor : gset string;
  sq_stopped : bool;
}.

Definition new_SyncQueue : SyncQueue :=
  {| sq_queue := new_workqueue; failures := ∅; waitingCh := []; waitingFor := ∅;
     sq_stopped := false |}.

Definition set_queue (sq : SyncQueue) (q : workqueue) : SyncQueue :=
  {| sq_queue := q; failures := failures sq; waitingCh := waitingCh sq;
     waitingFor := waitingFor sq; sq_stopped := sq_stopped sq |}.

Definition NumRequeues (sq : SyncQueue) (item : string) : nat :=
  default 0 (failures sq !! item).

Definition Forget (sq : SyncQueue) (item : string) : SyncQueue :=
  {| sq_queue := sq_queue sq; failures := delete item (failures sq);
     waitingCh := waitingCh sq; waitingFor := waitingFor sq; sq_stopped := sq_stopped sq |}.

(** The rate limiter counts the failure before [AddAfter] looks whether the
    queue is shutting down; its delay is never zero. *)
Definition AddRateLimited (sq : SyncQueue) (item : string) : SyncQueue :=
  {| sq_queue := sq_queue sq; failures := <[item := S (NumRequeues sq item)]> (failures sq);
     waitingCh := if shuttingDown (sq_queue sq) then waitingCh sq else waitingCh sq ++ [item];
     waitingFor := waitingFor sq; sq_stopped := sq_stopped sq |}.

(** One turn of [waitingLoop]: it receives an item, which is added at once when
    its delay has passed meanwhile, or it adds an item whose delay has passed. *)
Definition wait_receive (ready : bool) (sq : SyncQueue) : option SyncQueue :=
  match waitingCh sq with
  | [] => None
  | item :: rest =>
      Some {| sq_queue := if ready then Add (sq_queue sq) item else sq_queue sq;
              failures := failures sq; waitingCh := rest;
              waitingFor := if ready then waitingFor sq else {[ item ]} ∪ waitingFor sq;
              sq_stopped := sq_stopped sq |}
  end.

Definition wait_fire (item : string) (sq : SyncQueue) : option SyncQueue :=
  if bool_decide (item ∈ waitingFor sq) then
    Some {| sq_queue := Add (sq_queue sq) item; failures := failures sq;
            waitingCh := waitingCh sq; waitingFor := waitingFor sq ∖ {[ item ]};
            sq_stopped := sq_stopped sq |}
  else None.

(** [Enqueue] of an object whose key is [key]. *)
Definition Enqueue (sq : SyncQueue) (key : string) : SyncQueue :=
  if shuttingDown (sq_queue sq) then sq else set_queue sq (Add (sq_queue sq) key).

Definition handleSyncError (sq : SyncQueue) (err : option error) (item : string) : SyncQueue :=
  match err with
  | None => Forget sq item
  | Some _ =>
      if bool_decide (NumRequeues sq item < maxRetries) then AddRateLimited sq item
      else Forget sq item
  end.

Definition sq_Done (sq : SyncQueue) (item : string) : SyncQueue :=
  set_queue sq (Done (sq_queue sq) item).

(** [SyncQueue.ShutDown] up to its wait for the worker: a second call closes a
    closed channel. *)
Definition sq_ShutDown (sq : SyncQueue) : result SyncQueue :=
  if sq_stopped sq then Panic "close of closed channel"
  else Ok {| sq_queue := ShutDown (sq_queue sq); failures := failures sq;
             waitingCh := waitingCh sq; waitingFor := waitingFor sq; sq_stopped := true |}.

Definition error_of {A} (r : A + error) : option error :=
  match r with inl _ => None | inr e => Some e end.

(** [processNextWorkItem] when [Get] does not block; it returns whether the
    worker goes on.  A panic of the handler runs the deferred [Done] and goes
    on. *)
Definition processNextWorkItem {W} (syncHandler : string → prog W ()) (sq : SyncQueue) (w : W)
    : option (result bool * SyncQueue * W) :=
  match Get (sq_queue sq) with
  | GetBlocks => None
  | GetShutdown => Some (Ok false, sq, w)
  | GetItem obj q =>
      let sq := set_queue sq q in
      match catch (syncHandler obj) w with
      | (Ok r, w) => Some (Ok true, sq_Done (handleSyncError sq (error_of r) obj) obj, w)
      | (Err e, w) => Some (Err e, sq_Done sq obj, w)
      | (Panic why, w) => Some (Panic why, sq_Done sq obj, w)
      end
  end.

(** ** The invariant of the queue

    An item is queued exactly when it needs processing and is not being
    processed, and it is queued once. *)
Definition wq_ok (q : workqueue) : Prop :=
  NoDup (queue q) ∧ ∀ k, k ∈ queue q ↔ k ∈ dirty q ∧ k ∉ processing q.

(** What the goroutines of the program do with the queue; only the worker that
    got an item marks it done. *)
Inductive wq_step : workqueue → workqueue → Prop :=
| step_Add q k : wq_step q (Add q k)
| step_Get q k q' : Get q = GetItem k q' → wq_step q q'
| step_Done q k : k ∈ processing q → wq_step q (Done q k)
| step_ShutDown q : wq_step q (ShutDown q).

Lemma new_workqueue_ok : wq_ok new_workqueue.
Proof. split; simpl; [constructor|set_solver]. Qed.

Lemma Add_ok q k : wq_ok q → wq_ok (Add q k).
Proof.
  intros [Hnd Hq]. unfold Add. destruct (shuttingDown q); [done|].
  case_bool_decide as Hd; [done|]. case_bool_decide as Hp; split; simpl; try done.
  - intros x. rewrite Hq. set_solver.
  - apply NoDup_snoc. split; [|done]. rewrite Hq. tauto.
  - intros x. rewrite elem_of_app, Hq. set_solver.
Qed.

Lemma Get_inv q k q' :
  Get q = GetItem k q' →
  queue q = k :: queue q' ∧ dirty q' = dirty q ∖ {[ k ]} ∧
  processing q' = {[ k ]} ∪ processing q ∧ shuttingDown q' = shuttingDown q.
Proof.
  unfold Get. destruct (queue q) as [|x l]; [by destruct (shuttingDown q)|].
  by intros [= <- <-].
Qed.

Lemma Get_ok q k q' : wq_ok q → Get q = GetItem k q' → wq_ok q' ∧ k ∉ processing q.
Proof.
  intros [Hnd Hq] (Hl & Hd & Hp & _)%Get_inv. unfold wq_ok. rewrite Hl in Hnd.
  apply NoDup_cons in Hnd as [Hk Hnd].
  assert (k ∉ processing q) as Hkp by (apply Hq; rewrite Hl; by left).
  split; [|done]. split; [done|]. intros x. rewrite Hd, Hp.
  specialize (Hq x). rewrite Hl, elem_of_cons in Hq.
  destruct (decide (x = k)) as [->|Hne]; set_solver.
Qed.

Lemma Done_ok q k : wq_ok q → k ∈ processing q → wq_ok (Done q k).
Proof.
  intros [Hnd Hq] Hk. assert (k ∉ queue q) as Hkq by (rewrite Hq; tauto).
  unfold Done. split; simpl; case_bool_decide as Hd; try done.
  - by apply NoDup_snoc.
  - intros x. rewrite elem_of_app, Hq, list_elem_of_singleton.
    destruct (decide (x = k)) as [->|Hne]; set_solver.
  - intros x. rewrite Hq. destruct (decide (x = k)) as [->|Hne]; set_solver.
Qed.

Lemma wq_step_ok q q' : wq_step q q' → wq_ok q → wq_ok q'.
Proof.
  intros [] Hq; [by apply Add_ok|by eapply Get_ok|by apply Done_ok|done].
Qed.

Lemma wq_reachable_ok q : rtc wq_step new_workqueue q → wq_ok q.
Proof.
  intros H. pose proof new_workqueue_ok as Hq. revert Hq.
  induction H as [|q q1 q2 Hs _ IH]; [done|]. intros Hq. apply IH. by eapply wq_step_ok.
Qed.

(** Mutual exclusion and no starvation by a duplicate: in every reachable
    state of the queue, whatever the interleaving, an item handed to a worker is
    not being processed by another one, is no longer queued, and is queued
    again only by a later addition. *)
Theorem Get_exclusive q k q' :
  rtc wq_step new_workqueue q → Get q = GetItem k q' →
  (k ∉ processing q) ∧ (k ∈ processing q') ∧ (k ∉ queue q') ∧ (k ∉ dirty q').
Proof.
  intros Hr Hg. pose proof (wq_reachable_ok _ Hr) as Hok.
  destruct (Get_ok _ _ _ Hok Hg) as [Hok' Hk]. pose proof Hg as (_ & Hd & Hp & _)%Get_inv.
  assert (k ∈ processing q') by set_solver.
  split_and!; [done..| |].
  - rewrite (proj2 Hok'). tauto.
  - set_solver.
Qed.

Lemma Get_exclusive_witness :
  let q := Add new_workqueue "ns/lb" in
  rtc wq_step new_workqueue q ∧ "ns/lb" ∉ processing q.
Proof.
  assert (rtc wq_step new_workqueue (Add new_workqueue "ns/lb")) as Hr
    by (apply rtc_once, step_Add).
  split; [exact Hr|]. exact (proj1 (Get_exclusive _ "ns/lb" _ Hr eq_refl)).
Defined.

(** No update is lost.  An item added to a queue that is not shutting down
    needs processing from then on, through any interleaving, until [Get] hands
    it to a worker; and once no worker is processing it, it is in the queue. *)
Theorem Add_not_lost q k :
  rtc wq_step new_workqueue q → shuttingDown q = false →
  k ∈ dirty (Add q k) ∧
  (∀ q1 q2, k ∈ dirty q1 → wq_step q1 q2 → k ∈ dirty q2 ∨ Get q1 = GetItem k q2) ∧
  (∀ q1, rtc wq_step new_workqueue q1 → k ∈ dirty q1 → k ∉ processing q1 → k ∈ queue q1).
Proof.
  intros Hr Hdown. split_and!.
  - unfold Add. rewrite Hdown. repeat case_bool_decide; set_solver.
  - intros q1 q2 Hk Hs. destruct Hs as [q1 k'|q1 k' q2 Hg|q1 k' _|q1]; [| |by left|by left].
    + left. unfold Add. destruct (shuttingDown q1); [done|].
      repeat case_bool_decide; set_solver.
    + pose proof Hg as (_ & Hd & _)%Get_inv.
      destruct (decide (k' = k)) as [->|]; [by right|left; set_solver].
  - intros q1 Hr1 Hd Hp. apply (wq_reachable_ok _ Hr1). done.
Qed.

Lemma Add_not_lost_witness :
  rtc wq_step new_workqueue new_workqueue ∧ "ns/lb" ∈ dirty (Add new_workqueue "ns/lb").
Proof.
  split; [apply rtc_refl|].
  exact (proj1 (Add_not_lost new_workqueue "ns/lb" (rtc_refl _ _) eq_refl)).
Defined.

(** ** Retries *)

(** The worker runs, and every delay passes, until the queue is idle or shut
    down; [None] when the fuel runs out or the handler panics. *)
Fixpoint run_queue {W} (fuel : nat) (syncHandler : string → prog W ()) (sq : SyncQueue) (w : W)
    : option (SyncQueue * W) :=
  match fuel with
  | 0 => None
  | S fuel =>
      match processNextWorkItem syncHandler sq w with
      | None | Some (Ok false, _, _) => Some (sq, w)
      | Some (Ok true, sq, w) =>
          run_queue fuel syncHandler (default sq (wait_receive true sq)) w
      | Some (_, _, _) => None
      end
  end.

Definition sq_idle (sq : SyncQueue) : Prop :=
  sq_queue sq = new_workqueue ∧ waitingCh sq = [] ∧ waitingFor sq = ∅.

(** A handler that counts its calls and whose [n]-th call has the outcome
    [o n]. *)
Definition counting_handler (o : nat → option error) (_ : string) : prog nat () := λ n,
  (match o n with None => Ok () | Some e => Err e end, S n).

(** The calls from the [n]-th on, when [more] retries are left. *)
Fixpoint attempts (more : nat) (o : nat → option error) (n : nat) : nat :=
  match o n, more with
  | None, _ | Some _, 0 => 1
  | Some _, S more => S (attempts more o (S n))
  end.

Lemma attempts_bounds more o n : 1 <= attempts more o n <= 1 + more.
Proof.
  revert n. induction more as [|more IH]; intros n; simpl; destruct (o n); try lia.
  specialize (IH (S n)). lia.
Qed.

Lemma attempts_failed more o n m : S m < attempts more o n → o (n + m) ≠ None.
Proof.
  revert n m. induction more as [|more IH]; intros n m; simpl; destruct (o n) eqn:E; try lia.
  destruct m as [|m]; [by rewrite Nat.add_0_r, E|]. rewrite <-Nat.add_succ_comm.
  intros H. apply IH. lia.
Qed.

Definition pending (sq : SyncQueue) (key : string) : Prop :=
  sq_queue sq = Add new_workqueue key ∧ waitingCh sq = [] ∧ waitingFor sq = ∅.

Lemma Done_after_Get key :
  Get (Add new_workqueue key) =
    GetItem key {| queue := []; dirty := ({[ key ]} ∪ ∅) ∖ {[ key ]};
                   processing := {[ key ]} ∪ ∅; shuttingDown := false |} ∧
  Done {| queue := []; dirty := ({[ key ]} ∪ ∅) ∖ {[ key ]};
          processing := {[ key ]} ∪ ∅; shuttingDown := false |} key = new_workqueue.
Proof.
  unfold Get, Add, Done, new_workqueue. simpl. rewrite !bool_decide_false by set_solver.
  split; [done|]. f_equal; apply leibniz_equiv; set_solver.
Qed.

(** One run of the worker over a pending key. *)
Lemma processNextWorkItem_pending o sq key n :
  pending sq key →
  ∃ sq', processNextWorkItem (counting_handler o) sq n = Some (Ok true, sq', S n) ∧
    sq_queue sq' = new_workqueue ∧ waitingFor sq' = ∅ ∧
    match o n with
    | Some _ =>
        if decide (NumRequeues sq key < maxRetries) then
          waitingCh sq' = [key] ∧ failures sq' = <[key := S (NumRequeues sq key)]> (failures sq)
        else waitingCh sq' = [] ∧ failures sq' = delete key (failures sq)
    | None => waitingCh sq' = [] ∧ failures sq' = delete key (failures sq)
    end.
Proof.
  intros (Hq & Hch & Hfor). unfold processNextWorkItem. rewrite Hq.
  destruct (Done_after_Get key) as [-> HD]. unfold catch, counting_handler.
  destruct (o n) as [e|]; simpl.
  - eexists. split; [done|]. unfold handleSyncError, NumRequeues, AddRateLimited, Forget. simpl.
    case_decide; [rewrite bool_decide_true by done|rewrite bool_decide_false by done];
      simpl; by rewrite Hch.
  - eexists. split; [done|]. by unfold handleSyncError, Forget; simpl.
Qed.

Lemma run_queue_step {W} fuel h sq (w : W) sq' w' :
  processNextWorkItem h sq w = Some (Ok true, sq', w') →
  run_queue (S fuel) h sq w = run_queue fuel h (default sq' (wait_receive true sq')) w'.
Proof. intros H. cbn [run_queue]. by rewrite H. Qed.

Lemma run_queue_end {W} fuel h sq (w : W) :
  sq_queue sq = new_workqueue → run_queue (S fuel) h sq w = Some (sq, w).
Proof. intros H. cbn [run_queue]. unfold processNextWorkItem. by rewrite H. Qed.

Lemma run_queue_pending o key more sq n fuel :
  pending sq key → NumRequeues sq key + more = maxRetries → more + 2 <= fuel →
  ∃ sq', run_queue fuel (counting_handler o) sq n = Some (sq', attempts more o n + n) ∧
    sq_idle sq' ∧ failures sq' = delete key (failures sq).
Proof.
  revert sq n fuel. induction more as [|more IH]; intros sq n fuel Hp Hmore Hfuel;
    (destruct fuel as [|[|fuel]]; [lia..|]);
    destruct (processNextWorkItem_pending o sq key n Hp) as (sq1 & Heq & Hq & Hfor & Hcase);
    simpl attempts; destruct (o n) as [e|] eqn:Ho.
  1, 2, 4: try (rewrite decide_False in Hcase by lia); destruct Hcase as [Hch Hfail];
    exists sq1; (split; [|done]); rewrite (run_queue_step _ _ _ _ _ _ Heq);
    unfold wait_receive; rewrite Hch; by apply run_queue_end.
  rewrite decide_True in Hcase by lia. destruct Hcase as [Hch Hfail].
  rewrite (run_queue_step _ _ _ _ _ _ Heq). unfold wait_receive. rewrite Hch. cbn [default].
  match goal with |- context [run_queue (S fuel) _ ?s _] =>
    destruct (IH s (S n) (S fuel)) as (sq' & Hrun & Hidle & Hf) end.
  - split; simpl; [by rewrite Hq|done].
  - unfold NumRequeues in *. simpl. rewrite Hfail, lookup_insert_eq. simpl. lia.
  - lia.
  - exists sq'. rewrite <-plus_n_Sm in Hrun. split; [exact Hrun|]. split; [done|].
    rewrite Hf. simpl. rewrite Hfail. apply delete_insert_eq.
Qed.

(** C22: Retries terminate.  A key enqueued on an idle queue is handed to the
    handler until its first success and at most [1 + maxRetries] times; then the
    queue is idle again and the key's failures are forgotten.  This holds for
    every sequence of outcomes of the handler. *)
Theorem sync_attempts o key sq :
  sq_idle sq → NumRequeues sq key = 0 →
  ∃ sq', run_queue (maxRetries + 2) (counting_handler o) (Enqueue sq key) 0 =
      Some (sq', attempts maxRetries o 0) ∧
    sq_idle sq' ∧ NumRequeues sq' key = 0 ∧ 1 <= attempts maxRetries o 0 <= 1 + maxRetries ∧
    (∀ m, m < attempts maxRetries o 0 - 1 → o m ≠ None).
Proof.
  intros (Hq & Hch & Hfor) Hn.
  assert (pending (Enqueue sq key) key) as Hp.
  { unfold pending, Enqueue. rewrite Hq. simpl. done. }
  destruct (run_queue_pending o key maxRetries (Enqueue sq key) 0 (maxRetries + 2) Hp)
    as (sq' & Hrun & Hidle & Hf).
  { unfold NumRequeues, Enqueue in *. rewrite Hq. simpl. lia. }
  { lia. }
  rewrite Nat.add_0_r in Hrun. exists sq'. split; [exact Hrun|]. split; [done|]. split_and!.
  - unfold NumRequeues. by rewrite Hf, lookup_delete_eq.
  - apply attempts_bounds.
  - apply attempts_bounds.
  - intros m Hm. apply (attempts_failed maxRetries o 0). lia.
Qed.

Lemma sync_attempts_witness :
  sq_idle new_SyncQueue ∧
  1 <= attempts maxRetries (λ _, Some (ErrorString "conflict")) 0 <= 1 + maxRetries.
Proof.
  assert (sq_idle new_SyncQueue) as H by (split_and!; reflexivity).
  split; [exact H|].
  destruct (sync_attempts (λ _, Some (ErrorString "conflict")) "ns/lb" new_SyncQueue H eq_refl)
    as (? & _ & _ & _ & Hb & _).
  exact Hb.
Defined.
