(* ===== verification/WorkqueueSpec.v ===== *)
(** * What the work queue promises

    The contract of [workqueue.Type] as an abstract machine: a first-in-first-out
    line of waiting items without duplicates, the items that are being
    processed, and those among them that were added again meanwhile.  The
    implementation, which keeps a slice and two overlapping sets, refines it. *)

From S2P Require Import Prelude Workqueue.

(** ** The contract *)
Record line := {
  waiting : list string;
  busy : gset string;
  again : gset string;
  closed : bool;
}.

Inductive op :=
| OpAdd (k : string)
| OpGet
| OpDone (k : string)
| OpShutDown.

(** What [Get] gives its caller. *)
Inductive answer :=
| Blocks
| Closed
| Hands (k : string).

Definition line_step (l : line) (o : op) : option answer * line :=
  match o with
  | OpAdd k =>
      (None,
       if closed l then l
       else if bool_decide (k ∈ waiting l) then l
       else if bool_decide (k ∈ busy l) then
         {| waiting := waiting l; busy := busy l; again := {[ k ]} ∪ again l; closed := closed l |}
       else
         {| waiting := waiting l ++ [k]; busy := busy l; again := again l; closed := closed l |})
  | OpGet =>
      match waiting l with
      | [] => (Some (if closed l then Closed else Blocks), l)
      | k :: rest =>
          (Some (Hands k),
           {| waiting := rest; busy := {[ k ]} ∪ busy l; again := again l; closed := closed l |})
      end
  | OpDone k =>
      (None,
       {| waiting := if bool_decide (k ∈ again l) then waiting l ++ [k] else waiting l;
          busy := busy l ∖ {[ k ]}; again := again l ∖ {[ k ]}; closed := closed l |})
  | OpShutDown =>
      (None, {| waiting := waiting l; busy := busy l; again := again l; closed := true |})
  end.

(** Only an item that is being processed is marked done. *)
Definition op_ok (l : line) (o : op) : Prop :=
  match o with OpDone k => k ∈ busy l | _ => True end.

#[export] Instance op_ok_dec l o : Decision (op_ok l o).
Proof. destruct o; unfold op_ok; apply _. Defined.

(** ** The implementation *)
Definition queue_step (q : workqueue) (o : op) : option answer * workqueue :=
  match o with
  | OpAdd k => (None, Add q k)
  | OpGet =>
      match Get q with
      | GetBlocks => (Some Blocks, q)
      | GetShutdown => (Some Closed, q)
      | GetItem k q' => (Some (Hands k), q')
      end
  | OpDone k => (None, Done q k)
  | OpShutDown => (None, ShutDown q)
  end.

(** The line a queue stands for. *)
Definition line_of (q : workqueue) : line :=
  {| waiting := queue q; busy := processing q; again := dirty q ∩ processing q;
     closed := shuttingDown q |}.

(** The answers of a sequence of operations, and the final state. *)
Fixpoint run {S} (step : S → op → option answer * S) (s : S) (ops : list op) : list answer * S :=
  match ops with
  | [] => ([], s)
  | o :: ops =>
      let '(a, s) := step s o in
      let '(answers, s) := run step s ops in
      (option_list a ++ answers, s)
  end.

(** The operations are allowed by the contract, each where it is called. *)
Fixpoint ops_ok (l : line) (ops : list op) : Prop :=
  match ops with
  | [] => True
  | o :: ops => op_ok l o ∧ ops_ok (line_step l o).2 ops
  end.

#[export] Instance ops_ok_dec l ops : Decision (ops_ok l ops).
Proof. revert l. induction ops; intros l; simpl; apply _. Defined.

(** ** Refinement *)
Lemma line_eq l l' :
  waiting l = waiting l' → (∀ k, k ∈ busy l ↔ k ∈ busy l') → (∀ k, k ∈ again l ↔ k ∈ again l') →
  closed l = closed l' → l = l'.
Proof.
  destruct l, l'; simpl. intros -> Hb%set_eq Ha%set_eq ->.
  by subst.
Qed.

Lemma wq_op_ok q o : wq_ok q → op_ok (line_of q) o → wq_ok (queue_step q o).2.
Proof.
  intros Hq Ho. destruct o as [k| |k|]; simpl in *.
  - by apply Add_ok.
  - destruct (Get q) as [| |k q'] eqn:Hg; [done..|]. by eapply Get_ok.
  - by apply Done_ok.
  - done.
Qed.

(** One operation of the queue is the operation of the line it stands for. *)
Lemma queue_step_line q o :
  wq_ok q → op_ok (line_of q) o →
  line_step (line_of q) o = ((queue_step q o).1, line_of (queue_step q o).2).
Proof.
  intros [Hnd Hq] Ho. destruct o as [k| |k|]; cbn [line_step queue_step fst snd].
  - clear Ho. f_equal. unfold Add. cbn [line_of closed waiting busy].
    destruct (shuttingDown q) eqn:Hs; [done|]. specialize (Hq k). destruct (decide (k ∈ dirty q)) as [Hd|Hd].
    + rewrite (bool_decide_true (k ∈ dirty q)) by done. case_bool_decide; [done|].
      assert (k ∈ processing q) as Hp by (destruct (decide (k ∈ processing q)); tauto).
      rewrite bool_decide_true by done. apply line_eq; simpl; try done. set_solver.
    + rewrite (bool_decide_false (k ∈ dirty q)), (bool_decide_false (k ∈ queue q)) by tauto.
      case_bool_decide; apply line_eq; simpl; try done; set_solver.
  - unfold Get. cbn [line_of waiting closed]. destruct (queue q) as [|k rest] eqn:Hl.
    { by destruct (shuttingDown q). }
    cbn [fst snd]. f_equal. apply line_eq; simpl; try done. intros x.
    specialize (Hq k). rewrite elem_of_cons in Hq. set_solver.
  - simpl in Ho. f_equal. unfold Done. apply line_eq; simpl; try done; [|set_solver].
    repeat case_bool_decide; set_solver.
  - done.
Qed.

Lemma run_refines q ops :
  wq_ok q → ops_ok (line_of q) ops →
  run line_step (line_of q) ops = ((run queue_step q ops).1, line_of (run queue_step q ops).2) ∧
  wq_ok (run queue_step q ops).2.
Proof.
  revert q. induction ops as [|o ops IH]; intros q Hq; [done|]. intros [Ho Hops].
  cbn [run]. rewrite (queue_step_line q o Hq Ho) in Hops |- *.
  pose proof (wq_op_ok q o Hq Ho) as Hq'. destruct (queue_step q o) as [a q']. simpl in *.
  destruct (IH q' Hq' Hops) as [-> Hend]. by destruct (run queue_step q' ops).
Qed.

(** C21: The work queue refines its contract.  Whatever the goroutines of the program
    do, in whatever order, as long as only an item being processed is marked
    done: every [Get] gives the answer of the contract, and the final queue
    stands for the final line. *)
Theorem workqueue_refines ops :
  ops_ok (line_of new_workqueue) ops →
  run line_step (line_of new_workqueue) ops =
    ((run queue_step new_workqueue ops).1, line_of (run queue_step new_workqueue ops).2).
Proof. intros H. exact (proj1 (run_refines _ _ new_workqueue_ok H)). Qed.

(** ** Order *)
Fixpoint gets (ops : list op) : nat :=
  match ops with
  | [] => 0
  | OpGet :: ops => S (gets ops)
  | _ :: ops => gets ops
  end.

Lemma line_step_waiting l o k n :
  waiting l !! n = Some k →
  match o, n with
  | OpGet, 0 => (line_step l o).1 = Some (Hands k)
  | OpGet, S n => waiting (line_step l o).2 !! n = Some k ∧ ∃ k', (line_step l o).1 = Some (Hands k')
  | _, _ => waiting (line_step l o).2 !! n = Some k ∧ (line_step l o).1 = None
  end.
Proof.
  intros Hk. destruct o as [k'| |k'|]; cbn [line_step fst snd waiting].
  - split; [|done]. repeat case_match; simpl; try done. by apply lookup_app_l_Some.
  - destruct (waiting l) as [|k0 rest]; [done|]. destruct n as [|n]; simpl in *; [by simplify_eq|].
    by split; [|eexists].
  - split; [|done]. case_bool_decide; [by apply lookup_app_l_Some|done].
  - done.
Qed.

Lemma line_fifo l ops k n :
  waiting l !! n = Some k → n < gets ops → (run line_step l ops).1 !! n = Some (Hands k).
Proof.
  revert l n. induction ops as [|o ops IH]; intros l n Hk Hn; [by inversion Hn|].
  pose proof (line_step_waiting l o k n Hk) as Hs. cbn [run].
  destruct (line_step l o) as [a l']. simpl in Hs.
  destruct (run line_step l' ops) as [answers l''] eqn:Hr.
  assert (∀ m, waiting l' !! m = Some k → m < gets ops → answers !! m = Some (Hands k)) as IH'.
  { intros m Hm Hlt. specialize (IH l' m Hm Hlt). by rewrite Hr in IH. }
  destruct o as [k'| |k'|]; unfold gets in Hn; simpl in Hn.
  1,3,4: destruct Hs as [Hs ->]; by apply IH'.
  destruct n as [|n]; [by subst a|]. destruct Hs as [Hs [k0 ->]]. simpl.
  apply IH'; [done|]. unfold gets. lia.
Qed.

Lemma ops_ok_app l ops1 ops2 :
  ops_ok l (ops1 ++ ops2) ↔ ops_ok l ops1 ∧ ops_ok (run line_step l ops1).2 ops2.
Proof.
  revert l. induction ops1 as [|o ops1 IH]; intros l; simpl; [tauto|]. rewrite IH.
  destruct (line_step l o) as [a l']. simpl. destruct (run line_step l' ops1). simpl. tauto.
Qed.

(** First in, first out.  The [n]-th item of the queue is handed out by the
    [n]-th [Get] from then on, whatever else is done with the queue meanwhile:
    no later item overtakes it, and it is not lost. *)
Theorem Get_fifo before after k n :
  let q := (run queue_step new_workqueue before).2 in
  ops_ok (line_of new_workqueue) (before ++ after) →
  queue q !! n = Some k → n < gets after →
  (run queue_step q after).1 !! n = Some (Hands k).
Proof.
  intros q (Hb & Ha)%ops_ok_app Hk Hn.
  destruct (run_refines _ _ new_workqueue_ok Hb) as [Hrun Hq]. rewrite Hrun in Ha.
  pose proof (line_fifo (line_of q) after k n Hk Hn) as Hf.
  by rewrite (proj1 (run_refines q after Hq Ha)) in Hf.
Qed.

(** ** Witnesses *)

(** Two additions of one item while it is processed become one. *)
Definition example_ops : list op :=
  [OpAdd "a"; OpAdd "b"; OpAdd "a"; OpGet; OpAdd "a"; OpAdd "a"; OpDone "a"].

Lemma workqueue_refines_witness :
  ops_ok (line_of new_workqueue) (example_ops ++ [OpGet; OpGet; OpGet]) ∧
  (run line_step (line_of new_workqueue) (example_ops ++ [OpGet; OpGet; OpGet])).1 =
    [Hands "a"; Hands "b"; Hands "a"; Blocks] ∧
  run line_step (line_of new_workqueue) (example_ops ++ [OpGet; OpGet; OpGet]) =
    ((run queue_step new_workqueue (example_ops ++ [OpGet; OpGet; OpGet])).1,
     line_of (run queue_step new_workqueue (example_ops ++ [OpGet; OpGet; OpGet])).2).
Proof.
  assert (ops_ok (line_of new_workqueue) (example_ops ++ [OpGet; OpGet; OpGet])) as H by by_compute.
  split; [exact H|]. split; [reflexivity|]. exact (workqueue_refines _ H).
Defined.

Lemma Get_fifo_witness :
  let q := (run queue_step new_workqueue example_ops).2 in
  let after := [OpAdd "c"; OpGet; OpShutDown; OpGet] in
  ops_ok (line_of new_workqueue) (example_ops ++ after) ∧ queue q !! 1 = Some "a" ∧ 1 < gets after ∧
  (run queue_step q after).1 !! 1 = Some (Hands "a").
Proof.
  intros q after. assert (ops_ok (line_of new_workqueue) (example_ops ++ after)) as H by by_compute.
  assert (1 < gets after) as Hn by (apply Nat.lt_succ_diag_r).
  split; [exact H|]. split; [reflexivity|]. split; [exact Hn|].
  exact (Get_fifo example_ops after "a" 1 H eq_refl Hn).
Defined.
