(* ===== verification/Controller.v ===== *)
(** * core/provider: the generic provider

    The event handlers, the sync handler and the life cycle of
    [GenericProvider], over the informer's store and the work queue. *)

From S2P Require Import Prelude GoStd LbApi Workqueue.
From Stdlib Require Import Ascii.

(** ** Keys *)

(** What the informer hands to a delete handler. *)
Inductive object :=
| ObjLoadBalancer (lb : LoadBalancer)
| ObjTombstone (key : string) (obj : option LoadBalancer)
| ObjExplicitKey (key : string)
| ObjOther.

Definition MetaNamespaceKeyFunc (obj : object) : result string :=
  match obj with
  | ObjExplicitKey key => Ok key
  | ObjLoadBalancer lb =>
      if bool_decide (lb_Namespace lb = "") then Ok (lb_Name lb)
      else Ok (lb_Namespace lb +:+ "/" +:+ lb_Name lb)
  | _ => Err (ErrorString "object has no meta")
  end.

Definition DeletionHandlingMetaNamespaceKeyFunc (obj : object) : result string :=
  match obj with
  | ObjTombstone key _ => Ok key
  | _ => MetaNamespaceKeyFunc obj
  end.

Definition SplitMetaNamespaceKey (key : string) : result (string * string) :=
  match GoStrings.Split key "/"%char with
  | [name] => Ok ("", name)
  | [namespace; name] => Ok (namespace, name)
  | _ => Err (ErrorString ("unexpected key format: " +:+ key))
  end.

(** Kubernetes object names and namespaces contain no slash. *)
Definition no_slash (s : string) : Prop := GoStrings.contains "/"%char s = false.

(** The key of a load balancer gives back its namespace and name. *)
Theorem key_roundtrip lb :
  no_slash (lb_Namespace lb) → no_slash (lb_Name lb) →
  (DeletionHandlingMetaNamespaceKeyFunc (ObjLoadBalancer lb) ≫= SplitMetaNamespaceKey) =
    Ok (lb_Namespace lb, lb_Name lb).
Proof.
  intros Hns Hn. unfold DeletionHandlingMetaNamespaceKeyFunc, MetaNamespaceKeyFunc,
    SplitMetaNamespaceKey.
  destruct (bool_decide_reflect (lb_Namespace lb = "")) as [->|Hne];
    unfold mbind, result_bind.
  - by rewrite GoStrings.Split_no_sep.
  - change ("/" +:+ lb_Name lb) with (String "/" (lb_Name lb)).
    by rewrite GoStrings.Split_app_sep, GoStrings.Split_no_sep.
Qed.

(** ** The backend

    What the controller calls of a provider.  A load balancer is passed as a
    pointer into the informer's store, which the backend may write through. *)
Abbreviation store := (gmap nat LoadBalancer).

Class Provider (P : Type) := {
  OnUpdate : nat → prog (store * P) ();
  Provider_Start : prog P ();
  WaitForStart : prog P bool;
  Provider_Stop : prog P ();
}.

Definition identity (lb : LoadBalancer) : string * string * string :=
  (lb_Namespace lb, lb_Name lb, lb_ResourceVersion lb).

(** A backend allocates no object of the store and leaves the identity of the
    stored objects alone, whether it succeeds or not. *)
Class ProviderLaws (P : Type) `{!Provider P} := {
  OnUpdate_identity l s b r s' b' :
    OnUpdate l (s, b) = (r, (s', b')) → identity <$> s' = identity <$> s;
}.

(** ** The generic provider *)
Record Configuration := {
  LoadBalancerName : string;
  LoadBalancerNamespace : string;
  cfg_TCPConfigMap : string;
  cfg_UDPConfigMap : string;
}.

(** [lbLister] is the informer's indexer: object keys to pointers. *)
Record GenericProvider (P : Type) := {
  cfg : Configuration;
  heap : store;
  lbLister : gmap string nat;
  gp_queue : SyncQueue;
  stopCh_closed : bool;
  shutdown : bool;
  Backend : P;
}.
Arguments cfg {P} _.
Arguments heap {P} _.
Arguments lbLister {P} _.
Arguments gp_queue {P} _.
Arguments stopCh_closed {P} _.
Arguments shutdown {P} _.
Arguments Backend {P} _.

Section provider.
Context {P : Type} `{!Provider P}.
Implicit Types p : GenericProvider P.

Definition with_queue p (q : SyncQueue) : GenericProvider P :=
  {| cfg := cfg p; heap := heap p; lbLister := lbLister p; gp_queue := q;
     stopCh_closed := stopCh_closed p; shutdown := shutdown p; Backend := Backend p |}.

Definition with_cfg p (c : Configuration) : GenericProvider P :=
  {| cfg := c; heap := heap p; lbLister := lbLister p; gp_queue := gp_queue p;
     stopCh_closed := stopCh_closed p; shutdown := shutdown p; Backend := Backend p |}.

Definition with_backend p (s : store) (b : P) : GenericProvider P :=
  {| cfg := cfg p; heap := s; lbLister := lbLister p; gp_queue := gp_queue p;
     stopCh_closed := stopCh_closed p; shutdown := shutdown p; Backend := b |}.

Definition with_informer p (s : store) (l : gmap string nat) : GenericProvider P :=
  {| cfg := cfg p; heap := s; lbLister := l; gp_queue := gp_queue p;
     stopCh_closed := stopCh_closed p; shutdown := shutdown p; Backend := Backend p |}.

(** [true] when the object is not the provider's own load balancer. *)
Definition filterLoadBalancer p (lb : LoadBalancer) : bool :=
  negb (bool_decide (lb_Namespace lb = LoadBalancerNamespace (cfg p) ∧
                     lb_Name lb = LoadBalancerName (cfg p))).

Definition filterConfigMap p (cm : ConfigMap) : bool :=
  negb (bool_decide (cm_Namespace cm = LoadBalancerNamespace (cfg p) ∧
                     (cm_Name cm = cfg_TCPConfigMap (cfg p) ∨
                      cm_Name cm = cfg_UDPConfigMap (cfg p)))).

(** [p.queue.Enqueue(obj)]: an object without a key is dropped. *)
Definition enqueue p (obj : object) : GenericProvider P :=
  match DeletionHandlingMetaNamespaceKeyFunc obj with
  | Ok key => with_queue p (Enqueue (gp_queue p) key)
  | _ => p
  end.

Definition addLoadBalancer p (lb : LoadBalancer) : GenericProvider P :=
  if filterLoadBalancer p lb then p else enqueue p (ObjLoadBalancer lb).

Definition updateLoadBalancer p (old cur : LoadBalancer) : GenericProvider P :=
  if bool_decide (lb_ResourceVersion old = lb_ResourceVersion cur) then p
  else if filterLoadBalancer p cur then p
  else enqueue p (ObjLoadBalancer cur).

Definition deleteLoadBalancer p (obj : object) : GenericProvider P :=
  match obj with
  | ObjLoadBalancer lb | ObjTombstone _ (Some lb) =>
      if filterLoadBalancer p lb then p else enqueue p (ObjLoadBalancer lb)
  | ObjTombstone _ None | ObjExplicitKey _ | ObjOther => p
  end.

Definition updateConfigMap p (old cur : ConfigMap) : GenericProvider P :=
  if bool_decide (cm_ResourceVersion old = cm_ResourceVersion cur) then p
  else if filterConfigMap p cur then p
  else enqueue p (ObjExplicitKey (LoadBalancerNamespace (cfg p) +:+ "/" +:+
                                  LoadBalancerName (cfg p))).

(** [p.lbLister.LoadBalancers(namespace).Get(name)]; its only error is
    NotFound. *)
Definition lister_Get p (namespace name : string) : option (nat * LoadBalancer) :=
  l ← lbLister p !! (namespace +:+ "/" +:+ name);
  lb ← heap p !! l;
  Some (l, lb).

(** The names of the ConfigMaps are taken from the first load balancer that has
    them. *)
Definition learn_configmaps (c : Configuration) (lb : LoadBalancer) : Configuration :=
  let status := lb_ProxyStatus (Status lb) in
  {| LoadBalancerName := LoadBalancerName c;
     LoadBalancerNamespace := LoadBalancerNamespace c;
     cfg_TCPConfigMap :=
       if bool_decide (cfg_TCPConfigMap c = "") then TCPConfigMap status else cfg_TCPConfigMap c;
     cfg_UDPConfigMap :=
       if bool_decide (cfg_UDPConfigMap c = "") then UDPConfigMap status else cfg_UDPConfigMap c |}.

Definition call_OnUpdate (l : nat) : prog (GenericProvider P) () := λ p,
  let '(r, (s, b)) := OnUpdate l (heap p, Backend p) in (r, with_backend p s b).

Definition syncLoadBalancer (key : string) : prog (GenericProvider P) () :=
  n ← lift (SplitMetaNamespaceKey key);
  p ← get;
  match lister_Get p n.1 n.2 with
  | None => mret ()
  | Some (l, lb) =>
      _ ← lift (ValidateLoadBalancer lb);
      _ ← modify (λ p, with_cfg p (learn_configmaps (cfg p) lb));
      call_OnUpdate l
  end.

Definition on_backend {A} (m : prog P A) : prog (GenericProvider P) A := λ p,
  let '(r, b) := m (Backend p) in (r, with_backend p (heap p) b).

(** [Start] after the caches have synced, up to [queue.Run]: it returns whether
    the worker was started. *)
Definition Start : prog (GenericProvider P) bool :=
  _ ← on_backend Provider_Start;
  on_backend WaitForStart.

(** [Stop] holds [stopLock].  Its first half stops the backend, its second half
    the queue; the worker runs on meanwhile. *)
Definition Stop_backend : prog (GenericProvider P) () :=
  p ← get;
  if shutdown p then fail (ErrorString "shutdown already in progress")
  else
    _ ← modify (λ p, {| cfg := cfg p; heap := heap p; lbLister := lbLister p;
                        gp_queue := gp_queue p; stopCh_closed := true; shutdown := true;
                        Backend := Backend p |});
    ignore (on_backend Provider_Stop).

Definition Stop_queue : prog (GenericProvider P) () :=
  p ← get;
  q ← lift (sq_ShutDown (gp_queue p));
  modify (λ p, with_queue p q).

Definition Stop : prog (GenericProvider P) () :=
  _ ← Stop_backend;
  Stop_queue.

Lemma syncLoadBalancer_eq p ns name :
  no_slash ns → no_slash name →
  syncLoadBalancer (ns +:+ "/" +:+ name) p =
  match lister_Get p ns name with
  | None => (Ok (), p)
  | Some (l, lb) =>
      match ValidateLoadBalancer lb with
      | Ok _ =>
          let '(r, (s, b)) := OnUpdate l (heap p, Backend p) in
          (r, {| cfg := learn_configmaps (cfg p) lb; heap := s; lbLister := lbLister p;
                 gp_queue := gp_queue p; stopCh_closed := stopCh_closed p;
                 shutdown := shutdown p; Backend := b |})
      | Err e => (Err e, p)
      | Panic why => (Panic why, p)
      end
  end.
Proof.
  intros Hns Hn. unfold syncLoadBalancer, SplitMetaNamespaceKey.
  change ("/" +:+ name) with (String "/" name).
  rewrite GoStrings.Split_app_sep, GoStrings.Split_no_sep by done.
  unfold_prog. simpl. destruct (lister_Get p ns name) as [[l lb]|]; [|done].
  destruct (ValidateLoadBalancer lb); [|done..].
  unfold call_OnUpdate. simpl. by destruct (OnUpdate l _) as [r [s b]].
Qed.

(** C31: The sync handler, for a key namespace/name.  It touches nothing but the ConfigMap
    names, the store and the backend, and a name that is known stays.  A load
    balancer that is gone is no error, an invalid one is an error, and neither
    changes anything.  For a valid one the result, the store and the backend are
    what the backend's update makes of them, also when it fails; the names that
    were not known are those of its status, and from then on the provider's key is
    enqueued at a change of a ConfigMap of the namespace with one of the two names
    and of no other one. *)
Theorem syncLoadBalancer_spec p ns name r p' :
  no_slash ns → no_slash name → syncLoadBalancer (ns +:+ "/" +:+ name) p = (r, p') →
  (lbLister p', gp_queue p', stopCh_closed p', shutdown p') =
    (lbLister p, gp_queue p, stopCh_closed p, shutdown p) ∧
  (LoadBalancerNamespace (cfg p'), LoadBalancerName (cfg p')) =
    (LoadBalancerNamespace (cfg p), LoadBalancerName (cfg p)) ∧
  (cfg_TCPConfigMap (cfg p) ≠ "" → cfg_TCPConfigMap (cfg p') = cfg_TCPConfigMap (cfg p)) ∧
  (cfg_UDPConfigMap (cfg p) ≠ "" → cfg_UDPConfigMap (cfg p') = cfg_UDPConfigMap (cfg p)) ∧
  match lister_Get p ns name with
  | None => r = Ok () ∧ p' = p
  | Some (l, lb) =>
      (ValidateLoadBalancer lb ≠ Ok () → r = ValidateLoadBalancer lb ∧ p' = p) ∧
      (ValidateLoadBalancer lb = Ok () →
       OnUpdate l (heap p, Backend p) = (r, (heap p', Backend p')) ∧
       let status := lb_ProxyStatus (Status lb) in
       (cfg_TCPConfigMap (cfg p) = "" → cfg_TCPConfigMap (cfg p') = TCPConfigMap status) ∧
       (cfg_UDPConfigMap (cfg p) = "" → cfg_UDPConfigMap (cfg p') = UDPConfigMap status) ∧
       (cfg_TCPConfigMap (cfg p) = "" → cfg_UDPConfigMap (cfg p) = "" →
        ∀ old cur, cm_ResourceVersion old ≠ cm_ResourceVersion cur →
          let mine := cm_Namespace cur = LoadBalancerNamespace (cfg p) ∧
                      (cm_Name cur = TCPConfigMap status ∨ cm_Name cur = UDPConfigMap status) in
          (mine → gp_queue (updateConfigMap p' old cur) =
                    Enqueue (gp_queue p) (LoadBalancerNamespace (cfg p) +:+ "/" +:+
                                          LoadBalancerName (cfg p))) ∧
          (¬ mine → updateConfigMap p' old cur = p')))
  end.
Proof.
  intros Hns Hn. rewrite syncLoadBalancer_eq by done.
  destruct (lister_Get p ns name) as [[l lb]|]; [|by intros [= <- <-]].
  destruct (ValidateLoadBalancer lb) as [[]| |]; [|by intros [= <- <-]; split_and!..].
  destruct (OnUpdate l _) as [r' [s b]]. intros [= <- <-]. simpl.
  split_and!; try done; try (intros H; by rewrite ?(bool_decide_false _ H), ?(bool_decide_true _ H)).
  intros _. split; [done|]. split_and!; [intros H; by rewrite bool_decide_true..|].
  intros Ht Hu old cur Hv. unfold updateConfigMap, filterConfigMap. simpl.
  rewrite Ht, Hu, (bool_decide_false (_ = _)) by done. simpl.
  split; intros Hmine; [by rewrite bool_decide_true|by rewrite bool_decide_false].
Qed.

End provider.

(** ** Witnesses *)
Definition named_lb : LoadBalancer :=
  {| lb_Namespace := "kube-system"; lb_Name := "lb"; lb_ResourceVersion := "1";
     lb_DeletionTimestamp := None; lb_Finalizers := None;
     Spec := {| Nodes := {| Replicas := None; Names := None; Effect := None |};
                Proxy := {| ProxyType := "nginx"; HTTPPort := 80; HTTPSPort := 443 |};
                Providers := {| External := None; Ipvsdr := None; Azure := None |} |};
     Status := {| lb_ProxyStatus := {| TCPConfigMap := "tcp"; UDPConfigMap := "udp" |};
                  Vrid := None; AzureStatus := None; lb_NodeStatuses := None |} |}.

Lemma key_roundtrip_witness :
  (DeletionHandlingMetaNamespaceKeyFunc (ObjLoadBalancer named_lb) ≫= SplitMetaNamespaceKey) =
    Ok ("kube-system", "lb").
Proof. exact (key_roundtrip named_lb eq_refl eq_refl). Defined.

(** A backend that rejects every update. *)
Definition rejecting : Provider () := {|
  OnUpdate _ w := (Err (ErrorString "rejected"), w);
  Provider_Start w := (Ok (), w);
  WaitForStart w := (Ok true, w);
  Provider_Stop w := (Ok (), w);
|}.

Definition named_provider : GenericProvider () :=
  {| cfg := {| LoadBalancerName := "lb"; LoadBalancerNamespace := "kube-system";
               cfg_TCPConfigMap := ""; cfg_UDPConfigMap := "" |};
     heap := {[ 0 := named_lb ]}; lbLister := {[ "kube-system/lb" := 0 ]};
     gp_queue := new_SyncQueue; stopCh_closed := false; shutdown := false; Backend := () |}.

Lemma syncLoadBalancer_spec_witness :
  ∃ p', @syncLoadBalancer () rejecting "kube-system/lb" named_provider =
          (Err (ErrorString "rejected"), p') ∧
        cfg_TCPConfigMap (cfg p') = "tcp" ∧ cfg_UDPConfigMap (cfg p') = "udp".
Proof.
  assert (∃ p', @syncLoadBalancer () rejecting "kube-system/lb" named_provider =
    (Err (ErrorString "rejected"), p')) as [p' H] by (eexists; vm_compute; reflexivity).
  exists p'. split; [exact H|].
  destruct (@syncLoadBalancer_spec () rejecting named_provider "kube-system" "lb" _ p' eq_refl
    eq_refl H) as (_ & _ & _ & _ & Hl).
  assert (lister_Get named_provider "kube-system" "lb" = Some (0, named_lb)) as Hg
    by (vm_compute; reflexivity).
  rewrite Hg in Hl. destruct Hl as [_ Hl].
  destruct (Hl ltac:(vm_compute; reflexivity)) as (_ & Ht & Hu & _).
  split; [exact (Ht eq_refl)|exact (Hu eq_refl)].
Defined.
