(* ===== verification/ControllerSystem.v ===== *)
(** * The controller as a concurrent system

    The generic provider together with the informer that feeds it, its single
    worker, the delays of its queue and a concurrent [Stop].  The informer
    changes its indexer first and delivers the notification later, so the
    handlers run behind the store.  A handler and a call of the backend are one
    step each; everything else interleaves. *)

From S2P Require Import Prelude GoStd LbApi Workqueue Controller.
From Stdlib Require Import Ascii.

Inductive notification :=
| NotifyAdd (l : nat)
| NotifyUpdate (old cur : nat)
| NotifyDelete (l : nat)
| NotifyTombstone (key : string) (l : nat).

Inductive worker_state :=
| NotStarted
| Idle
| Got (key : string)
| Handled (key : string) (err : option error)
| Exited
| Dead.

(** [seen] is a history variable: the resource version of the configured load
    balancer when the sync handler last looked it up. *)
Record system (P : Type) := {
  provider : GenericProvider P;
  notifications : list notification;
  worker : worker_state;
  seen : option string;
}.
Arguments provider {P} _.
Arguments notifications {P} _.
Arguments worker {P} _.
Arguments seen {P} _.

Inductive action :=
| InformerAdd (l : nat) (lb : LoadBalancer)
| InformerUpdate (l : nat) (lb : LoadBalancer)
| InformerResync (key : string)
| InformerDelete (key : string)
| InformerLostDelete (key : string)
| Deliver
| ConfigMapChanged (old cur : ConfigMap)
| StartProvider
| WorkerGet
| WorkerHandle
| WorkerDone
| DelayReceive (ready : bool)
| DelayFire (item : string)
| StopBackend
| StopQueue.

Definition object_key (lb : LoadBalancer) : string := lb_Namespace lb +:+ "/" +:+ lb_Name lb.

(** A namespaced object, as the API server names them. *)
Definition named (i : string * string * string) : bool :=
  negb (bool_decide (i.1.1 = "")) && negb (GoStrings.contains "/"%char i.1.1) &&
  negb (GoStrings.contains "/"%char i.1.2).

Section system.
Context {P : Type} `{!Provider P}.
Implicit Types s : system P.
Implicit Types p : GenericProvider P.

Definition init (c : Configuration) (b : P) : system P :=
  {| provider := {| cfg := c; heap := ∅; lbLister := ∅; gp_queue := new_SyncQueue;
                    stopCh_closed := false; shutdown := false; Backend := b |};
     notifications := []; worker := NotStarted; seen := None |}.

Definition configured_key p : string :=
  LoadBalancerNamespace (cfg p) +:+ "/" +:+ LoadBalancerName (cfg p).

Definition current_version p : option string :=
  r ← lister_Get p (LoadBalancerNamespace (cfg p)) (LoadBalancerName (cfg p));
  Some (lb_ResourceVersion r.2).

Definition with_provider s p : system P :=
  {| provider := p; notifications := notifications s; worker := worker s; seen := seen s |}.

Definition with_worker s p (w : worker_state) : system P :=
  {| provider := p; notifications := notifications s; worker := w; seen := seen s |}.

(** The indexer changes and a notification is queued for the handlers. *)
Definition informer s (h : store) (idx : gmap string nat) (n : notification) : system P :=
  {| provider := with_informer (provider s) h idx;
     notifications := notifications s ++ [n]; worker := worker s; seen := seen s |}.

(** The handler registered for the notification. *)
Definition deliver p (n : notification) : GenericProvider P :=
  match n with
  | NotifyAdd l => match heap p !! l with Some lb => addLoadBalancer p lb | None => p end
  | NotifyUpdate old cur =>
      match heap p !! old, heap p !! cur with
      | Some o, Some c => updateLoadBalancer p o c
      | _, _ => p
      end
  | NotifyDelete l =>
      match heap p !! l with
      | Some lb => deleteLoadBalancer p (ObjLoadBalancer lb)
      | None => p
      end
  | NotifyTombstone key l => deleteLoadBalancer p (ObjTombstone key (heap p !! l))
  end.

(** The worker calls the sync handler with the key it got.  A panic ends the
    process. *)
Definition worker_handle s (key : string) : system P :=
  let p := provider s in
  let seen' := if bool_decide (key = configured_key p) then current_version p else seen s in
  match catch (syncLoadBalancer key) p with
  | (Ok r, p) =>
      {| provider := p; notifications := notifications s;
         worker := Handled key (error_of r); seen := seen' |}
  | (_, p) =>
      {| provider := p; notifications := notifications s; worker := Dead; seen := seen' |}
  end.

Definition step (a : action) s : option (system P) :=
  let p := provider s in
  match a with
  | InformerAdd l lb =>
      if bool_decide (heap p !! l = None ∧ lbLister p !! object_key lb = None)
         && named (identity lb)
      then Some (informer s (<[l := lb]> (heap p)) (<[object_key lb := l]> (lbLister p))
                   (NotifyAdd l))
      else None
  | InformerUpdate l lb =>
      l0 ← lbLister p !! object_key lb;
      if bool_decide (heap p !! l = None) && named (identity lb)
      then Some (informer s (<[l := lb]> (heap p)) (<[object_key lb := l]> (lbLister p))
                   (NotifyUpdate l0 l))
      else None
  | InformerResync key =>
      l ← lbLister p !! key; Some (informer s (heap p) (lbLister p) (NotifyUpdate l l))
  | InformerDelete key =>
      l ← lbLister p !! key;
      Some (informer s (heap p) (delete key (lbLister p)) (NotifyDelete l))
  | InformerLostDelete key =>
      l ← lbLister p !! key;
      Some (informer s (heap p) (delete key (lbLister p)) (NotifyTombstone key l))
  | Deliver =>
      match notifications s with
      | [] => None
      | n :: rest =>
          Some {| provider := deliver p n; notifications := rest; worker := worker s;
                  seen := seen s |}
      end
  | ConfigMapChanged old cur => Some (with_provider s (updateConfigMap p old cur))
  | StartProvider =>
      match worker s with
      | NotStarted =>
          match Start p with
          | (Ok true, p) => Some (with_worker s p Idle)
          | (Ok false, p) => Some (with_worker s p Exited)
          | (_, p) => Some (with_worker s p Dead)
          end
      | _ => None
      end
  | WorkerGet =>
      match worker s, Get (sq_queue (gp_queue p)) with
      | Idle, GetItem key q =>
          Some (with_worker s (with_queue p (set_queue (gp_queue p) q)) (Got key))
      | Idle, GetShutdown => Some (with_worker s p Exited)
      | _, _ => None
      end
  | WorkerHandle =>
      match worker s with
      | Got key => Some (worker_handle s key)
      | _ => None
      end
  | WorkerDone =>
      match worker s with
      | Handled key err =>
          Some (with_worker s
            (with_queue p (sq_Done (handleSyncError (gp_queue p) err key) key)) Idle)
      | _ => None
      end
  | DelayReceive ready =>
      q ← wait_receive ready (gp_queue p); Some (with_provider s (with_queue p q))
  | DelayFire item =>
      q ← wait_fire item (gp_queue p); Some (with_provider s (with_queue p q))
  | StopBackend =>
      if shutdown p then None
      else match Stop_backend p with
           | (Panic _, p) => Some (with_worker s p Dead)
           | (_, p) => Some (with_provider s p)
           end
  | StopQueue =>
      if shutdown p && negb (sq_stopped (gp_queue p)) then
        match Stop_queue p with
        | (Ok _, p) => Some (with_provider s p)
        | (_, p) => Some (with_worker s p Dead)
        end
      else None
  end.

Definition steps s s' : Prop := ∃ a, step a s = Some s'.

Definition reachable (c : Configuration) (b : P) : system P → Prop := rtc steps (init c b).

Fixpoint run (l : list action) s : option (system P) :=
  match l with
  | [] => Some s
  | a :: l => s' ← step a s; run l s'
  end.

Lemma run_steps l s s' : run l s = Some s' → rtc steps s s'.
Proof.
  revert s. induction l as [|a l IH]; intros s; simpl; [intros [= ->]; done|].
  destruct (step a s) as [s1|] eqn:E; simpl; [|done]. intros H.
  eapply rtc_l; [by exists a|by apply IH].
Qed.

(** ** The invariant *)
Abbreviation ident := (string * string * string)%type.

Definition id_key (i : ident) : string := i.1.1 +:+ "/" +:+ i.1.2.

Definition ids p : gmap nat ident := identity <$> heap p.

Definition notification_locs (n : notification) : list nat :=
  match n with
  | NotifyAdd l | NotifyDelete l | NotifyTombstone _ l => [l]
  | NotifyUpdate old cur => [old; cur]
  end.

(** A notification whose handler enqueues the object with key [K]. *)
Definition will_enqueue (K : string) (h : gmap nat ident) (n : notification) : Prop :=
  match n with
  | NotifyAdd l => ∃ i, h !! l = Some i ∧ id_key i = K
  | NotifyUpdate old cur =>
      ∃ io ic, h !! old = Some io ∧ h !! cur = Some ic ∧ io.2 ≠ ic.2 ∧ id_key ic = K
  | _ => False
  end.

Definition queued_keys (q : SyncQueue) : gset string :=
  list_to_set (queue (sq_queue q)) ∪ dirty (sq_queue q) ∪
  list_to_set (waitingCh q) ∪ waitingFor q.

Definition worker_keys (w : worker_state) : list string :=
  match w with Got k | Handled k _ => [k] | _ => [] end.

(** A process that died sees nothing any more. *)
Definition to_see (K : string) (w : worker_state) : Prop := w = Got K ∨ w = Dead.

(** [K] is the configured key.  [inv_fresh]: when the configured object has a
    version the sync handler has not seen, a sync that will see it is on its
    way, unless the queue is shut down. *)
Record inv (K : string) (h : gmap nat ident) (idx : gmap string nat) (q : SyncQueue)
    (nots : list notification) (w : worker_state) (sn : option string) : Prop := {
  inv_store k l : idx !! k = Some l → ∃ i, h !! l = Some i ∧ named i = true ∧ id_key i = k;
  inv_nots n l : n ∈ nots → l ∈ notification_locs n → ∃ i, h !! l = Some i ∧ named i = true;
  inv_queue : queued_keys q ⊆ {[ K ]};
  inv_worker k : k ∈ worker_keys w → k = K;
  inv_failures k : NumRequeues q k <= maxRetries;
  inv_fresh l i : idx !! K = Some l → h !! l = Some i →
    sn = Some i.2 ∨ K ∈ dirty (sq_queue q) ∨ to_see K w ∨
    shuttingDown (sq_queue q) = true ∨ ∃ n, n ∈ nots ∧ will_enqueue K h n;
}.

Definition system_inv s : Prop :=
  inv (configured_key (provider s)) (ids (provider s)) (lbLister (provider s))
    (gp_queue (provider s)) (notifications s) (worker s) (seen s).

(** What a call of the backend leaves alone. *)
Definition same_view p p' : Prop :=
  LoadBalancerNamespace (cfg p') = LoadBalancerNamespace (cfg p) ∧
  LoadBalancerName (cfg p') = LoadBalancerName (cfg p) ∧
  ids p' = ids p ∧ lbLister p' = lbLister p ∧ gp_queue p' = gp_queue p.

Lemma same_view_refl p : same_view p p.
Proof. done. Qed.

Lemma on_backend_view {A} (m : prog P A) p : same_view p (on_backend m p).2.
Proof. unfold on_backend. by destruct (m (Backend p)). Qed.

Lemma Start_view p : same_view p (Start p).2.
Proof.
  unfold Start, mbind, prog_bind. pose proof (on_backend_view Provider_Start p) as H1.
  destruct (on_backend Provider_Start p) as [[] p1]; [|done..]. simpl in *.
  pose proof (on_backend_view WaitForStart p1) as H2. unfold same_view in *. intuition congruence.
Qed.

Lemma Stop_backend_view p : same_view p (Stop_backend p).2.
Proof.
  unfold Stop_backend. unfold_prog. destruct (shutdown p); [done|].
  match goal with |- context [on_backend Provider_Stop ?p1] =>
    pose proof (on_backend_view Provider_Stop p1) as H; destruct (on_backend _ p1) as [[] p2] end;
  exact H.
Qed.

Lemma syncLoadBalancer_view `{!ProviderLaws P} key p :
  same_view p (syncLoadBalancer key p).2.
Proof.
  unfold syncLoadBalancer, SplitMetaNamespaceKey. unfold_prog.
  case_match; simpl; try done; repeat (case_match; simpl; try done).
  all: unfold call_OnUpdate; simpl;
    destruct (OnUpdate _ _) as [r [h b]] eqn:E; simpl;
    apply OnUpdate_identity in E; unfold same_view, ids; simpl; by rewrite E.
Qed.

Lemma system_inv_view s p w sn :
  same_view (provider s) p →
  inv (configured_key (provider s)) (ids (provider s)) (lbLister (provider s))
    (gp_queue (provider s)) (notifications s) w sn →
  system_inv {| provider := p; notifications := notifications s; worker := w; seen := sn |}.
Proof.
  intros (H1 & H2 & H3 & H4 & H5). unfold system_inv, configured_key. simpl.
  by rewrite H1, H2, H3, H4, H5.
Qed.

Section invariant.
Context (K : string).
Implicit Types (h : gmap nat ident) (idx : gmap string nat) (q : SyncQueue).

Lemma will_enqueue_mono h h' n : h ⊆ h' → will_enqueue K h n → will_enqueue K h' n.
Proof.
  intros Hsub. destruct n as [l|old cur|l|k l]; simpl; [| |done..].
  - intros (i & Hi & ?). exists i. split; [|done]. by eapply lookup_weaken.
  - intros (io & ic & Ho & Hc & ?). exists io, ic.
    split_and!; [by eapply lookup_weaken..| |]; naive_solver.
Qed.

(** The informer stores a new version of an object. *)
Lemma inv_informer_new h idx q nots w sn l i n :
  inv K h idx q nots w sn → named i = true → h !! l = None →
  (∀ l', l' ∈ notification_locs n → l' = l ∨ ∃ k, idx !! k = Some l') →
  (id_key i = K → will_enqueue K (<[l := i]> h) n ∨
     ∃ l0 i0, idx !! K = Some l0 ∧ h !! l0 = Some i0 ∧ i0.2 = i.2) →
  inv K (<[l := i]> h) (<[id_key i := l]> idx) q (nots ++ [n]) w sn.
Proof.
  intros [Hst Hno Hq Hw Hf Hfr] Hi Hl Hlocs HK.
  assert (h ⊆ <[l := i]> h) as Hsub by by apply insert_subseteq.
  assert (∀ l', (∃ j, h !! l' = Some j ∧ named j = true) →
    ∃ j, <[l := i]> h !! l' = Some j ∧ named j = true) as Hext.
  { intros l' (j & Hj & ?). exists j. split; [by eapply lookup_weaken|done]. }
  split; [| |done..|].
  - intros k l'. rewrite lookup_insert_Some. intros [[<- <-]|[Hne Hk]].
    + exists i. by rewrite lookup_insert_eq.
    + destruct (Hst _ _ Hk) as (j & Hj & ?). exists j. split; [by eapply lookup_weaken|done].
  - intros n' l' [Hn'| ->%list_elem_of_singleton]%elem_of_app Hl'; [by apply Hext, (Hno n')|].
    destruct (Hlocs _ Hl') as [->|[k Hk]]; [exists i; by rewrite lookup_insert_eq|].
    apply Hext. destruct (Hst _ _ Hk) as (j & ? & ? & _). eauto.
  - assert (∀ l0 i0, idx !! K = Some l0 → h !! l0 = Some i0 →
      sn = Some i0.2 ∨ K ∈ dirty (sq_queue q) ∨ to_see K w ∨
      shuttingDown (sq_queue q) = true ∨
      ∃ n', n' ∈ nots ++ [n] ∧ will_enqueue K (<[l := i]> h) n') as Hold.
    { intros l0 i0 H1 H2. destruct (Hfr _ _ H1 H2) as [?|[?|[?|[?|(n' & Hn' & Hwe)]]]]; auto 8.
      do 4 right. exists n'. split; [set_solver|]. by eapply will_enqueue_mono. }
    intros l' j. rewrite lookup_insert_Some. intros [[Hk <-]|[Hne Hk]] Hj.
    + rewrite lookup_insert_eq in Hj. injection Hj as <-.
      destruct (HK Hk) as [Hwe|(l0 & i0 & H1 & H2 & <-)]; [|by eapply Hold].
      do 4 right. exists n. split; [set_solver|done].
    + destruct (Hst _ _ Hk) as (j' & Hj' & _). eapply Hold; [done|].
      pose proof (lookup_weaken _ _ _ _ Hj' Hsub) as Hj2. congruence.
Qed.

(** The informer drops an object or announces one again. *)
Lemma inv_informer_old h idx idx' q nots w sn n :
  inv K h idx q nots w sn → idx' ⊆ idx →
  (∀ l', l' ∈ notification_locs n → ∃ k, idx !! k = Some l') →
  inv K h idx' q (nots ++ [n]) w sn.
Proof.
  intros [Hst Hno Hq Hw Hf Hfr] Hsub Hlocs. split; [| |done..|].
  - intros k l Hk. apply (Hst k l). by eapply lookup_weaken.
  - intros n' l' [Hn'| ->%list_elem_of_singleton]%elem_of_app Hl'; [by apply (Hno n')|].
    destruct (Hlocs _ Hl') as [k Hk]. destruct (Hst _ _ Hk) as (j & ? & ? & _). eauto.
  - intros l i Hl Hi.
    destruct (Hfr l i) as [?|[?|[?|[?|(n' & Hn' & Hwe)]]]]; auto 8.
    { by eapply lookup_weaken. }
    do 4 right. exists n'. split; [set_solver|done].
Qed.

(** The queue moves on without losing work. *)
Lemma inv_queue_step h idx q q' nots w w' sn :
  inv K h idx q nots w sn →
  queued_keys q' ⊆ queued_keys q ∪ {[ K ]} →
  dirty (sq_queue q) ⊆ dirty (sq_queue q') →
  (shuttingDown (sq_queue q) = true → shuttingDown (sq_queue q') = true) →
  (∀ k, NumRequeues q' k <= maxRetries) →
  w' = w ∨ (w' = Idle ∧ ¬ to_see K w) →
  inv K h idx q' nots w' sn.
Proof.
  intros [Hst Hno Hq Hw Hf Hfr] Hk Hd Hs Hn Hw'. split; [done..| | |done|].
  - clear -Hq Hk. set_solver.
  - destruct Hw' as [->|[-> _]]; [done|]. set_solver.
  - intros l i Hl Hi. destruct (Hfr l i Hl Hi) as [?|[?|[?|[?|?]]]]; auto 8.
    destruct Hw' as [->|[_ []]]; auto.
Qed.

Lemma queued_keys_Add q item wch wf :
  queued_keys {| sq_queue := Add (sq_queue q) item; failures := failures q;
    waitingCh := wch; waitingFor := wf; sq_stopped := sq_stopped q |}
  ⊆ list_to_set (queue (sq_queue q)) ∪ dirty (sq_queue q) ∪ {[ item ]} ∪ list_to_set wch ∪ wf.
Proof.
  unfold queued_keys, Add. simpl. destruct (shuttingDown _); simpl; [set_solver|].
  repeat case_bool_decide; simpl; rewrite ?list_to_set_app_L; set_solver.
Qed.

Lemma Add_dirty (q : workqueue) item :
  dirty q ⊆ dirty (Add q item) ∧ shuttingDown (Add q item) = shuttingDown q ∧
  (item ∈ dirty (Add q item) ∨ shuttingDown q = true).
Proof.
  unfold Add. destruct (shuttingDown q) eqn:E; simpl; [auto|].
  repeat case_bool_decide; simpl; rewrite ?E; set_solver.
Qed.

Lemma inv_Enqueue h idx q nots w sn :
  inv K h idx q nots w sn → inv K h idx (Enqueue q K) nots w sn.
Proof.
  intros Hinv. unfold Enqueue. destruct (shuttingDown (sq_queue q)) eqn:E; [done|].
  destruct (Add_dirty (sq_queue q) K) as (H1 & H2 & _).
  eapply inv_queue_step; [exact Hinv| |done|simpl; by rewrite H2, E|apply Hinv|by left].
  unfold set_queue. etrans; [apply queued_keys_Add|]. unfold queued_keys. set_solver.
Qed.

(** A handler has run for the first notification. *)
Lemma inv_delivered h idx q n nots w sn :
  inv K h idx q (n :: nots) w sn →
  inv K h idx (Enqueue q K) nots w sn ∧
  (¬ will_enqueue K h n → inv K h idx q nots w sn).
Proof.
  intros Hinv.
  assert (∀ q', queued_keys q' ⊆ {[ K ]} → (∀ k, NumRequeues q' k <= maxRetries) →
    (∀ l i, idx !! K = Some l → h !! l = Some i →
      sn = Some i.2 ∨ K ∈ dirty (sq_queue q') ∨ to_see K w ∨
      shuttingDown (sq_queue q') = true ∨ ∃ n, n ∈ nots ∧ will_enqueue K h n) →
    inv K h idx q' nots w sn) as Hgo.
  { intros q' ???. destruct Hinv as [Hst Hno Hq Hw Hf Hfr]. split; try done.
    intros n' l Hn'. apply (Hno n'). by right. }
  split.
  - pose proof (inv_Enqueue _ _ _ _ _ _ Hinv) as [_ _ Hq _ Hf _]. apply Hgo; [done..|].
    intros l i Hl Hi. unfold Enqueue. destruct (shuttingDown (sq_queue q)) eqn:E; [by auto|].
    destruct (Add_dirty (sq_queue q) K) as (H1 & H2 & [H3|H3]); [by auto|congruence].
  - intros Hn. apply Hgo; [apply Hinv..|]. intros l i Hl Hi.
    destruct (inv_fresh _ _ _ _ _ _ _ Hinv l i Hl Hi)
      as [?|[?|[?|[?|(n' & [->|Hn']%elem_of_cons & Hwe)]]]]; auto 8.
    do 4 right. eauto.
Qed.

Lemma inv_receive h idx q nots w sn ready q' :
  inv K h idx q nots w sn → wait_receive ready q = Some q' → inv K h idx q' nots w sn.
Proof.
  intros Hinv Hr. unfold wait_receive in Hr. destruct (waitingCh q) as [|item rest] eqn:E; [done|].
  injection Hr as <-. destruct (Add_dirty (sq_queue q) item) as (H1 & H2 & _).
  eapply inv_queue_step; [exact Hinv| | | |apply Hinv|by left].
  - destruct ready; [etrans; [apply queued_keys_Add|]|]; unfold queued_keys; rewrite E; simpl;
      set_solver.
  - by destruct ready.
  - destruct ready; simpl; by rewrite ?H2.
Qed.

Lemma inv_fire h idx q nots w sn item q' :
  inv K h idx q nots w sn → wait_fire item q = Some q' → inv K h idx q' nots w sn.
Proof.
  intros Hinv Hr. unfold wait_fire in Hr. case_bool_decide as Hin; [|done].
  injection Hr as <-. destruct (Add_dirty (sq_queue q) item) as (H1 & H2 & _).
  eapply inv_queue_step; [exact Hinv| |done|simpl; by rewrite H2|apply Hinv|by left].
  etrans; [apply queued_keys_Add|]. unfold queued_keys. set_solver.
Qed.

Lemma inv_get h idx q nots sn key wq :
  inv K h idx q nots Idle sn → Get (sq_queue q) = GetItem key wq →
  key = K ∧ inv K h idx (set_queue q wq) nots (Got key) sn.
Proof.
  intros [Hst Hno Hq Hw Hf Hfr] (Hl & Hd & Hp & Hs)%Get_inv.
  assert (key = K) as ->.
  { unfold queued_keys in Hq. rewrite Hl in Hq. set_solver. }
  split; [done|]. split; [done..| | |done|].
  - unfold queued_keys in *. simpl. rewrite Hl, Hd in *. set_solver.
  - simpl. set_solver.
  - intros l i Hkl Hi. right; right; left. by left.
Qed.

Lemma inv_done h idx q nots key err sn :
  inv K h idx q nots (Handled key err) sn →
  inv K h idx (sq_Done (handleSyncError q err key) key) nots Idle sn.
Proof.
  intros Hinv.
  assert (key = K) as -> by (apply (inv_worker _ _ _ _ _ _ _ Hinv); simpl; set_solver).
  pose proof (inv_failures _ _ _ _ _ _ _ Hinv) as Hf.
  assert (∀ k, NumRequeues (Forget q K) k <= maxRetries) as Hforget.
  { intros k. unfold NumRequeues, Forget. simpl. destruct (decide (k = K)) as [->|].
    - rewrite lookup_delete_eq. simpl. lia.
    - rewrite lookup_delete_ne by done. apply (Hf k). }
  assert (queued_keys (handleSyncError q err K) ⊆ queued_keys q ∪ {[ K ]} ∧
    sq_queue (handleSyncError q err K) = sq_queue q ∧
    ∀ k, NumRequeues (handleSyncError q err K) k <= maxRetries) as (H1 & H2 & H3).
  { unfold handleSyncError. destruct err as [e|]; [case_bool_decide as Hlt|];
      (split; [|split]); try done; unfold queued_keys; simpl; try set_solver.
    - destruct (shuttingDown _); rewrite ?list_to_set_app_L; set_solver.
    - intros k. unfold NumRequeues at 1. simpl. destruct (decide (k = K)) as [->|].
      + rewrite lookup_insert_eq. simpl. lia.
      + rewrite lookup_insert_ne by done. apply (Hf k). }
  eapply inv_queue_step; [exact Hinv| | | |exact H3|right; split; [done|by intros []]].
  - unfold queued_keys in *. unfold sq_Done, Done. simpl. rewrite H2 in *.
    case_bool_decide; rewrite ?list_to_set_app_L; set_solver.
  - simpl. by rewrite H2.
  - simpl. by rewrite H2.
Qed.

End invariant.
(** ** Every step preserves the invariant *)

Lemma filterLoadBalancer_false p lb :
  filterLoadBalancer p lb = false → object_key lb = configured_key p.
Proof.
  unfold filterLoadBalancer, object_key, configured_key. case_bool_decide as H; [|done].
  by destruct H as [-> ->].
Qed.

Lemma enqueue_configured p lb :
  filterLoadBalancer p lb = false → named (identity lb) = true →
  enqueue p (ObjLoadBalancer lb) = with_queue p (Enqueue (gp_queue p) (configured_key p)).
Proof.
  intros Hf Hn. apply filterLoadBalancer_false in Hf. unfold enqueue. simpl.
  unfold named in Hn. simpl in Hn. destruct (bool_decide (lb_Namespace lb = "")); [done|].
  by rewrite <-Hf.
Qed.

Lemma filter_matches p lb :
  named (identity lb) = true → no_slash (LoadBalancerNamespace (cfg p)) →
  object_key lb = configured_key p → filterLoadBalancer p lb = false.
Proof.
  unfold filterLoadBalancer, object_key, configured_key. intros Hn Hs Heq.
  unfold named in Hn. simpl in Hn. apply andb_true_iff in Hn as [Hn _].
  apply andb_true_iff in Hn as [_ Hn]. apply negb_true_iff in Hn.
  pose proof (f_equal (λ k, GoStrings.Split k "/"%char) Heq) as Hsp. simpl in Hsp.
  change ("/" +:+ lb_Name lb) with (String "/" (lb_Name lb)) in *.
  change ("/" +:+ LoadBalancerName (cfg p)) with (String "/" (LoadBalancerName (cfg p))) in *.
  rewrite !GoStrings.Split_app_sep in Hsp by done. injection Hsp as Hns _.
  rewrite Hns in Heq. rewrite bool_decide_true; [done|]. split; [done|].
  clear -Heq. induction (LoadBalancerNamespace (cfg p)) as [|c s' IH].
  - by injection Heq.
  - apply IH. change (String c s' +:+ String "/" (lb_Name lb)) with
      (String c (s' +:+ String "/" (lb_Name lb))) in Heq.
    change (String c s' +:+ String "/" (LoadBalancerName (cfg p))) with
      (String c (s' +:+ String "/" (LoadBalancerName (cfg p)))) in Heq. by injection Heq.
Qed.

(** A handler enqueues the configured key or does nothing, and a notification
    of a new version of the configured object enqueues it. *)
Lemma deliver_cases p n :
  no_slash (LoadBalancerNamespace (cfg p)) →
  (∀ l, l ∈ notification_locs n → ∃ i, ids p !! l = Some i ∧ named i = true) →
  deliver p n = with_queue p (Enqueue (gp_queue p) (configured_key p)) ∨
  (deliver p n = p ∧ ¬ will_enqueue (configured_key p) (ids p) n).
Proof.
  intros Hs Hn.
  assert (∀ l, l ∈ notification_locs n →
    ∃ lb, heap p !! l = Some lb ∧ named (identity lb) = true) as Hlb.
  { intros l Hl. destruct (Hn l Hl) as (i & Hi & Hnm). unfold ids in Hi.
    rewrite lookup_fmap in Hi. destruct (heap p !! l) as [lb|]; [|done].
    injection Hi as <-. by exists lb. }
  assert (∀ lb, named (identity lb) = true →
    (filterLoadBalancer p lb = false ∧ enqueue p (ObjLoadBalancer lb) =
       with_queue p (Enqueue (gp_queue p) (configured_key p))) ∨
    (filterLoadBalancer p lb = true ∧ object_key lb ≠ configured_key p)) as Hcase.
  { intros lb Hnm. destruct (filterLoadBalancer p lb) eqn:E.
    - right. split; [done|]. intros Hk. by rewrite (filter_matches p lb) in E.
    - left. split; [done|]. by apply enqueue_configured. }
  destruct n as [l|old cur|l|k l]; simpl in *.
  - destruct (Hlb l) as (lb & Hl & Hnm); [set_solver|]. rewrite Hl. unfold addLoadBalancer.
    destruct (Hcase lb Hnm) as [[-> ->]|[-> Hne]]; [by left|right]. split; [done|].
    intros (i & Hi & Hk). unfold ids in Hi. rewrite lookup_fmap, Hl in Hi.
    injection Hi as <-. done.
  - destruct (Hlb old) as (o & Ho & _); [set_solver|].
    destruct (Hlb cur) as (c & Hc & Hnm); [set_solver|]. rewrite Ho, Hc.
    unfold updateLoadBalancer, ids. rewrite !lookup_fmap, Ho, Hc. simpl.
    case_bool_decide as Hrv.
    { right. split; [done|]. intros (io & ic & [= <-] & [= <-] & Hne & _). done. }
    destruct (Hcase c Hnm) as [[-> ->]|[-> Hne]]; [by left|right]. split; [done|].
    intros (io & ic & [= <-] & [= <-] & _ & Hk). done.
  - destruct (Hlb l) as (lb & Hl & Hnm); [set_solver|]. rewrite Hl. simpl.
    destruct (Hcase lb Hnm) as [[-> ->]|[-> Hne]]; auto.
  - destruct (Hlb l) as (lb & Hl & Hnm); [set_solver|]. rewrite Hl. simpl.
    destruct (Hcase lb Hnm) as [[-> ->]|[-> Hne]]; auto.
Qed.

Lemma updateConfigMap_cases p old cur :
  updateConfigMap p old cur = p ∨
  updateConfigMap p old cur = with_queue p (Enqueue (gp_queue p) (configured_key p)).
Proof.
  unfold updateConfigMap. case_bool_decide; [by left|].
  destruct (filterConfigMap p cur); [by left|by right].
Qed.

(** The version the sync handler looks up is the current one. *)
Lemma current_version_ids p l i :
  lbLister p !! configured_key p = Some l → ids p !! l = Some i →
  current_version p = Some i.2.
Proof.
  unfold current_version, lister_Get, configured_key, ids. intros ->.
  rewrite lookup_fmap. simpl. destruct (heap p !! l); simpl; [by intros [= <-]|done].
Qed.

Lemma system_inv_handle `{!ProviderLaws P} s key :
  system_inv s → worker s = Got key → system_inv (worker_handle s key).
Proof.
  unfold system_inv, worker_handle. intros Hinv Hw. rewrite Hw in Hinv.
  assert (key = configured_key (provider s)) as Hk
    by (apply (inv_worker _ _ _ _ _ _ _ Hinv); simpl; set_solver).
  rewrite bool_decide_true by done.
  assert (∀ w, w = Dead ∨ (∃ err, w = Handled key err) →
    inv (configured_key (provider s)) (ids (provider s)) (lbLister (provider s))
      (gp_queue (provider s)) (notifications s) w (current_version (provider s))) as Hinv'.
  { intros w Hww. destruct Hinv as [Hst Hno Hq Hwk Hf Hfr]. split; try done.
    - destruct Hww as [->|[err ->]]; simpl; set_solver.
    - intros l i Hl Hi. left. by eapply current_version_ids. }
  unfold catch. pose proof (syncLoadBalancer_view key (provider s)) as Hv.
  destruct (syncLoadBalancer key (provider s)) as [[]]; simpl in Hv |- *;
    (apply (system_inv_view s); [exact Hv|apply Hinv'; eauto]).
Qed.

(** The configuration's namespace and name never change. *)
Definition ok_step s s' : Prop :=
  system_inv s' ∧
  LoadBalancerNamespace (cfg (provider s')) = LoadBalancerNamespace (cfg (provider s)) ∧
  LoadBalancerName (cfg (provider s')) = LoadBalancerName (cfg (provider s)).

Lemma ids_fresh p l : heap p !! l = None → ids p !! l = None.
Proof. intros Hl. unfold ids. by rewrite lookup_fmap, Hl. Qed.

Lemma step_new s l lb n :
  system_inv s → heap (provider s) !! l = None → named (identity lb) = true →
  (∀ l', l' ∈ notification_locs n → l' = l ∨ ∃ k, lbLister (provider s) !! k = Some l') →
  (object_key lb = configured_key (provider s) →
     will_enqueue (configured_key (provider s)) (<[l := identity lb]> (ids (provider s))) n ∨
     ∃ l0 i0, lbLister (provider s) !! configured_key (provider s) = Some l0 ∧
       ids (provider s) !! l0 = Some i0 ∧ i0.2 = lb_ResourceVersion lb) →
  ok_step s (informer s (<[l := lb]> (heap (provider s)))
               (<[object_key lb := l]> (lbLister (provider s))) n).
Proof.
  intros Hinv Hl Hnm Hlocs HK. split; [|done]. unfold system_inv, informer. simpl.
  unfold ids at 1. simpl. rewrite fmap_insert.
  by apply (inv_informer_new _ _ _ _ _ _ _ l (identity lb)); [| |apply ids_fresh| |].
Qed.

Lemma step_InformerAdd s l lb s' :
  system_inv s → step (InformerAdd l lb) s = Some s' → ok_step s s'.
Proof.
  intros Hinv. cbn [step].
  destruct (bool_decide_reflect (heap (provider s) !! l = None ∧
    lbLister (provider s) !! object_key lb = None)) as [[Hl Hk]|]; [|done].
  destruct (named (identity lb)) eqn:Hnm; [|done]. intros [= <-].
  apply step_new; [done..| |].
  - intros l' ->%list_elem_of_singleton. by left.
  - intros HK. left. exists (identity lb). by rewrite lookup_insert_eq.
Qed.

Lemma step_InformerUpdate s l lb s' :
  system_inv s → step (InformerUpdate l lb) s = Some s' → ok_step s s'.
Proof.
  intros Hinv. cbn [step]. destruct (lbLister (provider s) !! object_key lb) as [l0|] eqn:Hl0;
    simpl; [|done].
  destruct (bool_decide_reflect (heap (provider s) !! l = None)) as [Hl|]; [|done].
  destruct (named (identity lb)) eqn:Hnm; [|done]. intros [= <-]. apply step_new; [done..| |].
  - intros l'. simpl. rewrite !elem_of_cons.
    intros [->|[->|[]%not_elem_of_nil]]; [right; by exists (object_key lb)|by left].
  - intros HK. destruct (inv_store _ _ _ _ _ _ _ Hinv _ _ Hl0) as (i0 & Hi0 & _).
    destruct (decide (i0.2 = lb_ResourceVersion lb)) as [Heq|Hne].
    + right. exists l0, i0. split; [|done]. by rewrite <-Hl0, <-HK.
    + left. exists i0, (identity lb). rewrite lookup_insert_eq.
      rewrite lookup_insert_ne; [done|]. intros ->. by rewrite (ids_fresh _ _ Hl) in Hi0.
Qed.

Lemma step_old s key l idx' n :
  system_inv s → lbLister (provider s) !! key = Some l → idx' ⊆ lbLister (provider s) →
  (∀ l', l' ∈ notification_locs n → l' = l) →
  ok_step s (informer s (heap (provider s)) idx' n).
Proof.
  intros Hinv Hl Hsub Hlocs. split; [|done].
  apply (inv_informer_old _ _ (lbLister (provider s))); [exact Hinv|done|].
  intros l' ->%Hlocs. by exists key.
Qed.

Lemma step_Deliver s s' :
  no_slash (LoadBalancerNamespace (cfg (provider s))) →
  system_inv s → step Deliver s = Some s' → ok_step s s'.
Proof.
  intros Hns Hinv. unfold ok_step, system_inv in *. cbn [step].
  destruct (notifications s) as [|n rest] eqn:Hn; [done|]. intros [= <-]. simpl.
  pose proof (inv_delivered _ _ _ _ _ _ _ _ Hinv) as [H1 H2].
  destruct (deliver_cases (provider s) n Hns) as [->|[-> Hwe]].
  - intros l Hl. apply (inv_nots _ _ _ _ _ _ _ Hinv n); [by left|done].
  - split; [exact H1|done].
  - split; [by apply H2|done].
Qed.

(** A step of the life cycle: the worker has no key before nor after it. *)
Lemma step_lifecycle s p w :
  system_inv s → same_view (provider s) p → worker_keys w = [] →
  worker s = NotStarted ∨ worker s = Idle → ok_step s (with_worker s p w).
Proof.
  intros Hinv Hv Hwk Hw. split; [|split; apply Hv].
  apply (system_inv_view s); [exact Hv|].
  destruct Hinv as [Hst Hno Hq Hwk' Hf Hfr]. split; try done.
  { intros k. rewrite Hwk. by intros []%not_elem_of_nil. }
  intros l i Hl Hi. destruct (Hfr l i Hl Hi) as [?|[?|[Hg|?]]]; auto.
  by destruct Hw as [Hw|Hw], Hg as [Hg|Hg]; rewrite Hw in Hg.
Qed.

Lemma step_StartProvider s s' :
  system_inv s → step StartProvider s = Some s' → ok_step s s'.
Proof.
  intros Hinv. cbn [step]. destruct (worker s) eqn:Hw; try done.
  pose proof (Start_view (provider s)) as Hv.
  destruct (Start (provider s)) as [[[]| |] p']; intros [= <-];
    (apply step_lifecycle; [done|exact Hv|done|by auto]).
Qed.

Lemma step_WorkerGet s s' :
  system_inv s → step WorkerGet s = Some s' → ok_step s s'.
Proof.
  intros Hinv. cbn [step]. destruct (worker s) eqn:Hw; try done.
  destruct (Get _) as [| |key q] eqn:Hg; try done; intros [= <-].
  - apply step_lifecycle; [done|apply same_view_refl|done|by auto].
  - split; [|done]. unfold system_inv in *. rewrite Hw in Hinv.
    by apply (inv_get _ _ _ _ _ _ _ _ Hinv).
Qed.

Lemma step_stop s p w :
  system_inv s → same_view (provider s) p → w = worker s ∨ w = Dead →
  ok_step s (with_worker s p w).
Proof.
  intros Hinv Hv Hw. split; [|split; apply Hv]. apply (system_inv_view s); [exact Hv|].
  destruct Hw as [->| ->]; [exact Hinv|].
  destruct Hinv as [Hst Hno Hq Hwk Hf Hfr]. split; try done.
  - by intros k []%not_elem_of_nil.
  - intros l i Hl Hi. right; right; left. by right.
Qed.

Lemma step_StopBackend s s' :
  system_inv s → step StopBackend s = Some s' → ok_step s s'.
Proof.
  intros Hinv. cbn [step]. destruct (shutdown (provider s)); [done|].
  pose proof (Stop_backend_view (provider s)) as Hv.
  destruct (Stop_backend (provider s)) as [[] p']; intros [= <-];
    (apply (step_stop s p'); [done|exact Hv|by auto]).
Qed.

Lemma step_StopQueue s s' :
  system_inv s → step StopQueue s = Some s' → ok_step s s'.
Proof.
  intros Hinv. cbn [step]. destruct (_ && _) eqn:Hg; [|done].
  apply andb_true_iff in Hg as [_ Hg%negb_true_iff].
  unfold Stop_queue, sq_ShutDown. unfold_prog. rewrite Hg. intros [= <-].
  split; [|done]. eapply inv_queue_step; [exact Hinv|..|by left]; simpl; try done.
  - unfold queued_keys. simpl. set_solver.
  - apply Hinv.
Qed.

Lemma ok_step_queue s p' :
  same_view (with_queue (provider s) (gp_queue p')) p' →
  inv (configured_key (provider s)) (ids (provider s)) (lbLister (provider s))
    (gp_queue p') (notifications s) (worker s) (seen s) →
  ok_step s (with_provider s p').
Proof.
  intros Hv Hinv. split; [|split; apply Hv].
  apply (system_inv_view (with_provider s (with_queue (provider s) (gp_queue p'))) p'
    (worker s) (seen s) Hv Hinv).
Qed.

Lemma system_step_ok `{!ProviderLaws P} a s s' :
  no_slash (LoadBalancerNamespace (cfg (provider s))) →
  system_inv s → step a s = Some s' → ok_step s s'.
Proof.
  intros Hns Hinv Hs. destruct a as [l lb|l lb|key|key|key| |old cur| | | | |ready|item| |].
  - by eapply step_InformerAdd.
  - by eapply step_InformerUpdate.
  - cbn [step] in Hs. destruct (lbLister _ !! key) as [l|] eqn:Hl; simplify_eq/=.
    apply (step_old s key l); [done..|]. simpl. set_solver.
  - cbn [step] in Hs. destruct (lbLister _ !! key) as [l|] eqn:Hl; simplify_eq/=.
    apply (step_old s key l); [done|done|apply delete_subseteq|]. simpl. set_solver.
  - cbn [step] in Hs. destruct (lbLister _ !! key) as [l|] eqn:Hl; simplify_eq/=.
    apply (step_old s key l); [done|done|apply delete_subseteq|]. simpl. set_solver.
  - by apply step_Deliver.
  - cbn [step] in Hs. injection Hs as <-.
    destruct (updateConfigMap_cases (provider s) old cur) as [->| ->];
      (apply ok_step_queue; [done|]); [done|by apply inv_Enqueue].
  - by apply step_StartProvider.
  - by apply step_WorkerGet.
  - cbn [step] in Hs. destruct (worker s) eqn:Hw; simplify_eq.
    split; [by apply system_inv_handle|]. unfold worker_handle, catch.
    pose proof (syncLoadBalancer_view key (provider s)) as (H1 & H2 & _).
    by destruct (syncLoadBalancer key (provider s)) as [[]].
  - cbn [step] in Hs. destruct (worker s) eqn:Hw; simplify_eq. split; [|done].
    unfold system_inv in *. rewrite Hw in Hinv. by apply inv_done.
  - cbn [step] in Hs. destruct (wait_receive _ _) as [q|] eqn:Hq; simplify_eq/=.
    apply ok_step_queue; [done|]. by eapply inv_receive.
  - cbn [step] in Hs. destruct (wait_fire _ _) as [q|] eqn:Hq; simplify_eq/=.
    apply ok_step_queue; [done|]. by eapply inv_fire.
  - by apply step_StopBackend.
  - by apply step_StopQueue.
Qed.

Lemma init_inv c b : system_inv (init c b).
Proof.
  split; simpl; try done.
  - intros n l []%not_elem_of_nil.
  - intros k []%not_elem_of_nil.
  - intros k. unfold NumRequeues. simpl. rewrite lookup_empty. simpl. lia.
Qed.

Lemma reachable_inv `{!ProviderLaws P} c b s :
  no_slash (LoadBalancerNamespace c) → reachable c b s →
  system_inv s ∧ LoadBalancerNamespace (cfg (provider s)) = LoadBalancerNamespace c ∧
  LoadBalancerName (cfg (provider s)) = LoadBalancerName c.
Proof.
  intros Hns. revert s. apply rtc_ind_r.
  - split; [apply init_inv|done].
  - intros y z _ [a Ha] (Hinv & H1 & H2).
    destruct (system_step_ok a y z) as (? & H3 & H4); [by rewrite H1|done|done|].
    split; [done|]. by rewrite H3, H4.
Qed.

(** C30: The provider only ever works on its own load balancer: in every
    reachable state, whatever objects the informer delivers, the queue and its
    delays hold no other key than the configured one, the worker handles no
    other key, and no key has more than [maxRetries] failures counted. *)
Theorem only_configured_key `{!ProviderLaws P} c b s :
  no_slash (LoadBalancerNamespace c) → reachable c b s →
  let K := LoadBalancerNamespace c +:+ "/" +:+ LoadBalancerName c in
  (∀ k, k ∈ queued_keys (gp_queue (provider s)) → k = K) ∧
  (∀ k, worker s = Got k → k = K) ∧
  (∀ k, NumRequeues (gp_queue (provider s)) k <= maxRetries).
Proof.
  intros Hns Hr. destruct (reachable_inv c b s Hns Hr) as ([_ _ Hq Hw Hf _] & H1 & H2).
  unfold configured_key in *. rewrite H1, H2 in *. simpl. split_and!; [set_solver| |done].
  intros k Hk. apply Hw. rewrite Hk. simpl. set_solver.
Qed.

(** Nothing is left to do: no notification, no work, no stop in progress. *)
Definition quiescent s : Prop :=
  notifications s = [] ∧ dirty (sq_queue (gp_queue (provider s))) = ∅ ∧
  shuttingDown (sq_queue (gp_queue (provider s))) = false ∧ worker s = Idle.

Lemma quiescent_seen `{!ProviderLaws P} c b s :
  no_slash (LoadBalancerNamespace c) → reachable c b s → quiescent s →
  ∀ l lb, lister_Get (provider s) (LoadBalancerNamespace c) (LoadBalancerName c) = Some (l, lb) →
    seen s = Some (lb_ResourceVersion lb).
Proof.
  intros Hns Hr (Hn & Hd & Hsd & Hw) l lb Hget.
  destruct (reachable_inv c b s Hns Hr) as ([_ _ _ _ _ Hfr] & H1 & H2).
  unfold configured_key in Hfr. rewrite H1, H2 in Hfr. unfold lister_Get in Hget.
  destruct (lbLister (provider s) !! _) as [l'|] eqn:Hl; simplify_eq/=.
  destruct (heap (provider s) !! l') as [lb'|] eqn:Hlb; simplify_eq/=.
  assert (ids (provider s) !! l = Some (identity lb)) as Hi.
  { unfold ids. by rewrite lookup_fmap, Hlb. }
  destruct (Hfr l (identity lb) eq_refl Hi) as [Hseen|[Hk|[[Hg|Hg]|[Hg|(n & Hin & _)]]]].
  - exact Hseen.
  - rewrite Hd in Hk. by apply not_elem_of_empty in Hk.
  - by rewrite Hw in Hg.
  - by rewrite Hw in Hg.
  - by rewrite Hsd in Hg.
  - rewrite Hn in Hin. by apply not_elem_of_nil in Hin.
Qed.

(** C1: The controller is level triggered.  In every reachable state with no
    pending notification, an empty queue, an idle worker and no shutdown, the
    sync handler has seen the current version of the configured load balancer:
    no interleaving of informer events, deliveries, retries and syncs loses the
    last version. *)
Theorem quiescent_up_to_date `{!ProviderLaws P} c b s :
  no_slash (LoadBalancerNamespace c) → reachable c b s → quiescent s →
  ∀ l lb, lister_Get (provider s) (LoadBalancerNamespace c) (LoadBalancerName c) = Some (l, lb) →
    seen s = Some (lb_ResourceVersion lb).
Proof. apply quiescent_seen. Qed.

(** [Stop] works once: when a stop is under way, another call returns an
    error and changes neither the provider nor its backend. *)
Theorem Stop_once p :
  shutdown p = true →
  Stop p = (Err (ErrorString "shutdown already in progress"), p).
Proof. intros H. unfold Stop, Stop_backend. unfold_prog. by rewrite H. Qed.

(** After a first [Stop] that does not panic, the stop channel is closed, the
    queue refuses new keys, and a second [Stop] returns an error. *)
Theorem Stop_stops p r p' :
  shutdown p = false → sq_stopped (gp_queue p) = false → Stop p = (r, p') →
  is_panic r = false →
  r = Ok () ∧ stopCh_closed p' = true ∧
  (∀ key, Enqueue (gp_queue p') key = gp_queue p') ∧
  (Stop p').1 = Err (ErrorString "shutdown already in progress").
Proof.
  intros Hs Hq. unfold Stop, Stop_backend, Stop_queue, on_backend, sq_ShutDown.
  unfold_prog. rewrite Hs. simpl. destruct (Provider_Stop (Backend p)) as [[] b]; simpl;
    rewrite ?Hq; intros [= <- <-] Hp; simpl; done.
Qed.

End system.

(** ** A backend that logs its calls *)
Inductive call := CallStart | CallUpdate (l : nat) | CallStop.

#[export] Instance call_eq_dec : EqDecision call.
Proof. solve_decision. Defined.

#[export] Instance logging : Provider (list call) := {
  OnUpdate l := λ '(h, log), (Ok (), (h, log ++ [CallUpdate l]));
  Provider_Start log := (Ok (), log ++ [CallStart]);
  WaitForStart log := (Ok true, log);
  Provider_Stop log := (Ok (), log ++ [CallStop]);
}.

#[export] Instance logging_laws : ProviderLaws (list call).
Proof. split. by intros l h b r h' b' [= <- <- <-]. Qed.

Definition example_cfg : Configuration :=
  {| LoadBalancerName := "lb"; LoadBalancerNamespace := "kube-system";
     cfg_TCPConfigMap := ""; cfg_UDPConfigMap := "" |}.

Definition example_lb (version : string) : LoadBalancer :=
  {| lb_Namespace := "kube-system"; lb_Name := "lb"; lb_ResourceVersion := version;
     lb_DeletionTimestamp := None; lb_Finalizers := None;
     Spec := {| Nodes := {| Replicas := None; Names := Some ["node1"]; Effect := None |};
                Proxy := {| ProxyType := "nginx"; HTTPPort := 80; HTTPSPort := 443 |};
                Providers := {| External := None; Ipvsdr := None; Azure := None |} |};
     Status := {| lb_ProxyStatus := {| TCPConfigMap := "tcp"; UDPConfigMap := "udp" |};
                  Vrid := None; AzureStatus := None; lb_NodeStatuses := None |} |}.

(** The load balancer is added and then updated while the worker is busy; the
    worker syncs twice. *)
Definition busy_run : list action :=
  [InformerAdd 0 (example_lb "1"); Deliver; StartProvider; WorkerGet; WorkerHandle;
   InformerUpdate 1 (example_lb "2"); Deliver; WorkerDone; WorkerGet; WorkerHandle; WorkerDone].

Definition example_init : system (list call) := init example_cfg [].

Definition busy_end : system (list call) := default example_init (run busy_run example_init).

Definition is_done {A} (o : option A) : bool := match o with Some _ => true | None => false end.

Lemma run_default (l : list action) (s : system (list call)) :
  is_done (run l s) = true → rtc steps s (default s (run l s)).
Proof. intros H. destruct (run l s) eqn:E; [|done]. by apply (run_steps l). Qed.

Lemma busy_end_reachable : reachable example_cfg [] busy_end.
Proof. apply run_default. vm_compute. reflexivity. Qed.

Lemma only_configured_key_witness :
  queued_keys (gp_queue (provider busy_end)) = ∅ ∧
  ∀ k, NumRequeues (gp_queue (provider busy_end)) k <= maxRetries.
Proof.
  split; [by_compute|].
  exact (proj2 (proj2 (only_configured_key example_cfg [] busy_end eq_refl busy_end_reachable))).
Defined.

Lemma quiescent_up_to_date_witness :
  Backend (provider busy_end) = [CallStart; CallUpdate 0; CallUpdate 1] ∧
  seen busy_end = Some "2".
Proof.
  split; [vm_compute; reflexivity|].
  assert (quiescent busy_end) as Hq.
  { unfold quiescent. split; [vm_compute; reflexivity|]. split; [by_compute|].
    split; vm_compute; reflexivity. }
  refine (quiescent_up_to_date example_cfg [] busy_end eq_refl busy_end_reachable Hq
    1 (example_lb "2") _).
  vm_compute. reflexivity.
Defined.

Lemma Stop_once_witness :
  let p := (Stop (provider busy_end)).2 in
  shutdown p = true ∧ Stop p = (Err (ErrorString "shutdown already in progress"), p).
Proof.
  assert (shutdown (Stop (provider busy_end)).2 = true) as H by (vm_compute; reflexivity).
  split; [exact H|]. exact (Stop_once _ H).
Defined.

Lemma Stop_stops_witness :
  let p := (Stop (provider busy_end)).2 in
  Backend p = [CallStart; CallUpdate 0; CallUpdate 1; CallStop] ∧
  (Stop p).1 = Err (ErrorString "shutdown already in progress").
Proof.
  split; [vm_compute; reflexivity|].
  assert (is_panic (Stop (provider busy_end)).1 = false) as H by (vm_compute; reflexivity).
  assert (shutdown (provider busy_end) = false) as H1 by (vm_compute; reflexivity).
  assert (sq_stopped (gp_queue (provider busy_end)) = false) as H2 by (vm_compute; reflexivity).
  destruct (Stop_stops (provider busy_end) (Stop (provider busy_end)).1
    (Stop (provider busy_end)).2 H1 H2 (surjective_pairing _) H) as (_ & _ & _ & H3).
  exact H3.
Defined.

(** The order of [Stop] leaves a window: the backend is stopped while the
    worker still runs, so a run exists in which the backend is updated after it
    was stopped. *)
Theorem OnUpdate_after_Stop :
  ∃ s, reachable example_cfg [] s ∧
    Backend (provider s) = [CallStart; CallStop; CallUpdate 0] ∧
    shutdown (provider s) = true.
Proof.
  set (l := [InformerAdd 0 (example_lb "1"); Deliver; StartProvider; WorkerGet; StopBackend;
             WorkerHandle]).
  exists (default example_init (run l example_init)). split_and!.
  - apply run_default. vm_compute. reflexivity.
  - vm_compute. reflexivity.
  - vm_compute. reflexivity.
Qed.
