(* ===== verification/ControllerProgress.v ===== *)
(** * The controller makes progress

    The system of ControllerSystem.v observed by a monitor, which remembers the
    last call of the sync handler and how many calls have failed in a row.  The
    monitor watches the steps and does not take part in them. *)

From S2P Require Import Prelude GoStd LbApi Workqueue Controller ControllerSystem.

(** [before] is the provider when the sync handler was last called, [streak] the
    number of calls up to that one that failed without a success between. *)
Record monitor (P : Type) := {
  before : option (GenericProvider P);
  streak : nat;
}.
Arguments before {P} _.
Arguments streak {P} _.

Section progress.
Context {P : Type} `{!Provider P}.
Implicit Types s : system P.
Implicit Types p : GenericProvider P.
Implicit Types m : monitor P.

Definition failed {A} (r : result A) : bool := match r with Ok _ => false | _ => true end.

Definition watch (a : action) s m : monitor P :=
  match a, worker s with
  | WorkerHandle, Got key =>
      {| before := Some (provider s);
         streak := if failed (syncLoadBalancer key (provider s)).1 then S (streak m) else 0 |}
  | _, _ => m
  end.

Definition watched_step (x y : system P * monitor P) : Prop :=
  ∃ a, step a x.1 = Some y.1 ∧ y.2 = watch a x.1 x.2.

Definition watched (c : Configuration) (b : P) : system P * monitor P → Prop :=
  rtc watched_step (init c b, {| before := None; streak := 0 |}).

(** Every run can be watched. *)
Lemma watched_reachable c b s m : watched c b (s, m) → reachable c b s.
Proof.
  assert (∀ x, watched c b x → reachable c b x.1) as H; [|by intros Hw; apply (H (s, m))].
  apply rtc_ind_r; [apply rtc_refl|]. intros x y _ (a & Ha & _) IH. eapply rtc_r; [done|]. by exists a.
Qed.

Lemma reachable_watched c b s : reachable c b s → ∃ m, watched c b (s, m).
Proof.
  revert s. apply rtc_ind_r; [eexists; apply rtc_refl|].
  intros s s' _ [a Ha] [m Hm]. exists (watch a s m). eapply rtc_r; [done|]. by exists a.
Qed.

(** ** Steps that leave the worker alone *)

(** The sync handler is not called, no failure is counted, no key is lost unless
    the queue shuts down, and the backend changes only with a stop. *)
Record quiet s s' : Prop := {
  quiet_worker : worker s' = worker s ∨ worker s' = Dead;
  quiet_failures : failures (gp_queue (provider s')) = failures (gp_queue (provider s));
  quiet_keys : queued_keys (gp_queue (provider s)) ⊆ queued_keys (gp_queue (provider s')) ∨
               shuttingDown (sq_queue (gp_queue (provider s'))) = true;
  quiet_shutting : shuttingDown (sq_queue (gp_queue (provider s))) = true →
                   shuttingDown (sq_queue (gp_queue (provider s'))) = true;
  quiet_seen : seen s' = seen s;
  quiet_backend : shutdown (provider s') = false →
                  shutdown (provider s) = false ∧ Backend (provider s') = Backend (provider s);
}.

Lemma Add_keys (q : workqueue) item :
  list_to_set (queue q) ∪ dirty q ⊆@{gset string} list_to_set (queue (Add q item)) ∪ dirty (Add q item) ∧
  (item ∈ dirty (Add q item) ∨ shuttingDown q = true).
Proof.
  unfold Add. destruct (shuttingDown q); [by auto|].
  repeat case_bool_decide; simpl; rewrite ?list_to_set_app_L; set_solver.
Qed.

Lemma Enqueue_keys q key :
  queued_keys q ⊆ queued_keys (Enqueue q key) ∧ failures (Enqueue q key) = failures q ∧
  shuttingDown (sq_queue (Enqueue q key)) = shuttingDown (sq_queue q).
Proof.
  unfold Enqueue. destruct (shuttingDown (sq_queue q)) eqn:E; [by rewrite E|].
  destruct (Add_keys (sq_queue q) key) as [H _]. destruct (Add_dirty (sq_queue q) key) as (_ & H2 & _).
  split_and!; [|done|simpl; congruence]. unfold queued_keys, set_queue. simpl. set_solver.
Qed.

Lemma deliver_queue p n :
  deliver p n = p ∨ ∃ key, deliver p n = with_queue p (Enqueue (gp_queue p) key).
Proof.
  assert (∀ o, enqueue p o = p ∨ ∃ key, enqueue p o = with_queue p (Enqueue (gp_queue p) key)) as He.
  { intros o. unfold enqueue. destruct (DeletionHandlingMetaNamespaceKeyFunc o); eauto. }
  unfold deliver, addLoadBalancer, updateLoadBalancer, deleteLoadBalancer.
  destruct n; repeat case_match; auto.
Qed.

Lemma quiet_queue s q' :
  queued_keys (gp_queue (provider s)) ⊆ queued_keys q' ∨ shuttingDown (sq_queue q') = true →
  failures q' = failures (gp_queue (provider s)) →
  (shuttingDown (sq_queue (gp_queue (provider s))) = true → shuttingDown (sq_queue q') = true) →
  quiet s (with_provider s (with_queue (provider s) q')).
Proof. intros. by split; auto. Qed.

Lemma quiet_view s p w :
  same_view (provider s) p → w = worker s ∨ w = Dead →
  (shutdown p = false → shutdown (provider s) = false ∧ Backend p = Backend (provider s)) →
  quiet s (with_worker s p w).
Proof. intros (_ & _ & _ & _ & Hq) Hw Hb. split; simpl; rewrite ?Hq; auto. Qed.

(** Every other step starts the worker or is one of its three. *)
Lemma step_quiet a s s' :
  step a s = Some s' →
  match a with
  | StartProvider | WorkerGet | WorkerHandle | WorkerDone => True
  | _ => quiet s s'
  end.
Proof.
  destruct a as [l lb|l lb|key|key|key| |old cur| | | | |ready|item| |]; cbn [step]; try done.
  - destruct (_ && _); [|done]. intros [= <-]; split; simpl; auto.
  - destruct (lbLister _ !! _); simpl; [|done]. destruct (_ && _); [|done]. intros [= <-]; split; simpl; auto.
  - destruct (lbLister _ !! _); simpl; [|done]. intros [= <-]; split; simpl; auto.
  - destruct (lbLister _ !! _); simpl; [|done]. intros [= <-]; split; simpl; auto.
  - destruct (lbLister _ !! _); simpl; [|done]. intros [= <-]; split; simpl; auto.
  - destruct (notifications s) as [|n rest]; [done|]. intros [= <-].
    destruct (deliver_queue (provider s) n) as [Hd|[key Hd]]; rewrite Hd; [by split; auto|].
    destruct (Enqueue_keys (gp_queue (provider s)) key) as (H1 & H2 & H3).
    split; simpl; rewrite ?H3; auto.
  - intros [= <-]. destruct (updateConfigMap_cases (provider s) old cur) as [-> | ->];
      [by split; auto|].
    destruct (Enqueue_keys (gp_queue (provider s)) (configured_key (provider s))) as (H1 & H2 & H3).
    apply quiet_queue; rewrite ?H3; auto.
  - destruct (wait_receive ready _) as [q|] eqn:Hq; [|done]. intros [= <-].
    unfold wait_receive in Hq. destruct (waitingCh _) as [|item rest] eqn:Hch; [done|].
    injection Hq as <-. apply quiet_queue; simpl; [|done|].
    + destruct ready; [destruct (Add_keys (sq_queue (gp_queue (provider s))) item) as [H1 [H2|H2]]|].
      * left. unfold queued_keys. simpl. rewrite Hch. set_solver.
      * right. by rewrite (proj1 (proj2 (Add_dirty _ _))).
      * left. unfold queued_keys. simpl. rewrite Hch. set_solver.
    + destruct ready; [|done]. by rewrite (proj1 (proj2 (Add_dirty _ _))).
  - destruct (wait_fire item _) as [q|] eqn:Hq; [|done]. intros [= <-].
    unfold wait_fire in Hq. case_bool_decide as Hin; [|done]. injection Hq as <-.
    destruct (Add_keys (sq_queue (gp_queue (provider s))) item) as [H1 H2].
    apply quiet_queue; simpl; [|done|by rewrite (proj1 (proj2 (Add_dirty _ _)))].
    destruct H2 as [H2|H2]; [left|right; by rewrite (proj1 (proj2 (Add_dirty _ _)))].
    intros k Hk. unfold queued_keys in *. simpl. destruct (decide (k = item)) as [->|]; set_solver.
  - destruct (shutdown (provider s)) eqn:Hsd; [done|].
    pose proof (Stop_backend_view (provider s)) as Hv.
    assert (shutdown (Stop_backend (provider s)).2 = true) as Hs2.
    { unfold Stop_backend, ignore, catch, on_backend. unfold_prog. rewrite Hsd. simpl.
      by destruct (Provider_Stop _) as [[]]. }
    destruct (Stop_backend (provider s)) as [[] p']; simpl in *; intros [= <-];
      (apply (quiet_view s p'); [done|by auto|by rewrite Hs2]).
  - destruct (shutdown (provider s) && _) eqn:Hg; [|done]. apply andb_true_iff in Hg as [Hsd Hst].
    unfold Stop_queue, sq_ShutDown. unfold_prog. apply negb_true_iff in Hst. rewrite Hst.
    intros [= <-]. split; simpl; auto; congruence.
Qed.

(** ** What the monitor has seen *)

(** The key [K] is on its way to the worker, or the process is ending. *)
Definition under_way (K : string) s : Prop :=
  K ∈ queued_keys (gp_queue (provider s)) ∨ to_see K (worker s) ∨
  shuttingDown (sq_queue (gp_queue (provider s))) = true.

Record progress_inv (K : string) s m : Prop := {
  pi_started : worker s = NotStarted → before m = None;
  pi_none : before m = None → seen s = None;
  pi_seen p : before m = Some p →
    configured_key p = K ∧ seen s = current_version p;
  pi_backend p : before m = Some p → shutdown (provider s) = false →
    Backend (provider s) = Backend (syncLoadBalancer K p).2;
  pi_failed p : before m = Some p → failed (syncLoadBalancer K p).1 = true →
    under_way K s ∨ (∃ e, worker s = Handled K (Some e)) ∨ maxRetries < streak m;
  pi_handled k err : worker s = Handled k err →
    k = K ∧ ∃ p, before m = Some p ∧ failed (syncLoadBalancer K p).1 = bool_decide (err ≠ None);
  pi_streak :
    match worker s with
    | Handled _ None | Dead => True
    | Handled _ (Some _) => S (NumRequeues (gp_queue (provider s)) K) <= streak m
    | _ => NumRequeues (gp_queue (provider s)) K <= streak m
    end;
}.

Lemma progress_quiet K s s' m : quiet s s' → progress_inv K s m → progress_inv K s' m.
Proof.
  intros [Hw Hf Hk Hsh Hsn Hb] [H1 H2 H3 H4 H5 H6 H7].
  assert (NumRequeues (gp_queue (provider s')) K = NumRequeues (gp_queue (provider s)) K) as Hn
    by (unfold NumRequeues; by rewrite Hf).
  split.
  - intros Hns. apply H1. destruct Hw as [Hw|Hw]; congruence.
  - intros Hm. rewrite Hsn. auto.
  - intros p Hp. rewrite Hsn. auto.
  - intros p Hp Hs. destruct (Hb Hs) as [Hs' ->]. auto.
  - intros p Hp Hfl. unfold under_way, to_see in *.
    destruct Hw as [Hw|Hw]; [|by rewrite Hw; auto 6]. rewrite Hw.
    destruct (H5 p Hp Hfl) as [[Hq|[?|?]]|[?|?]]; auto 7.
    destruct Hk as [Hk|Hk]; [left; left; by apply Hk|auto].
  - intros k err Hh. apply H6. destruct Hw; congruence.
  - rewrite Hn. destruct Hw as [-> | ->]; done.
Qed.

(** The key stays on its way when the worker is done with it, unless it was
    synced or has failed too often. *)
Lemma handleSyncError_keys q e K :
  queued_keys q ⊆ queued_keys (sq_Done (handleSyncError q (Some e) K) K) ∧
  (NumRequeues q K < maxRetries →
     K ∈ queued_keys (sq_Done (handleSyncError q (Some e) K) K) ∨
     shuttingDown (sq_queue (sq_Done (handleSyncError q (Some e) K) K)) = true).
Proof.
  unfold handleSyncError, queued_keys, sq_Done, Done.
  case_bool_decide as Hlt; simpl; [|split; [|lia]].
  - destruct (shuttingDown (sq_queue q)) eqn:E; case_bool_decide; simpl;
      rewrite ?list_to_set_app_L; set_solver.
  - case_bool_decide; simpl; rewrite ?list_to_set_app_L; set_solver.
Qed.

Lemma handleSyncError_count q err K :
  NumRequeues (sq_Done (handleSyncError q err K) K) K =
  match err with
  | Some _ => if bool_decide (NumRequeues q K < maxRetries) then S (NumRequeues q K) else 0
  | None => 0
  end.
Proof.
  unfold handleSyncError, sq_Done, NumRequeues. destruct err as [e|]; [case_bool_decide|];
    simpl; by rewrite ?lookup_insert_eq, ?lookup_delete_eq.
Qed.

Lemma handleSyncError_shutting q err K :
  shuttingDown (sq_queue (sq_Done (handleSyncError q err K) K)) = shuttingDown (sq_queue q).
Proof. unfold handleSyncError. by destruct err; [case_bool_decide|]. Qed.

Lemma progress_start K s s' m :
  step StartProvider s = Some s' → progress_inv K s m → progress_inv K s' m.
Proof.
  cbn [step]. destruct (worker s) eqn:Hw; try done. intros Hs [H1 H2 H3 H4 H5 H6 H7].
  pose proof (Start_view (provider s)) as (_ & _ & _ & _ & Hq).
  specialize (H1 Hw). rewrite Hw in H7.
  destruct (Start (provider s)) as [[[]| |] p']; simplify_eq/=;
    (split; simpl; rewrite ?Hq, ?H1; try done; auto).
Qed.

Lemma progress_get K s s' m :
  system_inv s → configured_key (provider s) = K →
  step WorkerGet s = Some s' → progress_inv K s m → progress_inv K s' m.
Proof.
  intros Hinv HK. cbn [step]. destruct (worker s) eqn:Hw; try done.
  intros Hs [H1 H2 H3 H4 H5 H6 H7]. rewrite Hw in *.
  destruct (Get _) as [| |key q] eqn:Hg; simplify_eq/=.
  - split; simpl; try done. intros p Hp Hf. left. right. right.
    unfold Get in Hg. by destruct (queue _), (shuttingDown _).
  - unfold system_inv in Hinv. rewrite Hw in Hinv.
    destruct (inv_get _ _ _ _ _ _ _ _ Hinv Hg) as [-> _].
    split; simpl; try done. intros p Hp Hf. left. right. left. by left.
Qed.

Lemma progress_handle `{!ProviderLaws P} K s s' m :
  system_inv s → configured_key (provider s) = K →
  step WorkerHandle s = Some s' → progress_inv K s m →
  progress_inv K s' (watch WorkerHandle s m).
Proof.
  intros Hinv HK. cbn [step watch]. destruct (worker s) as [| |key| | |] eqn:Hw; try done.
  intros [= <-] [H1 H2 H3 H4 H5 H6 H7]. rewrite Hw in *.
  assert (key = K) as ->.
  { rewrite <-HK. apply (inv_worker _ _ _ _ _ _ _ Hinv). rewrite Hw. simpl. set_solver. }
  pose proof (syncLoadBalancer_view K (provider s)) as (_ & _ & _ & _ & Hq).
  unfold worker_handle, catch. rewrite bool_decide_true by congruence.
  destruct (syncLoadBalancer K (provider s)) as [r p'] eqn:Hr. simpl in Hq.
  assert (∀ w sn', sn' = current_version (provider s) →
    (failed r = true → under_way K (with_worker s p' w) ∨ (∃ e, w = Handled K (Some e))) →
    (w = NotStarted → False) →
    (∀ k err, w = Handled k err → k = K ∧ failed r = bool_decide (err ≠ None)) →
    match w with
    | Handled _ None | Dead => True
    | Handled _ (Some _) =>
        S (NumRequeues (gp_queue (provider s)) K) <= if failed r then S (streak m) else 0
    | _ => False
    end →
    progress_inv K
      {| provider := p'; notifications := notifications s; worker := w; seen := sn' |}
      {| before := Some (provider s); streak := if failed r then S (streak m) else 0 |}) as Hgo.
  { intros w sn' -> Hf Hns Hh Hst. split; simpl; try done; rewrite ?Hq.
    - intros p [= <-]. done.
    - intros p [= <-] _. by rewrite Hr.
    - intros p [= <-]. rewrite Hr. simpl. intros Hfl. destruct (Hf Hfl); auto.
    - intros k err Heq. destruct (Hh _ _ Heq) as [-> Hb]. split; [done|].
      exists (provider s). by rewrite Hr.
    - destruct w as [| | |k [|]| |]; done. }
  destruct r as [[]|e|why]; apply Hgo; try done; simpl.
  - intros k err [= <- <-]. done.
  - intros _. right. by exists e.
  - intros k err [= <- <-]. done.
  - lia.
  - intros _. left. right. left. by right.
Qed.

Lemma progress_done K s s' m :
  step WorkerDone s = Some s' → progress_inv K s m → progress_inv K s' m.
Proof.
  cbn [step]. destruct (worker s) as [| | |k err| |] eqn:Hw; try done.
  intros [= <-] [H1 H2 H3 H4 H5 H6 H7]. rewrite Hw in *.
  destruct (H6 _ _ eq_refl) as [-> (p0 & Hp0 & Hf0)].
  pose proof (handleSyncError_count (gp_queue (provider s)) err K) as Hc.
  split; simpl; try done; [|rewrite Hc; destruct err; [|lia]; case_bool_decide; lia].
  intros p Hp Hf. assert (p = p0) as -> by congruence. rewrite Hf in Hf0.
  destruct err as [e|]; [|done]. unfold under_way. simpl.
  destruct (handleSyncError_keys (gp_queue (provider s)) e K) as [Hk Hr].
  destruct (decide (NumRequeues (gp_queue (provider s)) K < maxRetries)) as [Hlt|Hge];
    [destruct (Hr Hlt); auto|right; right; lia].
Qed.

Lemma progress_step `{!ProviderLaws P} K a s s' m :
  system_inv s → configured_key (provider s) = K →
  step a s = Some s' → progress_inv K s m → progress_inv K s' (watch a s m).
Proof.
  intros Hinv HK Hs Hm. destruct a;
    try (eapply progress_quiet; [exact (step_quiet _ _ _ Hs)|exact Hm]).
  - by eapply progress_start.
  - by eapply progress_get.
  - by eapply progress_handle.
  - by eapply progress_done.
Qed.

Lemma watched_inv `{!ProviderLaws P} c b s m :
  no_slash (LoadBalancerNamespace c) → watched c b (s, m) →
  progress_inv (LoadBalancerNamespace c +:+ "/" +:+ LoadBalancerName c) s m.
Proof.
  intros Hns. set (K := _ +:+ _).
  assert (∀ x, watched c b x → progress_inv K x.1 x.2) as H; [|apply (H (s, m))].
  apply rtc_ind_r; [split; simpl; done|].
  intros x y Hx (a & Ha & ->) IH.
  assert (reachable c b x.1) as Hr by (destruct x; by eapply watched_reachable).
  destruct (reachable_inv c b _ Hns Hr) as (Hinv & H1 & H2).
  apply progress_step; [done| |done..]. unfold configured_key. by rewrite H1, H2.
Qed.

(** The load balancer, if there is one, was synced at its current version: the
    last call of the sync handler found this version, it succeeded or is the last
    of more than [maxRetries] calls that failed in a row, and the backend is as
    the call left it unless it was stopped. *)
Definition last_sync (c : Configuration) s m : Prop :=
  ∀ l lb, lister_Get (provider s) (LoadBalancerNamespace c) (LoadBalancerName c) = Some (l, lb) →
  ∃ p l0 lb0, before m = Some p ∧
    lister_Get p (LoadBalancerNamespace c) (LoadBalancerName c) = Some (l0, lb0) ∧
    lb_ResourceVersion lb0 = lb_ResourceVersion lb ∧
    let '(r, p') :=
      syncLoadBalancer (LoadBalancerNamespace c +:+ "/" +:+ LoadBalancerName c) p in
    (r = Ok () ∨ maxRetries < streak m) ∧
    (shutdown (provider s) = false → Backend (provider s) = Backend p').

Lemma quiescent_last_call `{!ProviderLaws P} c b s m :
  no_slash (LoadBalancerNamespace c) → watched c b (s, m) →
  quiescent s → queued_keys (gp_queue (provider s)) = ∅ →
  last_sync c s m.
Proof.
  intros Hns Hw Hq Hk l lb Hget.
  pose proof (quiescent_seen c b s Hns (watched_reachable _ _ _ _ Hw) Hq _ _ Hget) as Hseen.
  destruct (watched_inv c b s m Hns Hw) as [_ H2 H3 H4 H5 _ _].
  destruct Hq as (_ & _ & Hsd & Hi).
  destruct (before m) as [p|]; [|by rewrite H2 in Hseen].
  destruct (H3 p eq_refl) as [HK Heq]. rewrite Hseen in Heq.
  assert (∃ l0 lb0, lister_Get p (LoadBalancerNamespace c) (LoadBalancerName c) = Some (l0, lb0) ∧
    lb_ResourceVersion lb0 = lb_ResourceVersion lb) as (l0 & lb0 & Hl0 & Hv).
  { unfold current_version, lister_Get in *. unfold configured_key in HK. rewrite HK in Heq.
    symmetry in Heq. apply bind_Some in Heq as ([l0 lb0] & H0 & [= Hv]). by exists l0, lb0. }
  exists p, l0, lb0. split_and!; [done..|].
  specialize (H4 p eq_refl). specialize (H5 p eq_refl).
  destruct (syncLoadBalancer _ p) as [r p']; simpl in *. split; [|exact H4].
  destruct (failed r) eqn:Hf; [right|left; by destruct r as [[]| |]].
  destruct (H5 eq_refl) as [[Hin|[Ht|Hsh]]|[[e He]|Hs]]; [| | | |done].
  - rewrite Hk in Hin. by apply not_elem_of_empty in Hin.
  - rewrite Hi in Ht. by destruct Ht.
  - congruence.
  - congruence.
Qed.

Lemma lister_Get_heap p ns n l lb : lister_Get p ns n = Some (l, lb) → heap p !! l = Some lb.
Proof.
  unfold lister_Get. intros (l' & _ & (lb' & Hl & [= <- <-])%bind_Some)%bind_Some. exact Hl.
Qed.

(** The last call, when it was not given up and no stop came after it, was a
    successful update of the backend. *)
Lemma quiescent_applied `{!ProviderLaws P} c b s m :
  no_slash (LoadBalancerNamespace c) → no_slash (LoadBalancerName c) → watched c b (s, m) →
  quiescent s → queued_keys (gp_queue (provider s)) = ∅ →
  streak m <= maxRetries → shutdown (provider s) = false →
  ∀ l lb, lister_Get (provider s) (LoadBalancerNamespace c) (LoadBalancerName c) = Some (l, lb) →
  ∃ p l0 lb0 h, before m = Some p ∧
    lister_Get p (LoadBalancerNamespace c) (LoadBalancerName c) = Some (l0, lb0) ∧
    lb_ResourceVersion lb0 = lb_ResourceVersion lb ∧ ValidateLoadBalancer lb0 = Ok () ∧
    OnUpdate l0 (heap p, Backend p) = (Ok (), (h, Backend (provider s))).
Proof.
  intros Hns Hn Hw Hq Hk Hst Hsd l lb Hget.
  destruct (quiescent_last_call c b s m Hns Hw Hq Hk l lb Hget) as (p & l0 & lb0 & Hp & Hl0 & Hv & Hrun).
  rewrite (syncLoadBalancer_eq p _ _ Hns Hn), Hl0 in Hrun.
  destruct (ValidateLoadBalancer lb0) as [[]|e|why] eqn:Hval.
  2-3: destruct Hrun as [[?|?] _]; [done|lia].
  destruct (OnUpdate l0 (heap p, Backend p)) as [r [h pv]] eqn:Hup.
  destruct Hrun as [[->|?] HB]; [|lia]. specialize (HB Hsd). simpl in HB.
  exists p, l0, lb0, h. split_and!; try done. by rewrite HB.
Qed.

(** C2: The controller does its work.  When nothing is left to do, no retry
    waits for its delay and the load balancer exists, the last call of the sync
    handler was for the current version of the load balancer, it succeeded or
    is the last of more than [maxRetries] calls that failed in a row, and the
    backend is still as this call left it unless it was stopped: no
    interleaving of events, retries and a stop drops a failed sync early or
    leaves an older version applied. *)
Theorem quiescent_synced `{!ProviderLaws P} c b s m :
  no_slash (LoadBalancerNamespace c) → watched c b (s, m) →
  quiescent s → queued_keys (gp_queue (provider s)) = ∅ →
  last_sync c s m.
Proof. apply quiescent_last_call. Qed.
End progress.

(** ** A backend that fails a number of times *)
Record flaky := { failures_left : nat; updates : nat }.

#[export] Instance flaky_provider : Provider flaky := {
  OnUpdate l := λ '(h, b),
    match failures_left b with
    | 0 => (Ok (), (h, {| failures_left := 0; updates := S (updates b) |}))
    | S n => (Err (ErrorString "try again"), (h, {| failures_left := n; updates := updates b |}))
    end;
  Provider_Start b := (Ok (), b);
  WaitForStart b := (Ok true, b);
  Provider_Stop b := (Ok (), b);
}.

#[export] Instance flaky_laws : ProviderLaws flaky.
Proof. split. intros l h b r h' b'. simpl. by destruct (failures_left b); intros [= <- <- <-]. Qed.

Section watched_run.
Context {P : Type} `{!Provider P}.

Fixpoint watch_run (l : list action) (x : system P * monitor P) : option (system P * monitor P) :=
  match l with
  | [] => Some x
  | a :: l => s' ← step a x.1; watch_run l (s', watch a x.1 x.2)
  end.

Lemma watch_run_rtc l x y : watch_run l x = Some y → rtc watched_step x y.
Proof.
  revert x. induction l as [|a l IH]; intros x; simpl; [intros [= ->]; done|].
  destruct (step a x.1) as [s'|] eqn:Hs; [|done]. intros H.
  apply (rtc_l _ _ (s', watch a x.1 x.2)); [by exists a|]. by apply IH.
Qed.

Lemma watch_run_watched l x : is_done (watch_run l x) = true →
  rtc watched_step x (default x (watch_run l x)).
Proof. intros H. destruct (watch_run l x) eqn:E; [|done]. by eapply watch_run_rtc. Qed.
End watched_run.

Definition flaky_start (n : nat) : system flaky * monitor flaky :=
  (init example_cfg {| failures_left := n; updates := 0 |}, {| before := None; streak := 0 |}).

Definition retry : list action := [DelayReceive true; WorkerGet; WorkerHandle; WorkerDone].

(** The load balancer is added; the worker syncs it four times at most. *)
Definition flaky_end (n retries : nat) : system flaky * monitor flaky :=
  default (flaky_start n)
    (watch_run ([InformerAdd 0 (example_lb "1"); Deliver; StartProvider;
                 WorkerGet; WorkerHandle; WorkerDone] ++ concat (replicate retries retry))
       (flaky_start n)).

(** Two failures are retried and the third call succeeds; of nine failures only
    four are tried. *)
Example flaky_ends :
  Backend (provider (flaky_end 2 2).1) = {| failures_left := 0; updates := 1 |} ∧
  streak (flaky_end 2 2).2 = 0 ∧
  Backend (provider (flaky_end 9 3).1) = {| failures_left := 5; updates := 0 |} ∧
  streak (flaky_end 9 3).2 = 4.
Proof. vm_compute. auto. Qed.

Definition example_key : string :=
  LoadBalancerNamespace example_cfg +:+ "/" +:+ LoadBalancerName example_cfg.

Lemma quiescent_synced_witness :
  let s := (flaky_end 2 2).1 in
  let m := (flaky_end 2 2).2 in
  example_key = "kube-system/lb" ∧
  ∃ p l0 lb0, before m = Some p ∧
    lister_Get p (LoadBalancerNamespace example_cfg) (LoadBalancerName example_cfg) =
      Some (l0, lb0) ∧
    lb_ResourceVersion lb0 = "1" ∧
    let '(r, p') := syncLoadBalancer example_key p in
    (r = Ok () ∨ maxRetries < streak m) ∧
    (shutdown (provider s) = false → Backend (provider s) = Backend p').
Proof.
  assert (watched example_cfg {| failures_left := 2; updates := 0 |}
    ((flaky_end 2 2).1, (flaky_end 2 2).2)) as Hw.
  { rewrite <-surjective_pairing. apply watch_run_watched. vm_compute. reflexivity. }
  assert (quiescent (flaky_end 2 2).1) as Hq.
  { unfold quiescent. split; [vm_compute; reflexivity|]. split; [by_compute|].
    split; vm_compute; reflexivity. }
  assert (queued_keys (gp_queue (provider (flaky_end 2 2).1)) = ∅) as Hk by by_compute.
  assert (lister_Get (provider (flaky_end 2 2).1) (LoadBalancerNamespace example_cfg)
    (LoadBalancerName example_cfg) = Some (0, example_lb "1")) as Hl by (vm_compute; reflexivity).
  split; [reflexivity|].
  exact (quiescent_synced example_cfg _ _ _ eq_refl Hw Hq Hk 0 (example_lb "1") Hl).
Defined.
