(* ===== verification/ControllerSettles.v ===== *)
(** * The controller comes to rest

    Left alone, that is, without new events of the cluster and without a stop,
    the system of ControllerSystem.v makes finitely many steps, however they
    interleave, and where none is left it has done its work or has ended. *)

From S2P Require Import Prelude GoStd LbApi Workqueue Controller ControllerSystem ControllerProgress.

(** The steps of the process itself: the handlers, the worker and the delays of
    the queue. *)
Definition internal (a : action) : bool :=
  match a with
  | Deliver | StartProvider | WorkerGet | WorkerHandle | WorkerDone | DelayReceive _ | DelayFire _ =>
      true
  | _ => false
  end.

Definition worker_weight (w : worker_state) : nat :=
  match w with
  | NotStarted => 2
  | Idle => 1
  | Got _ => 18
  | Handled _ _ => 17
  | Exited | Dead => 0
  end.

Section settles.
Context {P : Type} `{!Provider P}.
Implicit Types s : system P.
Implicit Types (sq : SyncQueue) (q : workqueue).

(** An upper bound for the internal steps.  A key weighs most when it waits for
    its delay, then less with each step towards its sync; a failure that is
    retried costs a unit of patience, which is worth more than the way back. *)
Definition queue_weight sq (K : string) : nat :=
  20 * length (waitingCh sq) + 19 * size (waitingFor sq) + 18 * size (dirty (sq_queue sq)) +
  5 * (maxRetries - NumRequeues sq K).

Definition potential s : nat :=
  19 * length (notifications s) + queue_weight (gp_queue (provider s)) (configured_key (provider s)) +
  worker_weight (worker s).

(** ** The queue and the worker

    What is being processed is what the worker has. *)
Record worker_inv (q : workqueue) (w : worker_state) : Prop := {
  wi_ok : wq_ok q;
  wi_processing : w = Dead ∨ processing q = list_to_set (worker_keys w);
}.

Lemma worker_inv_same q q' w w' :
  worker_inv q w → (wq_ok q → wq_ok q') → processing q' = processing q →
  worker_keys w' = worker_keys w → w' = w ∨ w ≠ Dead → worker_inv q' w'.
Proof.
  intros [Hok Hp] Hq Hpr Hk Hw. split; [auto|]. destruct Hp as [->|Hp].
  - left. by destruct Hw.
  - right. by rewrite Hpr, Hk.
Qed.

Lemma worker_inv_dead q w : worker_inv q w → worker_inv q Dead.
Proof. intros [Hok _]. split; auto. Qed.

Lemma worker_inv_Add q w k : worker_inv q w → worker_inv (Add q k) w.
Proof.
  intros H. eapply worker_inv_same; [exact H|by apply Add_ok| |done|by left].
  unfold Add. destruct (shuttingDown q); [done|]. by repeat case_bool_decide.
Qed.

Lemma worker_inv_Enqueue sq w k :
  worker_inv (sq_queue sq) w → worker_inv (sq_queue (Enqueue sq k)) w.
Proof. unfold Enqueue. destruct (shuttingDown _); [done|]. apply worker_inv_Add. Qed.

Definition system_worker_inv s : Prop := worker_inv (sq_queue (gp_queue (provider s))) (worker s).

Lemma handleSyncError_workqueue sq err K : sq_queue (handleSyncError sq err K) = sq_queue sq.
Proof. unfold handleSyncError. by destruct err; [case_bool_decide|]. Qed.

Lemma worker_inv_lifecycle q w w' :
  worker_inv q w → worker_keys w' = worker_keys w → w' = w ∨ w ≠ Dead → worker_inv q w'.
Proof. intros H. by apply (worker_inv_same q). Qed.

Lemma worker_inv_step `{!ProviderLaws P} a s s' :
  system_worker_inv s → step a s = Some s' → system_worker_inv s'.
Proof.
  unfold system_worker_inv. intros H.
  destruct a as [l lb|l lb|key|key|key| |old cur| | | | |ready|item| |]; cbn [step].
  - destruct (_ && _); [|done]. by intros [= <-].
  - destruct (lbLister _ !! _); simpl; [|done]. destruct (_ && _); [|done]. by intros [= <-].
  - destruct (lbLister _ !! _); simpl; [|done]. by intros [= <-].
  - destruct (lbLister _ !! _); simpl; [|done]. by intros [= <-].
  - destruct (lbLister _ !! _); simpl; [|done]. by intros [= <-].
  - destruct (notifications s) as [|n rest]; [done|]. intros [= <-].
    destruct (deliver_queue (provider s) n) as [-> |[key ->]]; [done|]. by apply worker_inv_Enqueue.
  - intros [= <-]. destruct (updateConfigMap_cases (provider s) old cur) as [-> | ->]; [done|].
    by apply worker_inv_Enqueue.
  - destruct (worker s) eqn:Hw; try done. pose proof (Start_view (provider s)) as (_ & _ & _ & _ & Hq).
    destruct (Start (provider s)) as [[[]| |] p']; intros [= <-]; simpl in *; rewrite Hq;
      (eapply worker_inv_lifecycle; [exact H|done|by right]).
  - destruct (worker s) eqn:Hw; try done. destruct (Get _) as [| |key q'] eqn:Hg; try done; intros [= <-].
    + eapply worker_inv_lifecycle; [exact H|done|by right].
    + simpl. destruct H as [Hok [?|Hp]]; [done|]. pose proof (Get_ok _ _ _ Hok Hg) as [Hok' _].
      apply Get_inv in Hg as (_ & _ & Hpr & _). split; [done|]. right. rewrite Hpr, Hp. set_solver.
  - destruct (worker s) as [| |key| | |] eqn:Hw; try done. intros [= <-]. unfold worker_handle, catch.
    pose proof (syncLoadBalancer_view key (provider s)) as (_ & _ & _ & _ & Hq).
    destruct (syncLoadBalancer key (provider s)) as [[]]; simpl in *; rewrite Hq;
      first [by eapply worker_inv_dead|eapply worker_inv_lifecycle; [exact H|done|by right]].
  - destruct (worker s) as [| | |key err| |] eqn:Hw; try done. intros [= <-]. simpl.
    rewrite handleSyncError_workqueue. destruct H as [Hok [?|Hp]]; [done|]. simpl in Hp. split.
    + apply Done_ok; [done|]. rewrite Hp. set_solver.
    + right. simpl. rewrite Hp. set_solver.
  - destruct (wait_receive _ _) as [q|] eqn:Hq; [|done]. intros [= <-]. unfold wait_receive in Hq.
    destruct (waitingCh _); [done|]. injection Hq as <-. simpl. destruct ready; [|done].
    by apply worker_inv_Add.
  - destruct (wait_fire _ _) as [q|] eqn:Hq; [|done]. intros [= <-]. unfold wait_fire in Hq.
    case_bool_decide; [|done]. injection Hq as <-. by apply worker_inv_Add.
  - destruct (shutdown _); [done|]. pose proof (Stop_backend_view (provider s)) as (_ & _ & _ & _ & Hq).
    destruct (Stop_backend (provider s)) as [[] p']; intros [= <-]; simpl in *; rewrite Hq;
      [done..|by eapply worker_inv_dead].
  - destruct (_ && _) eqn:Hg; [|done]. apply andb_true_iff in Hg as [_ Hg%negb_true_iff].
    unfold Stop_queue, sq_ShutDown. unfold_prog. rewrite Hg. intros [= <-]. by destruct H; split.
Qed.

(** ** Every internal step lowers the potential *)
Lemma Add_weight q k : size (dirty (Add q k)) <= S (size (dirty q)).
Proof.
  unfold Add. destruct (shuttingDown q); [lia|]. case_bool_decide; [lia|].
  case_bool_decide; simpl; rewrite size_union by set_solver; rewrite size_singleton; lia.
Qed.

Lemma Enqueue_weight sq k K : queue_weight (Enqueue sq k) K <= 18 + queue_weight sq K.
Proof.
  unfold Enqueue, queue_weight, NumRequeues. destruct (shuttingDown _); [lia|].
  pose proof (Add_weight (sq_queue sq) k). simpl. lia.
Qed.

Lemma Get_weight q k q' : wq_ok q → processing q = ∅ → Get q = GetItem k q' →
  size (dirty q) = S (size (dirty q')).
Proof.
  intros [_ Hq] Hp (Hl & Hd & _)%Get_inv.
  assert (k ∈ dirty q) as Hk by (apply (Hq k); rewrite Hl; by left).
  rewrite Hd, (size_difference (dirty q) {[k]}) by set_solver. rewrite size_singleton.
  assert (size (dirty q) ≠ 0); [|lia]. intros H0%size_empty_inv. set_solver.
Qed.

Lemma receive_weight ready sq sq' K :
  wait_receive ready sq = Some sq' → queue_weight sq' K < queue_weight sq K.
Proof.
  unfold wait_receive, queue_weight, NumRequeues. destruct (waitingCh sq) as [|item rest]; [done|].
  intros [= <-]. destruct ready; simpl.
  - pose proof (Add_weight (sq_queue sq) item). lia.
  - assert (size ({[item]} ∪ waitingFor sq) <= S (size (waitingFor sq))); [|lia].
    rewrite size_union_alt, size_singleton.
    pose proof (subseteq_size (waitingFor sq ∖ {[item]}) (waitingFor sq)). set_solver by lia.
Qed.

Lemma fire_weight item sq sq' K :
  wait_fire item sq = Some sq' → queue_weight sq' K < queue_weight sq K.
Proof.
  unfold wait_fire, queue_weight, NumRequeues. case_bool_decide as Hin; [|done]. intros [= <-]. simpl.
  pose proof (Add_weight (sq_queue sq) item). rewrite size_difference by set_solver. rewrite size_singleton.
  assert (size (waitingFor sq) ≠ 0); [|lia]. intros H0%size_empty_inv. set_solver.
Qed.

Lemma done_weight sq err K :
  NumRequeues sq K <= maxRetries →
  S (queue_weight (sq_Done (handleSyncError sq err K) K) K) < 17 + queue_weight sq K.
Proof.
  intros Hf. unfold queue_weight. rewrite handleSyncError_count.
  assert (length (waitingCh (sq_Done (handleSyncError sq err K) K)) <=
    length (waitingCh sq) + (if bool_decide (err ≠ None ∧ NumRequeues sq K < maxRetries) then 1 else 0)
    ∧ waitingFor (sq_Done (handleSyncError sq err K) K) = waitingFor sq
    ∧ dirty (sq_queue (sq_Done (handleSyncError sq err K) K)) = dirty (sq_queue sq)) as (H1 & -> & ->).
  { unfold handleSyncError. destruct err as [e|]; [case_bool_decide|]; simpl; try (split_and!; [lia|done..]).
    rewrite bool_decide_true by done. split_and!; [|done..].
    destruct (shuttingDown _); rewrite ?length_app; simpl; lia. }
  unfold maxRetries in *. destruct err as [e|]; repeat case_bool_decide; naive_solver lia.
Qed.

Lemma potential_queue s nots sq w :
  potential {| provider := with_queue (provider s) sq; notifications := nots; worker := w;
               seen := seen s |} =
  19 * length nots + queue_weight sq (configured_key (provider s)) + worker_weight w.
Proof. done. Qed.

Lemma potential_view s p w sn :
  same_view (provider s) p →
  potential {| provider := p; notifications := notifications s; worker := w; seen := sn |} =
  19 * length (notifications s) +
    queue_weight (gp_queue (provider s)) (configured_key (provider s)) + worker_weight w.
Proof.
  intros (H1 & H2 & _ & _ & Hq). unfold potential, configured_key. simpl. by rewrite H1, H2, Hq.
Qed.

Lemma internal_decreases `{!ProviderLaws P} a s s' :
  system_inv s → system_worker_inv s → internal a = true → step a s = Some s' →
  potential s' < potential s.
Proof.
  intros Hinv Hwi Ha. set (K := configured_key (provider s)).
  destruct a as [l lb|l lb|key|key|key| |old cur| | | | |ready|item| |]; try done; cbn [step].
  - destruct (notifications s) as [|n rest] eqn:Hn; [done|]. intros [= <-].
    destruct (deliver_queue (provider s) n) as [-> |[key ->]]; rewrite ?potential_queue;
      unfold potential; rewrite Hn; cbn [provider notifications worker length]; fold K; [lia|].
    pose proof (Enqueue_weight (gp_queue (provider s)) key K). lia.
  - destruct (worker s) eqn:Hw; try done. pose proof (Start_view (provider s)) as Hv.
    destruct (Start (provider s)) as [[[]| |] p']; intros [= <-]; simpl in Hv; unfold with_worker;
      rewrite (potential_view s p') by done; unfold potential; rewrite Hw; cbn [worker_weight]; lia.
  - destruct (worker s) eqn:Hw; try done. destruct (Get _) as [| |key q'] eqn:Hg; try done; intros [= <-].
    + unfold with_worker, potential. rewrite Hw. cbn [provider notifications worker worker_weight]. lia.
    + destruct Hwi as [Hok [Hd|Hp]]; rewrite Hw in *; [done|].
      pose proof (Get_weight _ _ _ Hok Hp Hg) as Hs. unfold with_worker. rewrite potential_queue.
      unfold potential, queue_weight, NumRequeues. rewrite Hw, Hs.
      cbn [set_queue sq_queue failures waitingCh waitingFor worker_weight]. lia.
  - destruct (worker s) as [| |key| | |] eqn:Hw; try done. intros [= <-]. unfold worker_handle, catch.
    pose proof (syncLoadBalancer_view key (provider s)) as Hv.
    destruct (syncLoadBalancer key (provider s)) as [[] p']; simpl in Hv;
      rewrite (potential_view s p') by done; unfold potential; rewrite Hw; cbn [worker_weight]; lia.
  - destruct (worker s) as [| | |key err| |] eqn:Hw; try done. intros [= <-].
    assert (key = K) as ->.
    { apply (inv_worker _ _ _ _ _ _ _ Hinv). rewrite Hw. simpl. set_solver. }
    unfold with_worker. rewrite potential_queue. fold K.
    pose proof (done_weight (gp_queue (provider s)) err K (inv_failures _ _ _ _ _ _ _ Hinv K)).
    unfold potential. rewrite Hw. fold K. cbn [worker_weight]. lia.
  - destruct (wait_receive _ _) as [q|] eqn:Hq; [|done]. intros [= <-]. unfold with_provider.
    rewrite potential_queue. apply (receive_weight _ _ _ K) in Hq. unfold potential. fold K. lia.
  - destruct (wait_fire _ _) as [q|] eqn:Hq; [|done]. intros [= <-]. unfold with_provider.
    rewrite potential_queue. apply (fire_weight _ _ _ K) in Hq. unfold potential. fold K. lia.
Qed.

(** ** Where no internal step is left *)
Definition at_rest s : Prop := ∀ a, internal a = true → step a s = None.

(** The worker has ended, because the provider did not start, because the queue
    was shut down, or by a panic. *)
Definition ended s : Prop := worker s = Exited ∨ worker s = Dead.

#[export] Instance ended_dec s : Decision (ended s).
Proof.
  unfold ended, Decision.
  destruct (worker s); first [left; by auto | right; by intros []].
Defined.

(** The internal steps to try. *)
Definition candidates s : list action :=
  [Deliver; StartProvider; WorkerGet; WorkerHandle; WorkerDone; DelayReceive true] ++
  (DelayFire <$> elements (waitingFor (gp_queue (provider s)))).

Lemma candidates_internal s a : a ∈ candidates s → internal a = true.
Proof.
  unfold candidates. rewrite elem_of_app, list_elem_of_fmap.
  intros [Ha|(item & -> & _)]; [|done]. by repeat (apply elem_of_cons in Ha as [->|Ha]; [done|]);
    apply not_elem_of_nil in Ha.
Qed.

Lemma candidates_rest s : (∀ a, a ∈ candidates s → step a s = None) → at_rest s.
Proof.
  intros Hc a Ha.
  assert (DelayReceive true ∈ candidates s) as Hr by (unfold candidates; set_solver).
  destruct a as [| | | | | | | | | | |[]|item| |]; try done;
    try (apply Hc; unfold candidates; simpl; rewrite !elem_of_cons; tauto).
  - apply Hc in Hr. cbn [step] in *. unfold wait_receive in *. by destruct (waitingCh _).
  - destruct (decide (item ∈ waitingFor (gp_queue (provider s)))) as [Hin|Hin].
    + apply Hc. unfold candidates. apply elem_of_app. right. apply list_elem_of_fmap_2. set_solver.
    + cbn [step]. unfold wait_fire. by rewrite bool_decide_false.
Qed.

(** [at_rest] as a test. *)
Definition rests s : bool := forallb (λ a, negb (is_done (step a s))) (candidates s).

Lemma rests_at_rest s : rests s = true → at_rest s.
Proof.
  unfold rests. intros H. apply candidates_rest. intros a Ha.
  rewrite list_elem_of_In in Ha. pose proof (proj1 (forallb_forall _ _) H a Ha) as Hf.
  simpl in Hf. by destruct (step a s).
Qed.

Lemma step_or_rest s : (∃ a s', internal a = true ∧ step a s = Some s') ∨ at_rest s.
Proof.
  destruct (decide (Exists (λ a, is_Some (step a s)) (candidates s))) as [He|Hno].
  - left. apply Exists_exists in He as (a & Ha & [s' Hs]). exists a, s'.
    split; [by eapply candidates_internal|done].
  - right. apply candidates_rest. intros a Ha. destruct (step a s) eqn:Hs; [|done].
    exfalso. apply Hno, Exists_exists. by eauto.
Qed.

(** The system at rest has nothing left to do, or the worker has ended. *)
Lemma at_rest_quiescent s :
  system_worker_inv s → at_rest s →
  ended s ∨ (quiescent s ∧ queued_keys (gp_queue (provider s)) = ∅).
Proof.
  intros [Hok Hp] Hr. unfold ended.
  assert (notifications s = []) as Hn.
  { specialize (Hr Deliver eq_refl). cbn [step] in Hr. by destruct (notifications s). }
  assert (waitingCh (gp_queue (provider s)) = []) as Hch.
  { specialize (Hr (DelayReceive true) eq_refl). cbn [step] in Hr. unfold wait_receive in Hr.
    by destruct (waitingCh _). }
  assert (waitingFor (gp_queue (provider s)) = ∅) as Hfor.
  { apply set_eq. intros item. split; [|set_solver]. intros Hin. exfalso.
    specialize (Hr (DelayFire item) eq_refl). cbn [step] in Hr. unfold wait_fire in Hr.
    by rewrite bool_decide_true in Hr. }
  pose proof (Hr StartProvider eq_refl) as H1. pose proof (Hr WorkerGet eq_refl) as H2.
  pose proof (Hr WorkerHandle eq_refl) as H3. pose proof (Hr WorkerDone eq_refl) as H4.
  cbn [step] in H1, H2, H3, H4. destruct (worker s) eqn:Hw; [|right|done|done|auto..].
  { by destruct (Start (provider s)) as [[[]| |] ?]. }
  unfold Get in H2. destruct (queue _) as [|k rest] eqn:Hq; [|done].
  destruct (shuttingDown _) eqn:Hsd; [done|].
  assert (dirty (sq_queue (gp_queue (provider s))) = ∅) as Hd.
  { destruct Hok as [_ Hok]. destruct Hp as [?|Hp]; [done|]. simpl in Hp. rewrite Hq, Hp in Hok.
    apply set_eq. intros k. specialize (Hok k). set_solver. }
  split; [by split_and!|]. unfold queued_keys. rewrite Hq, Hd, Hch, Hfor. set_solver.
Qed.

(** ** Runs of internal steps *)
Lemma init_worker_inv c b : system_worker_inv (init (P := P) c b).
Proof. split; [apply new_workqueue_ok|by right]. Qed.

Lemma reachable_worker_inv `{!ProviderLaws P} c b s : reachable c b s → system_worker_inv s.
Proof.
  revert s. apply rtc_ind_r; [apply init_worker_inv|]. intros x y _ [a Ha] IH.
  by eapply worker_inv_step.
Qed.

Lemma internal_run_bounded `{!ProviderLaws P} c b l s s' :
  no_slash (LoadBalancerNamespace c) → reachable c b s →
  forallb internal l = true → run l s = Some s' → length l + potential s' <= potential s.
Proof.
  intros Hns. revert s. induction l as [|a l IH]; intros s Hr Hl Hrun.
  { injection Hrun as <-. simpl. lia. }
  cbn [run] in Hrun. cbn [forallb] in Hl. apply andb_true_iff in Hl as [Ha Hl].
  destruct (step a s) as [s1|] eqn:Hs; simpl in Hrun; [|done].
  destruct (reachable_inv c b s Hns Hr) as [Hinv _].
  pose proof (internal_decreases a s s1 Hinv (reachable_worker_inv c b s Hr) Ha Hs).
  assert (reachable c b s1) as Hr1 by (eapply rtc_r; [exact Hr|by exists a]).
  specialize (IH s1 Hr1 Hl Hrun). simpl. lia.
Qed.

Lemma watch_run_run l (x y : system P * monitor P) :
  watch_run l x = Some y → run l x.1 = Some y.1.
Proof.
  revert x. induction l as [|a l IH]; intros x; [by intros [= <-]|]. cbn [watch_run run].
  destruct (step a x.1) as [s1|]; simpl; [|done]. by intros H%IH.
Qed.

Lemma settle `{!ProviderLaws P} c b x :
  no_slash (LoadBalancerNamespace c) → watched c b x →
  ∃ l y, forallb internal l = true ∧ watch_run l x = Some y ∧ at_rest y.1.
Proof.
  intros Hns. remember (potential x.1) as n eqn:Hn. revert x Hn.
  induction n as [n IH] using lt_wf_ind. intros [s m] -> Hw. simpl in *.
  destruct (step_or_rest s) as [(a & s1 & Ha & Hs)|Hrest]; [|by exists [], (s, m)].
  pose proof (watched_reachable _ _ _ _ Hw) as Hr. destruct (reachable_inv c b s Hns Hr) as [Hinv _].
  pose proof (internal_decreases a s s1 Hinv (reachable_worker_inv c b s Hr) Ha Hs) as Hlt.
  destruct (IH _ Hlt (s1, watch a s m) eq_refl) as (l & y & Hl & Hrun & Hrest).
  { eapply rtc_r; [exact Hw|]. by exists a. }
  exists (a :: l), y. split_and!; [simpl; by rewrite Ha|cbn [watch_run fst snd]; by rewrite Hs|done].
Qed.

(** C4: The process makes finitely many steps of its own.  From every reachable
    state, without new events of the cluster and without a stop, no run of
    handlers, worker and delays, in whatever order, is longer than the potential
    of the state, whatever the backend returns: a failing backend makes no
    endless loop. *)
Theorem internal_steps_bounded `{!ProviderLaws P} c b s :
  no_slash (LoadBalancerNamespace c) → reachable c b s →
  ∀ l s', forallb internal l = true → run l s = Some s' → length l <= potential s.
Proof. intros Hns Hr l s' Hl Hrun. pose proof (internal_run_bounded c b l s s' Hns Hr Hl Hrun). lia. Qed.

(** Where a run ends with a living worker and nothing left to do. *)
Lemma settled `{!ProviderLaws P} c b x l y :
  watched c b x → watch_run l x = Some y → at_rest y.1 → ¬ ended y.1 →
  watched c b (y.1, y.2) ∧ quiescent y.1 ∧ queued_keys (gp_queue (provider y.1)) = ∅.
Proof.
  intros Hw Hrun Hrest He. rewrite <-surjective_pairing.
  assert (watched c b y) as Hw' by (unfold watched; etrans; [exact Hw|]; by eapply watch_run_rtc).
  split; [done|]. destruct (at_rest_quiescent y.1) as [?|[Hq Hk]]; [|done..].
  destruct y. by eapply reachable_worker_inv, watched_reachable.
Qed.

(** C3: Left alone, the controller settles.  From every reachable state some run
    of internal steps ends where none is left, and wherever a run, with or without
    events of the cluster, leaves none, the worker has ended or everything is
    done: nothing is queued or delayed, and the load balancer was synced at its
    current version or given up after more than [maxRetries] failures in a row. *)
Theorem controller_settles `{!ProviderLaws P} c b s m :
  no_slash (LoadBalancerNamespace c) → watched c b (s, m) →
  (∃ l y, forallb internal l = true ∧ watch_run l (s, m) = Some y ∧ at_rest y.1) ∧
  (∀ l y, watch_run l (s, m) = Some y → at_rest y.1 →
     ended y.1 ∨
     (quiescent y.1 ∧ queued_keys (gp_queue (provider y.1)) = ∅ ∧ last_sync c y.1 y.2)).
Proof.
  intros Hns Hw. split; [by apply (settle c b)|]. intros l y Hrun Hrest.
  destruct (decide (ended y.1)) as [?|He]; [by left|right].
  destruct (settled c b (s, m) l y Hw Hrun Hrest He) as (Hw' & Hq & Hk).
  split_and!; [done..|]. by eapply quiescent_last_call.
Qed.
End settles.

(** ** The flaky backend comes to rest

    The load balancer has been added and nothing has run yet: seventeen steps are
    left for a backend that fails nine times, and the bound is thirty-six. *)
Definition added (n : nat) : system flaky * monitor flaky :=
  default (flaky_start n) (watch_run [InformerAdd 0 (example_lb "1")] (flaky_start n)).

Definition own_run (retries : nat) : list action :=
  [Deliver; StartProvider; WorkerGet; WorkerHandle; WorkerDone] ++ concat (replicate retries retry).

Definition own_end (n retries : nat) : system flaky * monitor flaky :=
  default (added n) (watch_run (own_run retries) (added n)).

Lemma added_watched n : watched example_cfg {| failures_left := n; updates := 0 |} (added n).
Proof. apply watch_run_watched. reflexivity. Qed.

Lemma added_reachable n : reachable example_cfg {| failures_left := n; updates := 0 |} (added n).1.
Proof. apply (watched_reachable _ _ _ (added n).2). rewrite <-surjective_pairing. apply added_watched. Qed.

Lemma internal_steps_bounded_witness :
  potential (added 9).1 = 36 ∧ length (own_run 3) = 17 ∧ length (own_run 3) <= potential (added 9).1.
Proof.
  split; [vm_compute; reflexivity|]. split; [reflexivity|].
  assert (is_done (run (own_run 3) (added 9).1) = true) as H by (vm_compute; reflexivity).
  destruct (run (own_run 3) (added 9).1) as [s'|] eqn:Hrun; [|discriminate].
  exact (internal_steps_bounded example_cfg _ (added 9).1 eq_refl (added_reachable 9)
    (own_run 3) s' eq_refl Hrun).
Defined.

Lemma controller_settles_witness :
  is_done (watch_run (own_run 2) (added 2)) = true ∧
  Backend (provider (own_end 2 2).1) = {| failures_left := 0; updates := 1 |} ∧
  worker (own_end 2 2).1 = Idle ∧
  (ended (own_end 2 2).1 ∨
   (quiescent (own_end 2 2).1 ∧ queued_keys (gp_queue (provider (own_end 2 2).1)) = ∅ ∧
    last_sync example_cfg (own_end 2 2).1 (own_end 2 2).2)).
Proof.
  assert (is_done (watch_run (own_run 2) (added 2)) = true) as H by (vm_compute; reflexivity).
  split; [exact H|]. split; [vm_compute; reflexivity|]. split; [vm_compute; reflexivity|].
  assert (at_rest (own_end 2 2).1) as Hrest by (apply rests_at_rest; vm_compute; reflexivity).
  assert (watch_run (own_run 2) (added 2) = Some (own_end 2 2)) as Hrun.
  { unfold own_end. by destruct (watch_run (own_run 2) (added 2)). }
  refine (proj2 (controller_settles example_cfg {| failures_left := 2; updates := 0 |}
    (added 2).1 (added 2).2 eq_refl _) (own_run 2) (own_end 2 2) _ Hrest).
  - rewrite <-surjective_pairing. apply added_watched.
  - rewrite <-surjective_pairing. exact Hrun.
Defined.
