(* ===== verification/Execd.v ===== *)
(** * pkg/execd: the daemon supervisor

    [D] with its channels and its goroutines.  Every [RunForever] that succeeds
    leaves a keeper ([keepalive]), a reporter ([reportError]) and, for every
    started process, a waiter that sends the result of [Wait] on [errCh].  The
    operating system is an interface. *)

From S2P Require Import Prelude GoStd.
From Stdlib Require Import Ascii.

(** [Path], [Args], [Env] and [Dir] of a command; its standard streams and
    system attributes are copied along and play no role. *)
Record command := {
  Path : string;
  Args : list string;
  Env : list string;
  Dir : string;
}.

#[export] Instance command_eq_dec : EqDecision command.
Proof. solve_decision. Defined.

Inductive signal := SIGHUP | SIGTERM | SIGKILL.

Class OS (W : Type) := {
  StartProcess : command → W → result Z * W;
  FindProcess : Z → W → result bool;
  SignalProcess : Z → signal → W → result () * W;
  LookPath : string → W → string + error;
  (** what happens during a number of nanoseconds *)
  Elapse : Z → W → W;
}.

Class OSLaws (W : Type) `{!OS W} := {
  start_found c w pid w' : StartProcess c w = (Ok pid, w') → FindProcess pid w' = Ok true;
  start_returns c w why w' : StartProcess c w ≠ (Panic why, w');
  find_returns pid w why : FindProcess pid w ≠ Panic why;
  signal_returns pid sig w why w' : SignalProcess pid sig w ≠ (Panic why, w');
}.

(** [exec.Cmd]: [Process] is nil until the command has been started. *)
Record Cmd := {
  cmd_command : command;
  Process : option Z;
}.

(** A channel that carries no value of interest: nil, open or closed. *)
Inductive chan := NilChan | OpenChan | ClosedChan.

#[export] Instance chan_eq_dec : EqDecision chan.
Proof. solve_decision. Defined.

Definition close (c : chan) : result chan :=
  match c with
  | NilChan => Panic "close of nil channel"
  | OpenChan => Ok ClosedChan
  | ClosedChan => Panic "close of closed channel"
  end.

Definition crashBackoff : nat := 3.

Record D (W : Type) := {
  d_command : command;
  cmd : option Cmd;
  gracePeriod : Z;
  gracefulShutDown : option (Cmd → W → result () * W);
  lookPathErr : option error;
  stopCh : chan;
  errCh : chan;
}.
Arguments d_command {W} _.
Arguments cmd {W} _.
Arguments gracePeriod {W} _.
Arguments gracefulShutDown {W} _.
Arguments lookPathErr {W} _.
Arguments stopCh {W} _.
Arguments errCh {W} _.

(** The daemon, its goroutines and the world.  A keeper is its count of failed
    restarts. *)
Record daemon (W : Type) := {
  d : D W;
  keepers : list nat;
  reporters : nat;
  waiters : nat;
  world : W;
}.
Arguments d {W} _.
Arguments keepers {W} _.
Arguments reporters {W} _.
Arguments waiters {W} _.
Arguments world {W} _.

Section execd.
Context {W : Type} `{!OS W}.
Implicit Types s : daemon W.

Definition with_d s (x : D W) : daemon W :=
  {| d := x; keepers := keepers s; reporters := reporters s; waiters := waiters s;
     world := world s |}.

Definition with_world s (w : W) : daemon W :=
  {| d := d s; keepers := keepers s; reporters := reporters s; waiters := waiters s;
     world := w |}.

Definition with_keepers s (k : list nat) : daemon W :=
  {| d := d s; keepers := k; reporters := reporters s; waiters := waiters s;
     world := world s |}.

Definition set_cmd (x : D W) (c : Cmd) : D W :=
  {| d_command := d_command x; cmd := Some c; gracePeriod := gracePeriod x;
     gracefulShutDown := gracefulShutDown x; lookPathErr := lookPathErr x;
     stopCh := stopCh x; errCh := errCh x |}.

Definition set_chans (x : D W) (stop err : chan) : D W :=
  {| d_command := d_command x; cmd := cmd x; gracePeriod := gracePeriod x;
     gracefulShutDown := gracefulShutDown x; lookPathErr := lookPathErr x;
     stopCh := stop; errCh := err |}.

Definition convertToExec (c : D W) : Cmd := {| cmd_command := d_command c; Process := None |}.

(** [filepath.Base(name) == name]. *)
Definition is_base (name : string) : bool :=
  bool_decide (name = "/") ||
  (bool_decide (name ≠ "") && negb (GoStrings.contains "/"%char name)).

(** [Daemon(name, arg...)]. *)
Definition Daemon (name : string) (arg : list string) (w : W) : D W :=
  let c (path : string) := {| Path := path; Args := name :: arg; Env := []; Dir := "" |} in
  let mk (path : string) (e : option error) :=
    {| d_command := c path; cmd := None; gracePeriod := 0; gracefulShutDown := None;
       lookPathErr := e; stopCh := NilChan; errCh := NilChan |} in
  if is_base name then
    match LookPath name w with
    | inl lp => mk lp None
    | inr e => mk name (Some e)
    end
  else mk name None.

Definition delegate (c : D W) : Cmd := convertToExec c.

(** The fields of the command; everything else starts out zero. *)
Definition convertFromExec (c : Cmd) : D W :=
  {| d_command := cmd_command c; cmd := None; gracePeriod := 0; gracefulShutDown := None;
     lookPathErr := None; stopCh := NilChan; errCh := NilChan |}.

Definition DaemonFrom (c : Cmd) : D W := convertFromExec c.

Definition Command (c : D W) : option Cmd := cmd c.

Definition SetGracePeriod (c : D W) (d : Z) : D W :=
  {| d_command := d_command c; cmd := cmd c; gracePeriod := d;
     gracefulShutDown := gracefulShutDown c; lookPathErr := lookPathErr c;
     stopCh := stopCh c; errCh := errCh c |}.

Definition SetGracefulShutDown (c : D W) (f : Cmd → W → result () * W) : D W :=
  {| d_command := d_command c; cmd := cmd c; gracePeriod := gracePeriod c;
     gracefulShutDown := Some f; lookPathErr := lookPathErr c;
     stopCh := stopCh c; errCh := errCh c |}.

Definition Name (c : D W) : string :=
  match Args (d_command c) with
  | a :: _ => a
  | [] => Path (d_command c)
  end.

Definition IsRunning s : result bool :=
  match cmd (d s) with
  | None => Ok false
  | Some c =>
      match Process c with
      | None => Ok false
      | Some pid =>
          match FindProcess pid (world s) with
          | Ok found => Ok found
          | Err _ => Ok false
          | Panic why => Panic why
          end
      end
  end.

Definition ErrNotRunning : error := ErrorString "execd: process is not running".

(** [c.cmd.Process]: panics when there is no command. *)
Definition process (x : D W) : result (option Z) :=
  c ← deref (cmd x); Ok (Process c).

Definition Pid s : result Z :=
  running ← IsRunning s;
  if running : bool then p ← process (d s); deref p else Err ErrNotRunning.

(** [c.cmd.Process.Signal(sig)]: a nil process panics. *)
Definition signal_process (sig : signal) : prog (daemon W) () := λ s,
  match p ← process (d s); deref p with
  | Ok pid => let '(r, w) := SignalProcess pid sig (world s) in (r, with_world s w)
  | Err e => (Err e, s)
  | Panic why => (Panic why, s)
  end.

Definition Signal (sig : signal) : prog (daemon W) () :=
  s ← get;
  running ← lift (IsRunning s);
  if running : bool then signal_process sig else fail ErrNotRunning.

(** [exec.Cmd.Start]: a command is started once. *)
Definition cmd_Start : prog (daemon W) () := λ s,
  match cmd (d s) with
  | None => (nil_dereference, s)
  | Some c =>
      match Process c with
      | Some _ => (Err (ErrorString "exec: already started"), s)
      | None =>
          match StartProcess (cmd_command c) (world s) with
          | (Ok pid, w) =>
              (Ok (), with_world (with_d s (set_cmd (d s)
                 {| cmd_command := cmd_command c; Process := Some pid |})) w)
          | (Err e, w) => (Err e, with_world s w)
          | (Panic why, w) => (Panic why, with_world s w)
          end
      end
  end.

Definition run : prog (daemon W) () :=
  s ← get;
  match cmd (d s) with
  | None => fail (ErrorString "execd: no command")
  | Some _ =>
      _ ← cmd_Start;
      modify (λ s, {| d := d s; keepers := keepers s; reporters := reporters s;
                      waiters := S (waiters s); world := world s |})
  end.

Definition close_stopCh : prog (daemon W) () :=
  s ← get;
  c ← lift (close (stopCh (d s)));
  modify (λ s, with_d s (set_chans (d s) c (errCh (d s)))).

Definition close_errCh : prog (daemon W) () :=
  s ← get;
  c ← lift (close (errCh (d s)));
  modify (λ s, with_d s (set_chans (d s) (stopCh (d s)) c)).

Definition open_if_nil (c : chan) : chan :=
  match c with NilChan => OpenChan | _ => c end.

(** The fields [RunForever] fills in when they are nil. *)
Definition prepare (x : D W) : D W :=
  let x := match cmd x with None => set_cmd x (delegate x) | Some _ => x end in
  set_chans x (open_if_nil (stopCh x)) (open_if_nil (errCh x)).

Definition RunForever : prog (daemon W) () :=
  s ← get;
  match lookPathErr (d s) with
  | Some e => fail e
  | None =>
      _ ← modify (λ s, with_d s (prepare (d s)));
      r ← catch run;
      match r with
      | inr err => _ ← close_stopCh; _ ← close_errCh; fail err
      | inl _ =>
          modify (λ s, {| d := d s; keepers := keepers s ++ [0]; reporters := S (reporters s);
                          waiters := waiters s; world := world s |})
      end
  end.

Definition shutdown : prog (daemon W) () :=
  s ← get;
  _ ← (if bool_decide (gracePeriod (d s) > 0)%Z then
         _ ← signal_process SIGTERM;
         modify (λ s, with_world s (Elapse (gracePeriod (d s)) (world s)))
       else mret ());
  s ← get;
  running ← lift (IsRunning s);
  if running : bool then signal_process SIGKILL else mret ().

Definition call_graceful (f : Cmd → W → result () * W) (c : Cmd) : prog (daemon W) () := λ s,
  let '(r, w) := f c (world s) in (r, with_world s w).

(** What [Stop] does after it closed the channel. *)
Definition terminate : prog (daemon W) () :=
  s ← get;
  match gracefulShutDown (d s) with
  | Some f =>
      running ← lift (IsRunning s);
      match running : bool, cmd (d s) with
      | true, Some c => call_graceful f c
      | _, _ => shutdown
      end
  | None => shutdown
  end.

Definition Stop : prog (daemon W) () :=
  s ← get;
  match stopCh (d s) with
  | NilChan => fail (ErrorString "execd: stop must be called after run")
  | _ => _ ← close_stopCh; terminate
  end.

(** A tick of the [i]-th keeper, whose count of failed restarts is [n]. *)
Definition tick (i n : nat) : prog (daemon W) () :=
  s ← get;
  running ← lift (IsRunning s);
  if running : bool then mret ()
  else
    _ ← modify (λ s, with_d s (set_cmd (d s) (delegate (d s))));
    r ← catch run;
    match r with
    | inl _ => mret ()
    | inr _ =>
        if bool_decide (crashBackoff <= n) then
          _ ← ignore Stop;
          modify (λ s, with_keepers s (delete i (keepers s)))
        else modify (λ s, with_keepers s (<[i := S n]> (keepers s)))
    end.

(** ** The supervisor as a state machine *)
Inductive action :=
| CallRunForever
| CallStop
| CallSignal (sig : signal)
| Tick (i : nat)
| KeeperStops (i : nat)
| Report
| ReporterStops
| TimePasses (ns : Z).

(** [select] picks any ready branch, so a keeper may serve a tick after
    [stopCh] was closed. *)
Definition step (a : action) s : option (result () * daemon W) :=
  match a with
  | CallRunForever => Some (RunForever s)
  | CallStop => Some (Stop s)
  | CallSignal sig => Some (Signal sig s)
  | Tick i => n ← keepers s !! i; Some (tick i n s)
  | KeeperStops i =>
      if bool_decide (i < length (keepers s) ∧ stopCh (d s) = ClosedChan) then
        Some (Ok (), with_keepers s (delete i (keepers s)))
      else None
  | Report =>
      match waiters s, reporters s with
      | S n, S _ => Some (Ok (), {| d := d s; keepers := keepers s; reporters := reporters s;
                                    waiters := n; world := world s |})
      | _, _ => None
      end
  | ReporterStops =>
      match reporters s with
      | S n => if bool_decide (stopCh (d s) = ClosedChan) then
                 Some (Ok (), {| d := d s; keepers := keepers s; reporters := n;
                                 waiters := waiters s; world := world s |})
               else None
      | 0 => None
      end
  | TimePasses ns => Some (Ok (), with_world s (Elapse ns (world s)))
  end.

(** [Daemon]: a command that has not been run. *)
Definition fresh (x : D W) : Prop :=
  cmd x = None ∧ stopCh x = NilChan ∧ errCh x = NilChan.

Definition new_daemon (x : D W) (w : W) : daemon W :=
  {| d := x; keepers := []; reporters := 0; waiters := 0; world := w |}.

(** ** Facts *)
(** Nothing but [RunForever] and [Stop] touches the channels and the rest of
    the configuration. *)
Definition same_config s s' : Prop :=
  stopCh (d s') = stopCh (d s) ∧ errCh (d s') = errCh (d s) ∧ keepers s' = keepers s ∧
  gracePeriod (d s') = gracePeriod (d s) ∧ gracefulShutDown (d s') = gracefulShutDown (d s) ∧
  lookPathErr (d s') = lookPathErr (d s) ∧ d_command (d s') = d_command (d s) ∧
  cmd (d s') = cmd (d s).

Lemma signal_process_config sig s : same_config s (signal_process sig s).2.
Proof. unfold signal_process. repeat (case_match; simpl; try done). Qed.

Lemma same_config_trans s1 s2 s3 : same_config s1 s2 → same_config s2 s3 → same_config s1 s3.
Proof. unfold same_config. intuition congruence. Qed.

Lemma bind_config {A B} (m : prog (daemon W) A) (f : A → prog (daemon W) B) s :
  (same_config s (m s).2) → (∀ a s', m s = (Ok a, s') → same_config s' (f a s').2) →
  same_config s ((m ≫= f) s).2.
Proof.
  intros Hm Hf. unfold mbind, prog_bind. destruct (m s) as [[a| |] s'] eqn:E; [|done..].
  eapply same_config_trans; [exact Hm|by apply Hf].
Qed.

Lemma shutdown_config s : same_config s (shutdown s).2.
Proof.
  unfold shutdown. apply bind_config; [done|]. intros s0 ? [= <- <-].
  apply bind_config.
  - destruct (bool_decide _); [|done]. apply bind_config; [apply signal_process_config|].
    intros [] s' _. done.
  - intros [] s' _. apply bind_config; [done|]. intros ? ? [= <- <-].
    apply bind_config; [done|]. intros running ? [= _ <-].
    destruct running; [apply signal_process_config|done].
Qed.

Lemma terminate_config s : same_config s (terminate s).2.
Proof.
  unfold terminate. apply bind_config; [done|]. intros s0 ? [= <- <-].
  destruct (gracefulShutDown (d s)) as [f|]; [|apply shutdown_config].
  apply bind_config; [done|]. intros running ? [= _ <-].
  destruct running; [|apply shutdown_config]. destruct (cmd (d s)); [|apply shutdown_config].
  unfold call_graceful. by destruct (f _ _).
Qed.

Definition stopped s : daemon W := with_d s (set_chans (d s) ClosedChan (errCh (d s))).

Lemma Stop_eq s :
  Stop s = match stopCh (d s) with
           | NilChan => (Err (ErrorString "execd: stop must be called after run"), s)
           | OpenChan => terminate (stopped s)
           | ClosedChan => (Panic "close of closed channel", s)
           end.
Proof.
  unfold Stop, close_stopCh. unfold_prog. destruct (stopCh (d s)) eqn:E; simpl; [done| |].
  - by rewrite E.
  - by rewrite E.
Qed.

Lemma Stop_config s r s' :
  stopCh (d s) ≠ NilChan → Stop s = (r, s') → stopCh (d s') = ClosedChan ∧ keepers s' = keepers s.
Proof.
  intros Hne. rewrite Stop_eq. destruct (stopCh (d s)) eqn:E; [done| |].
  - intros Heq. pose proof (terminate_config (stopped s)) as (H1 & _ & H2 & _).
    rewrite Heq in *. simpl in *. by rewrite H1, H2.
  - by intros [= <- <-].
Qed.

(** [Stop] is not idempotent.  Once a [Stop] of a daemon that was run has
    returned, with or without an error, the next [Stop] panics on the closed
    channel. *)
Theorem Stop_twice_panics s r s' :
  stopCh (d s) ≠ NilChan → Stop s = (r, s') →
  (Stop s').1 = Panic "close of closed channel".
Proof.
  intros Hne Heq. destruct (Stop_config s r s' Hne Heq) as [Hc _]. by rewrite Stop_eq, Hc.
Qed.

Lemma IsRunning_ext s s' :
  cmd (d s') = cmd (d s) → world s' = world s → IsRunning s' = IsRunning s.
Proof. unfold IsRunning. by intros -> ->. Qed.

(** Closing both channels, as a failed [RunForever] does. *)
Definition both_closed s : daemon W := with_d s (set_chans (d s) ClosedChan ClosedChan).

Lemma close_both {A} s (e : error) :
  stopCh (d s) = OpenChan → errCh (d s) = OpenChan →
  (_ ← close_stopCh; _ ← close_errCh; @fail (daemon W) A e) s = (Err e, both_closed s).
Proof.
  intros Hs He. unfold close_stopCh, close_errCh. unfold_prog. rewrite Hs. simpl. by rewrite He.
Qed.

(** ** The failure count of a keeper is bounded *)
Definition bounded (l : list nat) : Prop := Forall (λ n, n <= crashBackoff) l.

Definition keeps {A} (m : prog (daemon W) A) : Prop := ∀ s, keepers (m s).2 = keepers s.

Lemma keeps_bind {A B} (m : prog (daemon W) A) (f : A → prog (daemon W) B) :
  keeps m → (∀ a, keeps (f a)) → keeps (m ≫= f).
Proof.
  intros Hm Hf s. unfold mbind, prog_bind. specialize (Hm s).
  destruct (m s) as [[] s']; [|done..]. simpl in Hm. by rewrite Hf.
Qed.

Lemma keeps_run : keeps run.
Proof.
  apply keeps_bind; [done|]. intros s0. destruct (cmd (d s0)); [|done].
  apply keeps_bind; [|done]. intros s. unfold cmd_Start.
  repeat (case_match; simpl; try done).
Qed.

Lemma keeps_Stop : keeps Stop.
Proof.
  intros s. rewrite Stop_eq. destruct (stopCh (d s)); [done| |done].
  apply (terminate_config (stopped s)).
Qed.

Lemma keeps_close : keeps close_stopCh ∧ keeps close_errCh.
Proof.
  split; intros s; unfold close_stopCh, close_errCh; unfold_prog; simpl;
    by destruct (close _).
Qed.

(** After its first reading steps [RunForever] keeps the keepers or adds one
    that has failed no restart. *)
Lemma RunForever_keepers s :
  ∃ l, (l = [] ∨ l = [0]) ∧ keepers (RunForever s).2 = keepers s ++ l.
Proof.
  unfold RunForever. rewrite (prog_bind_Ok get _ s s s eq_refl).
  destruct (lookPathErr (d s)); [exists []; rewrite app_nil_r; by auto|].
  rewrite (prog_bind_Ok (modify (λ s, with_d s (prepare (d s)))) _ s ()
    (with_d s (prepare (d s))) eq_refl).
  pose proof (keeps_run (with_d s (prepare (d s)))) as Hk.
  change (keepers (with_d s (prepare (d s)))) with (keepers s) in Hk. rewrite <-Hk.
  unfold mbind at 1, prog_bind at 1, catch. destruct (run _) as [[[]|e|] s'].
  - exists [0]. auto.
  - exists []. rewrite app_nil_r. split; [by auto|].
    apply (keeps_bind close_stopCh); [apply keeps_close|]. intros _.
    apply (keeps_bind close_errCh); [apply keeps_close|]. done.
  - exists []. rewrite app_nil_r. by auto.
Qed.

Lemma tick_keepers s i n :
  bounded (keepers s) → keepers s !! i = Some n → bounded (keepers (tick i n s).2).
Proof.
  intros Hb Hi. unfold tick. rewrite (prog_bind_Ok get _ s s s eq_refl).
  unfold mbind at 1, prog_bind at 1, lift. destruct (IsRunning s) as [[]| |]; try done.
  rewrite (prog_bind_Ok (modify (λ s, with_d s (set_cmd (d s) (delegate (d s))))) _ s ()
    (with_d s (set_cmd (d s) (delegate (d s)))) eq_refl).
  pose proof (keeps_run (with_d s (set_cmd (d s) (delegate (d s))))) as Hk.
  unfold mbind at 1, prog_bind at 1, catch at 1.
  destruct (run _) as [[[]|e|] s']; simpl in Hk |- *; try (by rewrite Hk).
  case_bool_decide as Hn.
  - unfold ignore, catch. unfold mbind, prog_bind. pose proof (keeps_Stop s') as Hs.
    destruct (Stop s') as [[] s2]; simpl in *; rewrite Hs, Hk; [| |done];
      by apply Forall_delete.
  - simpl. rewrite Hk. apply Forall_insert; [done|lia].
Qed.

(** C36: In every history of calls, signals, ticks and goroutine exits, no keeper
    has counted more than [crashBackoff] failed restarts. *)
Theorem keepers_bounded x w s :
  rtc (λ s s', ∃ a r, step a s = Some (r, s')) (new_daemon x w) s →
  Forall (λ n, n <= crashBackoff) (keepers s).
Proof.
  revert s. apply (rtc_ind_r (λ s, bounded (keepers s))); [by constructor|].
  intros s s' _ (a & r & Hs) Hb. unfold step in Hs. destruct a as [| |sig|i|i| | |ns].
  - destruct (RunForever_keepers s) as (l & Hl & H). injection Hs as Hs. rewrite Hs in H.
    simpl in H. rewrite H. apply Forall_app. split; [done|].
    destruct Hl as [->| ->]; repeat constructor; lia.
  - injection Hs as Hs. pose proof (keeps_Stop s) as H. rewrite Hs in H. simpl in H. by rewrite H.
  - injection Hs as Hs. unfold Signal in Hs.
    assert (keeps (Signal sig)) as H.
    { apply keeps_bind; [done|]. intros s0. apply keeps_bind; [done|]. intros [].
      - intros s1. apply (signal_process_config sig s1).
      - done. }
    specialize (H s). unfold Signal in H. rewrite Hs in H. simpl in H. by rewrite H.
  - destruct (keepers s !! i) as [n|] eqn:Hi; [|done]. injection Hs as Hs.
    pose proof (tick_keepers s i n Hb Hi) as H. by rewrite Hs in H.
  - case_bool_decide; [|done]. injection Hs as _ <-. simpl. by apply Forall_delete.
  - repeat case_match; try done. by injection Hs as _ <-.
  - repeat case_match; try done. by injection Hs as _ <-.
  - by injection Hs as _ <-.
Qed.

Section laws.
Context `{!OSLaws W}.

Lemma IsRunning_returns s : ∃ b, IsRunning s = Ok b.
Proof.
  unfold IsRunning. destruct (cmd (d s)) as [c|]; [|by eexists].
  destruct (Process c) as [pid|]; [|by eexists].
  pose proof (find_returns pid (world s)) as Hp.
  destruct (FindProcess pid (world s)) as [| |why]; [by eexists..|by destruct (Hp why)].
Qed.

(** [run] on a command that was not started: the outcome of the start, and a
    waiter for the process. *)
Lemma run_new s c :
  cmd (d s) = Some c → Process c = None →
  match StartProcess (cmd_command c) (world s) with
  | (Ok pid, w) =>
      ∃ s', run s = (Ok (), s') ∧ IsRunning s' = Ok true ∧ keepers s' = keepers s ∧
        stopCh (d s') = stopCh (d s) ∧ errCh (d s') = errCh (d s)
  | (Err e, w) => run s = (Err e, with_world s w)
  | (Panic why, w) => False
  end.
Proof.
  intros Hc Hp. unfold run, cmd_Start. unfold_prog. rewrite Hc. simpl. rewrite Hc, Hp.
  destruct (StartProcess (cmd_command c) (world s)) as [[pid|e|why] w] eqn:E.
  - eexists. split; [done|]. simpl. split; [|done]. unfold IsRunning. simpl.
    by rewrite (start_found _ _ _ _ E).
  - done.
  - by apply start_returns in E.
Qed.

Lemma run_started s c pid :
  cmd (d s) = Some c → Process c = Some pid →
  run s = (Err (ErrorString "exec: already started"), s).
Proof. intros Hc Hp. unfold run, cmd_Start. unfold_prog. rewrite Hc. simpl. by rewrite Hc, Hp. Qed.

(** A tick gives the daemon a new command that has no process yet. *)
Definition renewed s : daemon W := with_d s (set_cmd (d s) (delegate (d s))).

(** [terminate] when the command has no process. *)
Lemma terminate_no_process s c :
  cmd (d s) = Some c → Process c = None →
  terminate s = if decide (0 < gracePeriod (d s))%Z then (nil_dereference, s) else (Ok (), s).
Proof.
  intros Hc Hp.
  assert (IsRunning s = Ok false) as Hrun by (unfold IsRunning; by rewrite Hc, Hp).
  assert (shutdown s = if decide (0 < gracePeriod (d s))%Z then (nil_dereference, s)
                       else (Ok (), s)) as Hsd.
  { unfold shutdown, signal_process, process. unfold_prog. simpl.
    case_decide; [rewrite bool_decide_true by lia|rewrite bool_decide_false by lia].
    - rewrite Hc. simpl. by rewrite Hp.
    - by rewrite Hrun. }
  unfold terminate. unfold_prog. rewrite Hrun. by destruct (gracefulShutDown (d s)).
Qed.

(** C37: What a tick of a keeper does.  A running process is left alone.  When the
    process is gone the command is started again: if that works the process is
    running; if it fails the keeper counts the failure, up to [crashBackoff]
    times.  At the next failure the keeper gives up: it stops the daemon and
    ends, but when a grace period is set, or the daemon was stopped already,
    this panics. *)
Theorem tick_spec s i n :
  keepers s !! i = Some n → stopCh (d s) ≠ NilChan →
  match IsRunning s with
  | Ok true => tick i n s = (Ok (), s)
  | _ =>
      match StartProcess (d_command (d s)) (world s) with
      | (Ok pid, w) =>
          ∃ s', tick i n s = (Ok (), s') ∧ IsRunning s' = Ok true ∧ keepers s' = keepers s
      | (_, w) =>
          let s1 := with_world (renewed s) w in
          if decide (n < crashBackoff) then
            tick i n s = (Ok (), with_keepers s1 (<[i := S n]> (keepers s)))
          else if decide (stopCh (d s) = ClosedChan ∨ 0 < gracePeriod (d s))%Z then
            is_panic (tick i n s).1 = true
          else
            tick i n s = (Ok (), with_keepers (stopped s1) (delete i (keepers s)))
      end
  end.
Proof.
  intros Hi Hne. destruct (IsRunning_returns s) as [b Hb]. rewrite Hb.
  unfold tick. rewrite (prog_bind_Ok get _ s s s eq_refl).
  rewrite (prog_bind_Ok (lift (IsRunning s)) _ s b s) by (unfold lift; by rewrite Hb).
  destruct b; [done|]. rewrite (prog_bind_Ok _ _ s () (renewed s) eq_refl).
  pose proof (run_new (renewed s) (delegate (d s)) eq_refl eq_refl) as Hrun.
  change (cmd_command (delegate (d s))) with (d_command (d s)) in Hrun.
  change (world (renewed s)) with (world s) in Hrun.
  destruct (StartProcess (d_command (d s)) (world s)) as [[pid|e|why] w]; [| |done].
  - destruct Hrun as (s' & Hr & Hs' & Hk & _). exists s'.
    rewrite (prog_bind_Ok (catch run) _ _ (inl ()) s') by (unfold catch; by rewrite Hr).
    done.
  - rewrite (prog_bind_Ok (catch run) _ _ (inr e) (with_world (renewed s) w))
      by (unfold catch; by rewrite Hrun).
    case_decide as Hn; [by rewrite bool_decide_false by lia|].
    rewrite bool_decide_true by lia. unfold ignore, catch. unfold mbind, prog_bind.
    rewrite Stop_eq. change (stopCh (d (with_world (renewed s) w))) with (stopCh (d s)).
    destruct (stopCh (d s)); [done| |].
    + rewrite (terminate_no_process (stopped (with_world (renewed s) w)) (delegate (d s)) eq_refl eq_refl).
      change (gracePeriod (d (stopped (with_world (renewed s) w)))) with (gracePeriod (d s)).
      repeat case_decide; try done; destruct_or?; try done; try tauto.
    + rewrite decide_True by by left. done.
Qed.

(** The first [RunForever] of a daemon.  When the command cannot be found
    nothing happens; when it starts, the process runs and one keeper watches it;
    when it does not start, the error is returned and both channels are left
    closed, so that a later [Stop] panics. *)
Theorem RunForever_first s :
  fresh (d s) →
  match lookPathErr (d s), StartProcess (d_command (d s)) (world s) with
  | Some e, _ => RunForever s = (Err e, s)
  | None, (Ok pid, w) =>
      ∃ s', RunForever s = (Ok (), s') ∧ IsRunning s' = Ok true ∧
        stopCh (d s') = OpenChan ∧ keepers s' = keepers s ++ [0]
  | None, (Err e, w) =>
      ∃ s', RunForever s = (Err e, s') ∧ keepers s' = keepers s ∧
        (Stop s').1 = Panic "close of closed channel"
  | None, (Panic _, _) => False
  end.
Proof.
  intros (Hcmd & Hstop & Herr). unfold RunForever. rewrite (prog_bind_Ok get _ s s s eq_refl).
  destruct (lookPathErr (d s)) as [e|]; [done|].
  set (s1 := with_d s (prepare (d s))). rewrite (prog_bind_Ok (modify (λ s, with_d s (prepare (d s)))) _ s () s1 eq_refl).
  assert (d s1 = set_chans (set_cmd (d s) (delegate (d s))) OpenChan OpenChan) as Hd.
  { unfold s1, prepare. simpl. rewrite Hcmd. simpl. by rewrite Hstop, Herr. }
  assert (cmd (d s1) = Some (delegate (d s))) as Hc by by rewrite Hd.
  pose proof (run_new s1 (delegate (d s)) Hc eq_refl) as Hrun.
  change (cmd_command (delegate (d s))) with (d_command (d s)) in Hrun.
  change (world s1) with (world s) in Hrun.
  destruct (StartProcess (d_command (d s)) (world s)) as [[pid|e|why] w]; [| |done].
  - destruct Hrun as (s2 & Hr & Hrn & Hk & Hs & _). eexists.
    rewrite (prog_bind_Ok (catch run) _ _ (inl ()) s2) by (unfold catch; by rewrite Hr).
    split; [done|]. split; [exact Hrn|]. simpl. rewrite Hs, Hk, Hd. done.
  - set (s2 := with_world s1 w) in *.
    rewrite (prog_bind_Ok (catch run) _ _ (inr e) s2) by (unfold catch; by rewrite Hrun).
    rewrite close_both by (change (d s2) with (d s1); by rewrite Hd).
    eexists. split; [done|]. split; [done|]. by rewrite Stop_eq.
Qed.

(** Calling [RunForever] again while the process runs is an error that ends
    the supervision: it closes both channels, and a later [Stop] panics. *)
Theorem RunForever_again s :
  IsRunning s = Ok true → lookPathErr (d s) = None →
  stopCh (d s) = OpenChan → errCh (d s) = OpenChan →
  ∃ s', RunForever s = (Err (ErrorString "exec: already started"), s') ∧
    stopCh (d s') = ClosedChan ∧ errCh (d s') = ClosedChan ∧ IsRunning s' = Ok true ∧
    (Stop s').1 = Panic "close of closed channel".
Proof.
  intros Hrun Hlook Hstop Herr. unfold RunForever.
  rewrite (prog_bind_Ok get _ s s s eq_refl), Hlook.
  assert (∃ c pid, cmd (d s) = Some c ∧ Process c = Some pid) as (c & pid & Hc & Hp).
  { unfold IsRunning in Hrun. destruct (cmd (d s)) as [c|]; [|done].
    destruct (Process c) as [pid|] eqn:E; [|done]. by exists c, pid. }
  set (s1 := with_d s (prepare (d s))). rewrite (prog_bind_Ok (modify (λ s, with_d s (prepare (d s)))) _ s () s1 eq_refl).
  assert (d s1 = set_chans (d s) OpenChan OpenChan) as Hd.
  { unfold s1, prepare. simpl. rewrite Hc. by rewrite Hstop, Herr. }
  assert (run s1 = (Err (ErrorString "exec: already started"), s1)) as Hr.
  { apply (run_started s1 c pid); [|done]. by rewrite (f_equal cmd Hd). }
  rewrite (prog_bind_Ok (catch run) _ _ (inr (ErrorString "exec: already started")) s1)
    by (unfold catch; by rewrite Hr).
  rewrite close_both by by rewrite Hd.
  eexists. split; [done|]. split; [done|]. split; [done|]. split; [|by rewrite Stop_eq].
  rewrite <-Hrun. apply IsRunning_ext; [|done].
  exact (f_equal cmd Hd).
Qed.

End laws.

End execd.

(** ** A process table *)
Record processes := {
  next_pid : Z;
  alive : gset Z;
  can_start : bool;
}.

#[export] Instance process_table : OS processes := {
  StartProcess c w :=
    if can_start w then
      (Ok (next_pid w), {| next_pid := next_pid w + 1; alive := {[ next_pid w ]} ∪ alive w;
                           can_start := can_start w |})
    else (Err (ErrorString "fork/exec: resource temporarily unavailable"), w);
  FindProcess pid w := Ok (bool_decide (pid ∈ alive w));
  SignalProcess pid sig w :=
    if bool_decide (pid ∈ alive w) then
      (Ok (), match sig with
              | SIGHUP => w
              | _ => {| next_pid := next_pid w; alive := alive w ∖ {[ pid ]};
                        can_start := can_start w |}
              end)
    else (Err (ErrorString "os: process already finished"), w);
  LookPath name w := inl ("/usr/sbin/" +:+ name);
  Elapse ns w := w;
}.

#[export] Instance process_table_laws : OSLaws processes.
Proof.
  split; simpl.
  - intros c w pid w' H. destruct (can_start w); simplify_eq/=.
    rewrite bool_decide_true by set_solver. done.
  - intros c w why w'. by destruct (can_start w).
  - done.
  - intros pid sig w why w'. by destruct (bool_decide _).
Qed.

Definition keepalived_command : command :=
  {| Path := "/usr/sbin/keepalived"; Args := ["keepalived"; "--dont-fork"]; Env := []; Dir := "" |}.

(** A daemon with the grace period of one second that keepalived has. *)
Definition keepalived_daemon (can : bool) : daemon processes :=
  new_daemon {| d_command := keepalived_command; cmd := None; gracePeriod := 1000000000;
                gracefulShutDown := None; lookPathErr := None; stopCh := NilChan;
                errCh := NilChan |}
    {| next_pid := 100; alive := ∅; can_start := can |}.

Definition running_daemon : daemon processes := (RunForever (keepalived_daemon true)).2.

Lemma Stop_twice_panics_witness :
  (Stop running_daemon).1 = Ok () ∧
  (Stop (Stop running_daemon).2).1 = Panic "close of closed channel".
Proof.
  split; [vm_compute; reflexivity|].
  refine (Stop_twice_panics running_daemon (Stop running_daemon).1 _ _ (surjective_pairing _)).
  vm_compute. discriminate.
Defined.

Lemma RunForever_first_witness :
  fresh (d (keepalived_daemon false)) ∧
  ∃ e s', RunForever (keepalived_daemon false) = (Err e, s') ∧
    (Stop s').1 = Panic "close of closed channel".
Proof.
  assert (fresh (d (keepalived_daemon false))) as H by (split_and!; reflexivity).
  split; [exact H|]. destruct (RunForever_first (keepalived_daemon false) H) as (s' & Hr & _ & Hs).
  eexists _, s'. split; [exact Hr|exact Hs].
Defined.

Lemma RunForever_again_witness :
  ∃ s', RunForever running_daemon = (Err (ErrorString "exec: already started"), s') ∧
    (Stop s').1 = Panic "close of closed channel".
Proof.
  assert (IsRunning running_daemon = Ok true) as H by (vm_compute; reflexivity).
  destruct (RunForever_again running_daemon H eq_refl eq_refl eq_refl) as (s' & Hr & _ & _ & _ & Hs).
  exists s'. split; [exact Hr|exact Hs].
Defined.

(** The process has died, it cannot be started, and three restarts failed. *)
Definition crashed_daemon : daemon processes :=
  {| d := d running_daemon; keepers := [3]; reporters := 1; waiters := 0;
     world := {| next_pid := 101; alive := ∅; can_start := false |} |}.

Lemma tick_spec_witness : is_panic (tick 0 3 crashed_daemon).1 = true.
Proof.
  assert (stopCh (d crashed_daemon) ≠ NilChan) as H by (vm_compute; discriminate).
  exact (tick_spec crashed_daemon 0 3 eq_refl H).
Defined.

(** A daemon can come back after it was stopped: the keeper may serve a tick
    that is due before it looks at the closed channel, and starts the process
    again. *)
Theorem restart_after_Stop :
  ∃ s1 s2, step CallStop running_daemon = Some (Ok (), s1) ∧ IsRunning s1 = Ok false ∧
    step (Tick 0) s1 = Some (Ok (), s2) ∧ IsRunning s2 = Ok true.
Proof.
  exists (Stop running_daemon).2, (tick 0 0 (Stop running_daemon).2).2.
  split_and!; vm_compute; reflexivity.
Qed.

Lemma keepers_bounded_witness :
  Forall (λ n, n <= crashBackoff) (keepers (Stop running_daemon).2).
Proof.
  refine (keepers_bounded (d (keepalived_daemon true)) (world (keepalived_daemon true)) _ _).
  eapply rtc_l; [exists CallRunForever; eexists; reflexivity|].
  apply rtc_once. exists CallStop. eexists. vm_compute. reflexivity.
Defined.
