(* ===== verification/Ingress.v ===== *)
(** * providers/ingress: the ingress sidecar

    The sidecar adjusts kernel parameters when it starts and puts them back when
    it stops.  [range_map] is the order in which [range] visits a map. *)

From S2P Require Import Prelude GoStd LbApi Sysctl Controller.

Definition ingress_sysctlAdjustments : gmap string string :=
  {[ "net.ipv4.tcp_max_tw_buckets" := "6000";
     "net.ipv4.tcp_max_syn_backlog" := "8192";
     "net.core.somaxconn" := "2048";
     "net.core.netdev_max_backlog" := "262144" ]}.

Record Sidecar (W : Type) := {
  sc_sysctlDefault : gomap string;
  sc_kernel : W;
}.
Arguments sc_sysctlDefault {W} _.
Arguments sc_kernel {W} _.

Section sidecar.
Context {W : Type} `{!ProcFS W} (GOOS : string).
Context (range_map : gmap string string → list (string * string)).
Implicit Types p : Sidecar W.

Definition NewIngressSidecar (w : W) : Sidecar W :=
  {| sc_sysctlDefault := Some ∅; sc_kernel := w |}.

(** The settings are assigned whether or not the change succeeded. *)
Definition changeSysctl : prog (Sidecar W) () := λ p,
  match BulkModify GOOS (range_map ingress_sysctlAdjustments) (sc_kernel p) with
  | (Ok (orig, err), w) =>
      let p' := {| sc_sysctlDefault := Some orig; sc_kernel := w |} in
      match err with
      | Some e => (Err e, p')
      | None => (Ok (), p')
      end
  | (Err e, w) => (Err e, {| sc_sysctlDefault := sc_sysctlDefault p; sc_kernel := w |})
  | (Panic why, w) => (Panic why, {| sc_sysctlDefault := sc_sysctlDefault p; sc_kernel := w |})
  end.

Definition resetSysctl : prog (Sidecar W) () := λ p,
  match BulkModify GOOS (range_map (entries (sc_sysctlDefault p))) (sc_kernel p) with
  | (Ok (_, err), w) =>
      let p' := {| sc_sysctlDefault := sc_sysctlDefault p; sc_kernel := w |} in
      match err with
      | Some e => (Err e, p')
      | None => (Ok (), p')
      end
  | (Err e, w) => (Err e, {| sc_sysctlDefault := sc_sysctlDefault p; sc_kernel := w |})
  | (Panic why, w) => (Panic why, {| sc_sysctlDefault := sc_sysctlDefault p; sc_kernel := w |})
  end.

Definition Sidecar_OnUpdate (l : nat) : prog (store * Sidecar W) () := mret ().

Definition Sidecar_Start : prog (Sidecar W) () := ignore changeSysctl.

Definition Sidecar_WaitForStart : prog (Sidecar W) bool := mret true.

Definition Sidecar_Stop : prog (Sidecar W) () := ignore resetSysctl.

#[export] Instance sidecar_provider : Provider (Sidecar W) := {
  OnUpdate := Sidecar_OnUpdate;
  Provider_Start := Sidecar_Start;
  WaitForStart := Sidecar_WaitForStart;
  Provider_Stop := Sidecar_Stop;
}.

#[export] Instance sidecar_laws : ProviderLaws (Sidecar W).
Proof. split. by intros l s b r s' b' [= <- <- <-]. Qed.

Section laws.
Context `{!ProcFSLaws W}.
Hypothesis range_order : ∀ m, map_order (range_map m) m.

Lemma adjustments_distinct : distinct_paths (range_map ingress_sysctlAdjustments).*1.
Proof.
  unfold distinct_paths. rewrite (range_order ingress_sysctlAdjustments).
  assert (distinct_paths (map_to_list ingress_sysctlAdjustments).*1) as H by by_compute.
  exact H.
Qed.

(** [BulkModify] always returns a map, possibly with an error. *)
Lemma BulkModify_total ord w :
  distinct_paths ord.*1 → ∃ orig err w', BulkModify GOOS ord w = (Ok (orig, err), w').
Proof. intros Hnd. destruct (bulk_loop_spec GOOS ord ∅ w Hnd) as (o & e & w' & H & _). eauto. Qed.

(** C33: What the sidecar makes of the kernel.  [Start] and [Stop] always succeed.
    Whatever fails in them, after a start and a stop every kernel parameter has
    the value from before the start or is still as the start left it; and when
    the reset that [Stop] runs has no error, which [Stop] drops, all of them have
    the value from before the start, also when the start failed half way. *)
Theorem Sidecar_restores w r1 p1 r2 p2 :
  Sidecar_Start (NewIngressSidecar w) = (r1, p1) → Sidecar_Stop p1 = (r2, p2) →
  r1 = Ok () ∧ r2 = Ok () ∧
  (∀ k, sysctl_value GOOS k (sc_kernel p2) = sysctl_value GOOS k w ∨
        sysctl_value GOOS k (sc_kernel p2) = sysctl_value GOOS k (sc_kernel p1)) ∧
  ((resetSysctl p1).1 = Ok () →
   ∀ k, sysctl_value GOOS k (sc_kernel p2) = sysctl_value GOOS k w).
Proof.
  intros Hstart Hstop. unfold Sidecar_Start, changeSysctl, Sidecar_Stop, ignore, catch in *.
  unfold_prog. simpl in Hstart.
  destruct (BulkModify_total (range_map ingress_sysctlAdjustments) w adjustments_distinct)
    as (orig & err & w1 & H1).
  rewrite H1 in Hstart.
  assert (r1 = Ok () ∧ p1 = {| sc_sysctlDefault := Some orig; sc_kernel := w1 |}) as [-> ->]
    by (destruct err; simpl in Hstart; by simplify_eq).
  split; [done|]. unfold resetSysctl in *. simpl in *.
  pose proof (saved_distinct GOOS _ _ _ _ _ _ (range_order orig) adjustments_distinct H1) as Hnd.
  destruct (BulkModify_total (range_map orig) w1 Hnd) as (orig' & err' & w2 & H2).
  rewrite H2 in *.
  assert (r2 = Ok () ∧ sc_kernel p2 = w2) as [-> ->]
    by (destruct err'; simpl in Hstop; by simplify_eq).
  split_and!; [done| |].
  - intros k. exact (restore_partial GOOS _ w orig err w1 _ _ w2 k adjustments_distinct H1
      (range_order _) H2).
  - destruct err' as [e|]; [done|]. intros _ k.
    exact (restore_after GOOS _ ingress_sysctlAdjustments w orig err w1 _ orig' w2 k
      (range_order _) adjustments_distinct H1 (range_order _) H2).
Qed.

End laws.
End sidecar.

Definition ingress_fs : gmap string string :=
  {[ "/proc/sys/net/core/somaxconn" := "128";
     "/proc/sys/net/ipv4/tcp_max_syn_backlog" := "512";
     "/proc/sys/net/ipv4/tcp_max_tw_buckets" := "16384";
     "/proc/sys/net/core/netdev_max_backlog" := "1000" ]}.

Definition started_sidecar : Sidecar (gmap string string) :=
  (Sidecar_Start "linux" map_to_list (NewIngressSidecar ingress_fs)).2.
Definition stopped_sidecar : Sidecar (gmap string string) :=
  (Sidecar_Stop "linux" map_to_list started_sidecar).2.

#[local] Instance sidecar_eq_dec : EqDecision (Sidecar (gmap string string)).
Proof. solve_decision. Defined.

Lemma Sidecar_restores_witness :
  sysctl_value "linux" "net.core.somaxconn" (sc_kernel started_sidecar) = Ok "2048" ∧
  sysctl_value "linux" "net.core.somaxconn" (sc_kernel stopped_sidecar) =
  sysctl_value "linux" "net.core.somaxconn" ingress_fs.
Proof.
  split; [by_compute|].
  assert (Sidecar_Start "linux" map_to_list (NewIngressSidecar ingress_fs) =
    (Ok (), started_sidecar)) as H1 by by_compute.
  assert (Sidecar_Stop "linux" map_to_list started_sidecar = (Ok (), stopped_sidecar)) as H2
    by by_compute.
  destruct (Sidecar_restores "linux" map_to_list map_order_self ingress_fs _ _ _ _ H1 H2)
    as (_ & _ & _ & H).
  apply H. vm_compute. reflexivity.
Defined.
