(* ===== verification/Iptables.v ===== *)
(** * providers/ipvsdr: the iptables rules

    The marks the provider puts on packets for its virtual IPs, over an
    interface for [iptables.Interface].  A rule is its list of arguments; two
    families (IPv4 and IPv6) have separate tables. *)

From S2P Require Import Prelude GoStd GoNet LbApi NodeNetwork.

(** ** The interface *)
Inductive family := IPv4Tables | IPv6Tables.
Inductive RulePosition := Append | Prepend.

#[export] Instance family_eq_dec : EqDecision family.
Proof. solve_decision. Defined.

(** A chain of a table of a family. *)
Definition chain_id : Type := family * string * string.

Abbreviation rule := (list string).

Class Iptables (T : Type) := {
  EnsureChain : chain_id → prog T bool;
  EnsureRule : RulePosition → chain_id → rule → prog T bool;
  FlushChain : chain_id → prog T ();
  DeleteRule : chain_id → rule → prog T ();
  DeleteChain : chain_id → prog T ();
  (** the rules of a chain, in the order in which packets meet them *)
  rules : chain_id → T → list rule;
}.

Definition insert_rule (pos : RulePosition) (r : rule) (l : list rule) : list rule :=
  if bool_decide (r ∈ l) then l
  else match pos with Append => l ++ [r] | Prepend => r :: l end.

(** What the interface documents: a call does not panic, changes its own chain
    only, does its work when it succeeds and leaves the chain alone when it
    fails. *)
Class IptablesLaws (T : Type) `{!Iptables T} := {
  ensure_rule_law pos c r t res t' :
    EnsureRule pos c r t = (res, t') →
    (∀ c', c' ≠ c → rules c' t' = rules c' t) ∧
    match res with
    | Ok _ => rules c t' = insert_rule pos r (rules c t)
    | Err _ => rules c t' = rules c t
    | Panic _ => False
    end;
  flush_law c t res t' :
    FlushChain c t = (res, t') →
    (∀ c', c' ≠ c → rules c' t' = rules c' t) ∧
    match res with
    | Ok _ => rules c t' = []
    | Err _ => rules c t' = rules c t
    | Panic _ => False
    end;
}.

(** The program drops most errors of iptables.  To say of one run that none of its
    calls failed, the world carries a history variable, which no program reads:
    the number of failed calls.  Any world can be extended by it. *)
Class CallHistory (T : Type) := { failed_calls : T → nat }.

Definition failures {A} (r : result A) : nat := match r with Ok _ => 0 | _ => 1 end.

Class IptablesHistory (T : Type) `{!Iptables T, !CallHistory T} := {
  EnsureRule_history pos c r t :
    failed_calls (EnsureRule pos c r t).2 = failures (EnsureRule pos c r t).1 + failed_calls t;
  FlushChain_history c t :
    failed_calls (FlushChain c t).2 = failures (FlushChain c t).1 + failed_calls t;
}.

(** ** Names and marks *)
Definition tableFilter : string := "filter".
Definition tableMangle : string := "mangle".
Definition iptablesChain : string := "LOADBALANCER-IPVS-DR".
Definition iptablesOutputChain : string := "LOADBALANCER-IPVS-DR-OUTPUT".
Definition ChainPrerouting : string := "PREROUTING".
Definition ChainOutput : string := "OUTPUT".
Definition acceptMark : Z := 1.
Definition dropMark : Z := 0.
Definition mask : string := "0x00000001".

Definition mangle_chain (f : family) : chain_id := (f, tableMangle, iptablesChain).
Definition output_chain (f : family) : chain_id := (f, tableFilter, iptablesOutputChain).

(** [p.ipt] or [p.ip6t]. *)
Definition tables_for (ip : IP) : family :=
  if bool_decide (getIPVersion ip = ipv6Version) then IPv6Tables else IPv4Tables.

Definition buildIptablesArgs (vip protocol iface : string) (mark : Z) (mac port : string) : rule :=
  ["-i"; iface; "-d"; vip; "-p"; protocol] ++
  (if bool_decide (port ≠ "") then ["-m"; "multiport"; "--dports"; port] else []) ++
  (if bool_decide (mac ≠ "") then ["-m"; "mac"; "--mac-source"; mac] else []) ++
  ["-j"; "MARK"; "--set-xmark"; Strconv.Itoa mark +:+ "/" +:+ mask].

Section iptables.
Context {T : Type} `{!Iptables T}.

Definition setIptablesMark (position : RulePosition) (ip : IP) (protocol iface : string)
    (mark : Z) (mac : string) (ports : list string) : prog T bool :=
  let c := mangle_chain (tables_for ip) in
  let vip := IP_String ip in
  match ports with
  | [] => EnsureRule position c (buildIptablesArgs vip protocol iface mark mac "")
  | _ =>
      _ ← for_each ports (λ port,
        _ ← EnsureRule position c (buildIptablesArgs vip protocol iface mark mac port); mret ());
      mret true
  end.

Definition appendIptablesMark := setIptablesMark Append.
Definition prependIptablesMark := setIptablesMark Prepend.

(** An error is logged and the other rules are still set. *)
Definition ensureIptablesMark (vip iface : string) (nodeIPs : list ifacePreferredNet)
    (tcpPorts udpPorts : list string) : prog T () :=
  match ParseIP vip with
  | None => mret ()
  | Some b =>
      let ip := Some b in
      _ ← for_each nodeIPs (λ neighbor,
        let mac := if_Mac (pn_InterfaceNet neighbor) in
        if bool_decide (mac = "") then mret ()
        else ignore (appendIptablesMark ip "ip" iface dropMark mac []));
      _ ← (if bool_decide (tcpPorts ≠ []) then
             ignore (prependIptablesMark ip "tcp" iface acceptMark "" tcpPorts)
           else mret ());
      (if bool_decide (udpPorts ≠ []) then
         ignore (prependIptablesMark ip "udp" iface acceptMark "" udpPorts)
       else mret ())
  end.

Definition output_drop_rule (vip iface proto : string) : rule :=
  ["-o"; iface; "-d"; vip; "-p"; proto;
   "-m"; "mark"; "--mark"; Strconv.Itoa dropMark +:+ "/" +:+ mask; "-j"; "DROP"].

Definition ensureIptablesOutputDrop (vip iface : string) : prog T () :=
  let c := output_chain (tables_for (ParseIP vip)) in
  for_each ["udp"; "tcp"] (λ proto,
    ignore (EnsureRule Append c (output_drop_rule vip iface proto))).

Definition flushChain : prog T () :=
  _ ← ignore (FlushChain (mangle_chain IPv4Tables));
  _ ← ignore (FlushChain (mangle_chain IPv6Tables));
  _ ← ignore (FlushChain (output_chain IPv4Tables));
  ignore (FlushChain (output_chain IPv6Tables)).

(** An error of [EnsureChain] ends the process through [log.Fatalf]. *)
Definition must_EnsureChain (c : chain_id) : prog T () :=
  r ← catch (EnsureChain c);
  match r with
  | inl _ => mret ()
  | inr _ => lift (Panic "unexpected error")
  end.

Definition ensureChain : prog T () :=
  for_each [IPv4Tables; IPv6Tables] (λ f,
    _ ← must_EnsureChain (mangle_chain f);
    _ ← ignore (EnsureRule Append (f, tableMangle, ChainPrerouting) ["-j"; iptablesChain]);
    _ ← must_EnsureChain (output_chain f);
    ignore (EnsureRule Append (f, tableFilter, ChainOutput) ["-j"; iptablesOutputChain])).

Definition deleteChain : prog T () :=
  _ ← flushChain;
  for_each [IPv4Tables; IPv6Tables] (λ f,
    _ ← ignore (DeleteRule (f, tableMangle, ChainPrerouting) ["-j"; iptablesChain]);
    _ ← ignore (DeleteChain (mangle_chain f));
    _ ← ignore (DeleteRule (f, tableFilter, ChainOutput) ["-j"; iptablesOutputChain]);
    ignore (DeleteChain (output_chain f))).

End iptables.

(** ** What the rules do to a packet

    Whether a rule matches a packet is iptables' own business; a matching MARK
    rule with [--set-xmark v/1] replaces bit 0 of the packet's mark by [v]. *)
Definition target_mark (r : rule) : option Z :=
  match reverse r with
  | v :: "--set-xmark" :: "MARK" :: "-j" :: _ =>
      if bool_decide (v = Strconv.Itoa acceptMark +:+ "/" +:+ mask) then Some acceptMark
      else if bool_decide (v = Strconv.Itoa dropMark +:+ "/" +:+ mask) then Some dropMark
      else None
  | _ => None
  end.

Definition is_mark (m : Z) (r : rule) : Prop := target_mark r = Some m.

#[export] Instance is_mark_dec m r : Decision (is_mark m r).
Proof. unfold is_mark. apply _. Defined.

(** Bit 0 of the mark after the chain; [None] when no rule touched it. *)
Definition chain_mark (matches : rule → bool) (chain : list rule) (bit0 : option Z) : option Z :=
  foldl (λ acc r, if matches r then match target_mark r with Some v => Some v | None => acc end
                  else acc) bit0 chain.

(** Accept rules first, then drop rules. *)
Definition accept_then_drop (chain : list rule) : Prop :=
  ∃ A D, chain = A ++ D ∧ Forall (is_mark acceptMark) A ∧ Forall (is_mark dropMark) D.

Lemma buildIptablesArgs_mark vip protocol iface mark mac port :
  mark = acceptMark ∨ mark = dropMark →
  is_mark mark (buildIptablesArgs vip protocol iface mark mac port).
Proof.
  intros Hm. unfold is_mark, target_mark, buildIptablesArgs. rewrite !reverse_app.
  change (reverse ["-j"; "MARK"; "--set-xmark"; Strconv.Itoa mark +:+ "/" +:+ mask]) with
    [Strconv.Itoa mark +:+ "/" +:+ mask; "--set-xmark"; "MARK"; "-j"].
  simpl. destruct Hm as [->| ->]; by vm_compute.
Qed.

Lemma chain_mark_app matches A D b :
  chain_mark matches (A ++ D) b = chain_mark matches D (chain_mark matches A b).
Proof. apply foldl_app. Qed.

Lemma chain_mark_uniform m matches l b :
  Forall (is_mark m) l →
  chain_mark matches l b =
    if bool_decide (Exists (λ r, matches r = true) l) then Some m else b.
Proof.
  intros Hl. revert b. induction Hl as [|r l Hr Hl IH]; intros b.
  - rewrite bool_decide_false; [done|]. by intros ?%Exists_nil.
  - unfold chain_mark in *. simpl. rewrite IH, Hr. destruct (matches r) eqn:E.
    + rewrite (bool_decide_true (Exists _ (r :: l))) by by left. by case_bool_decide.
    + case_bool_decide as H1.
      * by rewrite bool_decide_true by by right.
      * rewrite bool_decide_false; [done|]. intros [?|?]%Exists_cons; congruence.
Qed.

Lemma insert_Append_drop r l :
  is_mark dropMark r → accept_then_drop l → accept_then_drop (insert_rule Append r l).
Proof.
  intros Hr (A & D & -> & HA & HD). unfold insert_rule. case_bool_decide.
  - by exists A, D.
  - exists A, (D ++ [r]). rewrite (assoc_L (++)). split_and!; [done..|].
    apply Forall_app. split; [done|by constructor].
Qed.

Lemma insert_Prepend_accept r l :
  is_mark acceptMark r → accept_then_drop l → accept_then_drop (insert_rule Prepend r l).
Proof.
  intros Hr (A & D & -> & HA & HD). unfold insert_rule. case_bool_decide.
  - by exists A, D.
  - exists (r :: A), D. split_and!; [done|by constructor|done].
Qed.

Lemma insert_rule_elem pos r l x : x ∈ insert_rule pos r l ↔ x ∈ l ∨ x = r.
Proof.
  unfold insert_rule. case_bool_decide as H; [split; [by left|by intros [?| ->]]|].
  destruct pos; set_solver.
Qed.

Lemma accept_ne_drop : acceptMark ≠ dropMark.
Proof. by compute. Qed.

Lemma Exists_mark_app m m' A D (matches : rule → bool) :
  m ≠ m' → Forall (is_mark m) A → Forall (is_mark m') D →
  (Exists (λ r, is_mark m r ∧ matches r = true) (A ++ D) ↔ Exists (λ r, matches r = true) A).
Proof.
  intros Hne HA HD. rewrite Exists_app. split.
  - intros [H|H].
    + eapply Exists_impl; [exact H|]. by intros r [].
    + exfalso. apply Exists_exists in H as (r & Hr & Hm & _).
      rewrite Forall_forall in HD. specialize (HD r Hr). unfold is_mark in *. congruence.
  - intros H. left. apply Exists_exists in H as (r & Hr & Hm). apply Exists_exists.
    rewrite Forall_forall in HA. exists r. auto.
Qed.

(** On a chain with the accept rules first the drop rules have the last word. *)
Lemma chain_mark_spec matches chain b :
  accept_then_drop chain →
  chain_mark matches chain b =
    if bool_decide (Exists (λ r, is_mark dropMark r ∧ matches r = true) chain)
    then Some dropMark
    else if bool_decide (Exists (λ r, is_mark acceptMark r ∧ matches r = true) chain)
    then Some acceptMark else b.
Proof.
  intros (A & D & -> & HA & HD).
  rewrite chain_mark_app, (chain_mark_uniform acceptMark matches A) by done.
  rewrite (chain_mark_uniform dropMark) by done.
  pose proof (Exists_mark_app acceptMark dropMark A D matches accept_ne_drop HA HD) as H1.
  pose proof (Exists_mark_app dropMark acceptMark D A matches (not_eq_sym accept_ne_drop) HD HA)
    as H2.
  rewrite (Permutation_app_comm D A) in H2.
  by rewrite (bool_decide_ext _ _ H1), (bool_decide_ext _ _ H2).
Qed.

(** ** The calls preserve the order of the rules, whatever fails *)
Section laws.
Context {T : Type} `{!Iptables T, !IptablesLaws T}.

Definition chains_ok (t : T) : Prop := ∀ f, accept_then_drop (rules (mangle_chain f) t).

Lemma mangle_chain_inj f f' : mangle_chain f = mangle_chain f' → f = f'.
Proof. by intros [= ->]. Qed.

(** A rule added at its end of its chain. *)
Lemma EnsureRule_mark_ok pos f r :
  (pos = Append ∧ is_mark dropMark r) ∨ (pos = Prepend ∧ is_mark acceptMark r) →
  maintains chains_ok (EnsureRule pos (mangle_chain f) r).
Proof.
  intros Hr t Ht. destruct (EnsureRule pos (mangle_chain f) r t) as [res t'] eqn:E.
  apply ensure_rule_law in E as [Hframe Hres]. simpl. split; [|by destruct res].
  intros f'. destruct (decide (f' = f)) as [->|Hne].
  - destruct res; [|rewrite Hres; apply Ht|done]. rewrite Hres.
    destruct Hr as [[-> ?]|[-> ?]];
      [apply insert_Append_drop|apply insert_Prepend_accept]; try done; apply Ht.
  - rewrite Hframe; [apply Ht|]. by intros ?%mangle_chain_inj.
Qed.

Lemma EnsureRule_other_ok pos c r :
  (∀ f, c ≠ mangle_chain f) → maintains chains_ok (EnsureRule pos c r).
Proof.
  intros Hc t Ht. destruct (EnsureRule pos c r t) as [res t'] eqn:E.
  apply ensure_rule_law in E as [Hframe Hres]. simpl. split; [|by destruct res].
  intros f. rewrite Hframe; [apply Ht|]. intros Heq. by apply (Hc f).
Qed.

(** The rules the provider adds: marks at their end of the mangle chains, and
    anything elsewhere. *)
Definition mark_call (pos : RulePosition) (c : chain_id) (r : rule) : Prop :=
  (∃ f, c = mangle_chain f ∧
     ((pos = Append ∧ is_mark dropMark r) ∨ (pos = Prepend ∧ is_mark acceptMark r))) ∨
  (∀ f, c ≠ mangle_chain f).

Lemma EnsureRule_ok pos c r : mark_call pos c r → maintains chains_ok (EnsureRule pos c r).
Proof.
  intros [(f & -> & Hr)|Hc]; [by apply EnsureRule_mark_ok|by apply EnsureRule_other_ok].
Qed.

Lemma EnsureRule_safe pos c r : maintains (λ _, True) (EnsureRule pos c r).
Proof.
  intros t _. destruct (EnsureRule pos c r t) as [res t'] eqn:Heq.
  apply ensure_rule_law in Heq as [_ Hres]. by destruct res.
Qed.

Lemma FlushChain_safe c : maintains (λ _, True) (FlushChain c).
Proof.
  intros t _. destruct (FlushChain c t) as [res t'] eqn:Heq.
  apply flush_law in Heq as [_ Hres]. by destruct res.
Qed.

(** An invariant of these calls is one of the methods that make them. *)
Section invariant.
Context (I : T → Prop).
Hypothesis HI : ∀ pos c r, mark_call pos c r → maintains I (EnsureRule pos c r).
Hypothesis HF : ∀ c, maintains I (FlushChain c).

Lemma setIptablesMark_maintains pos ip protocol iface mark mac ports :
  (pos = Append ∧ mark = dropMark) ∨ (pos = Prepend ∧ mark = acceptMark) →
  maintains I (setIptablesMark pos ip protocol iface mark mac ports).
Proof.
  intros Hm.
  assert (∀ port, maintains I (EnsureRule pos (mangle_chain (tables_for ip))
    (buildIptablesArgs (IP_String ip) protocol iface mark mac port))) as Hgo.
  { intros port. apply HI. left. exists (tables_for ip). split; [done|].
    destruct Hm as [[-> ->]|[-> ->]]; [left|right]; (split; [done|]);
      apply buildIptablesArgs_mark; auto. }
  unfold setIptablesMark. destruct ports as [|p ports]; [apply Hgo|].
  apply maintains_bind; [|intros _; apply maintains_ret].
  apply maintains_for_each. intros port. apply maintains_bind; [apply Hgo|].
  intros _. apply maintains_ret.
Qed.

Lemma flushChain_maintains : maintains I flushChain.
Proof.
  unfold flushChain.
  repeat (apply maintains_bind; [apply maintains_ignore, HF|intros _]).
  apply maintains_ignore, HF.
Qed.

Lemma ensureIptablesOutputDrop_maintains vip iface :
  maintains I (ensureIptablesOutputDrop vip iface).
Proof.
  apply maintains_for_each. intros proto. apply maintains_ignore, HI. right. by intros f.
Qed.

Lemma ensureIptablesMark_maintains vip iface nodeIPs tcp udp :
  maintains I (ensureIptablesMark vip iface nodeIPs tcp udp).
Proof.
  unfold ensureIptablesMark. destruct (ParseIP vip); [|apply maintains_ret].
  apply maintains_bind.
  { apply maintains_for_each. intros n. destruct (bool_decide _); [apply maintains_ret|].
    apply maintains_ignore, setIptablesMark_maintains. by left. }
  intros _. apply maintains_bind; [|intros _]; (destruct (bool_decide _);
    [apply maintains_ignore, setIptablesMark_maintains; by right|apply maintains_ret]).
Qed.
End invariant.

Lemma FlushChain_ok c : maintains chains_ok (FlushChain c).
Proof.
  intros t Ht. destruct (FlushChain c t) as [res t'] eqn:E.
  apply flush_law in E as [Hframe Hres]. simpl. split; [|by destruct res].
  intros f. destruct (decide (mangle_chain f = c)) as [Heq|Hne].
  - destruct res as [[]|e|]; rewrite <-?Heq in Hres; [|rewrite Hres; apply Ht|done].
    rewrite Hres. by exists [], [].
  - rewrite Hframe; [apply Ht|done].
Qed.

(** ** The rules that are added when no call fails *)
Context `{!CallHistory T, !IptablesHistory T}.

(** A run of [m] counts its failed calls, and when there are none it returns and
    relates its first and its last state by [Q]. *)
Definition works {A} (m : prog T A) (Q : T → T → Prop) : Prop :=
  ∀ t r t', m t = (r, t') →
    failed_calls t <= failed_calls t' ∧
    (failed_calls t' = failed_calls t → (∃ a, r = Ok a) ∧ Q t t').

Lemma works_ret {A} (a : A) : works (mret a) eq.
Proof. intros t r t' [= <- <-]. split; [done|]. eauto. Qed.

Lemma works_bind {A B} (m : prog T A) (f : A → prog T B) Q1 Q2 :
  works m Q1 → (∀ a, works (f a) Q2) → works (m ≫= f) (λ t t', ∃ t1, Q1 t t1 ∧ Q2 t1 t').
Proof.
  intros Hm Hf t r t'. unfold mbind, prog_bind. destruct (m t) as [r1 t1] eqn:E1.
  destruct (Hm _ _ _ E1) as [Hle1 H1]. destruct r1 as [a|e|why].
  - intros E2. destruct (Hf a _ _ _ E2) as [Hle2 H2]. split; [lia|]. intros Heq.
    destruct H2 as [? ?]; [lia|]. destruct H1 as [_ ?]; [lia|]. eauto.
  - intros [= <- <-]. split; [done|]. intros Heq. by destruct (H1 Heq) as [[? ?] _].
  - intros [= <- <-]. split; [done|]. intros Heq. by destruct (H1 Heq) as [[? ?] _].
Qed.

Lemma works_ignore {A} (m : prog T A) Q : works m Q → works (ignore m) Q.
Proof.
  intros Hm t r t'. unfold ignore, catch, mbind, prog_bind.
  destruct (m t) as [r1 t1] eqn:E1. destruct (Hm _ _ _ E1) as [Hle H1].
  destruct r1; intros [= <- <-]; (split; [done|]); intros Heq; destruct (H1 Heq) as [[? [=]] ?]; eauto.
Qed.

Lemma works_weaken {A} (m : prog T A) (Q Q' : T → T → Prop) :
  works m Q → (∀ t t', Q t t' → Q' t t') → works m Q'.
Proof. intros Hm HQ t r t' E. destruct (Hm _ _ _ E) as [? H]. split; [done|]. intros [? ?]%H. auto. Qed.

Definition adds {A} (m : prog T A) (R : chain_id → rule → Prop) : Prop :=
  works m (λ t t', ∀ c r, r ∈ rules c t' ↔ r ∈ rules c t ∨ R c r).

Lemma adds_ret {A} (a : A) : adds (mret a) (λ _ _, False).
Proof. eapply works_weaken; [apply works_ret|]. intros t t' ->. tauto. Qed.

Lemma adds_bind {A B} (m : prog T A) (f : A → prog T B) R1 R2 :
  adds m R1 → (∀ a, adds (f a) R2) → adds (m ≫= f) (λ c r, R1 c r ∨ R2 c r).
Proof.
  intros Hm Hf. eapply works_weaken; [by apply works_bind|].
  intros t t' (t1 & H1 & H2) c r. rewrite H2, H1. tauto.
Qed.

Lemma adds_ignore {A} (m : prog T A) R : adds m R → adds (ignore m) R.
Proof. apply works_ignore. Qed.

Lemma adds_for_each {A} (l : list A) (f : A → prog T ()) (R : A → chain_id → rule → Prop) :
  (∀ x, adds (f x) (R x)) → adds (for_each l f) (λ c r, ∃ x, x ∈ l ∧ R x c r).
Proof.
  intros Hf. induction l as [|x l IH]; cbn [for_each].
  - eapply works_weaken; [apply works_ret|]. intros t t' ->. set_solver.
  - eapply works_weaken; [exact (adds_bind _ (λ _, for_each l f) _ _ (Hf x) (λ _, IH))|].
    intros t t' H c r. specialize (H c r). simpl in H. rewrite H. setoid_rewrite elem_of_cons. naive_solver.
Qed.

Lemma adds_iff {A} (m : prog T A) R R' :
  adds m R → (∀ c r, R c r ↔ R' c r) → adds m R'.
Proof.
  intros Hm HR. eapply works_weaken; [exact Hm|]. intros t t' H c r. specialize (H c r). simpl in H. by rewrite H, HR.
Qed.

Lemma adds_EnsureRule pos c0 r0 : adds (EnsureRule pos c0 r0) (λ c r, c = c0 ∧ r = r0).
Proof.
  intros t res t' E. pose proof (EnsureRule_history pos c0 r0 t) as Hh. rewrite E in Hh. simpl in Hh.
  apply ensure_rule_law in E as [Hframe Hres]. split; [lia|]. intros Heq.
  destruct res as [b|e|]; simpl in Hh; [|lia|done]. split; [eauto|]. intros c r.
  destruct (decide (c = c0)) as [->|Hne].
  - rewrite Hres, insert_rule_elem. naive_solver.
  - rewrite Hframe by done. naive_solver.
Qed.

Definition mark_rule (ip : IP) (protocol iface : string) (mark : Z) (mac port : string)
    (c : chain_id) (r : rule) : Prop :=
  c = mangle_chain (tables_for ip) ∧
  r = buildIptablesArgs (IP_String ip) protocol iface mark mac port.

Lemma adds_setIptablesMark pos ip protocol iface mark mac ports :
  adds (setIptablesMark pos ip protocol iface mark mac ports)
    (λ c r, (ports = [] ∧ mark_rule ip protocol iface mark mac "" c r) ∨
            ∃ port, port ∈ ports ∧ mark_rule ip protocol iface mark mac port c r).
Proof.
  unfold setIptablesMark. destruct ports as [|p ports].
  - eapply adds_iff; [apply adds_EnsureRule|]. intros c r. unfold mark_rule. set_solver.
  - eapply adds_iff.
    + eapply adds_bind; [|intros _; apply adds_ret]. apply adds_for_each. intros port.
      eapply adds_bind; [apply adds_EnsureRule|intros _; apply adds_ret].
    + intros c r. unfold mark_rule. naive_solver.
Qed.

(** The rules of one virtual IP: a drop rule for every neighbour with a MAC, an
    accept rule for every port. *)
Definition neighbour_rule (vip iface : string) (nodeIPs : list ifacePreferredNet)
    (c : chain_id) (r : rule) : Prop :=
  ∃ b n, ParseIP vip = Some b ∧ n ∈ nodeIPs ∧ if_Mac (pn_InterfaceNet n) ≠ "" ∧
    mark_rule (Some b) "ip" iface dropMark (if_Mac (pn_InterfaceNet n)) "" c r.

Definition port_rule (vip iface : string) (tcp udp : list string) (c : chain_id) (r : rule)
    : Prop :=
  ∃ b, ParseIP vip = Some b ∧
    ((∃ port, port ∈ tcp ∧ mark_rule (Some b) "tcp" iface acceptMark "" port c r) ∨
     (∃ port, port ∈ udp ∧ mark_rule (Some b) "udp" iface acceptMark "" port c r)).

Lemma adds_ports (ports : list string) ip protocol iface :
  adds (if bool_decide (ports ≠ []) then
          ignore (prependIptablesMark ip protocol iface acceptMark "" ports)
        else mret ())
    (λ c r, ∃ port, port ∈ ports ∧ mark_rule ip protocol iface acceptMark "" port c r).
Proof.
  case_bool_decide as Hp.
  - eapply adds_iff; [apply adds_ignore, adds_setIptablesMark|]. intros c r. naive_solver.
  - subst ports. eapply adds_iff; [apply adds_ret|]. set_solver.
Qed.

Lemma adds_ensureIptablesMark vip iface nodeIPs tcp udp :
  adds (ensureIptablesMark vip iface nodeIPs tcp udp)
    (λ c r, neighbour_rule vip iface nodeIPs c r ∨ port_rule vip iface tcp udp c r).
Proof.
  unfold ensureIptablesMark, neighbour_rule, port_rule. destruct (ParseIP vip) as [b|].
  2: { eapply adds_iff; [apply adds_ret|]. naive_solver. }
  eapply adds_iff.
  - eapply adds_bind.
    + apply (adds_for_each nodeIPs _ (λ n c r, if_Mac (pn_InterfaceNet n) ≠ "" ∧
        mark_rule (Some b) "ip" iface dropMark (if_Mac (pn_InterfaceNet n)) "" c r)).
      intros n. case_bool_decide as Hmac.
      * eapply adds_iff; [apply adds_ret|]. naive_solver.
      * eapply adds_iff; [apply adds_ignore, adds_setIptablesMark|]. intros c r. set_solver.
    + intros _. eapply adds_bind; [apply adds_ports|intros _; apply adds_ports].
  - intros c r. simpl. naive_solver.
Qed.

Lemma adds_ensureIptablesOutputDrop vip iface :
  adds (ensureIptablesOutputDrop vip iface)
    (λ c r, c = output_chain (tables_for (ParseIP vip)) ∧
       (r = output_drop_rule vip iface "udp" ∨ r = output_drop_rule vip iface "tcp")).
Proof.
  eapply adds_iff.
  - apply (adds_for_each ["udp"; "tcp"] _ (λ proto c r,
      c = output_chain (tables_for (ParseIP vip)) ∧ r = output_drop_rule vip iface proto)).
    intros proto. apply adds_ignore, adds_EnsureRule.
  - intros c r. set_solver.
Qed.

(** Flushing empties the four chains and leaves the others alone. *)
Definition provider_chain (c : chain_id) : Prop :=
  ∃ f, c = mangle_chain f ∨ c = output_chain f.

Lemma FlushChain_works c :
  works (ignore (FlushChain c)) (λ t t', rules c t' = [] ∧ ∀ c', c' ≠ c → rules c' t' = rules c' t).
Proof.
  apply works_ignore. intros t res t' E. pose proof (FlushChain_history c t) as Hh.
  rewrite E in Hh. simpl in Hh. apply flush_law in E as [Hframe Hres]. split; [lia|]. intros Heq.
  destruct res as [b|e|]; simpl in Hh; [|lia|done]. eauto.
Qed.

Lemma flushChain_empties :
  works flushChain (λ t t',
    (∀ f, rules (mangle_chain f) t' = [] ∧ rules (output_chain f) t' = []) ∧
    (∀ c, ¬ provider_chain c → rules c t' = rules c t)).
Proof.
  eapply works_weaken.
  - unfold flushChain. repeat (apply works_bind; [apply FlushChain_works|intros _]).
    apply FlushChain_works.
  - intros t t4 (t1 & [H1 F1] & t2 & [H2 F2] & t3 & [H3 F3] & H4 & F4). split.
    + intros []; rewrite ?F4, ?F3, ?F2, ?H1, ?H2, ?H3 by done; auto.
    + intros c Hc. unfold provider_chain in Hc.
      rewrite F4, F3, F2, F1; [done|intros ->; apply Hc..]; eexists; eauto.
Qed.

(** What the marks mean once the rules of the chain are known. *)
Lemma chain_mark_meaning matches chain (N P : rule → Prop) :
  accept_then_drop chain →
  (∀ r, r ∈ chain ↔ N r ∨ P r) →
  (∀ r, N r → is_mark dropMark r) → (∀ r, P r → is_mark acceptMark r) →
  ((∃ r, N r ∧ matches r = true) → chain_mark matches chain None = Some dropMark) ∧
  ((∃ r, P r ∧ matches r = true) → ¬ (∃ r, N r ∧ matches r = true) →
     chain_mark matches chain None = Some acceptMark) ∧
  (¬ (∃ r, N r ∧ matches r = true) → ¬ (∃ r, P r ∧ matches r = true) →
     chain_mark matches chain None = None).
Proof.
  intros Hc Hr HN HP. rewrite (chain_mark_spec _ _ _ Hc). pose proof accept_ne_drop as Hne.
  assert (∀ m r, is_mark m r → r ∈ chain → m = dropMark → N r) as HdropN.
  { intros m r Hm [?|Hp]%Hr ->; [done|]. apply HP in Hp. unfold is_mark in *. congruence. }
  assert (∀ m r, is_mark m r → r ∈ chain → m = acceptMark → P r) as HaccP.
  { intros m r Hm [Hn|?]%Hr ->; [|done]. apply HN in Hn. unfold is_mark in *. congruence. }
  assert (Exists (λ r, is_mark dropMark r ∧ matches r = true) chain ↔
    ∃ r, N r ∧ matches r = true) as H1.
  { rewrite Exists_exists. split.
    - intros (r & Hin & Hm & ?). exists r. eauto.
    - intros (r & Hn & ?). exists r. split; [apply Hr; auto|auto]. }
  assert (Exists (λ r, is_mark acceptMark r ∧ matches r = true) chain ↔
    ∃ r, P r ∧ matches r = true) as H2.
  { rewrite Exists_exists. split.
    - intros (r & Hin & Hm & ?). exists r. eauto.
    - intros (r & Hn & ?). exists r. split; [apply Hr; auto|auto]. }
  split_and!.
  - intros Hm. rewrite bool_decide_true; [done|by apply H1].
  - intros Hm Hn. rewrite bool_decide_false by (by rewrite H1).
    rewrite bool_decide_true; [done|by apply H2].
  - intros Hn Hp. rewrite bool_decide_false by (by rewrite H1).
    rewrite bool_decide_false; [done|by rewrite H2].
Qed.

End laws.

(** ** Tables in memory *)

(** As iptables does, flushing a chain that does not exist is an error, and so are
    the other calls on it. *)
Record memory := { m_chains : list (chain_id * list rule); m_failed : nat }.

Fixpoint chain_of (c : chain_id) (l : list (chain_id * list rule)) : option (list rule) :=
  match l with
  | [] => None
  | (c', rs) :: l => if decide (c' = c) then Some rs else chain_of c l
  end.

Fixpoint set_chain (c : chain_id) (x : option (list rule)) (l : list (chain_id * list rule)) :=
  match l with
  | [] => []
  | (c', rs) :: l =>
      if decide (c' = c) then match x with Some rs => (c, rs) :: l | None => l end
      else (c', rs) :: set_chain c x l
  end.

Definition on_chain {A} (c : chain_id) (f : list rule → A * list rule) : prog memory A := λ t,
  match chain_of c (m_chains t) with
  | Some l => (Ok (f l).1, {| m_chains := set_chain c (Some (f l).2) (m_chains t);
                              m_failed := m_failed t |})
  | None => (Err (ErrorString "no chain by that name"),
             {| m_chains := m_chains t; m_failed := S (m_failed t) |})
  end.

#[export] Instance memory_tables : Iptables memory := {
  EnsureChain c t := match chain_of c (m_chains t) with
                     | Some _ => (Ok true, t)
                     | None => (Ok false, {| m_chains := (c, []) :: m_chains t; m_failed := m_failed t |})
                     end;
  EnsureRule pos c r := on_chain c (λ l, (bool_decide (r ∈ l), insert_rule pos r l));
  FlushChain c := on_chain c (λ _, ((), []));
  DeleteRule c r := on_chain c (λ l, ((), filter (λ x, x ≠ r) l));
  DeleteChain c t := match chain_of c (m_chains t) with
                     | Some _ => (Ok (), {| m_chains := set_chain c None (m_chains t); m_failed := m_failed t |})
                     | None => (Err (ErrorString "no chain by that name"),
                                {| m_chains := m_chains t; m_failed := S (m_failed t) |})
                     end;
  rules c t := default [] (chain_of c (m_chains t));
}.

#[export] Instance memory_history : CallHistory memory := { failed_calls := m_failed }.

Lemma chain_of_set c x l rs : chain_of c l = Some rs → chain_of c (set_chain c (Some x) l) = Some x.
Proof.
  induction l as [|[c' rs'] l IH]; simpl; [done|].
  case_decide as H; simpl; [by rewrite decide_True|by rewrite (decide_False _ _ H)].
Qed.

Lemma chain_of_other c c' x l : c' ≠ c → chain_of c' (set_chain c (Some x) l) = chain_of c' l.
Proof.
  intros Hne. induction l as [|[d rs] l IH]; simpl; [done|].
  case_decide as H; simpl; [subst; by rewrite !(decide_False _ _ (not_eq_sym Hne))|by rewrite IH].
Qed.

#[export] Instance memory_tables_laws : IptablesLaws memory.
Proof.
  split; simpl; unfold on_chain.
  - intros pos c r t res t'. destruct (chain_of c (m_chains t)) as [l|] eqn:Hc; intros [= <- <-];
      [|by split; simpl; rewrite ?Hc].
    simpl. split; [intros c' Hne; by rewrite chain_of_other|by rewrite (chain_of_set _ _ _ l)].
  - intros c t res t'. destruct (chain_of c (m_chains t)) as [l|] eqn:Hc; intros [= <- <-];
      [|by split; simpl; rewrite ?Hc].
    simpl. split; [intros c' Hne; by rewrite chain_of_other|by rewrite (chain_of_set _ _ _ l)].
Qed.

#[export] Instance memory_tables_history : IptablesHistory memory.
Proof.
  split.
  - intros pos c r t. simpl. unfold on_chain. by destruct (chain_of c _).
  - intros c t. simpl. unfold on_chain. by destruct (chain_of c _).
Qed.

(** The tables of a fresh host: the built-in chains, empty. *)
Definition builtin_tables : memory :=
  {| m_chains := [((IPv4Tables, tableMangle, ChainPrerouting), []);
                  ((IPv6Tables, tableMangle, ChainPrerouting), []);
                  ((IPv4Tables, tableFilter, ChainOutput), []);
                  ((IPv6Tables, tableFilter, ChainOutput), [])];
     m_failed := 0 |}.
