(* ===== verification/Keepalived.v ===== *)
(** * providers/ipvsdr: the keepalived configuration

    The VRRP instances and virtual servers the provider writes for keepalived,
    computed from the VIPs of a provider spec and the network of the nodes. *)

From S2P Require Import Prelude GoStd GoNet LbApi NodeNetwork Iptables.
From Stdlib Require Import Ascii.

Record vrrpInstance := {
  vi_Name : string;
  vi_State : string;
  vi_Vrid : Z;
  vi_Priority : Z;
  vi_Interface : string;
  vi_MyIP : string;
  vi_AllIPs : list string;
  vi_VIP : string;
}.

Record virtualServer := {
  vs_AcceptMark : Z;
  vs_VIP : string;
  vs_Scheduler : string;
  vs_RealServer : list string;
}.

(** The values the template of the configuration file is executed with. *)
Record keepalived_conf := {
  conf_iptablesChain : string;
  conf_instances : list vrrpInstance;
  conf_vss : list virtualServer;
  conf_httpPort : Z;
}.

#[export] Instance vrrpInstance_eq_dec : EqDecision vrrpInstance.
Proof. solve_decision. Defined.
#[export] Instance virtualServer_eq_dec : EqDecision virtualServer.
Proof. solve_decision. Defined.

Abbreviation allNodeNetSelector := (gmap string nodeNetSelector).
Abbreviation allNodeIfaceNetList := (gmap string NodeStatus).

Definition getVIPs (kl : KeepalivedProvider) : list string :=
  match elems (kp_VIPs kl) with
  | [] => [kp_VIP kl]
  | vips => vips
  end.

(** The node's own interface and the interfaces of the nodes whose network is
    known.  A node without a selector has a nil one, which is read. *)
Fixpoint getIPs_loop (nodeName : string) (allbinds : allNodeNetSelector)
    (allNodeIPs : allNodeIfaceNetList) (bind : option KeepalivedBind)
    (myIface : option ifacePreferredNet) (nodeIPs : list ifacePreferredNet)
    (nodes : list string) : result (option ifacePreferredNet * list ifacePreferredNet) :=
  match nodes with
  | [] => Ok (myIface, nodeIPs)
  | node :: rest =>
      match allNodeIPs !! node with
      | None => getIPs_loop nodeName allbinds allNodeIPs bind myIface nodeIPs rest
      | Some oneNodeIPs =>
          nns ← deref (allbinds !! node);
          let nodeIface := getNodeNetwork nns (elems (ns_IfaceNetList oneNodeIPs)) bind in
          let nodeIPs := match nodeIface with
                         | Some i => nodeIPs ++ [i]
                         | None => nodeIPs
                         end in
          let myIface := if bool_decide (node = nodeName) then nodeIface else myIface in
          getIPs_loop nodeName allbinds allNodeIPs bind myIface nodeIPs rest
      end
  end.

Definition getIPs (nodeName : string) (nodes : list string) (allbinds : allNodeNetSelector)
    (allNodeIPs : allNodeIfaceNetList) (bind : option KeepalivedBind)
    : result (option ifacePreferredNet * list ifacePreferredNet) :=
  getIPs_loop nodeName allbinds allNodeIPs bind None [] nodes.

(** [\W] for ASCII names. *)
Definition is_word (c : ascii) : bool :=
  let b := byte_of c in
  bool_decide (48 <= b <= 57)%Z || bool_decide (65 <= b <= 90)%Z ||
  bool_decide (97 <= b <= 122)%Z || bool_decide (b = 95)%Z.

Definition instance_name (iface version : string) : string :=
  GoStrings.map_str (λ c, if is_word c then c else "_"%char) (iface +:+ "_" +:+ version).

(** The addresses of one version of all nodes. *)
Definition allIPs_of (nodeIPs : list ifacePreferredNet) (ipVersion : string) : list string :=
  filter (λ ip, ip ≠ "") ((λ iface, getIP iface ipVersion) <$> nodeIPs).

Section block.
Context (myIface : ifacePreferredNet) (nodeIPs : list ifacePreferredNet)
  (kl : KeepalivedProvider) (state : string) (priority vrid : Z).

Definition make_instance (ipVersion vip : string) : vrrpInstance :=
  let iface := if_Name (pn_InterfaceNet myIface) in
  {| vi_Name := instance_name iface ipVersion; vi_State := state; vi_Vrid := vrid;
     vi_Priority := priority; vi_Interface := iface; vi_MyIP := getIP myIface ipVersion;
     vi_AllIPs := allIPs_of nodeIPs ipVersion; vi_VIP := vip |}.

Definition make_server (ipVersion vip : string) : virtualServer :=
  {| vs_AcceptMark := acceptMark; vs_VIP := vip; vs_Scheduler := kp_Scheduler kl;
     vs_RealServer := allIPs_of nodeIPs ipVersion |}.

(** The loop over the VIPs; [ipVersion] is the version of the last VIP that was
    considered. *)
Fixpoint config_vips (ipVersion : string) (vips : list string)
    : list vrrpInstance * list virtualServer :=
  match vips with
  | [] => ([], [])
  | vip :: rest =>
      match ParseIP vip with
      | None => config_vips ipVersion rest
      | Some b =>
          let ipVersion2 := getIPVersion (Some b) in
          if bool_decide (ipVersion2 = ipVersion) then config_vips ipVersion rest
          else if bool_decide (getIP myIface ipVersion2 = "") then config_vips ipVersion2 rest
          else
            let r := config_vips ipVersion2 rest in
            (make_instance ipVersion2 vip :: r.1,
             if bool_decide (kp_HAMode kl ≠ ActivePassiveHA)
             then make_server ipVersion2 vip :: r.2 else r.2)
      end
  end.

End block.

(** [nodes] is sorted; its last node is the master of an active-passive pair. *)
Definition vrrp_state (nodeName : string) (nodes : list string) (kl : KeepalivedProvider)
    : result string :=
  if bool_decide (kp_HAMode kl = ActivePassiveHA) then
    match last nodes with
    | None => Panic "index out of range"
    | Some n => Ok (if bool_decide (n = nodeName) then "MASTER" else "BACKUP")
    end
  else Ok "BACKUP".

Definition getKeepalivedConfigBlock (nodeName : string) (nodes : list string)
    (nodeNetSelectors : allNodeNetSelector) (allNodeIPs : allNodeIfaceNetList)
    (kl : KeepalivedProvider) (priority vrid : Z)
    : result (list vrrpInstance * list virtualServer) :=
  r ← getIPs nodeName nodes nodeNetSelectors allNodeIPs (kp_Bind kl);
  match r with
  | (None, _) => Err (ErrorString "Cannot get self iface ")
  | (Some myIface, nodeIPs) =>
      state ← vrrp_state nodeName nodes kl;
      Ok (config_vips myIface nodeIPs kl state priority vrid "" (getVIPs kl))
  end.

(** ** Facts about the nodes' interfaces *)
Definition node_iface (allbinds : allNodeNetSelector) (allNodeIPs : allNodeIfaceNetList)
    (bind : option KeepalivedBind) (node : string) : option ifacePreferredNet :=
  st ← allNodeIPs !! node;
  nns ← allbinds !! node;
  getNodeNetwork nns (elems (ns_IfaceNetList st)) bind.

(** Every node whose network is known has a selector. *)
Definition selectors_known (allbinds : allNodeNetSelector) (allNodeIPs : allNodeIfaceNetList)
    (nodes : list string) : Prop :=
  ∀ n, n ∈ nodes → is_Some (allNodeIPs !! n) → is_Some (allbinds !! n).

Lemma getIPs_loop_spec nodeName allbinds allNodeIPs bind my acc nodes :
  selectors_known allbinds allNodeIPs nodes →
  (my = None ∨ my = node_iface allbinds allNodeIPs bind nodeName) →
  ∃ my', getIPs_loop nodeName allbinds allNodeIPs bind my acc nodes =
      Ok (my', acc ++ omap (node_iface allbinds allNodeIPs bind) nodes) ∧
    (my' = my ∨ my' = node_iface allbinds allNodeIPs bind nodeName) ∧
    (nodeName ∈ nodes ∨ my ≠ None → my' = node_iface allbinds allNodeIPs bind nodeName).
Proof.
  revert my acc. induction nodes as [|node rest IH]; intros my acc Hk Hmy.
  { exists my. simpl. rewrite app_nil_r. split; [done|]. split; [by left|].
    intros [Hin|Hne]; [by apply not_elem_of_nil in Hin|]. by destruct Hmy. }
  assert (selectors_known allbinds allNodeIPs rest) as Hk' by (intros n Hn; apply Hk; by right).
  cbn [getIPs_loop]. destruct (allNodeIPs !! node) as [st|] eqn:Est.
  - destruct (Hk node ltac:(by left) ltac:(by rewrite Est)) as [nns Hnns].
    rewrite Hnns. unfold deref, mbind at 1, result_bind.
    assert (node_iface allbinds allNodeIPs bind node =
      getNodeNetwork nns (elems (ns_IfaceNetList st)) bind) as Hni
      by (unfold node_iface; rewrite Est; simpl; by rewrite Hnns).
    rewrite <-Hni.
    match goal with |- context [getIPs_loop _ _ _ _ ?m ?a rest] =>
      destruct (IH m a Hk') as (my' & Heq & H1 & H2) end.
    { case_bool_decide as Hn; [subst; by right|done]. }
    exists my'. rewrite Heq. split.
    { cbn [omap list_omap]. destruct (node_iface allbinds allNodeIPs bind node); [|done].
      by rewrite <-(assoc_L (++)). }
    case_bool_decide as Hn.
    + subst node. split; [by right; destruct H1|]. intros _. by destruct H1.
    + split; [done|]. intros Hin. apply H2. rewrite elem_of_cons in Hin. naive_solver.
  - assert (node_iface allbinds allNodeIPs bind node = None) as Hni
      by (unfold node_iface; by rewrite Est).
    destruct (IH my acc Hk' Hmy) as (my' & Heq & H1 & H2). exists my'. rewrite Heq.
    cbn [omap list_omap]. rewrite Hni. split; [done|]. split; [done|].
    intros Hin. rewrite elem_of_cons in Hin.
    destruct Hin as [[->|Hin]|Hin]; [|by apply H2; left|by apply H2; right].
    destruct H1 as [->|]; [|done]. by destruct Hmy as [->|].
Qed.

Lemma getIPs_spec nodeName nodes allbinds allNodeIPs bind :
  selectors_known allbinds allNodeIPs nodes → nodeName ∈ nodes →
  getIPs nodeName nodes allbinds allNodeIPs bind =
    Ok (node_iface allbinds allNodeIPs bind nodeName,
        omap (node_iface allbinds allNodeIPs bind) nodes).
Proof.
  intros Hk Hin. destruct (getIPs_loop_spec nodeName allbinds allNodeIPs bind None [] nodes Hk)
    as (my' & Heq & _ & H); [by left|]. unfold getIPs. rewrite Heq, H by by left. done.
Qed.

(** ** The configuration block *)
Definition server_of (kl : KeepalivedProvider) (vi : vrrpInstance) : virtualServer :=
  {| vs_AcceptMark := acceptMark; vs_VIP := vi_VIP vi; vs_Scheduler := kp_Scheduler kl;
     vs_RealServer := vi_AllIPs vi |}.

(** The VIPs that are addresses, with their IP versions. *)
Definition versions (vips : list string) : list (string * string) :=
  omap (λ vip, b ← ParseIP vip; Some (vip, getIPVersion (Some b))) vips.

(** The VIPs whose version is not that of the address before them; [v] is the one
    before the first. *)
Definition version_changes (v : string) (l : list (string * string)) : list (string * string) :=
  (filter (λ x, x.2.2 ≠ x.1) (zip (v :: l.*2) l)).*2.

Section block_facts.
Context (myIface : ifacePreferredNet) (nodeIPs : list ifacePreferredNet)
  (kl : KeepalivedProvider) (state : string) (priority vrid : Z).

Let vips_of := config_vips myIface nodeIPs kl state priority vrid.
Let instance_of := make_instance myIface nodeIPs state priority vrid.

Lemma config_vips_instances ver vips vi :
  vi ∈ (vips_of ver vips).1 →
  ∃ b, vi_VIP vi ∈ vips ∧ ParseIP (vi_VIP vi) = Some b ∧
    vi = instance_of (getIPVersion (Some b)) (vi_VIP vi) ∧
    getIP myIface (getIPVersion (Some b)) ≠ "".
Proof.
  subst vips_of instance_of. revert ver. induction vips as [|vip vips IH]; intros ver.
  { by intros []%not_elem_of_nil. }
  assert (∀ ver, vi ∈ (config_vips myIface nodeIPs kl state priority vrid ver vips).1 →
    ∃ b, vi_VIP vi ∈ vip :: vips ∧ ParseIP (vi_VIP vi) = Some b ∧
      vi = make_instance myIface nodeIPs state priority vrid (getIPVersion (Some b)) (vi_VIP vi) ∧
      getIP myIface (getIPVersion (Some b)) ≠ "") as IH'.
  { intros v (b & ? & ?)%IH. exists b. split; [by right|done]. }
  cbn [config_vips]. destruct (ParseIP vip) as [b|] eqn:Hb; [|apply IH'].
  case_bool_decide; [apply IH'|]. case_bool_decide as Hmy; [apply IH'|]. simpl.
  rewrite elem_of_cons. intros [->|Hin]; [|by eapply IH'].
  exists b. split; [by left|]. done.
Qed.

(** The loop as a selection: an instance for every VIP with a new version that the
    node has an address of. *)
Lemma config_vips_selects ver vips :
  (vips_of ver vips).1 =
  (λ x, instance_of x.2 x.1) <$>
    filter (λ x, getIP myIface x.2 ≠ "") (version_changes ver (versions vips)).
Proof.
  subst vips_of instance_of. revert ver. induction vips as [|vip vips IH]; intros ver; [done|].
  cbn [config_vips]. unfold versions. cbn [omap list_omap]. fold (versions vips).
  destruct (ParseIP vip) as [b|]; cbn [mbind option_bind]; [|apply IH].
  set (v := getIPVersion (Some b)). unfold version_changes. cbn [fmap list_fmap zip zip_with snd].
  fold (versions vips). rewrite filter_cons. cbn [fst snd].
  case_bool_decide as Hv; [subst ver; rewrite decide_False by naive_solver; apply IH|].
  rewrite decide_True by done. cbn [fmap list_fmap]. rewrite filter_cons. cbn [fst snd].
  case_bool_decide as Hmy; [rewrite decide_False by naive_solver; apply IH|].
  rewrite decide_True by done. cbn [fmap list_fmap fst snd]. f_equal. apply IH.
Qed.

Lemma config_vips_servers ver vips :
  (vips_of ver vips).2 =
  if bool_decide (kp_HAMode kl ≠ ActivePassiveHA) then server_of kl <$> (vips_of ver vips).1
  else [].
Proof.
  subst vips_of. destruct (bool_decide (kp_HAMode kl ≠ ActivePassiveHA)) eqn:Hha;
    revert ver; (induction vips as [|vip vips IH]; intros ver; [done|]);
    cbn [config_vips]; rewrite Hha; (destruct (ParseIP vip) as [b|]; [|apply IH]);
    (destruct (bool_decide (getIPVersion (Some b) = ver)); [apply IH|]);
    (destruct (bool_decide (getIP myIface _ = "")); [apply IH|]); simpl; by rewrite IH.
Qed.

Lemma config_vips_length ver vips : length (vips_of ver vips).1 <= length vips.
Proof.
  subst vips_of. revert ver. induction vips as [|vip vips IH]; intros ver; [done|].
  cbn [config_vips]. destruct (ParseIP vip) as [b|]; [|etrans; [apply IH|simpl; lia]].
  destruct (bool_decide (getIPVersion (Some b) = ver)); [etrans; [apply IH|simpl; lia]|].
  destruct (bool_decide (getIP myIface _ = "")); [etrans; [apply IH|simpl; lia]|].
  simpl. pose proof (IH (getIPVersion (Some b))). lia.
Qed.

(** A single VIP of the version considered last has no instance. *)
Lemma config_vips_single ver vip b :
  ParseIP vip = Some b → getIPVersion (Some b) = ver → (vips_of ver [vip]).1 = [].
Proof. subst vips_of. simpl. intros -> ->. by rewrite bool_decide_true. Qed.

End block_facts.

Lemma NoDup_short {A} (l : list A) : length l <= 1 → NoDup l.
Proof.
  destruct l as [|x [|]]; simpl; intros; [constructor|apply NoDup_singleton|lia].
Qed.

Lemma vip_version b :
  is_Some (To16 (Some b)) →
  getIPVersion (Some b) = ipv4Version ∨ getIPVersion (Some b) = ipv6Version.
Proof.
  intros [c Hc]. unfold getIPVersion. destruct (To4 (Some b)); [by left|]. rewrite Hc. by right.
Qed.

Lemma map_str_app f s t :
  GoStrings.map_str f (s +:+ t) = GoStrings.map_str f s +:+ GoStrings.map_str f t.
Proof.
  induction s as [|c s IH]; [done|].
  change (String c s +:+ t) with (String c (s +:+ t)). cbn [GoStrings.map_str]. by rewrite IH.
Qed.

Lemma instance_name_inj iface v v' :
  v = ipv4Version ∨ v = ipv6Version → v' = ipv4Version ∨ v' = ipv6Version →
  instance_name iface v = instance_name iface v' → v = v'.
Proof.
  unfold instance_name. rewrite !map_str_app. intros Hv Hv' Heq%(inj _).
  destruct Hv as [->| ->], Hv' as [->| ->]; try done; by vm_compute in Heq.
Qed.

(** Two VIPs make instances with distinct names. *)
Lemma config_vips_names_two my nodeIPs kl state prio vrid v1 v2 :
  NoDup (vi_Name <$> (config_vips my nodeIPs kl state prio vrid "" [v1; v2]).1).
Proof.
  assert (∀ ver, NoDup (vi_Name <$> (config_vips my nodeIPs kl state prio vrid ver [v2]).1))
    as Hshort.
  { intros ver. apply NoDup_short. rewrite length_fmap.
    apply (config_vips_length my nodeIPs kl state prio vrid ver [v2]). }
  change (config_vips my nodeIPs kl state prio vrid "" [v1; v2]) with
    (match ParseIP v1 with
     | None => config_vips my nodeIPs kl state prio vrid "" [v2]
     | Some b =>
         let ver := getIPVersion (Some b) in
         if bool_decide (ver = "") then config_vips my nodeIPs kl state prio vrid "" [v2]
         else if bool_decide (getIP my ver = "")
         then config_vips my nodeIPs kl state prio vrid ver [v2]
         else
           let r := config_vips my nodeIPs kl state prio vrid ver [v2] in
           (make_instance my nodeIPs state prio vrid ver v1 :: r.1,
            if bool_decide (kp_HAMode kl ≠ ActivePassiveHA)
            then make_server nodeIPs kl ver v1 :: r.2 else r.2)
     end).
  destruct (ParseIP v1) as [b1|] eqn:Hb1; [|apply Hshort]. cbv zeta.
  destruct (bool_decide (_ = "")); [apply Hshort|].
  destruct (bool_decide (_ = "")); [apply Hshort|]. cbn [fst]. rewrite fmap_cons. apply NoDup_cons.
  split; [|apply Hshort]. intros (vi & Hn & Hvi)%list_elem_of_fmap.
  pose proof Hvi as (b2 & Hv2 & Hb2 & Heq & _)%config_vips_instances.
  apply list_elem_of_singleton in Hv2. rewrite Heq in Hn. simpl in Hn.
  apply instance_name_inj in Hn; [|by apply vip_version; eapply ParseIP_version..].
  rewrite (config_vips_single _ _ _ _ _ _ _ v2 b2) in Hvi; [|by rewrite <-Hv2|done].
  by apply not_elem_of_nil in Hvi.
Qed.

Lemma node_iface_self allbinds allNodeIPs bind nodeName (nodes : list string) i :
  node_iface allbinds allNodeIPs bind nodeName = Some i → nodeName ∈ nodes →
  i ∈ omap (node_iface allbinds allNodeIPs bind) nodes.
Proof. intros Hi Hn. apply list_elem_of_omap. by exists nodeName. Qed.

Lemma allIPs_of_elem nodeIPs ver ip :
  ip ∈ allIPs_of nodeIPs ver ↔ ip ≠ "" ∧ ∃ i, i ∈ nodeIPs ∧ ip = getIP i ver.
Proof.
  unfold allIPs_of. rewrite list_elem_of_filter, list_elem_of_fmap. naive_solver.
Qed.

(** The shape of a successful block. *)
Lemma block_inv nodeName nodes allbinds allNodeIPs kl prio vrid vis vss :
  selectors_known allbinds allNodeIPs nodes → nodeName ∈ nodes →
  getKeepalivedConfigBlock nodeName nodes allbinds allNodeIPs kl prio vrid = Ok (vis, vss) →
  ∃ my state, node_iface allbinds allNodeIPs (kp_Bind kl) nodeName = Some my ∧
    vrrp_state nodeName nodes kl = Ok state ∧
    (vis, vss) = config_vips my (omap (node_iface allbinds allNodeIPs (kp_Bind kl)) nodes) kl
                   state prio vrid "" (getVIPs kl).
Proof.
  intros Hk Hin. unfold getKeepalivedConfigBlock. rewrite getIPs_spec by done.
  unfold mbind, result_bind. destruct (node_iface _ _ _ nodeName) as [my|]; [|done].
  destruct (vrrp_state nodeName nodes kl) as [state| |]; [|done..].
  intros [= Heq]. exists my, state. auto.
Qed.

(** C17: The instances of a configuration block.  There is one, in the order of the
    VIPs, for every VIP that is an address of another IP version than the address
    before it, provided the node has an address of that version; VIPs that are no
    addresses are passed over.  The node's own address and all the peers'
    addresses have the IP version of the VIP, and the own address is among them.
    The virtual servers are exactly those of the instances, and there are none in
    active-passive mode. *)
Theorem block_instances nodeName nodes allbinds allNodeIPs kl prio vrid vis vss :
  selectors_known allbinds allNodeIPs nodes → nodeName ∈ nodes →
  getKeepalivedConfigBlock nodeName nodes allbinds allNodeIPs kl prio vrid = Ok (vis, vss) →
  (∃ my state, node_iface allbinds allNodeIPs (kp_Bind kl) nodeName = Some my ∧
     vrrp_state nodeName nodes kl = Ok state ∧
     let peers := omap (node_iface allbinds allNodeIPs (kp_Bind kl)) nodes in
     vis = (λ x, make_instance my peers state prio vrid x.2 x.1) <$>
             filter (λ x, getIP my x.2 ≠ "") (version_changes "" (versions (getVIPs kl)))) ∧
  (∀ vi, vi ∈ vis →
     vi_VIP vi ∈ getVIPs kl ∧ vi_Vrid vi = vrid ∧ vi_Priority vi = prio ∧
     vi_MyIP vi ∈ vi_AllIPs vi ∧
     is_Some (ParseIP (vi_VIP vi)) ∧
     Forall (λ ip, getIPVersion (ParseIP ip) = getIPVersion (ParseIP (vi_VIP vi)))
       (vi_AllIPs vi)) ∧
  vss = if bool_decide (kp_HAMode kl = ActivePassiveHA) then [] else server_of kl <$> vis.
Proof.
  intros Hk Hin Hblock.
  destruct (block_inv _ _ _ _ _ _ _ _ _ Hk Hin Hblock) as (my & state & Hmy & Hstate & Heq).
  set (all := omap _ nodes) in Heq. split.
  { exists my, state. split_and!; [done..|]. cbv zeta. fold all.
    rewrite <-config_vips_selects with (kl := kl). by rewrite <-Heq. }
  pose proof (config_vips_servers my all kl state prio vrid "" (getVIPs kl)) as Hs.
  rewrite <-Heq in Hs. simpl in Hs. split.
  - intros vi Hvi. replace vis with (config_vips my all kl state prio vrid "" (getVIPs kl)).1
      in Hvi by by rewrite <-Heq.
    apply config_vips_instances in Hvi as (b & Hvip & Hb & Hvi & Hne).
    assert (vi_AllIPs vi = allIPs_of all (getIPVersion (Some b))) as Hall by by rewrite Hvi.
    assert (vi_MyIP vi = getIP my (getIPVersion (Some b))) as Hmine by by rewrite Hvi.
    rewrite Hb, Hall, Hmine. split_and!; [done|by rewrite Hvi..| |by eexists|].
    + apply allIPs_of_elem. split; [done|]. exists my. split; [|done].
      by apply (node_iface_self _ _ _ nodeName).
    + apply Forall_forall. intros ip (Hip & i & _ & ->)%allIPs_of_elem.
      assert (getIPVersion (Some b) ≠ "unknown") as Hu
        by (destruct (vip_version b (ParseIP_version _ _ Hb)) as [->| ->]; done).
      apply (proj2 (getIP_facts i _ Hu) Hip).
  - rewrite Hs. case_bool_decide; case_bool_decide; try done.
Qed.

(** With at most two VIPs the instances of a block have distinct names. *)
Theorem block_names_distinct nodeName nodes allbinds allNodeIPs kl prio vrid vis vss :
  selectors_known allbinds allNodeIPs nodes → nodeName ∈ nodes →
  length (getVIPs kl) <= 2 →
  getKeepalivedConfigBlock nodeName nodes allbinds allNodeIPs kl prio vrid = Ok (vis, vss) →
  NoDup (vi_Name <$> vis).
Proof.
  intros Hk Hin Hlen Hblock.
  destruct (block_inv _ _ _ _ _ _ _ _ _ Hk Hin Hblock) as (my & state & _ & _ & Heq).
  apply (f_equal fst) in Heq. simpl in Heq. rewrite Heq.
  pose proof (config_vips_names_two my (omap (node_iface allbinds allNodeIPs (kp_Bind kl)) nodes)
    kl state prio vrid) as Htwo.
  destruct (getVIPs kl) as [|v1 [|v2 [|]]]; simpl in Hlen; [..|lia].
  - constructor.
  - apply NoDup_short. rewrite length_fmap. apply (config_vips_length _ _ _ _ _ _ _ [v1]).
  - apply Htwo.
Qed.

(** C18: In active-passive mode exactly one node of a non-empty node list without
    duplicates is the master, and it has the highest priority; in active-active
    mode no node is. *)
Theorem one_master nodes kl :
  NoDup nodes → nodes ≠ [] →
  if bool_decide (kp_HAMode kl = ActivePassiveHA) then
    ∃ master, master ∈ nodes ∧
      (∀ n, vrrp_state n nodes kl = Ok "MASTER" ↔ n = master) ∧
      (∀ n, n ∈ nodes → getNodePriority n nodes <= getNodePriority master nodes)%Z
  else ∀ n, vrrp_state n nodes kl = Ok "BACKUP".
Proof.
  intros Hnd Hne. unfold vrrp_state. case_bool_decide; [|done].
  destruct (last nodes) as [master|] eqn:Hl; [|by apply last_None in Hl].
  exists master. rewrite last_lookup in Hl. split_and!.
  - by eapply list_elem_of_lookup_2.
  - intros n. case_bool_decide; naive_solver.
  - intros n [i Hi]%list_elem_of_lookup.
    rewrite (getNodePriority_lookup nodes i n), (getNodePriority_lookup _ _ _ Hnd Hl) by done.
    apply lookup_lt_Some in Hi. lia.
Qed.

(** ** An example: two nodes, an interface with both IP versions *)
Definition example_status (name v4 v6 : string) : NodeStatus :=
  {| ns_Name := name;
     ns_IfaceNetList := Some [{| if_Name := "eth0"; if_Mac := "02:42:0a:00:00:07";
                                 if_IPs := Some [v4; v6] |}] |}.

Definition example_selector (ip : string) : nodeNetSelector :=
  {| k8sNodeIP := ip; ifaces := ∅; ips := ∅ |}.

Definition example_selectors : allNodeNetSelector :=
  {[ "node1" := example_selector "10.0.0.7"; "node2" := example_selector "10.0.0.8" ]}.

Definition example_ips : allNodeIfaceNetList :=
  {[ "node1" := example_status "node1" "10.0.0.7" "2001:db8::7";
     "node2" := example_status "node2" "10.0.0.8" "2001:db8::8" ]}.

Definition example_kp (vips : list string) (mode : string) : KeepalivedProvider :=
  {| kp_VIP := ""; kp_VIPs := Some vips; kp_Scheduler := "rr"; kp_HAMode := mode;
     kp_Bind := None |}.

Definition example_block (vips : list string)
    : result (list vrrpInstance * list virtualServer) :=
  getKeepalivedConfigBlock "node1" ["node1"; "node2"] example_selectors example_ips
    (example_kp vips ActiveActiveHA) 100 110.

Definition block_of (r : result (list vrrpInstance * list virtualServer))
    : list vrrpInstance * list virtualServer :=
  match r with Ok b => b | _ => ([], []) end.

Lemma example_selectors_known :
  selectors_known example_selectors example_ips ["node1"; "node2"].
Proof.
  intros n. rewrite !elem_of_cons. intros [->|[->|[]%not_elem_of_nil]] _; by eexists.
Qed.

Lemma example_self : "node1" ∈ ["node1"; "node2"].
Proof. by left. Qed.

Example version_changes_example :
  version_changes "" (versions ["10.0.0.1"; "vip"; "10.0.0.2"; "2001:db8::1"; "10.0.0.3"]) =
    [("10.0.0.1", "4"); ("2001:db8::1", "6"); ("10.0.0.3", "4")].
Proof. by_compute. Qed.

Lemma block_instances_witness :
  let b := block_of (example_block ["10.0.0.100"; "2001:db8::100"]) in
  length b.1 = 2 ∧
  b.2 = server_of (example_kp ["10.0.0.100"; "2001:db8::100"] ActiveActiveHA) <$> b.1.
Proof.
  split; [vm_compute; reflexivity|].
  refine (proj2 (proj2 (block_instances "node1" ["node1"; "node2"] example_selectors example_ips
    (example_kp ["10.0.0.100"; "2001:db8::100"] ActiveActiveHA) 100 110 _ _
    example_selectors_known example_self _))).
  by_compute.
Defined.

Lemma block_names_distinct_witness :
  NoDup (vi_Name <$> (block_of (example_block ["10.0.0.100"; "2001:db8::100"])).1).
Proof.
  refine (block_names_distinct "node1" ["node1"; "node2"] example_selectors example_ips
    (example_kp ["10.0.0.100"; "2001:db8::100"] ActiveActiveHA) 100 110 _
    (block_of (example_block ["10.0.0.100"; "2001:db8::100"])).2
    example_selectors_known example_self _ _).
  - apply le_n.
  - by_compute.
Defined.

Lemma one_master_witness :
  ∃ master, master ∈ ["node1"; "node2"] ∧
    ∀ n, vrrp_state n ["node1"; "node2"] (example_kp [] ActivePassiveHA) = Ok "MASTER" ↔ n = master.
Proof.
  assert (NoDup ["node1"; "node2"]) as H by by_compute.
  assert (["node1"; "node2"] ≠ []) as H' by discriminate.
  destruct (one_master ["node1"; "node2"] (example_kp [] ActivePassiveHA) H H')
    as (master & H1 & H2 & _).
  exists master. split; [exact H1|exact H2].
Defined.

(** The loop compares the version of a VIP with the previous one only: with
    an IPv4, an IPv6 and another IPv4 VIP a block has three instances, and two of
    them have the same name. *)
Theorem three_vips_duplicate :
  ∃ vis vss, example_block ["10.0.0.100"; "2001:db8::100"; "10.0.0.101"] = Ok (vis, vss) ∧
    (vi_Name <$> vis) = ["eth0_4"; "eth0_6"; "eth0_4"].
Proof. eexists _, _. split; vm_compute; reflexivity. Qed.
