(* ===== verification/KeepalivedTmpl.v ===== *)
(** * build/ipvsdr/keepalived.tmpl: the configuration file of keepalived

    The text the shipped template makes of a configuration, a reader for the
    blocks of such a file, and that what is read is what was configured. *)

From S2P Require Import Prelude GoStd GoNet LbApi NodeNetwork Iptables Keepalived.
From Stdlib Require Import Ascii.

(** ** The template

    A part of the template is written in front of what follows it; [Range] is
    the action [range]. *)
Definition nl : string := String "010" "".

Definition Range {A} (f : A → string → string) (l : list A) (k : string) : string := foldr f k l.

Definition if_then (b : bool) (f : string → string) (k : string) : string := if b then f k else k.

Definition group_member (inst : vrrpInstance) (k : string) : string :=
  nl +:+ "    inst_" +:+ vi_Name inst +:+ " " +:+ k.

Definition sync_group (insts : list vrrpInstance) (k : string) : string :=
  nl +:+ "vrrp_sync_group sync_group {" +:+ nl +:+
  "  group { " +:+ Range group_member insts (
  nl +:+ "  }" +:+ nl +:+
  "}" +:+ nl +:+ k).

Definition peer (me : string) (ip : string) (k : string) : string :=
  nl +:+ "    " +:+ if_then (negb (bool_decide (me = ip))) (λ k, " " +:+ ip +:+ k) (" " +:+ k).

Definition instance_block (inst : vrrpInstance) (k : string) : string :=
  nl +:+ "vrrp_instance inst_" +:+ vi_Name inst +:+ " {" +:+ nl +:+
  "  state " +:+ vi_State inst +:+ nl +:+
  "  interface " +:+ vi_Interface inst +:+ nl +:+
  "  virtual_router_id " +:+ Strconv.Itoa (vi_Vrid inst) +:+ nl +:+
  "  priority " +:+ Strconv.Itoa (vi_Priority inst) +:+ nl +:+
  "  nopreempt" +:+ nl +:+
  "  advert_int 1" +:+ nl +:+ nl +:+
  "  track_interface {" +:+ nl +:+
  "    " +:+ vi_Interface inst +:+ nl +:+
  "  }" +:+ nl +:+ nl +:+
  "  unicast_src_ip " +:+ vi_MyIP inst +:+ nl +:+
  "  unicast_peer { " +:+ Range (peer (vi_MyIP inst)) (vi_AllIPs inst) (
  nl +:+ "  }" +:+ nl +:+ nl +:+
  "  virtual_ipaddress {" +:+ nl +:+
  "    " +:+ vi_VIP inst +:+ nl +:+
  "  }" +:+ nl +:+
  "}" +:+ nl +:+ k).

Definition static_address (vs : virtualServer) (k : string) : string :=
  nl +:+ "    " +:+ vs_VIP vs +:+ " dev lo scope global " +:+ k.

Definition real_server (httpPort : Z) (ip : string) (k : string) : string :=
  nl +:+ "  real_server " +:+ ip +:+ " 0 {" +:+ nl +:+
  "    weight 1" +:+ nl +:+
  "    TCP_CHECK {" +:+ nl +:+
  "      connect_port " +:+ Strconv.Itoa httpPort +:+ nl +:+
  "      connect_timeout 3" +:+ nl +:+
  "    }" +:+ nl +:+
  "  }" +:+ nl +:+ "  " +:+ k.

Definition server_block (httpPort : Z) (vs : virtualServer) (k : string) : string :=
  nl +:+ "virtual_server fwmark " +:+ Strconv.Itoa (vs_AcceptMark vs) +:+ " {" +:+ nl +:+
  "  delay_loop 5" +:+ nl +:+
  "  lvs_sched " +:+ vs_Scheduler vs +:+ nl +:+
  "  lvs_method DR" +:+ nl +:+
  "  persistence_timeout 360" +:+ nl +:+ nl +:+
  "  " +:+ Range (real_server httpPort) (vs_RealServer vs) (
  nl +:+ "}" +:+ nl +:+ k).

Definition keepalived_tmpl (c : keepalived_conf) : string :=
  " " +:+ nl +:+ nl +:+
  "global_defs {" +:+ nl +:+
  "  vrrp_version 3" +:+ nl +:+
  "  vrrp_iptables " +:+ conf_iptablesChain c +:+ nl +:+
  "}" +:+ nl +:+ nl +:+
  if_then (bool_decide (1 < length (conf_instances c))) (sync_group (conf_instances c)) (
  nl +:+ nl +:+ Range instance_block (conf_instances c) (
  nl +:+ nl +:+ "static_ipaddress { " +:+ Range static_address (conf_vss c) (
  nl +:+ "}" +:+ nl +:+ nl +:+
  "# TCP and UDP" +:+ nl +:+ Range (server_block (conf_httpPort c)) (conf_vss c) ""))).

(** ** Reading a configuration file

    A file is a list of lines, a line a list of words; what follows a # or a !
    is a comment.  A line that ends with an opening brace begins a block, a line
    with a closing brace alone ends it. *)
Definition is_nl (c : ascii) : bool := Ascii.eqb c "010".
Definition is_blank (c : ascii) : bool := Ascii.eqb c " " || Ascii.eqb c "009".
Definition is_comment (c : ascii) : bool := Ascii.eqb c "#" || Ascii.eqb c "!".

Definition push (ws : list string) (w : string) : list string :=
  match w with "" => ws | _ => ws ++ [w] end.

Definition line (ws : list string) (rest : list (list string)) : list (list string) :=
  match ws with [] => rest | _ => ws :: rest end.

(** [w] is the word that has begun, [ws] the words before it on the line. *)
Fixpoint read_lines (w : string) (ws : list string) (comment : bool) (s : string)
    : list (list string) :=
  match s with
  | "" => line (push ws w) []
  | String c s' =>
      if is_nl c then line (push ws w) (read_lines "" [] false s')
      else if comment then read_lines w ws true s'
      else if is_comment c then read_lines w ws true s'
      else if is_blank c then read_lines "" (push ws w) false s'
      else read_lines (w +:+ String c "") ws false s'
  end.

Inductive item :=
| Setting (ws : list string)
| Block (head : list string) (body : list item).

(** The enclosing blocks, each with its head and the items before it, the last
    one first. *)
Fixpoint read_items (acc : list item) (outer : list (list string * list item))
    (lines : list (list string)) : option (list item) :=
  match lines with
  | [] => match outer with [] => Some (reverse acc) | _ => None end
  | ws :: rest =>
      if bool_decide (ws = ["}"]) then
        match outer with
        | (head, before) :: outer' => read_items (Block head (reverse acc) :: before) outer' rest
        | [] => None
        end
      else if bool_decide (last ws = Some "{")
      then read_items [] ((removelast ws, acc) :: outer) rest
      else read_items (Setting ws :: acc) outer rest
  end.

Definition read_config (text : string) : option (list item) :=
  read_items [] [] (read_lines "" [] false text).

(** ** What the file says *)
Definition instance_item (inst : vrrpInstance) : item :=
  Block ["vrrp_instance"; "inst_" +:+ vi_Name inst]
    [Setting ["state"; vi_State inst];
     Setting ["interface"; vi_Interface inst];
     Setting ["virtual_router_id"; Strconv.Itoa (vi_Vrid inst)];
     Setting ["priority"; Strconv.Itoa (vi_Priority inst)];
     Setting ["nopreempt"];
     Setting ["advert_int"; "1"];
     Block ["track_interface"] [Setting [vi_Interface inst]];
     Setting ["unicast_src_ip"; vi_MyIP inst];
     Block ["unicast_peer"]
       ((λ ip, Setting [ip]) <$> filter (λ ip, vi_MyIP inst ≠ ip) (vi_AllIPs inst));
     Block ["virtual_ipaddress"] [Setting [vi_VIP inst]]].

Definition real_server_item (httpPort : Z) (ip : string) : item :=
  Block ["real_server"; ip; "0"]
    [Setting ["weight"; "1"];
     Block ["TCP_CHECK"]
       [Setting ["connect_port"; Strconv.Itoa httpPort]; Setting ["connect_timeout"; "3"]]].

Definition server_item (httpPort : Z) (vs : virtualServer) : item :=
  Block ["virtual_server"; "fwmark"; Strconv.Itoa (vs_AcceptMark vs)]
    ([Setting ["delay_loop"; "5"];
      Setting ["lvs_sched"; vs_Scheduler vs];
      Setting ["lvs_method"; "DR"];
      Setting ["persistence_timeout"; "360"]] ++
     (real_server_item httpPort <$> vs_RealServer vs)).

Definition conf_items (c : keepalived_conf) : list item :=
  [Block ["global_defs"] [Setting ["vrrp_version"; "3"];
                          Setting ["vrrp_iptables"; conf_iptablesChain c]]] ++
  (if bool_decide (1 < length (conf_instances c))
   then [Block ["vrrp_sync_group"; "sync_group"]
           [Block ["group"] ((λ i, Setting ["inst_" +:+ vi_Name i]) <$> conf_instances c)]]
   else []) ++
  (instance_item <$> conf_instances c) ++
  [Block ["static_ipaddress"]
     ((λ vs, Setting [vs_VIP vs; "dev"; "lo"; "scope"; "global"]) <$> conf_vss c)] ++
  (server_item (conf_httpPort c) <$> conf_vss c).

(** *** Values that are words of their own *)
Definition plain_char (c : ascii) : bool :=
  negb (is_nl c || is_blank c || is_comment c || Ascii.eqb c "{" || Ascii.eqb c "}").

Fixpoint plain_chars (s : string) : bool :=
  match s with
  | "" => true
  | String c s' => plain_char c && plain_chars s'
  end.

Definition plain (s : string) : Prop := s ≠ "" ∧ plain_chars s = true.

Record plain_instance (i : vrrpInstance) : Prop := {
  pi_Name : plain (vi_Name i);
  pi_State : plain (vi_State i);
  pi_Interface : plain (vi_Interface i);
  pi_MyIP : plain (vi_MyIP i);
  pi_AllIPs : Forall plain (vi_AllIPs i);
  pi_VIP : plain (vi_VIP i);
}.

Record plain_server (vs : virtualServer) : Prop := {
  pv_VIP : plain (vs_VIP vs);
  pv_Scheduler : plain (vs_Scheduler vs);
  pv_RealServer : Forall plain (vs_RealServer vs);
}.

Record plain_conf (c : keepalived_conf) : Prop := {
  pc_chain : plain (conf_iptablesChain c);
  pc_instances : Forall plain_instance (conf_instances c);
  pc_vss : Forall plain_server (conf_vss c);
}.

#[local] Arguments String.append !_ _ : simpl nomatch.

(** ** Plain words *)
Lemma plain_chars_app s t : plain_chars (s +:+ t) = plain_chars s && plain_chars t.
Proof. induction s as [|c s IH]; [done|]. cbn [String.append plain_chars]. by rewrite IH, andb_assoc. Qed.

Lemma plain_chars_pretty_N_go x s : plain_chars s = true → plain_chars (pretty_N_go x s) = true.
Proof.
  revert s. induction (N.lt_wf_0 x) as [x _ IH]; intros s Hs.
  destruct (decide (x = 0)%N) as [->|Hx]; [done|]. rewrite pretty_N_go_step by lia.
  apply IH; [apply N.div_lt; lia|]. cbn [plain_chars]. rewrite Hs, andb_true_r.
  unfold pretty_N_char. by repeat case_match.
Qed.

Lemma plain_pretty_N (x : N) : plain (pretty x).
Proof.
  destruct (decide (x = 0)%N) as [->|Hx]; [done|].
  pose proof (Strconv.pretty_N_head x ltac:(lia)) as Hd. split; [by intros E; rewrite E in Hd|].
  unfold pretty, pretty_N. rewrite decide_False by done. by apply plain_chars_pretty_N_go.
Qed.

Lemma plain_Itoa z : plain (Strconv.Itoa z).
Proof.
  unfold Strconv.Itoa. destruct z as [|x|x]; [done|apply plain_pretty_N|]. split; [done|].
  change (plain_chars ("-" +:+ pretty (N.pos x)) = true). rewrite plain_chars_app.
  by destruct (plain_pretty_N (N.pos x)) as [_ ->].
Qed.

(** A plain value is read as a part of the word it stands in. *)
Lemma read_plain w ws v k :
  plain v → read_lines w ws false (v +:+ k) = read_lines (w +:+ v) ws false k.
Proof.
  intros [_ Hv]. revert w. induction v as [|c v IH]; intros w.
  { cbn [String.append]. by rewrite GoStrings.app_nil_r_str. }
  cbn [plain_chars] in Hv. apply andb_true_iff in Hv as [Hc Hv]. unfold plain_char in Hc.
  apply negb_true_iff in Hc. repeat apply orb_false_iff in Hc as [Hc ?].
  cbn [String.append read_lines]. rewrite Hc. repeat match goal with H : _ = false |- _ => rewrite H end.
  rewrite IH by done. by rewrite GoStrings.app_assoc_str.
Qed.

Lemma push_plain ws p v : plain v → push ws (p +:+ v) = ws ++ [p +:+ v].
Proof. intros [Hv _]. destruct p; [by destruct v|done]. Qed.

Lemma push_value ws v : plain v → push ws v = ws ++ [v].
Proof. apply (push_plain ws ""). Qed.

Ltac read_text :=
  repeat first
    [ progress cbn [read_lines String.append nl push line app is_nl is_blank is_comment Ascii.eqb
                    Bool.eqb orb]
    | rewrite read_plain by auto using plain_Itoa
    | rewrite push_value by auto using plain_Itoa
    | rewrite push_plain by auto using plain_Itoa ].

(** ** Lines of the parts *)
Lemma read_group insts ws k :
  Forall plain_instance insts →
  read_lines "" ws false (Range group_member insts (String "010" k)) =
  line ws (((λ i, ["inst_" +:+ vi_Name i]) <$> insts) ++ read_lines "" [] false k).
Proof.
  intros H. revert ws. induction H as [|i insts Hi _ IH]; intros ws; [by destruct ws|].
  change (Range group_member (i :: insts) (String "010" k)) with
    (group_member i (Range group_member insts (String "010" k))).
  pose proof (pi_Name _ Hi). unfold group_member. read_text. by rewrite IH.
Qed.

Lemma read_peers me ips ws k :
  Forall plain ips →
  read_lines "" ws false (Range (peer me) ips (String "010" k)) =
  line ws (((λ ip, [ip]) <$> filter (λ ip, me ≠ ip) ips) ++ read_lines "" [] false k).
Proof.
  intros H. revert ws. induction H as [|ip ips Hip _ IH]; intros ws; [by destruct ws|].
  change (Range (peer me) (ip :: ips) (String "010" k)) with (peer me ip (Range (peer me) ips (String "010" k))).
  unfold peer at 1. rewrite filter_cons. case_bool_decide as Hme.
  - rewrite decide_False by auto. unfold if_then, negb. read_text. by rewrite IH.
  - rewrite decide_True by auto. unfold if_then, negb. read_text. by rewrite IH.
Qed.

Lemma read_static_addresses vss ws k :
  Forall plain_server vss →
  read_lines "" ws false (Range static_address vss (String "010" k)) =
  line ws (((λ vs, [vs_VIP vs; "dev"; "lo"; "scope"; "global"]) <$> vss) ++
           read_lines "" [] false k).
Proof.
  intros H. revert ws. induction H as [|vs vss Hvs _ IH]; intros ws; [by destruct ws|].
  change (Range static_address (vs :: vss) (String "010" k)) with
    (static_address vs (Range static_address vss (String "010" k))).
  pose proof (pv_VIP _ Hvs). unfold static_address. read_text. by rewrite IH.
Qed.

(** A part that ends its last line. *)
Lemma read_Range {A} (f : A → string → string) (L : A → list (list string)) (l : list A) k :
  Forall (λ x, ∀ k, read_lines "" [] false (f x k) = L x ++ read_lines "" [] false k) l →
  read_lines "" [] false (Range f l k) = concat (L <$> l) ++ read_lines "" [] false k.
Proof.
  induction 1 as [|x l Hx _ IH]; [done|]. rewrite fmap_cons. simpl concat. rewrite <-(assoc_L (++)), <-IH.
  apply Hx.
Qed.

Fixpoint item_lines (i : item) : list (list string) :=
  match i with
  | Setting ws => [ws]
  | Block head body => (head ++ ["{"]) :: concat (item_lines <$> body) ++ [["}"]]
  end.

Lemma concat_settings {A} (f : A → list string) (l : list A) :
  concat (item_lines <$> ((λ x, Setting (f x)) <$> l)) = f <$> l.
Proof. induction l as [|x l IH]; [done|]. rewrite !fmap_cons. simpl. by rewrite IH. Qed.

Lemma read_instance i k :
  plain_instance i →
  read_lines "" [] false (instance_block i k) =
  item_lines (instance_item i) ++ read_lines "" [] false k.
Proof.
  intros [???? Hall ?]. unfold instance_block. read_text. rewrite read_peers by done. read_text.
  unfold instance_item. cbn [item_lines fmap list_fmap concat app]. rewrite concat_settings.
  by rewrite <-!(assoc_L (++)).
Qed.

Lemma read_real_server port ip k :
  plain ip →
  read_lines "" [] false (real_server port ip k) =
  item_lines (real_server_item port ip) ++ read_lines "" [] false k.
Proof. intros H. unfold real_server. by read_text. Qed.

Lemma read_server port vs k :
  plain_server vs →
  read_lines "" [] false (server_block port vs k) =
  item_lines (server_item port vs) ++ read_lines "" [] false k.
Proof.
  intros [?? Hreal]. unfold server_block. read_text.
  rewrite (read_Range _ (λ ip, item_lines (real_server_item port ip)))
    by (eapply Forall_impl; [exact Hreal|]; intros ip Hip k'; by apply read_real_server).
  read_text. unfold server_item. cbn [item_lines fmap list_fmap concat app].
  rewrite <-list_fmap_compose. by rewrite <-!(assoc_L (++)).
Qed.

Lemma read_sync_group insts k :
  Forall plain_instance insts →
  read_lines "" [] false (sync_group insts k) =
  item_lines (Block ["vrrp_sync_group"; "sync_group"]
    [Block ["group"] ((λ i, Setting ["inst_" +:+ vi_Name i]) <$> insts)]) ++
  read_lines "" [] false k.
Proof.
  intros H. unfold sync_group. read_text. rewrite read_group by done. read_text.
  cbn [item_lines fmap list_fmap concat app]. rewrite concat_settings.
  by rewrite <-!(assoc_L (++)).
Qed.

Lemma read_template c :
  plain_conf c →
  read_lines "" [] false (keepalived_tmpl c) = concat (item_lines <$> conf_items c).
Proof.
  intros [Hc Hi Hv]. unfold keepalived_tmpl. read_text.
  assert (∀ k, read_lines "" [] false
      (if_then (bool_decide (1 < length (conf_instances c))) (sync_group (conf_instances c)) k) =
    concat (item_lines <$> (if bool_decide (1 < length (conf_instances c))
      then [Block ["vrrp_sync_group"; "sync_group"]
        [Block ["group"] ((λ i, Setting ["inst_" +:+ vi_Name i]) <$> conf_instances c)]]
      else [])) ++ read_lines "" [] false k) as ->.
  { intros k. case_bool_decide; [|done]. unfold if_then. rewrite read_sync_group by done.
    cbn [fmap list_fmap concat]. by rewrite app_nil_r. }
  read_text.
  rewrite (read_Range _ (λ i, item_lines (instance_item i)))
    by (eapply Forall_impl; [exact Hi|]; intros i Hi' k'; by apply read_instance).
  read_text. rewrite read_static_addresses by done. read_text.
  rewrite (read_Range _ (λ vs, item_lines (server_item (conf_httpPort c) vs)))
    by (eapply Forall_impl; [exact Hv|]; intros vs Hvs k'; by apply read_server).
  unfold conf_items. rewrite !fmap_app, !concat_app. cbn [item_lines fmap list_fmap concat app].
  rewrite concat_settings, <-!list_fmap_compose. cbn [read_lines push line]. rewrite !app_nil_r.
  rewrite <-!(assoc_L (++)). done.
Qed.

(** ** Blocks from lines *)
Definition setting_ok (ws : list string) : Prop :=
  ws ≠ ["}"] ∧ last ws ≠ Some "{".

Fixpoint item_ok (i : item) : Prop :=
  match i with
  | Setting ws => setting_ok ws
  | Block _ body => Forall id (item_ok <$> body)
  end.

Lemma item_induction (P : item → Prop) :
  (∀ ws, P (Setting ws)) → (∀ head body, Forall P body → P (Block head body)) → ∀ i, P i.
Proof.
  intros Hs Hb. fix IH 1. intros [ws|head body]; [apply Hs|]. apply Hb.
  induction body as [|i body IHb]; constructor; [apply IH|apply IHb].
Qed.

Lemma read_item_lines i :
  item_ok i → ∀ acc outer rest,
  read_items acc outer (item_lines i ++ rest) = read_items (i :: acc) outer rest.
Proof.
  induction i as [ws|head body IH] using item_induction; intros Hok acc outer rest.
  { destruct Hok as [H1 H2]. cbn [item_lines app read_items]. by rewrite !bool_decide_false. }
  assert (∀ acc outer rest, read_items acc outer (concat (item_lines <$> body) ++ rest) =
    read_items (reverse body ++ acc) outer rest) as Hbody.
  { cbn [item_ok] in Hok. clear acc outer rest. induction IH as [|i body Hi _ IHb];
      intros acc outer rest; [done|]. rewrite fmap_cons in Hok. apply Forall_cons in Hok as [Hok1 Hok2].
    rewrite fmap_cons. cbn [concat]. rewrite <-(assoc_L (++)), (Hi Hok1), (IHb Hok2).
    by rewrite reverse_cons, <-(assoc_L (++)). }
  cbn [item_lines app read_items]. rewrite bool_decide_false by (by destruct head as [|? []]).
  rewrite bool_decide_true by apply last_snoc. rewrite removelast_last, <-(assoc_L (++)), Hbody.
  cbn [app read_items]. rewrite bool_decide_true by done. by rewrite app_nil_r, reverse_involutive.
Qed.

Lemma read_items_lines l :
  Forall item_ok l → read_items [] [] (concat (item_lines <$> l)) = Some l.
Proof.
  cut (∀ acc, Forall item_ok l →
    read_items acc [] (concat (item_lines <$> l)) = Some (reverse acc ++ l)); [by eauto|].
  induction l as [|i l IH]; intros acc H; [by rewrite app_nil_r|]. apply Forall_cons in H as [Hi Hl].
  rewrite fmap_cons. cbn [concat]. rewrite read_item_lines, IH by done.
  by rewrite reverse_cons, <-(assoc_L (++)).
Qed.

Lemma plain_not_brace v : plain v → v ≠ "{" ∧ v ≠ "}".
Proof. intros [_ H]. by split; intros ->. Qed.

Lemma setting_ok_value ws v : plain v → setting_ok (ws ++ [v]).
Proof.
  intros [H1 H2]%plain_not_brace. split; [|rewrite last_snoc; congruence].
  by destruct ws as [|? []]; intros [=].
Qed.

Lemma settings_ok {A} (f : A → list string) (l : list A) :
  (∀ x, x ∈ l → setting_ok (f x)) → Forall id (item_ok <$> ((λ x, Setting (f x)) <$> l)).
Proof.
  intros H. apply Forall_fmap, Forall_fmap, Forall_forall. intros x Hx. by apply H.
Qed.

Ltac items_ok :=
  repeat first
    [ apply Forall_nil_2 | apply Forall_cons_2
    | progress cbn [item_ok fmap list_fmap]
    | match goal with
      | |- id ?P => change P
      | |- setting_ok [?v] => apply (setting_ok_value []); by auto using plain_Itoa
      | |- setting_ok [?a; ?v] => apply (setting_ok_value [a]); by auto using plain_Itoa
      | |- setting_ok _ => by split
      end ].

Lemma instance_item_ok i : plain_instance i → item_ok (instance_item i).
Proof.
  intros [???? Hall ?]. unfold instance_item. items_ok. apply settings_ok.
  intros ip [_ Hip]%list_elem_of_filter. apply (setting_ok_value []). by eapply Forall_forall in Hall.
Qed.

Lemma server_item_ok port vs : plain_server vs → item_ok (server_item port vs).
Proof.
  intros [?? Hall]. unfold server_item. items_ok. apply Forall_fmap, Forall_fmap, Forall_forall.
  intros ip _. unfold real_server_item. simpl. change (item_ok (real_server_item port ip)).
  unfold real_server_item. items_ok.
Qed.

Lemma conf_items_ok c : plain_conf c → Forall item_ok (conf_items c).
Proof.
  intros [Hc Hi Hv]. unfold conf_items. rewrite !Forall_app. split_and!.
  - items_ok.
  - case_bool_decide; [|done]. items_ok. apply settings_ok. intros i Hin.
    eapply Forall_forall in Hi; [|done]. apply (setting_ok_value []). split; [done|].
    rewrite plain_chars_app. by destruct (pi_Name _ Hi) as [_ ->].
  - apply Forall_fmap. eapply Forall_impl; [exact Hi|]. apply instance_item_ok.
  - apply Forall_singleton. cbn [item_ok]. apply settings_ok. intros vs _. by split.
  - apply Forall_fmap. eapply Forall_impl; [exact Hv|]. intros vs. apply server_item_ok.
Qed.

(** The file of a plain configuration is read as its blocks. *)
Lemma read_config_template c : plain_conf c → read_config (keepalived_tmpl c) = Some (conf_items c).
Proof.
  intros H. unfold read_config. rewrite read_template by done. by apply read_items_lines, conf_items_ok.
Qed.
