(* ===== verification/Ipvsdr.v ===== *)
(** * providers/ipvsdr: the provider

    The state of the ipvs-dr provider and its methods: what it publishes about
    its node, when it reconfigures the host, and how it starts and stops. *)

From S2P Require Import Prelude GoStd GoNet LbApi Ports NodeNetwork Sysctl Controller Execd.
From S2P Require Import GoMd5 Iptables Keepalived.

(** ** The environment

    The listers, the API server, the network interfaces of the host and the
    configuration file of keepalived. *)
Class IpvsEnv (E : Type) := {
  Node_Get : string → E → result Node;
  ConfigMap_Get : string → string → E → result ConfigMap;
  LoadBalancer_Update : LoadBalancer → prog E ();
  net_Interfaces : E → result (list net_Interface);
  (** truncates the file; fails when it cannot be created *)
  CreateConfig : prog E ();
  ExecuteTemplate : keepalived_conf → prog E ();
  (** opens the file and reads all of it *)
  ReadConfig : E → string + error;
}.

Definition ipvsdr_sysctlAdjustments : gmap string string :=
  {[ "net.ipv4.ip_nonlocal_bind" := "1";
     "net.ipv4.vs.conntrack" := "1";
     "net.ipv4.conf.all.arp_ignore" := "1";
     "net.ipv4.conf.all.arp_announce" := "2";
     "net.ipv4.conf.lo.arp_ignore" := "1";
     "net.ipv4.conf.lo.arp_announce" := "2" ]}.

(** The keepalived daemon without the world it runs in. *)
Record keepalived (E : Type) := {
  k_d : D E;
  k_keepers : list nat;
  k_reporters : nat;
  k_waiters : nat;
}.
Arguments k_d {E} _.
Arguments k_keepers {E} _.
Arguments k_reporters {E} _.
Arguments k_waiters {E} _.

(** [k_cmd] is [p.keepalived.cmd], nil until the provider has started it;
    [cache_lb] points into the informer's store. *)
Record IpvsProvider (E : Type) := {
  nodeName : string;
  k_cmd : option (keepalived E);
  sysctlDefault : gomap string;
  cfgMD5 : string;
  cache_lb : option nat;
  cache_tcps : slice string;
  cache_udps : slice string;
  env : E;
}.
Arguments nodeName {E} _.
Arguments k_cmd {E} _.
Arguments sysctlDefault {E} _.
Arguments cfgMD5 {E} _.
Arguments cache_lb {E} _.
Arguments cache_tcps {E} _.
Arguments cache_udps {E} _.
Arguments env {E} _.

Section ipvsdr.
Context {E : Type} `{!ProcFS E, !OS E, !Iptables E, !IpvsEnv E}.
Context (GOOS : string) (range_map : ∀ m : gmap string string, list (string * string)).
Implicit Types p : IpvsProvider E.

(** ** State changes *)
Definition with_env p (e : E) : IpvsProvider E :=
  {| nodeName := nodeName p; k_cmd := k_cmd p; sysctlDefault := sysctlDefault p;
     cfgMD5 := cfgMD5 p; cache_lb := cache_lb p; cache_tcps := cache_tcps p;
     cache_udps := cache_udps p; env := e |}.

Definition with_k_cmd p (k : option (keepalived E)) (e : E) : IpvsProvider E :=
  {| nodeName := nodeName p; k_cmd := k; sysctlDefault := sysctlDefault p;
     cfgMD5 := cfgMD5 p; cache_lb := cache_lb p; cache_tcps := cache_tcps p;
     cache_udps := cache_udps p; env := e |}.

Definition with_sysctl p (d : gomap string) (e : E) : IpvsProvider E :=
  {| nodeName := nodeName p; k_cmd := k_cmd p; sysctlDefault := d;
     cfgMD5 := cfgMD5 p; cache_lb := cache_lb p; cache_tcps := cache_tcps p;
     cache_udps := cache_udps p; env := e |}.

Definition with_cfgMD5 p (md5 : string) : IpvsProvider E :=
  {| nodeName := nodeName p; k_cmd := k_cmd p; sysctlDefault := sysctlDefault p;
     cfgMD5 := md5; cache_lb := cache_lb p; cache_tcps := cache_tcps p;
     cache_udps := cache_udps p; env := env p |}.

Definition with_cache p (lb : option nat) (tcps udps : slice string) : IpvsProvider E :=
  {| nodeName := nodeName p; k_cmd := k_cmd p; sysctlDefault := sysctlDefault p;
     cfgMD5 := cfgMD5 p; cache_lb := lb; cache_tcps := tcps; cache_udps := udps;
     env := env p |}.

Definition on_env {A} (m : prog E A) : prog (IpvsProvider E) A := λ p,
  let '(r, e) := m (env p) in (r, with_env p e).

(** A method of the daemon; it panics while there is none. *)
Definition on_daemon {A} (m : prog (daemon E) A) : prog (IpvsProvider E) A := λ p,
  match k_cmd p with
  | None => (nil_dereference, p)
  | Some k =>
      let s := {| d := k_d k; keepers := k_keepers k; reporters := k_reporters k;
                  waiters := k_waiters k; world := env p |} in
      let '(r, s') := m s in
      (r, with_k_cmd p (Some {| k_d := d s'; k_keepers := keepers s';
                                k_reporters := reporters s'; k_waiters := waiters s' |})
            (world s'))
  end.

(** ** util.go

    The sum of [keepalivedCfg], the only file it is used for. *)
Definition checksum (e : E) : string + error :=
  match ReadConfig e with
  | inl text => inl (hexString (Md5.Sum text))
  | inr err => inr err
  end.

(** ** keepalived.go *)
Definition UpdateConfig (vis : list vrrpInstance) (vss : list virtualServer) (httpPort : Z)
    : prog E () :=
  _ ← CreateConfig;
  ExecuteTemplate {| conf_iptablesChain := iptablesChain; conf_instances := vis;
                     conf_vss := vss; conf_httpPort := httpPort |}.

Definition isRunning : prog (IpvsProvider E) bool := on_daemon (λ s, (IsRunning s, s)).

(** The goroutine of [keepalived.Start]; an error of [RunForever] panics. *)
Definition keepalived_run : prog (IpvsProvider E) () :=
  _ ← modify (λ p,
        let c := Daemon "keepalived"
                   ["--dont-fork"; "--log-console"; "--release-vips"; "--pid"; "/keepalived.pid"]
                   (env p) in
        let c := SetGracePeriod c 1000000000 in
        with_k_cmd p (Some {| k_d := c; k_keepers := []; k_reporters := 0; k_waiters := 0 |})
          (env p));
  r ← catch (on_daemon RunForever);
  match r with
  | inl _ => mret ()
  | inr _ => lift (Panic "can not run keepalived")
  end.

Definition Reload : prog (IpvsProvider E) () :=
  r ← catch (on_daemon (Signal SIGHUP));
  match r with
  | inl _ => mret ()
  | inr e => if bool_decide (e = ErrNotRunning) then mret ()
             else fail (ErrorString "error reloading keepalived")
  end.

Definition keepalived_Stop : prog (IpvsProvider E) () := ignore (on_daemon Execd.Stop).

(** ** What changed *)
Definition isLBChanged (s : store) p (new : LoadBalancer) : bool :=
  match cache_lb p ≫= (λ l, s !! l) with
  | None => true
  | Some old =>
      negb (DeepEqual (Nodes (Spec old)) (Nodes (Spec new)) &&
            DeepEqual (Ipvsdr (Providers (Spec old))) (Ipvsdr (Providers (Spec new))) &&
            DeepEqual (lb_NodeStatuses (Status old)) (lb_NodeStatuses (Status new)) &&
            DeepEqual (TCPConfigMap (lb_ProxyStatus (Status old)))
                      (TCPConfigMap (lb_ProxyStatus (Status new))) &&
            DeepEqual (UDPConfigMap (lb_ProxyStatus (Status old)))
                      (UDPConfigMap (lb_ProxyStatus (Status new))) &&
            DeepEqual (lb_DeletionTimestamp old) (lb_DeletionTimestamp new))
  end.

(** A ConfigMap that is not found is nil; another error is returned. *)
Definition configmap_or_nil (ns name : string) (e : E) : result (option ConfigMap) :=
  match ConfigMap_Get ns name e with
  | Ok cm => Ok (Some cm)
  | Err err => if k8s_IsNotFound (Some err) then Ok None else Err err
  | Panic why => Panic why
  end.

(** The order in which the keys of a ConfigMap are visited. *)
Definition cm_range (cm : option ConfigMap) : list (string * string) :=
  range_map (cm_entries cm).

Definition isListenPortChanged p (new : LoadBalancer) : result (bool * list string * list string) :=
  let status := lb_ProxyStatus (Status new) in
  tcpcm ← configmap_or_nil (lb_Namespace new) (TCPConfigMap status) (env p);
  udpcm ← configmap_or_nil (lb_Namespace new) (UDPConfigMap status) (env p);
  let '(tcpPorts, udpPorts) := GetExportedPorts new tcpcm udpcm (cm_range tcpcm) (cm_range udpcm) in
  let tcpPorts := GoSort.Strings tcpPorts in
  let udpPorts := GoSort.Strings udpPorts in
  let change := negb (DeepEqual (cache_tcps p) (Some tcpPorts)) ||
                negb (DeepEqual (cache_udps p) (Some udpPorts)) in
  Ok (change, tcpPorts, udpPorts).

Definition validate p (lb : LoadBalancer) : result () :=
  _ ← reject_if (bool_decide (lb_DeletionTimestamp lb ≠ None)) "lb has been deleted";
  _ ← reject_if (bool_decide (Ipvsdr (Providers (Spec lb)) = None))
        "lb.Spec.Providers.Ipvsdr is nil";
  _ ← reject_if (bool_decide (elems (Names (Nodes (Spec lb))) = [])) "lb has no node";
  _ ← reject_if (bool_decide (nodeName p ∉ elems (Names (Nodes (Spec lb)))))
        ("this node " +:+ nodeName p +:+ " is not in list");
  ValidateLoadBalancer lb.

(** ** The network of the nodes *)
Definition getNodeNetSelector p (sel : allNodeNetSelector) (node : string)
    (binds : list KeepalivedBind) : result (nodeNetSelector * allNodeNetSelector) :=
  match sel !! node with
  | Some nns => Ok (nns, sel)
  | None =>
      n ← Node_Get node (env p);
      let nns := newNodeNetSelector n binds in
      Ok (nns, <[node := nns]> sel)
  end.

Fixpoint getNodeNetSelectors p (sel : allNodeNetSelector) (nodes : list string)
    (binds : list KeepalivedBind) : result allNodeNetSelector :=
  match nodes with
  | [] => Ok sel
  | node :: rest =>
      r ← getNodeNetSelector p sel node binds;
      getNodeNetSelectors p r.2 rest binds
  end.

(** The loop over [lb.Spec.Nodes.Names]: the own status is the new one, that of
    another node is the first one published under its name. *)
Definition merge_status (me : string) (mine : NodeStatus) (old : NodeStatuses)
    (acc : NodeStatuses * allNodeIfaceNetList) (n : string)
    : NodeStatuses * allNodeIfaceNetList :=
  if bool_decide (n = me) then (append acc.1 [mine], acc.2)
  else
    match List.find (λ v, bool_decide (n = ns_Name v)) (elems old) with
    | Some v => (append acc.1 [v], <[n := v]> acc.2)
    | None => acc
    end.

(** It returns the networks of the nodes, whether the status was updated and an
    error.  The object in the informer's store is changed before it is sent to
    the API server, and stays changed when that fails. *)
Definition registerNodeNetwork (l : nat) (lb : LoadBalancer) (nns : nodeNetSelector)
    : prog (store * IpvsProvider E) (allNodeIfaceNetList * bool * option error) := λ '(s, p),
  match getCurrentNodeIfaceIPs (net_Interfaces (env p)) (nodeName p) nns with
  | Panic why => (Panic why, (s, p))
  | Err e => (Ok (∅, false, Some e), (s, p))
  | Ok myNodeStatus =>
      let old := lb_NodeStatuses (Status lb) in
      let '(new, allNodeIfaceNets) :=
        foldl (merge_status (nodeName p) myNodeStatus old)
          (None, {[ nodeName p := myNodeStatus ]}) (elems (Names (Nodes (Spec lb)))) in
      if DeepEqual old new then (Ok (allNodeIfaceNets, false, None), (s, p))
      else
        let lb' := set_NodeStatuses lb new in
        let s' := <[l := lb']> s in
        match LoadBalancer_Update lb' (env p) with
        | (Ok _, e) => (Ok (∅, true, None), (s', with_env p e))
        | (Err err, e) => (Ok (∅, true, Some err), (s', with_env p e))
        | (Panic why, e) => (Panic why, (s', with_env p e))
        end
  end.

(** ** Configuring the host *)
Definition onUpdateIPtables (me : string) (lb : LoadBalancer) (ipvs : IpvsdrProvider)
    (sel : allNodeNetSelector) (allNodeIPs : allNodeIfaceNetList) (tcps udps : list string)
    : prog E () :=
  let kp := ip_KeepalivedProvider ipvs in
  r ← lift (getIPs me (elems (Names (Nodes (Spec lb)))) sel allNodeIPs (kp_Bind kp));
  match r with
  | (None, _) => fail (ErrorString "Cannot get self iface ")
  | (Some myIface, nodeIPs) =>
      let iface := if_Name (pn_InterfaceNet myIface) in
      _ ← flushChain;
      if bool_decide (kp_HAMode kp = ActivePassiveHA) then mret ()
      else for_each (getVIPs kp) (λ vip,
             if bool_decide (vip = "") then mret ()
             else _ ← ensureIptablesMark vip iface nodeIPs tcps udps;
                  ensureIptablesOutputDrop vip iface)
  end.

(** The blocks of the slaves: only active-passive ones count, each with the next
    VRRP id; one without an own interface is skipped. *)
Fixpoint slave_blocks (me : string) (nodes : list string) (sel : allNodeNetSelector)
    (allNodeIPs : allNodeIfaceNetList) (priority vrid : Z) (slaves : list KeepalivedProvider)
    : result (list vrrpInstance * list virtualServer) :=
  match slaves with
  | [] => Ok ([], [])
  | spec :: rest =>
      if bool_decide (kp_HAMode spec ≠ ActivePassiveHA) then
        slave_blocks me nodes sel allNodeIPs priority vrid rest
      else
        let vrid := (vrid + 1)%Z in
        match getKeepalivedConfigBlock me nodes sel allNodeIPs spec priority vrid with
        | Ok b =>
            r ← slave_blocks me nodes sel allNodeIPs priority vrid rest;
            Ok (b.1 ++ r.1, b.2 ++ r.2)
        | Err _ => slave_blocks me nodes sel allNodeIPs priority vrid rest
        | Panic why => Panic why
        end
  end.

(** The instances and servers of the whole configuration. *)
Definition keepalived_blocks (me : string) (lb : LoadBalancer) (ipvs : IpvsdrProvider)
    (sel : allNodeNetSelector) (allNodeIPs : allNodeIfaceNetList)
    : result (list vrrpInstance * list virtualServer) :=
  let nodes := GoSort.Strings (elems (Names (Nodes (Spec lb)))) in
  let vrrid := default 110%Z (Vrid (Status lb)) in
  let priority := getNodePriority me nodes in
  b ← getKeepalivedConfigBlock me nodes sel allNodeIPs (ip_KeepalivedProvider ipvs) priority vrrid;
  r ← slave_blocks me nodes sel allNodeIPs priority vrrid (elems (ip_Slaves ipvs));
  Ok (b.1 ++ r.1, b.2 ++ r.2).

(** The sum of an unreadable file is "" and never counts as unchanged.  The new
    sum is remembered before keepalived is reloaded. *)
Definition onUpdateKeepalived (lb : LoadBalancer) (ipvs : IpvsdrProvider)
    (sel : allNodeNetSelector) (allNodeIPs : allNodeIfaceNetList) : prog (IpvsProvider E) () :=
  p ← get;
  b ← lift (keepalived_blocks (nodeName p) lb ipvs sel allNodeIPs);
  _ ← ignore (on_env (UpdateConfig b.1 b.2 (GetHTTPPort lb)));
  p ← get;
  match checksum (env p) with
  | inl md5 =>
      if bool_decide (md5 = cfgMD5 p) then mret ()
      else _ ← modify (λ p, with_cfgMD5 p md5); Reload
  | inr _ => _ ← modify (λ p, with_cfgMD5 p ""); Reload
  end.

Definition on_provider {A} (m : prog (IpvsProvider E) A) : prog (store * IpvsProvider E) A :=
  λ '(s, p), let '(r, p') := m p in (r, (s, p')).

Definition when (b : bool) {W} (m : prog W ()) : prog W () := if b then m else mret ().

(** [OnUpdate] after the checks whether anything changed. *)
Definition reconfigure (l : nat) (lb : LoadBalancer) (ipvs : IpvsdrProvider)
    (lbChange listenPortChange : bool) (tcps udps : list string)
    : prog (store * IpvsProvider E) () :=
  '(_, p) ← get;
  let binds := getAllBinds ipvs in
  r ← lift (getNodeNetSelector p ∅ (nodeName p) binds);
  '(allNodeIPs, updated, e) ← registerNodeNetwork l lb r.1;
  if updated || bool_decide (e ≠ None) then
    match e with
    | Some err => if k8s_IsConflict (Some err) then mret () else fail err
    | None => mret ()
    end
  else
    sel ← lift (getNodeNetSelectors p r.2 (elems (Names (Nodes (Spec lb)))) binds);
    _ ← when (lbChange || listenPortChange)
          (on_provider (on_env (onUpdateIPtables (nodeName p) lb ipvs sel allNodeIPs tcps udps)));
    _ ← when lbChange (on_provider (onUpdateKeepalived lb ipvs sel allNodeIPs));
    on_provider (modify (λ p, with_cache p (Some l) (Some tcps) (Some udps))).

Definition ipvsdr_OnUpdate (l : nat) : prog (store * IpvsProvider E) () :=
  '(s, p) ← get;
  lb ← lift (deref (s !! l));
  match validate p lb, Ipvsdr (Providers (Spec lb)) with
  | Ok _, Some ipvs =>
      let lbChange := isLBChanged s p lb in
      '(listenPortChange, tcps, udps) ← lift (isListenPortChanged p lb);
      if negb lbChange && negb listenPortChange then mret ()
      else reconfigure l lb ipvs lbChange listenPortChange tcps udps
  | Panic why, _ => lift (Panic why)
  | _, _ => mret ()
  end.

(** ** Life cycle *)
Definition changeSysctl : prog (IpvsProvider E) () := λ p,
  match BulkModify GOOS (range_map ipvsdr_sysctlAdjustments) (env p) with
  | (Ok (orig, None), e) => (Ok (), with_sysctl p (Some orig) e)
  | (Ok (orig, Some err), e) => (Err err, with_sysctl p (Some orig) e)
  | (Err err, e) => (Err err, with_env p e)
  | (Panic why, e) => (Panic why, with_env p e)
  end.

Definition resetSysctl : prog (IpvsProvider E) () := λ p,
  match BulkModify GOOS (range_map (entries (sysctlDefault p))) (env p) with
  | (Ok (_, None), e) => (Ok (), with_env p e)
  | (Ok (_, Some err), e) => (Err err, with_env p e)
  | (Err err, e) => (Err err, with_env p e)
  | (Panic why, e) => (Panic why, with_env p e)
  end.

(** The goroutine started here has run before [WaitForStart] first looks, a
    second later. *)
Definition ipvsdr_Start : prog (IpvsProvider E) () :=
  _ ← ignore changeSysctl;
  _ ← on_env ensureChain;
  keepalived_run.

Definition second : Z := 1000000000.

(** [wait.Poll(second, 60 * second, ...)]. *)
Fixpoint poll (n : nat) : prog (IpvsProvider E) bool :=
  match n with
  | 0 => mret false
  | S n =>
      _ ← modify (λ p, with_env p (Elapse second (env p)));
      running ← isRunning;
      if running : bool then mret true else poll n
  end.

Definition ipvsdr_WaitForStart : prog (IpvsProvider E) bool := poll 60.

Definition ipvsdr_Stop : prog (IpvsProvider E) () :=
  _ ← ignore resetSysctl;
  _ ← on_env deleteChain;
  keepalived_Stop.

#[export] Instance ipvsdr_provider : Provider (IpvsProvider E) := {
  OnUpdate := ipvsdr_OnUpdate;
  Provider_Start := ipvsdr_Start;
  WaitForStart := ipvsdr_WaitForStart;
  Provider_Stop := ipvsdr_Stop;
}.

End ipvsdr.
