(* ===== verification/IpvsdrFacts.v ===== *)
(** * The ipvs-dr provider: its properties

    What [OnUpdate] publishes and configures, that it does not panic, and that
    it is a provider in the sense of the controller. *)

From S2P Require Import Prelude GoStd GoNet LbApi Ports NodeNetwork Sysctl Controller Execd.
From S2P Require Import GoMd5 Iptables Keepalived Ipvsdr.

(** What the provider relies on: no call of the environment panics, the
    addresses of an interface are IP networks, an update of the API server does
    not change the network of the host, and a file that was written without an
    error holds what the template makes of the configuration. *)
Class IpvsEnvLaws (E : Type) `{!IpvsEnv E} := {
  node_returns n e : is_panic (Node_Get n e) = false;
  configmap_returns ns n e : is_panic (ConfigMap_Get ns n e) = false;
  update_returns lb e : is_panic (LoadBalancer_Update lb e).1 = false;
  update_interfaces lb e : net_Interfaces (LoadBalancer_Update lb e).2 = net_Interfaces e;
  interfaces_returns e : is_panic (net_Interfaces e) = false;
  interfaces_addrs e l i :
    net_Interfaces e = Ok l → i ∈ l →
    match iface_Addrs i with
    | Ok addrs => Forall is_ipnet addrs
    | Err _ => True
    | Panic _ => False
    end;
  create_returns e : is_panic (CreateConfig e).1 = false;
  execute_returns c e : is_panic (ExecuteTemplate c e).1 = false;
  (** the text the template that was loaded makes of a configuration *)
  rendered : keepalived_conf → string;
  execute_reads c e e' : ExecuteTemplate c e = (Ok (), e') → ReadConfig e' = inl (rendered c);
}.

(** The sum of the file of a configuration. *)
Definition md5_of {E} `{!IpvsEnv E, !IpvsEnvLaws E} (c : keepalived_conf) : string :=
  hexString (Md5.Sum (rendered c)).

(** ** Node statuses *)
Lemma append_app {A} (s : slice A) xs ys : append (append s xs) ys = append s (xs ++ ys).
Proof.
  destruct s as [l|], xs as [|x xs], ys as [|y ys]; simpl; rewrite ?app_nil_r; try done.
  f_equal. by rewrite <-(assoc_L (++)).
Qed.

Lemma elems_append {A} (s : slice A) xs : elems (append s xs) = elems s ++ xs.
Proof. destruct s as [l|], xs as [|x xs]; simpl; by rewrite ?app_nil_r. Qed.

(** The status published for a node. *)
Definition status_of (me : string) (mine : NodeStatus) (old : NodeStatuses) (n : string)
    : option NodeStatus :=
  if bool_decide (n = me) then Some mine
  else List.find (λ v, bool_decide (n = ns_Name v)) (elems old).

Lemma merge_status_step me mine old acc m n :
  merge_status me mine old (acc, m) n =
  (append acc (option_list (status_of me mine old n)),
   if bool_decide (n = me) then m
   else match status_of me mine old n with Some v => <[n := v]> m | None => m end).
Proof.
  unfold merge_status, status_of. case_bool_decide; [done|]. simpl.
  destruct (List.find _ _); [done|]. destruct acc; simpl; by rewrite ?app_nil_r.
Qed.

Lemma merge_status_fold me mine old names acc m :
  (foldl (merge_status me mine old) (acc, m) names).1 =
    append acc (omap (status_of me mine old) names) ∧
  ∀ n, (foldl (merge_status me mine old) (acc, m) names).2 !! n =
    if decide (n ∈ names ∧ n ≠ me) then
      match status_of me mine old n with Some v => Some v | None => m !! n end
    else m !! n.
Proof.
  revert acc m. induction names as [|x names IH]; intros acc m.
  { simpl. split; [by destruct acc; simpl; rewrite ?app_nil_r|done]. }
  cbn [foldl]. rewrite merge_status_step.
  match goal with |- context [foldl _ (?a, ?b) names] => destruct (IH a b) as [H1 H2] end.
  split.
  - rewrite H1, append_app. f_equal. cbn [omap list_omap].
    by destruct (status_of me mine old x).
  - intros n. rewrite H2.
    destruct (decide (n = x)) as [->|Hne].
    + case_bool_decide as Hx.
      * by repeat (rewrite decide_False by tauto).
      * rewrite (decide_True (P := x ∈ x :: names ∧ x ≠ me)) by (split; [by left|done]).
        destruct (status_of me mine old x) eqn:Hs; [rewrite lookup_insert_eq|];
          by case_decide.
    + assert (n ∈ x :: names ↔ n ∈ names) as Hin by (rewrite elem_of_cons; naive_solver).
      destruct (decide (n ∈ names ∧ n ≠ me)), (decide (n ∈ x :: names ∧ n ≠ me));
        try tauto; repeat case_match; by rewrite ?lookup_insert_ne by done.
Qed.

Definition new_statuses (me : string) (mine : NodeStatus) (lb : LoadBalancer) : NodeStatuses :=
  append None (omap (status_of me mine (lb_NodeStatuses (Status lb)))
                 (elems (Names (Nodes (Spec lb))))).

(** Merging again, with the merged list as the old one, changes nothing. *)
Lemma find_omap_status me mine old names n :
  ns_Name mine = me → n ≠ me → n ∈ names →
  List.find (λ v, bool_decide (n = ns_Name v)) (omap (status_of me mine old) names) =
  List.find (λ v, bool_decide (n = ns_Name v)) (elems old).
Proof.
  intros Hmine Hne. induction names as [|x names IH]; [by intros []%not_elem_of_nil|].
  intros Hin. cbn [omap list_omap].
  assert (∀ v, List.find (λ v, bool_decide (x = ns_Name v)) (elems old) = Some v →
    ns_Name v = x) as Hname.
  { intros v Hv%find_Some_iff. destruct Hv as (l1 & l2 & _ & Hv & _).
    by apply bool_decide_eq_true in Hv. }
  destruct (decide (n = x)) as [->|Hnx].
  - unfold status_of at 1. rewrite (bool_decide_false (x = me)) by done.
    destruct (List.find (λ v, bool_decide (x = ns_Name v)) (elems old)) as [v|] eqn:Hf.
    + simpl. by rewrite bool_decide_true by by rewrite (Hname v).
    + destruct (decide (x ∈ names)) as [Hx|Hx]; [exact (IH Hx)|].
      apply find_None_iff, Forall_forall. intros v (y & Hy & Hv)%list_elem_of_omap.
      apply bool_decide_eq_false. intros ->. unfold status_of in Hv.
      case_bool_decide as Hyme; [congruence|].
      apply find_Some_iff in Hv as (l1 & l2 & Hold & Hv & _).
      apply bool_decide_eq_true in Hv. congruence.
  - assert (n ∈ names) as Hin' by (rewrite elem_of_cons in Hin; naive_solver).
    specialize (IH Hin'). destruct (status_of me mine old x) as [v|] eqn:Hs; [|exact IH].
    simpl. rewrite bool_decide_false; [exact IH|]. unfold status_of in Hs.
    case_bool_decide as Hxme; [congruence|]. rewrite (Hname v Hs). done.
Qed.

Lemma new_statuses_idem me mine lb :
  ns_Name mine = me →
  new_statuses me mine (set_NodeStatuses lb (new_statuses me mine lb)) = new_statuses me mine lb.
Proof.
  intros Hmine. set (names := elems (Names (Nodes (Spec lb)))).
  set (old := lb_NodeStatuses (Status lb)).
  change (append None (omap (status_of me mine (append None (omap (status_of me mine old) names)))
            names) = append None (omap (status_of me mine old) names)). f_equal.
  assert (∀ l : list string, (∀ x, x ∈ l → x ∈ names) →
    omap (status_of me mine (append None (omap (status_of me mine old) names))) l =
    omap (status_of me mine old) l) as Hgo; [|by apply Hgo].
  induction l as [|x l IH]; intros Hsub; [done|]. cbn [omap list_omap].
  rewrite IH by (intros y Hy; apply Hsub; by right).
  replace (status_of me mine (append None (omap (status_of me mine old) names)) x)
    with (status_of me mine old x); [done|].
  unfold status_of at 1 2. case_bool_decide; [done|]. rewrite elems_append. simpl.
  symmetry. apply find_omap_status; [done|done|]. apply Hsub. by left.
Qed.

(** ** The provider's methods *)
Section facts.
Context {E : Type} `{!ProcFS E, !OS E, !Iptables E, !IpvsEnv E}.
Context `{!OSLaws E, !IptablesLaws E, !IpvsEnvLaws E}.
Context (range_map : gmap string string → list (string * string)).
Implicit Types p : IpvsProvider E.

(** [registerNodeNetwork] in terms of [new_statuses]. *)
Lemma registerNodeNetwork_eq l lb nns s p :
  ∃ nets : NodeStatus → allNodeIfaceNetList,
    (∀ mine n, n ∈ elems (Names (Nodes (Spec lb))) →
       nets mine !! n = status_of (nodeName p) mine (lb_NodeStatuses (Status lb)) n) ∧
    registerNodeNetwork l lb nns (s, p) =
    match getCurrentNodeIfaceIPs (net_Interfaces (env p)) (nodeName p) nns with
    | Panic why => (Panic why, (s, p))
    | Err e => (Ok (∅, false, Some e), (s, p))
    | Ok mine =>
        let new := new_statuses (nodeName p) mine lb in
        if DeepEqual (lb_NodeStatuses (Status lb)) new then (Ok (nets mine, false, None), (s, p))
        else
          let lb' := set_NodeStatuses lb new in
          let s' := <[l := lb']> s in
          match LoadBalancer_Update lb' (env p) with
          | (Ok _, e) => (Ok (∅, true, None), (s', with_env p e))
          | (Err err, e) => (Ok (∅, true, Some err), (s', with_env p e))
          | (Panic why, e) => (Panic why, (s', with_env p e))
          end
    end.
Proof.
  exists (λ mine, (foldl (merge_status (nodeName p) mine (lb_NodeStatuses (Status lb)))
    (None, {[ nodeName p := mine ]}) (elems (Names (Nodes (Spec lb))))).2).
  split.
  - intros mine n Hn.
    rewrite (proj2 (merge_status_fold (nodeName p) mine _ _ None {[ nodeName p := mine ]})).
    unfold status_of. destruct (decide (n = nodeName p)) as [->|Hne].
    + rewrite decide_False by tauto. rewrite bool_decide_true by done. apply lookup_singleton_eq.
    + rewrite decide_True by done. rewrite bool_decide_false by done.
      destruct (List.find _ _); [done|]. by rewrite lookup_singleton_ne.
  - unfold registerNodeNetwork. destruct (getCurrentNodeIfaceIPs _ _ _) as [mine| |]; [|done..].
    pose proof (proj1 (merge_status_fold (nodeName p) mine (lb_NodeStatuses (Status lb))
      (elems (Names (Nodes (Spec lb)))) None {[ nodeName p := mine ]})) as H1.
    destruct (foldl _ _ _) as [new nets]. simpl in H1. subst new. done.
Qed.

Lemma getCurrentNodeIfaceIPs_name ifs me nns st :
  getCurrentNodeIfaceIPs ifs me nns = Ok st → ns_Name st = me.
Proof.
  unfold getCurrentNodeIfaceIPs, mbind, result_bind. destruct ifs; try done.
  destruct (select_ifaces nns a); try done. by intros [= <-].
Qed.

(** C20: What a node publishes.  The status list that [registerNodeNetwork] writes
    into the load balancer holds, in the order of the node list, the node's own
    current network and for every other node the status already published under
    its name; nodes that are not listed are dropped.  When that is what the load
    balancer already says, nothing is written; otherwise exactly one update is
    sent, and its error is returned. *)
Theorem registerNodeNetwork_publishes l lb nns s p mine :
  getCurrentNodeIfaceIPs (net_Interfaces (env p)) (nodeName p) nns = Ok mine →
  let new := new_statuses (nodeName p) mine lb in
  elems new = omap (status_of (nodeName p) mine (lb_NodeStatuses (Status lb)))
                (elems (Names (Nodes (Spec lb)))) ∧
  if decide (lb_NodeStatuses (Status lb) = new) then
    ∃ nets, registerNodeNetwork l lb nns (s, p) = (Ok (nets, false, None), (s, p)) ∧
      ∀ n, n ∈ elems (Names (Nodes (Spec lb))) →
        nets !! n = status_of (nodeName p) mine (lb_NodeStatuses (Status lb)) n
  else
    ∃ err e, LoadBalancer_Update (set_NodeStatuses lb new) (env p) =
        (match err with None => Ok () | Some x => Err x end, e) ∧
      registerNodeNetwork l lb nns (s, p) =
        (Ok (∅, true, err), (<[l := set_NodeStatuses lb new]> s, with_env p e)).
Proof.
  intros Hmine. cbv zeta. split; [unfold new_statuses; by rewrite elems_append|].
  destruct (registerNodeNetwork_eq l lb nns s p) as (nets & Hnets & Heq). rewrite Hmine in Heq.
  unfold DeepEqual in Heq. case_decide as Hd.
  - rewrite bool_decide_true in Heq by done. exists (nets mine). auto.
  - rewrite bool_decide_false in Heq by done.
    pose proof (update_returns (set_NodeStatuses lb (new_statuses (nodeName p) mine lb)) (env p))
      as Hp.
    destruct (LoadBalancer_Update _ _) as [[[]|err|] e]; [..|done].
    + by exists None, e.
    + by exists (Some err), e.
Qed.

(** A failed publication is not retried.  The new status stays in the shared
    object after the API server refused it, so the next sync of the same object
    finds nothing to publish and goes on to configure the host. *)
Theorem failed_publish_not_retried l lb nns s p err s' p' :
  registerNodeNetwork l lb nns (s, p) = (Ok (∅, true, Some err), (s', p')) →
  ∃ lb' nets, s' !! l = Some lb' ∧ lb' ≠ lb ∧
    registerNodeNetwork l lb' nns (s', p') = (Ok (nets, false, None), (s', p')).
Proof.
  destruct (registerNodeNetwork_eq l lb nns s p) as (nets & _ & ->).
  destruct (getCurrentNodeIfaceIPs _ _ _) as [mine| |] eqn:Hmine; [|done..]. cbv zeta.
  unfold DeepEqual. case_bool_decide as Hne; [done|].
  set (new := new_statuses (nodeName p) mine lb) in *.
  pose proof (update_interfaces (set_NodeStatuses lb new) (env p)) as Hif.
  destruct (LoadBalancer_Update _ _) as [[[]|err'|] e] eqn:Hup; try done.
  intros [= -> <- <-]. exists (set_NodeStatuses lb new).
  destruct (registerNodeNetwork_eq l (set_NodeStatuses lb new) nns (<[l:=set_NodeStatuses lb new]> s)
    (with_env p e)) as (nets' & _ & ->).
  simpl in *. rewrite Hif, Hmine. exists (nets' mine). split; [by rewrite lookup_insert_eq|].
  split; [intros Heq; apply Hne; rewrite <-Heq at 1; done|].
  rewrite new_statuses_idem by by eapply getCurrentNodeIfaceIPs_name.
  fold new. unfold DeepEqual. by rewrite bool_decide_true.
Qed.

(** A change the provider makes itself is not seen as a change.  After the
    provider has published new node statuses through the object it remembers,
    the new version of that object, when only its statuses differ, does not
    count as changed, so keepalived keeps its old configuration. *)
Theorem own_update_unnoticed l lb nns s p nets s' p' l2 lb' lb2 :
  cache_lb p = Some l →
  registerNodeNetwork l lb nns (s, p) = (Ok (nets, true, None), (s', p')) →
  s' !! l = Some lb' → s' !! l2 = Some lb2 →
  Spec lb2 = Spec lb → lb_ProxyStatus (Status lb2) = lb_ProxyStatus (Status lb) →
  lb_DeletionTimestamp lb2 = lb_DeletionTimestamp lb →
  lb_NodeStatuses (Status lb2) = lb_NodeStatuses (Status lb') →
  lb_NodeStatuses (Status lb2) ≠ lb_NodeStatuses (Status lb) ∧ isLBChanged s' p' lb2 = false.
Proof.
  intros Hc Hreg Hl' _ Hspec Hpx Hdel Hst.
  destruct (registerNodeNetwork_eq l lb nns s p) as (nets' & _ & Heq). rewrite Heq in Hreg.
  clear Heq. destruct (getCurrentNodeIfaceIPs _ _ _) as [mine| |]; [|done..].
  unfold DeepEqual in Hreg. case_bool_decide as Hne; [done|].
  set (new := new_statuses (nodeName p) mine lb) in *.
  destruct (LoadBalancer_Update _ _) as [[[]|err'|] e]; try done.
  injection Hreg as _ <- <-. rewrite lookup_insert_eq in Hl'. injection Hl' as <-.
  unfold isLBChanged. simpl. rewrite Hc. simpl. rewrite lookup_insert_eq. simpl in *.
  split; [by rewrite Hst|]. unfold DeepEqual. rewrite Hspec, Hpx, Hdel, Hst.
  by rewrite !bool_decide_true.
Qed.

(** *** Absence of panics *)
Lemma getNodeNetSelectors_known p sel nodes binds sel' :
  getNodeNetSelectors p sel nodes binds = Ok sel' →
  (∀ n, is_Some (sel !! n) → is_Some (sel' !! n)) ∧ (∀ n, n ∈ nodes → is_Some (sel' !! n)).
Proof.
  revert sel. induction nodes as [|node rest IH]; intros sel; cbn [getNodeNetSelectors].
  { intros [= <-]. split; [done|]. by intros n []%not_elem_of_nil. }
  unfold getNodeNetSelector, mbind, result_bind. destruct (sel !! node) as [nns|] eqn:Hn.
  - intros Hr%IH. destruct Hr as [H1 H2]. simpl in H1. split; [done|].
    intros n [->|Hin]%elem_of_cons; [|by apply H2]. apply H1. by rewrite Hn.
  - destruct (Node_Get node (env p)); [|done..]. intros Hr%IH. simpl in Hr.
    destruct Hr as [H1 H2]. split.
    + intros n Hs. apply H1. destruct (decide (n = node)) as [->|];
        [by rewrite lookup_insert_eq|by rewrite lookup_insert_ne].
    + intros n [->|Hin]%elem_of_cons; [|by apply H2]. apply H1. by rewrite lookup_insert_eq.
Qed.

Lemma getNodeNetSelectors_safe p sel nodes binds :
  is_panic (getNodeNetSelectors p sel nodes binds) = false.
Proof.
  revert sel. induction nodes as [|node rest IH]; intros sel; [done|]. cbn [getNodeNetSelectors].
  unfold getNodeNetSelector, mbind, result_bind. destruct (sel !! node); [apply IH|].
  pose proof (node_returns node (env p)) as Hn. destruct (Node_Get node (env p)); [apply IH|done..].
Qed.

Lemma select_ifaces_safe nns l :
  (∀ i, i ∈ l → match iface_Addrs i with
                | Ok addrs => Forall is_ipnet addrs
                | Err _ => True
                | Panic _ => False
                end) →
  is_panic (select_ifaces nns l) = false.
Proof.
  induction l as [|i l IH]; intros Hl; [done|].
  assert (is_panic (select_ifaces nns l) = false) as Hrest by (apply IH; intros j Hj; apply Hl; by right).
  cbn [select_ifaces]. repeat (case_match; try done).
  all: pose proof (Hl i ltac:(by left)) as Hi; rewrite H1 in Hi; try done.
  unfold selectIface.
  match goal with |- context [select_addrs nns ?s [] a] =>
    destruct (select_addrs_spec nns s [] a Hi) as (b & -> & _) end.
  unfold mbind, result_bind. simpl. destruct b; destruct (select_ifaces nns l); done.
Qed.

Lemma getCurrentNodeIfaceIPs_safe e me nns :
  is_panic (getCurrentNodeIfaceIPs (net_Interfaces e) me nns) = false.
Proof.
  unfold getCurrentNodeIfaceIPs, mbind, result_bind. pose proof (interfaces_returns e) as Hi.
  pose proof (interfaces_addrs e) as Ha. destruct (net_Interfaces e) as [l| |]; try done.
  pose proof (select_ifaces_safe nns l (λ i, Ha l i eq_refl)) as Hs.
  by destruct (select_ifaces nns l).
Qed.

Lemma getKeepalivedConfigBlock_safe me nodes sel allIPs kl prio vrid :
  selectors_known sel allIPs nodes → me ∈ nodes →
  is_panic (getKeepalivedConfigBlock me nodes sel allIPs kl prio vrid) = false.
Proof.
  intros Hk Hme. unfold getKeepalivedConfigBlock. rewrite getIPs_spec by done.
  unfold mbind, result_bind. destruct (node_iface _ _ _ me); [|done].
  unfold vrrp_state. case_bool_decide; [|done].
  destruct (last nodes) eqn:Hl; [done|]. apply last_None in Hl as ->.
  by apply not_elem_of_nil in Hme.
Qed.

Lemma keepalived_blocks_safe me lb ipvs sel allIPs :
  selectors_known sel allIPs (elems (Names (Nodes (Spec lb)))) →
  me ∈ elems (Names (Nodes (Spec lb))) →
  is_panic (keepalived_blocks me lb ipvs sel allIPs) = false.
Proof.
  intros Hk Hme. set (nodes := GoSort.Strings (elems (Names (Nodes (Spec lb))))).
  assert (selectors_known sel allIPs nodes) as Hk'
    by (intros n Hn; apply Hk; by apply GoSort.Strings_elem).
  assert (me ∈ nodes) as Hme' by by apply GoSort.Strings_elem.
  assert (∀ prio slaves vrid, is_panic (slave_blocks me nodes sel allIPs prio vrid slaves) = false)
    as Hsl.
  { intros prio slaves. induction slaves as [|k slaves IH]; intros vrid; [done|].
    cbn [slave_blocks]. destruct (bool_decide _); [apply IH|]. cbv zeta.
    pose proof (getKeepalivedConfigBlock_safe me nodes sel allIPs k prio (vrid + 1) Hk' Hme') as Hb.
    destruct (getKeepalivedConfigBlock _ _ _ _ _ _ _); [|apply IH|done].
    unfold mbind, result_bind. specialize (IH (vrid + 1)%Z). by destruct (slave_blocks _ _ _ _ _ _). }
  unfold keepalived_blocks. fold nodes. cbv zeta.
  pose proof (getKeepalivedConfigBlock_safe me nodes sel allIPs (ip_KeepalivedProvider ipvs)
    (getNodePriority me nodes) (default 110%Z (Vrid (Status lb))) Hk' Hme') as Hb.
  unfold mbind, result_bind. destruct (getKeepalivedConfigBlock _ _ _ _ _ _ _); [|done..].
  match goal with |- context [slave_blocks ?a ?b ?c ?d ?e ?f ?g] =>
    specialize (Hsl e g f); destruct (slave_blocks a b c d e f g) end; done.
Qed.

(** A running provider has started its daemon. *)
Definition started (me : string) p : Prop := k_cmd p ≠ None ∧ nodeName p = me.

Lemma on_env_maintains {A} me (m : prog E A) :
  maintains (λ _, True) m → maintains (started me) (on_env m).
Proof.
  intros Hm p Hp. unfold on_env. pose proof (Hm (env p) I) as [_ Hr].
  destruct (m (env p)) as [r e]. done.
Qed.

Lemma Signal_safe sig (s : daemon E) : is_panic (Signal sig s).1 = false.
Proof.
  unfold Signal. unfold_prog. destruct (IsRunning_returns s) as [b Hb]. rewrite Hb.
  destruct b; [|done]. unfold IsRunning in Hb. unfold signal_process, process.
  destruct (cmd (d s)) as [c|]; [|done]. unfold mbind, result_bind. simpl.
  destruct (Process c) as [pid|]; [|done]. simpl.
  pose proof (signal_returns pid sig (world s)) as Hr.
  destruct (SignalProcess pid sig (world s)) as [[] w] eqn:E1; try done.
  exfalso. by eapply Hr.
Qed.

Lemma Reload_maintains me : maintains (started me) Reload.
Proof.
  apply maintains_bind.
  - apply maintains_catch. intros p [Hk Hn]. unfold on_daemon.
    destruct (k_cmd p) as [k|] eqn:Hc; [|done].
    match goal with |- context [Signal SIGHUP ?s] => pose proof (Signal_safe SIGHUP s) as Hs;
      destruct (Signal SIGHUP s) as [r s'] end.
    split; [by split|done].
  - intros [[]|e]; [apply maintains_ret|]. destruct (bool_decide _);
      [apply maintains_ret|apply maintains_fail].
Qed.

Lemma UpdateConfig_safe vis vss port : maintains (λ _, True) (UpdateConfig vis vss port).
Proof.
  apply maintains_bind; [|intros _]; intros e _.
  - split; [done|apply create_returns].
  - split; [done|apply execute_returns].
Qed.

Lemma onUpdateKeepalived_maintains me lb ipvs sel allIPs :
  selectors_known sel allIPs (elems (Names (Nodes (Spec lb)))) →
  me ∈ elems (Names (Nodes (Spec lb))) →
  maintains (started me) (onUpdateKeepalived lb ipvs sel allIPs).
Proof.
  intros Hk Hme. intros p Hp. unfold onUpdateKeepalived. unfold mbind at 1, prog_bind at 1, get at 1.
  revert p Hp. assert (∀ p0, nodeName p0 = me → maintains (started me) (
    b ← lift (keepalived_blocks (nodeName p0) lb ipvs sel allIPs);
    _ ← ignore (on_env (UpdateConfig b.1 b.2 (GetHTTPPort lb)));
    p ← get;
    match checksum (env p) with
    | inl md5 =>
        if bool_decide (md5 = cfgMD5 p) then mret ()
        else _ ← modify (λ p, with_cfgMD5 p md5); Reload
    | inr _ => _ ← modify (λ p, with_cfgMD5 p ""); Reload
    end)) as Hgo; [|intros p Hp; by apply (Hgo p); [apply Hp|]].
  intros p0 Hp0. apply maintains_bind.
  { apply maintains_lift. rewrite Hp0. by apply keepalived_blocks_safe. }
  intros b. apply maintains_bind;
    [apply maintains_ignore, on_env_maintains, UpdateConfig_safe|intros _].
  apply maintains_bind; [by intros p Hp|]. intros p1.
  destruct (checksum (env p1)) as [md5|err].
  - destruct (bool_decide _); [apply maintains_ret|].
    apply maintains_bind; [by intros p Hp|intros _; apply Reload_maintains].
  - apply maintains_bind; [by intros p Hp|intros _; apply Reload_maintains].
Qed.

Lemma onUpdateIPtables_maintains (I : E → Prop) me lb ipvs sel allIPs tcps udps :
  selectors_known sel allIPs (elems (Names (Nodes (Spec lb)))) →
  me ∈ elems (Names (Nodes (Spec lb))) →
  (∀ pos c r, mark_call pos c r → maintains I (EnsureRule pos c r)) →
  (∀ c, maintains I (FlushChain c)) →
  maintains I (onUpdateIPtables me lb ipvs sel allIPs tcps udps).
Proof.
  intros Hk Hme HI HF. unfold onUpdateIPtables. rewrite getIPs_spec by done.
  apply maintains_bind; [by apply maintains_lift|]. intros [[my|] nodeIPs];
    [|apply maintains_fail].
  apply maintains_bind; [by apply flushChain_maintains|intros _].
  destruct (bool_decide _); [apply maintains_ret|]. apply maintains_for_each. intros vip.
  destruct (bool_decide _); [apply maintains_ret|].
  apply maintains_bind; [by apply ensureIptablesMark_maintains|intros _].
  by apply ensureIptablesOutputDrop_maintains.
Qed.

(** *** The informer's store *)
Definition keeps_store {A} (m : prog (store * IpvsProvider E) A) : Prop :=
  ∀ w, (m w).2.1 = w.1.

Lemma keeps_store_bind {A B} (m : prog (store * IpvsProvider E) A)
    (f : A → prog (store * IpvsProvider E) B) :
  keeps_store m → (∀ a, keeps_store (f a)) → keeps_store (m ≫= f).
Proof.
  intros Hm Hf w. unfold mbind, prog_bind. specialize (Hm w).
  destruct (m w) as [[] w']; simpl in *; [by rewrite Hf|done..].
Qed.

Lemma keeps_store_on_provider {A} (m : prog (IpvsProvider E) A) : keeps_store (on_provider m).
Proof. intros [s p]. unfold on_provider. by destruct (m p). Qed.

Lemma keeps_store_when b (m : prog (store * IpvsProvider E) ()) :
  keeps_store m → keeps_store (when b m).
Proof. by destruct b. Qed.

(** [reconfigure] after the network of the node has been registered. *)
Definition apply_changes (l : nat) (lb : LoadBalancer) (ipvs : IpvsdrProvider)
    (lbChange listenPortChange : bool) (tcps udps : list string) p (binds : list KeepalivedBind)
    (sel : allNodeNetSelector) (allNodeIPs : allNodeIfaceNetList)
    : prog (store * IpvsProvider E) () :=
  sel ← lift (getNodeNetSelectors p sel (elems (Names (Nodes (Spec lb)))) binds);
  _ ← when (lbChange || listenPortChange)
        (on_provider (on_env (onUpdateIPtables (nodeName p) lb ipvs sel allNodeIPs tcps udps)));
  _ ← when lbChange (on_provider (onUpdateKeepalived lb ipvs sel allNodeIPs));
  on_provider (modify (λ p, with_cache p (Some l) (Some tcps) (Some udps))).

Lemma reconfigure_eq l lb ipvs c1 c2 tcps udps s p :
  reconfigure l lb ipvs c1 c2 tcps udps (s, p) =
  match getNodeNetSelector p ∅ (nodeName p) (getAllBinds ipvs) with
  | Err e => (Err e, (s, p))
  | Panic why => (Panic why, (s, p))
  | Ok r =>
      match registerNodeNetwork l lb r.1 (s, p) with
      | (Err e, w) => (Err e, w)
      | (Panic why, w) => (Panic why, w)
      | (Ok (allNodeIPs, updated, e), w) =>
          if updated || bool_decide (e ≠ None) then
            match e with
            | Some err => if k8s_IsConflict (Some err) then (Ok (), w) else (Err err, w)
            | None => (Ok (), w)
            end
          else apply_changes l lb ipvs c1 c2 tcps udps p (getAllBinds ipvs) r.2 allNodeIPs w
      end
  end.
Proof.
  unfold reconfigure. unfold mbind at 1, prog_bind at 1, get at 1.
  unfold mbind at 1, prog_bind at 1, lift at 1.
  destruct (getNodeNetSelector p ∅ (nodeName p) (getAllBinds ipvs)) as [r| |]; [|done..].
  unfold mbind at 1, prog_bind at 1.
  destruct (registerNodeNetwork l lb r.1 (s, p)) as [[[[nets upd] e]| |] w]; [|done..].
  destruct (upd || bool_decide (e ≠ None)); [|done].
  destruct e as [err|]; [|done]. by destruct (k8s_IsConflict (Some err)).
Qed.

Lemma apply_changes_store l lb ipvs c1 c2 tcps udps p binds sel nets :
  keeps_store (apply_changes l lb ipvs c1 c2 tcps udps p binds sel nets).
Proof.
  unfold apply_changes. apply keeps_store_bind; [done|]. intros sel'.
  apply keeps_store_bind; [apply keeps_store_when, keeps_store_on_provider|intros _].
  apply keeps_store_bind; [apply keeps_store_when, keeps_store_on_provider|intros _].
  apply keeps_store_on_provider.
Qed.

(** The store is as it was, or the network of the node was published in the object
    of [lb]; all else stays. *)
Definition only_publishes (me : string) (l : nat) lb (s s' : store) : Prop :=
  s' = s ∨
  ∃ mine, ns_Name mine = me ∧ s' = <[l := set_NodeStatuses lb (new_statuses me mine lb)]> s.

Lemma only_publishes_identity me l lb s s' :
  s !! l = Some lb → only_publishes me l lb s s' → identity <$> s' = identity <$> s.
Proof.
  intros Hl [->|(mine & _ & ->)]; [done|]. rewrite fmap_insert. apply insert_id.
  by rewrite lookup_fmap, Hl.
Qed.

Lemma registerNodeNetwork_store l lb nns s p :
  only_publishes (nodeName p) l lb s (registerNodeNetwork l lb nns (s, p)).2.1.
Proof.
  destruct (registerNodeNetwork_eq l lb nns s p) as (nets & _ & ->).
  destruct (getCurrentNodeIfaceIPs _ _ _) as [mine| |] eqn:Hm; [|by left..]. cbv zeta.
  apply getCurrentNodeIfaceIPs_name in Hm. destruct (DeepEqual _ _); [by left|].
  destruct (LoadBalancer_Update _ _) as [[] e]; right; by exists mine.
Qed.

Lemma reconfigure_store l lb ipvs c1 c2 tcps udps s p :
  only_publishes (nodeName p) l lb s (reconfigure l lb ipvs c1 c2 tcps udps (s, p)).2.1.
Proof.
  rewrite reconfigure_eq. destruct (getNodeNetSelector _ _ _ _) as [r| |]; [|by left..].
  pose proof (registerNodeNetwork_store l lb r.1 s p) as Hs.
  destruct (registerNodeNetwork _ _ _ _) as [[[[nets upd] e]| |] w]; [|done..].
  destruct (upd || _).
  - destruct e as [err|]; [|done]. by destruct (k8s_IsConflict (Some err)).
  - by rewrite apply_changes_store.
Qed.

Lemma OnUpdate_eq l s p lb :
  s !! l = Some lb →
  ipvsdr_OnUpdate range_map l (s, p) =
  match validate p lb, Ipvsdr (Providers (Spec lb)) with
  | Ok _, Some ipvs =>
      match isListenPortChanged range_map p lb with
      | Err e => (Err e, (s, p))
      | Panic why => (Panic why, (s, p))
      | Ok (listenPortChange, tcps, udps) =>
          let lbChange := isLBChanged s p lb in
          if negb lbChange && negb listenPortChange then (Ok (), (s, p))
          else reconfigure l lb ipvs lbChange listenPortChange tcps udps (s, p)
      end
  | Panic why, _ => (Panic why, (s, p))
  | _, _ => (Ok (), (s, p))
  end.
Proof.
  intros Hl. unfold ipvsdr_OnUpdate. rewrite prog_bind_get, prog_bind_lift, Hl. cbn [deref].
  destruct (validate p lb) as [[]| |]; [|done..]. destruct (Ipvsdr _) as [ipvs|]; [|done].
  cbv zeta. rewrite prog_bind_lift.
  destruct (isListenPortChanged range_map p lb) as [[[c tcps] udps]| |]; [|done..].
  by destruct (negb _ && negb c).
Qed.

Lemma OnUpdate_store l s p lb :
  s !! l = Some lb → only_publishes (nodeName p) l lb s (ipvsdr_OnUpdate range_map l (s, p)).2.1.
Proof.
  intros Hl. rewrite (OnUpdate_eq l s p lb Hl).
  destruct (validate p lb) as [[]| |]; [|by left..]. destruct (Ipvsdr _); [|by left].
  destruct (isListenPortChanged _ p lb) as [[[c tcps] udps]| |]; [|by left..]. cbv zeta.
  destruct (negb _ && negb c); [by left|apply reconfigure_store].
Qed.

Lemma isListenPortChanged_safe p lb : is_panic (isListenPortChanged range_map p lb) = false.
Proof.
  assert (∀ ns n, is_panic (configmap_or_nil ns n (env p)) = false) as Hc.
  { intros ns n. unfold configmap_or_nil. pose proof (configmap_returns ns n (env p)) as Hr.
    destruct (ConfigMap_Get ns n (env p)); try done. by destruct (k8s_IsNotFound _). }
  unfold isListenPortChanged, mbind, result_bind. cbv zeta.
  pose proof (Hc (lb_Namespace lb) (TCPConfigMap (lb_ProxyStatus (Status lb)))) as H1.
  destruct (configmap_or_nil _ _ _); try done.
  pose proof (Hc (lb_Namespace lb) (UDPConfigMap (lb_ProxyStatus (Status lb)))) as H2.
  destruct (configmap_or_nil _ _ _); try done.
Qed.

Lemma validate_Ok p lb :
  validate p lb = Ok () →
  nodeName p ∈ elems (Names (Nodes (Spec lb))) ∧ ValidateLoadBalancer lb = Ok () ∧
  lb_DeletionTimestamp lb = None ∧ is_Some (Ipvsdr (Providers (Spec lb))).
Proof.
  unfold validate. intros H.
  do 4 (let H1 := fresh "Hc" in apply bind_Ok in H as ([] & H1 & H);
        apply reject_if_Ok, bool_decide_eq_false in H1).
  split_and!; [by apply dec_stable|done|by apply dec_stable|by apply not_eq_None_Some].
Qed.

Lemma ValidateVIPs_safe provider i vips : is_panic (ValidateVIPs provider i vips) = false.
Proof.
  revert i. induction vips as [|v vips IH]; intros i; [done|]. cbn [ValidateVIPs].
  unfold reject_if, mbind, result_bind. by destruct (invalid_ip v).
Qed.

Lemma bind_safe {A B} (m : result A) (f : A → result B) :
  is_panic m = false → (∀ a, is_panic (f a) = false) → is_panic (m ≫= f) = false.
Proof. destruct m; unfold mbind, result_bind; auto. Qed.

Lemma reject_if_safe b msg : is_panic (reject_if b msg) = false.
Proof. by destruct b. Qed.

Lemma ValidatePrivate_safe private : is_panic (ValidatePrivate private) = false.
Proof.
  unfold ValidatePrivate. apply bind_safe; [apply reject_if_safe|intros _].
  destruct (bool_decide _); [|apply reject_if_safe].
  destruct (pri_PrivateIPAddress private); [apply reject_if_safe|done].
Qed.

Lemma ValidatePublic_safe public : is_panic (ValidatePublic public) = false.
Proof. unfold ValidatePublic. destruct (bool_decide _); apply reject_if_safe. Qed.

Lemma ValidateLoadBalancer_safe lb : is_panic (ValidateLoadBalancer lb) = false.
Proof.
  unfold ValidateLoadBalancer, ValidateProviders, ValidateProxy, when_some.
  apply bind_safe; [|intros; apply reject_if_safe].
  apply bind_safe; [|intros; apply bind_safe; [|intros]].
  - destruct (Ipvsdr _); [|done]. unfold ValidateIpvsdr.
    repeat (apply bind_safe; [apply reject_if_safe || apply ValidateVIPs_safe|intros]).
    apply reject_if_safe.
  - destruct (External _); [|done]. unfold ValidateExternal.
    repeat (apply bind_safe; [apply reject_if_safe || apply ValidateVIPs_safe|intros]).
    apply reject_if_safe.
  - destruct (Azure _); [|done]. unfold ValidateAzure.
    repeat (apply bind_safe; [apply reject_if_safe|intros]).
    apply bind_safe; [|intros]; unfold when_some.
    + destruct (Private _); [apply ValidatePrivate_safe|done].
    + destruct (Public _); [apply ValidatePublic_safe|done].
Qed.

Lemma validate_safe p lb : is_panic (validate p lb) = false.
Proof.
  unfold validate. repeat (apply bind_safe; [apply reject_if_safe|intros]).
  apply ValidateLoadBalancer_safe.
Qed.

Lemma registerNodeNetwork_safe me l lb nns s p :
  started me p →
  is_panic (registerNodeNetwork l lb nns (s, p)).1 = false ∧
  started me (registerNodeNetwork l lb nns (s, p)).2.2.
Proof.
  intros Hp. destruct (registerNodeNetwork_eq l lb nns s p) as (nets & _ & ->).
  pose proof (getCurrentNodeIfaceIPs_safe (env p) (nodeName p) nns) as Hi.
  destruct (getCurrentNodeIfaceIPs _ _ _) as [mine| |]; [|done..]. cbv zeta.
  destruct (DeepEqual _ _); [done|].
  pose proof (update_returns (set_NodeStatuses lb (new_statuses (nodeName p) mine lb)) (env p)) as Hu.
  by destruct (LoadBalancer_Update _ _) as [[] e].
Qed.

Lemma on_provider_maintains {A} me (m : prog (IpvsProvider E) A) :
  maintains (started me) m → maintains (λ w, started me w.2) (on_provider m).
Proof.
  intros Hm [s p] Hp. specialize (Hm p Hp). unfold on_provider. by destruct (m p).
Qed.

Lemma apply_changes_maintains me l lb ipvs c1 c2 tcps udps p binds sel nets :
  nodeName p = me → me ∈ elems (Names (Nodes (Spec lb))) →
  maintains (λ w, started me w.2) (apply_changes l lb ipvs c1 c2 tcps udps p binds sel nets).
Proof.
  intros Hp Hme w Hw. unfold apply_changes. unfold mbind at 1, prog_bind at 1, lift at 1.
  pose proof (getNodeNetSelectors_safe p sel (elems (Names (Nodes (Spec lb)))) binds) as Hsafe.
  destruct (getNodeNetSelectors _ _ _ _) as [sel'| |] eqn:Hsel; [|done..].
  apply getNodeNetSelectors_known in Hsel as [_ Hk].
  assert (selectors_known sel' nets (elems (Names (Nodes (Spec lb))))) as Hk' by (intros n Hn _; auto).
  refine (maintains_bind (λ w, started me w.2) _ _ _ _ w Hw).
  { destruct (c1 || c2); [|apply maintains_ret]. apply on_provider_maintains, on_env_maintains.
    rewrite Hp. apply onUpdateIPtables_maintains; [done..| |];
      intros; [apply EnsureRule_safe|apply FlushChain_safe]. }
  intros _. apply maintains_bind.
  { destruct c1; [|apply maintains_ret]. apply on_provider_maintains.
    by apply onUpdateKeepalived_maintains. }
  intros _. apply on_provider_maintains. by intros q Hq.
Qed.

(** C19: [OnUpdate] is safe.  On a provider that was started, for any stored load
    balancer, valid or not, and whatever calls to the API, iptables, keepalived or
    the file system fail, the call returns or fails with an error, the provider is
    still started, and in the store of the informer at most the node statuses of
    this load balancer were replaced, by those with the network of this node. *)
Theorem OnUpdate_safe me l s p lb :
  s !! l = Some lb → started me p →
  is_panic (ipvsdr_OnUpdate range_map l (s, p)).1 = false ∧
  started me (ipvsdr_OnUpdate range_map l (s, p)).2.2 ∧
  only_publishes me l lb s (ipvsdr_OnUpdate range_map l (s, p)).2.1.
Proof.
  intros Hl Hp. rewrite (and_assoc _ _ (only_publishes _ _ _ _ _)).
  split; [|rewrite <-(proj2 Hp); by apply OnUpdate_store]. rewrite (OnUpdate_eq l s p lb Hl).
  pose proof (validate_safe p lb) as Hv. destruct (validate p lb) as [[]| |] eqn:Hval; [|done..].
  apply validate_Ok in Hval as (Hme & _ & _ & [ipvs Hipvs]). rewrite Hipvs.
  pose proof (isListenPortChanged_safe p lb) as Hlp.
  destruct (isListenPortChanged range_map p lb) as [[[c tcps] udps]| |]; [|done..]. cbv zeta.
  destruct (negb _ && negb c); [done|]. rewrite reconfigure_eq.
  unfold getNodeNetSelector, mbind, result_bind. rewrite lookup_empty.
  pose proof (node_returns (nodeName p) (env p)) as Hn.
  destruct (Node_Get (nodeName p) (env p)) as [n| |]; [|done..]. cbn [fst snd].
  match goal with |- context [registerNodeNetwork l lb ?nns (s, p)] =>
    pose proof (registerNodeNetwork_safe me l lb nns s p Hp) as [Hr Hst];
    destruct (registerNodeNetwork l lb nns (s, p)) as [[[[nets upd] e]| |] [s' p']] end; [|done..].
  destruct (upd || _).
  - destruct e as [err|]; [|done]. by destruct (k8s_IsConflict (Some err)).
  - destruct Hp as [Hk Hname].
    destruct (apply_changes_maintains me l lb ipvs (isLBChanged s p lb) c tcps udps p
      (getAllBinds ipvs) (<[nodeName p := newNodeNetSelector n (getAllBinds ipvs)]> ∅) nets
      Hname ltac:(by rewrite <-Hname) (s', p') Hst) as [H1 H2].
    by split.
Qed.

End facts.

(** ** The provider is a backend of the controller *)
#[export] Instance ipvsdr_provider_laws {E} `{!ProcFS E, !OS E, !Iptables E, !IpvsEnv E}
    `{!OSLaws E, !IptablesLaws E, !IpvsEnvLaws E} GOOS range_map :
  @ProviderLaws (IpvsProvider E) (ipvsdr_provider GOOS range_map).
Proof.
  split. intros l s p r s' p' Heq. change (ipvsdr_OnUpdate range_map l (s, p) = (r, (s', p'))) in Heq.
  destruct (s !! l) as [lb|] eqn:Hl.
  - rewrite (OnUpdate_eq range_map l s p lb Hl) in Heq.
    destruct (validate p lb) as [[]| |]; [|by simplify_eq..].
    destruct (Ipvsdr _) as [ipvs|]; [|by simplify_eq].
    destruct (isListenPortChanged range_map p lb) as [[[c tcps] udps]| |]; [|by simplify_eq..].
    cbv zeta in Heq. destruct (negb _ && negb c); [by simplify_eq|].
    pose proof (only_publishes_identity _ l lb _ _ Hl
      (reconfigure_store l lb ipvs (isLBChanged s p lb) c tcps udps s p)) as Hid.
    by rewrite Heq in Hid.
  - unfold ipvsdr_OnUpdate in Heq. rewrite prog_bind_get, prog_bind_lift, Hl in Heq.
    cbn [deref nil_dereference] in Heq. by injection Heq as _ <- _.
Qed.
