(* ===== verification/IpvsdrHost.v ===== *)
(** * The ipvs-dr provider: what it configures on the host

    The meaning of the iptables rules after an update, the reload of keepalived,
    and the detection of port changes. *)

From S2P Require Import Prelude GoStd GoNet LbApi Ports NodeNetwork Sysctl Controller Execd.
From S2P Require Import Iptables Keepalived Ipvsdr IpvsdrFacts.

Section host.
Context {E : Type} `{!ProcFS E, !OS E, !Iptables E, !IpvsEnv E}.
Context `{!OSLaws E, !IptablesLaws E, !IpvsEnvLaws E}.
Implicit Types p : IpvsProvider E.

(** ** iptables *)
Definition vip_rules (vips : list string) (iface : string) (nodeIPs : list ifacePreferredNet)
    (tcps udps : list string) : prog E () :=
  for_each vips (λ vip,
    if bool_decide (vip = "") then mret ()
    else _ ← ensureIptablesMark vip iface nodeIPs tcps udps;
         ensureIptablesOutputDrop vip iface).

Lemma vip_rules_ok vips iface nodeIPs tcps udps :
  maintains chains_ok (vip_rules vips iface nodeIPs tcps udps).
Proof.
  apply maintains_for_each. intros vip. destruct (bool_decide _); [apply maintains_ret|].
  apply maintains_bind.
  - apply ensureIptablesMark_maintains. intros. by apply EnsureRule_ok.
  - intros _. apply ensureIptablesOutputDrop_maintains. intros. by apply EnsureRule_ok.
Qed.

(** The drop rules and the accept rules of the mangle chain of a family. *)
Definition neighbour_rules (vips : list string) (iface : string)
    (nodeIPs : list ifacePreferredNet) (f : family) (r : rule) : Prop :=
  ∃ vip, vip ∈ vips ∧ neighbour_rule vip iface nodeIPs (mangle_chain f) r.

Definition port_rules (vips : list string) (iface : string) (tcps udps : list string)
    (f : family) (r : rule) : Prop :=
  ∃ vip, vip ∈ vips ∧ port_rule vip iface tcps udps (mangle_chain f) r.

Lemma neighbour_rules_mark vips iface nodeIPs f r :
  neighbour_rules vips iface nodeIPs f r → is_mark dropMark r.
Proof.
  intros (vip & _ & b & n & _ & _ & _ & _ & ->). apply buildIptablesArgs_mark. by right.
Qed.

Lemma port_rules_mark vips iface tcps udps f r :
  port_rules vips iface tcps udps f r → is_mark acceptMark r.
Proof.
  intros (vip & _ & b & _ & [(port & _ & _ & ->)|(port & _ & _ & ->)]);
    apply buildIptablesArgs_mark; by left.
Qed.

Lemma vip_rules_adds `{!CallHistory E, !IptablesHistory E} vips iface nodeIPs tcps udps :
  adds (vip_rules vips iface nodeIPs tcps udps)
    (λ c r, ∃ vip, vip ∈ vips ∧ vip ≠ "" ∧
       (neighbour_rule vip iface nodeIPs c r ∨ port_rule vip iface tcps udps c r ∨
        c = output_chain (tables_for (ParseIP vip)) ∧
        (r = output_drop_rule vip iface "udp" ∨ r = output_drop_rule vip iface "tcp"))).
Proof.
  apply (adds_for_each vips _ (λ vip c r, vip ≠ "" ∧ _)). intros vip.
  case_bool_decide as Hv.
  - eapply adds_iff; [apply adds_ret|]. naive_solver.
  - eapply adds_iff.
    + eapply adds_bind; [apply adds_ensureIptablesMark|intros _].
      apply adds_ensureIptablesOutputDrop.
    + intros c r. simpl. tauto.
Qed.

Lemma onUpdateIPtables_eq me lb ipvs sel nets tcps udps (e : E) :
  selectors_known sel nets (elems (Names (Nodes (Spec lb)))) →
  me ∈ elems (Names (Nodes (Spec lb))) →
  let kp := ip_KeepalivedProvider ipvs in
  onUpdateIPtables me lb ipvs sel nets tcps udps e =
  match node_iface sel nets (kp_Bind kp) me with
  | None => (Err (ErrorString "Cannot get self iface "), e)
  | Some my =>
      (_ ← flushChain;
       if bool_decide (kp_HAMode kp = ActivePassiveHA) then mret ()
       else vip_rules (getVIPs kp) (if_Name (pn_InterfaceNet my))
              (omap (node_iface sel nets (kp_Bind kp)) (elems (Names (Nodes (Spec lb)))))
              tcps udps) e
  end.
Proof.
  intros Hk Hme. cbv zeta. unfold onUpdateIPtables. cbv zeta.
  rewrite prog_bind_lift, getIPs_spec by done. by destruct (node_iface _ _ _ me).
Qed.

(** What the rules [N] of the neighbours and [P] of the ports do to packets in a
    chain that holds exactly them. *)
Definition chain_follows (matches : rule → bool) (N P : rule → Prop) (chain : list rule) : Prop :=
  (∀ r, r ∈ chain ↔ N r ∨ P r) ∧
  ((∃ r, N r ∧ matches r = true) → chain_mark matches chain None = Some dropMark) ∧
  ((∃ r, P r ∧ matches r = true) → ¬ (∃ r, N r ∧ matches r = true) →
     chain_mark matches chain None = Some acceptMark) ∧
  (¬ (∃ r, N r ∧ matches r = true) → ¬ (∃ r, P r ∧ matches r = true) →
     chain_mark matches chain None = None).

(** The mangle chains of the load balancer [lb] on the node [me]. *)
Definition chains_follow (me : string) (lb : LoadBalancer) (kp : KeepalivedProvider)
    (sel : allNodeNetSelector) (nets : allNodeIfaceNetList) (tcps udps : list string) (e : E) : Prop :=
  ∀ f matches,
    if bool_decide (kp_HAMode kp = ActivePassiveHA) then rules (mangle_chain f) e = []
    else
      ∃ my, node_iface sel nets (kp_Bind kp) me = Some my ∧
        let iface := if_Name (pn_InterfaceNet my) in
        let peers := omap (node_iface sel nets (kp_Bind kp)) (elems (Names (Nodes (Spec lb)))) in
        chain_follows matches (neighbour_rules (getVIPs kp) iface peers f)
          (port_rules (getVIPs kp) iface tcps udps f) (rules (mangle_chain f) e).

Lemma onUpdateIPtables_history `{!CallHistory E, !IptablesHistory E} me lb ipvs sel nets tcps udps e r e' :
  selectors_known sel nets (elems (Names (Nodes (Spec lb)))) →
  me ∈ elems (Names (Nodes (Spec lb))) →
  onUpdateIPtables me lb ipvs sel nets tcps udps e = (r, e') → failed_calls e <= failed_calls e'.
Proof.
  intros Hk Hme. rewrite onUpdateIPtables_eq by done. cbv zeta.
  destruct (node_iface sel nets _ me) as [my|]; [|by intros [= _ <-]]. case_bool_decide.
  - intros Hrun. by eapply (works_bind _ _ _ _ flushChain_empties (λ _, works_ret ())).
  - intros Hrun. by eapply (works_bind _ _ _ _ flushChain_empties (λ _, vip_rules_adds _ _ _ _ _)).
Qed.

Lemma onUpdateIPtables_chains `{!CallHistory E, !IptablesHistory E} me lb ipvs sel nets tcps udps e e' :
  selectors_known sel nets (elems (Names (Nodes (Spec lb)))) →
  me ∈ elems (Names (Nodes (Spec lb))) →
  onUpdateIPtables me lb ipvs sel nets tcps udps e = (Ok (), e') → failed_calls e' = failed_calls e →
  chains_follow me lb (ip_KeepalivedProvider ipvs) sel nets tcps udps e'.
Proof.
  intros Hk Hme. rewrite onUpdateIPtables_eq by done. cbv zeta. intros Hrun Hf f matches. revert Hrun.
  destruct (node_iface sel nets _ me) as [my|]; [|done]. intros Hrun.
  set (vips := getVIPs (ip_KeepalivedProvider ipvs)) in *.
  set (iface := if_Name (pn_InterfaceNet my)) in *. set (peers := omap _ _) in *.
  case_bool_decide as Hap.
  { destruct (works_bind _ _ _ _ flushChain_empties (λ _, works_ret ()) _ _ _ Hrun) as [_ H].
    destruct (H Hf) as (_ & e1 & [Hempty _] & <-). apply Hempty. }
  exists my. split; [done|]. apply prog_bind_inv in Hrun as ([] & e1 & Hflush & Hrun).
  destruct (flushChain_empties _ _ _ Hflush) as [Hle1 Hw1].
  destruct (vip_rules_adds vips iface peers tcps udps _ _ _ Hrun) as [Hle2 Hw2].
  destruct Hw1 as [_ [Hempty _]]; [lia|]. destruct Hw2 as [_ Hr]; [lia|].
  assert (∀ r, r ∈ rules (mangle_chain f) e' ↔
    neighbour_rules vips iface peers f r ∨ port_rules vips iface tcps udps f r) as Hrules.
  { intros r. rewrite (Hr (mangle_chain f) r).
    rewrite (proj1 (Hempty f)). unfold neighbour_rules, port_rules. split.
    - intros [[]%not_elem_of_nil|(vip & Hv & _ & [Hn|[Hp|[Hc _]]])];
        [left; by exists vip|right; by exists vip|done].
    - assert (∀ vip b, ParseIP vip = Some b → vip ≠ "") as Hne by (intros vip b Hb ->; done).
      intros [(vip & Hv & Hn)|(vip & Hv & Hp)]; right; exists vip; split_and!; try done;
        [destruct Hn as (b & ? & Hb & _)|by left|destruct Hp as (b & Hb & _)|by right; left];
        by eapply Hne. }
  split; [exact Hrules|].
  apply chain_mark_meaning; [|exact Hrules|apply neighbour_rules_mark|apply port_rules_mark].
  assert (chains_ok e1) as Hok by (intros g; rewrite (proj1 (Hempty g)); by exists [], []).
  pose proof (vip_rules_ok vips iface peers tcps udps e1 Hok) as [Hok' _].
  rewrite Hrun in Hok'. apply Hok'.
Qed.

(** C11: Which packets the director accepts.  After a successful [onUpdateIPtables]
    in which no iptables call failed, a packet that arrives in a mangle chain
    leaves it with the drop mark when a neighbour's rule matches it, with the
    accept mark when no neighbour's rule but a port's rule of a VIP matches it,
    and unmarked otherwise.  The neighbours' rules are those of every peer with a
    MAC and every VIP, the ports' rules those of every TCP and UDP port and every
    VIP.  In active-passive mode the chains are empty.  Whether a rule matches
    ([matches]) is up to iptables. *)
Theorem onUpdateIPtables_marks `{!CallHistory E, !IptablesHistory E} me lb ipvs sel nets tcps udps e e' f
    (matches : rule → bool) :
  selectors_known sel nets (elems (Names (Nodes (Spec lb)))) →
  me ∈ elems (Names (Nodes (Spec lb))) →
  onUpdateIPtables me lb ipvs sel nets tcps udps e = (Ok (), e') → failed_calls e' = failed_calls e →
  let kp := ip_KeepalivedProvider ipvs in
  let chain := rules (mangle_chain f) e' in
  if bool_decide (kp_HAMode kp = ActivePassiveHA) then chain = []
  else
    ∃ my, node_iface sel nets (kp_Bind kp) me = Some my ∧
      let iface := if_Name (pn_InterfaceNet my) in
      let peers := omap (node_iface sel nets (kp_Bind kp)) (elems (Names (Nodes (Spec lb)))) in
      let N r := neighbour_rules (getVIPs kp) iface peers f r in
      let P r := port_rules (getVIPs kp) iface tcps udps f r in
      (∀ r, r ∈ chain ↔ N r ∨ P r) ∧
      ((∃ r, N r ∧ matches r = true) → chain_mark matches chain None = Some dropMark) ∧
      ((∃ r, P r ∧ matches r = true) → ¬ (∃ r, N r ∧ matches r = true) →
         chain_mark matches chain None = Some acceptMark) ∧
      (¬ (∃ r, N r ∧ matches r = true) → ¬ (∃ r, P r ∧ matches r = true) →
         chain_mark matches chain None = None).
Proof.
  intros Hk Hme Hrun Hf.
  exact (onUpdateIPtables_chains me lb ipvs sel nets tcps udps e e' Hk Hme Hrun Hf f matches).
Qed.

(** The order of the rules does not depend on the calls that fail: whatever
    iptables refuses, the accept rules of a mangle chain stay above its drop
    rules. *)
Theorem onUpdateIPtables_order me lb ipvs sel nets tcps udps e :
  selectors_known sel nets (elems (Names (Nodes (Spec lb)))) →
  me ∈ elems (Names (Nodes (Spec lb))) → chains_ok e →
  chains_ok (onUpdateIPtables me lb ipvs sel nets tcps udps e).2.
Proof.
  intros Hk Hme He. refine (proj1 (onUpdateIPtables_maintains chains_ok me lb ipvs sel nets
    tcps udps Hk Hme _ _ e He)).
  - intros. by apply EnsureRule_ok.
  - intros. apply FlushChain_ok.
Qed.

(** ** keepalived *)
Lemma UpdateConfig_reads vis vss port (e e' : E) :
  UpdateConfig vis vss port e = (Ok (), e') →
  ReadConfig e' = inl (rendered {| conf_iptablesChain := iptablesChain; conf_instances := vis;
                                   conf_vss := vss; conf_httpPort := port |}).
Proof.
  unfold UpdateConfig, mbind, prog_bind. destruct (CreateConfig e) as [[] e1]; [|done..].
  apply execute_reads.
Qed.

Lemma UpdateConfig_checksum vis vss port (e e' : E) :
  UpdateConfig vis vss port e = (Ok (), e') →
  checksum e' = inl (md5_of {| conf_iptablesChain := iptablesChain; conf_instances := vis;
                               conf_vss := vss; conf_httpPort := port |}).
Proof. unfold checksum. by intros ->%UpdateConfig_reads. Qed.

Lemma Reload_config p :
  cfgMD5 (Reload p).2 = cfgMD5 p ∧ nodeName (Reload p).2 = nodeName p.
Proof.
  unfold Reload, catch, on_daemon. unfold_prog. destruct (k_cmd p) as [k|]; [|done].
  destruct (Signal SIGHUP _) as [[] s']; try done. by destruct (bool_decide _).
Qed.

(** A failed reload of keepalived is not retried.  When the configuration was
    written but the reload failed, the sum of the new file is already
    remembered, so the next attempt with the same configuration finds the sum
    unchanged and returns without a reload. *)
Theorem reload_not_retried lb ipvs sel nets p b err p1 e1 e2 :
  keepalived_blocks (nodeName p) lb ipvs sel nets = Ok b →
  UpdateConfig b.1 b.2 (GetHTTPPort lb) (env p) = (Ok (), e1) →
  onUpdateKeepalived lb ipvs sel nets p = (Err err, p1) →
  UpdateConfig b.1 b.2 (GetHTTPPort lb) (env p1) = (Ok (), e2) →
  onUpdateKeepalived lb ipvs sel nets p1 = (Ok (), with_env p1 e2).
Proof.
  intros Hb H1 Hfail H2.
  assert (∀ q e, nodeName q = nodeName p → UpdateConfig b.1 b.2 (GetHTTPPort lb) (env q) = (Ok (), e) →
    onUpdateKeepalived lb ipvs sel nets q =
    match checksum e with
    | inl md5 => if bool_decide (md5 = cfgMD5 q) then (Ok (), with_env q e)
                 else Reload (with_cfgMD5 (with_env q e) md5)
    | inr _ => Reload (with_cfgMD5 (with_env q e) "")
    end) as Heq.
  { intros q e Hq Hu. unfold onUpdateKeepalived. rewrite prog_bind_get, prog_bind_lift, Hq, Hb.
    rewrite (prog_bind_Ok (ignore (on_env (UpdateConfig b.1 b.2 (GetHTTPPort lb)))) _ q ()
      (with_env q e)).
    2: { unfold ignore, catch, on_env. unfold_prog. by rewrite Hu. }
    rewrite prog_bind_get. simpl. destruct (checksum e); [|done]. by case_bool_decide. }
  rewrite (Heq p e1 eq_refl H1), (UpdateConfig_checksum _ _ _ _ _ H1) in Hfail.
  case_bool_decide; [done|]. destruct (Reload_config (with_cfgMD5 (with_env p e1)
    (md5_of {| conf_iptablesChain := iptablesChain; conf_instances := b.1; conf_vss := b.2;
               conf_httpPort := GetHTTPPort lb |}))) as [Hmd5 Hname].
  rewrite Hfail in Hmd5, Hname. simpl in Hmd5, Hname.
  rewrite (Heq p1 e2 Hname H2), (UpdateConfig_checksum _ _ _ _ _ H2).
  by rewrite bool_decide_true.
Qed.

(** ** Ports *)

(** Whether the listen ports changed, and the port lists that are remembered,
    do not depend on the order in which the ConfigMaps are visited. *)
Theorem isListenPortChanged_order range1 range2 p lb :
  (∀ m, map_order (range1 m) m) → (∀ m, map_order (range2 m) m) →
  isListenPortChanged range1 p lb = isListenPortChanged range2 p lb.
Proof.
  intros H1 H2. unfold isListenPortChanged, mbind, result_bind. cbv zeta.
  destruct (configmap_or_nil _ _ _) as [tcpcm| |]; [|done..].
  destruct (configmap_or_nil _ _ _) as [udpcm| |]; [|done..].
  destruct (GetExportedPorts_perm lb tcpcm udpcm (cm_range range1 tcpcm) (cm_range range1 udpcm)
    (cm_range range2 tcpcm) (cm_range range2 udpcm)) as [Ht Hu]; [apply H1 || apply H2..|].
  destruct (GetExportedPorts lb tcpcm udpcm (cm_range range1 tcpcm) _) as [t1 u1].
  destruct (GetExportedPorts lb tcpcm udpcm (cm_range range2 tcpcm) _) as [t2 u2]. simpl in *.
  by rewrite (GoSort.Strings_ext _ _ Ht), (GoSort.Strings_ext _ _ Hu).
Qed.

End host.
