(* ===== verification/IpvsdrUpdate.v ===== *)
(** * The ipvs-dr provider: what an update achieves

    [OnUpdate] as a whole: a successful update either finds nothing to do, or
    publishes the network of its node, or has configured the host for the load
    balancer, and then the same update finds nothing to do any more. *)

From S2P Require Import Prelude GoStd GoNet LbApi Ports NodeNetwork Sysctl Controller Execd.
From S2P Require Import GoMd5 Iptables Keepalived Ipvsdr IpvsdrFacts IpvsdrHost.

(** ** What the parts of a host leave alone *)
Section frame.
Context {E : Type} `{!OS E, !Iptables E, !IpvsEnv E}.

Definition same_rules (e e' : E) : Prop := ∀ c, rules c e' = rules c e.
Definition same_listers (e e' : E) : Prop :=
  ∀ ns n, ConfigMap_Get ns n e' = ConfigMap_Get ns n e.

Definition same_config (e e' : E) : Prop := ReadConfig e' = ReadConfig e.

#[export] Instance same_config_preorder : PreOrder same_config.
Proof. split; [done|]. unfold same_config. by intros x y z -> ->. Qed.
#[export] Instance same_rules_preorder : PreOrder same_rules.
Proof. split; [done|]. intros x y z Hx Hy c. by rewrite Hy, Hx. Qed.
#[export] Instance same_listers_preorder : PreOrder same_listers.
Proof. split; [done|]. intros x y z Hx Hy ns n. by rewrite Hy, Hx. Qed.
End frame.

(** iptables, the configuration file and signals have nothing to do with each
    other, and none of them with the listers of the cluster. *)
Class IpvsFrame (E : Type) `{!OS E, !Iptables E, !IpvsEnv E} := {
  EnsureRule_listers pos c r : steps same_listers (EnsureRule pos c r);
  FlushChain_listers c : steps same_listers (FlushChain c);
  CreateConfig_listers : steps same_listers CreateConfig;
  CreateConfig_rules : steps same_rules CreateConfig;
  ExecuteTemplate_listers conf : steps same_listers (ExecuteTemplate conf);
  ExecuteTemplate_rules conf : steps same_rules (ExecuteTemplate conf);
  SignalProcess_listers pid sig e : same_listers e (SignalProcess pid sig e).2;
  SignalProcess_rules pid sig e : same_rules e (SignalProcess pid sig e).2;
  SignalProcess_config pid sig e : ReadConfig (SignalProcess pid sig e).2 = ReadConfig e;
  EnsureRule_config pos c r : steps same_config (EnsureRule pos c r);
  FlushChain_config c : steps same_config (FlushChain c);
  (** an error of the operating system is no conflict of the API server *)
  interfaces_no_conflict e err :
    net_Interfaces e = Err err → k8s_IsConflict (Some err) = false;
}.

(** The calls on the configuration file that fail are counted like those of
    iptables; signals have a result of their own. *)
Class ConfigHistory (E : Type) `{!OS E, !IpvsEnv E, !CallHistory E} := {
  CreateConfig_history e :
    failed_calls (CreateConfig e).2 = failures (CreateConfig e).1 + failed_calls e;
  ExecuteTemplate_history conf e :
    failed_calls (ExecuteTemplate conf e).2 = failures (ExecuteTemplate conf e).1 + failed_calls e;
  SignalProcess_history pid sig e : failed_calls (SignalProcess pid sig e).2 = failed_calls e;
}.

#[export] Hint Extern 1 (steps same_listers _) =>
  first [ apply EnsureRule_listers | apply FlushChain_listers | apply CreateConfig_listers
        | apply ExecuteTemplate_listers ] : steps.
#[export] Hint Extern 1 (steps same_rules _) =>
  first [ apply CreateConfig_rules | apply ExecuteTemplate_rules ] : steps.
#[export] Hint Extern 1 (steps same_config _) =>
  first [ apply EnsureRule_config | apply FlushChain_config ] : steps.

Section update.
Context {E : Type} `{!ProcFS E, !OS E, !Iptables E, !IpvsEnv E}.
Context `{!OSLaws E, !IptablesLaws E, !IpvsEnvLaws E, !IpvsFrame E}.
Context `{!CallHistory E, !IptablesHistory E, !ConfigHistory E}.
Context (range_map : gmap string string → list (string * string)).
Implicit Types p : IpvsProvider E.

(** ** Frames *)
Lemma UpdateConfig_listers vis vss port : steps same_listers (UpdateConfig vis vss port).
Proof. unfold UpdateConfig. steps_auto. Qed.

Lemma UpdateConfig_rules vis vss port : steps same_rules (UpdateConfig vis vss port).
Proof. unfold UpdateConfig. steps_auto. Qed.

Lemma setIptablesMark_listers pos ip proto iface mark mac ports :
  steps same_listers (setIptablesMark pos ip proto iface mark mac ports).
Proof. unfold setIptablesMark. cbv zeta. steps_auto. Qed.
#[local] Hint Resolve setIptablesMark_listers : steps.

Lemma onUpdateIPtables_listers me lb ipvs sel nets tcps udps :
  steps same_listers (onUpdateIPtables me lb ipvs sel nets tcps udps).
Proof.
  unfold onUpdateIPtables, flushChain, ensureIptablesMark, ensureIptablesOutputDrop,
    appendIptablesMark, prependIptablesMark. cbv zeta. steps_auto.
Qed.

Lemma setIptablesMark_config pos ip proto iface mark mac ports :
  steps same_config (setIptablesMark pos ip proto iface mark mac ports).
Proof. unfold setIptablesMark. cbv zeta. steps_auto. Qed.
#[local] Hint Resolve setIptablesMark_config : steps.

Lemma onUpdateIPtables_config me lb ipvs sel nets tcps udps :
  steps same_config (onUpdateIPtables me lb ipvs sel nets tcps udps).
Proof.
  unfold onUpdateIPtables, flushChain, ensureIptablesMark, ensureIptablesOutputDrop,
    appendIptablesMark, prependIptablesMark. cbv zeta. steps_auto.
Qed.

(** A reload sends at most a signal. *)
Definition reload_frame p p' : Prop :=
  nodeName p' = nodeName p ∧ cfgMD5 p' = cfgMD5 p ∧ same_listers (env p) (env p') ∧
  same_rules (env p) (env p') ∧ same_config (env p) (env p') ∧
  failed_calls (env p') = failed_calls (env p).

Lemma Reload_frame p r p' : Reload p = (r, p') → reload_frame p p'.
Proof.
  assert (∀ q : IpvsProvider E, nodeName q = nodeName p → cfgMD5 q = cfgMD5 p → env q = env p →
    reload_frame p q) as Hsame.
  { intros q H1 H2 H3. unfold reload_frame. by rewrite H3. }
  unfold Reload, catch, on_daemon, Signal, signal_process. unfold_prog.
  destruct (k_cmd p) as [k|]; [|intros [= _ <-]; by apply Hsame].
  destruct (IsRunning _) as [[]| |]; simpl.
  - destruct (match process (k_d k) with Ok a => deref a | Err e => Err e | Panic w => Panic w end)
      as [pid| |]; simpl.
    + pose proof (SignalProcess_listers pid SIGHUP (env p)).
      pose proof (SignalProcess_rules pid SIGHUP (env p)).
      pose proof (SignalProcess_config pid SIGHUP (env p)).
      pose proof (SignalProcess_history pid SIGHUP (env p)).
      destruct (SignalProcess pid SIGHUP (env p)) as [[] e]; simpl;
        repeat case_bool_decide; intros [= _ <-]; done.
    + case_bool_decide; intros [= _ <-]; by apply Hsame.
    + intros [= _ <-]; by apply Hsame.
  - intros [= _ <-]. by apply Hsame.
  - case_bool_decide; intros [= _ <-]; by apply Hsame.
  - intros [= _ <-]; by apply Hsame.
Qed.

(** ** The network of the nodes *)
Lemma select_addrs_no_Err nns b acc addrs err : select_addrs nns b acc addrs ≠ Err err.
Proof.
  revert b acc. induction addrs as [|[[n|]|] addrs IH]; intros b acc; cbn [select_addrs]; [done| |auto|done].
  destruct (negb _); auto.
Qed.

Lemma select_ifaces_no_Err nns l err : select_ifaces nns l ≠ Err err.
Proof.
  induction l as [|i l IH]; cbn [select_ifaces]; [done|].
  repeat (case_match; try done). unfold selectIface.
  match goal with |- context [select_addrs nns ?b [] ?a] =>
    pose proof (select_addrs_no_Err nns b [] a) as Ha; destruct (select_addrs nns b [] a) as [[[] ?]|e|];
    [..|by destruct (Ha e)|done] end;
    cbn; destruct (select_ifaces nns l) as [|e|] eqn:El; try done; by intros [= ->].
Qed.

(** Only the interfaces of the host can be a reason not to know the own network. *)
Lemma getCurrentNodeIfaceIPs_Err ifs me nns err :
  getCurrentNodeIfaceIPs ifs me nns = Err err → ifs = Err err.
Proof.
  unfold getCurrentNodeIfaceIPs. destruct ifs as [l| |]; cbn; [|by intros [= ->]|done].
  pose proof (select_ifaces_no_Err nns l) as Hl. destruct (select_ifaces nns l) as [|e|]; [done| |done].
  by destruct (Hl e).
Qed.

Lemma getNodeNetSelectors_nodes p sel nodes binds sel' :
  getNodeNetSelectors p sel nodes binds = Ok sel' →
  (∀ n nns, sel !! n = Some nns →
     ∃ nd, Node_Get n (env p) = Ok nd ∧ nns = newNodeNetSelector nd binds) →
  ∀ n nns, sel' !! n = Some nns →
    ∃ nd, Node_Get n (env p) = Ok nd ∧ nns = newNodeNetSelector nd binds.
Proof.
  revert sel. induction nodes as [|x nodes IH]; intros sel; cbn [getNodeNetSelectors].
  { by intros [= <-]. }
  unfold getNodeNetSelector. destruct (sel !! x) as [nns|] eqn:Hx; [by apply IH|].
  destruct (Node_Get x (env p)) as [nd| |] eqn:Hn; [|done..]. intros Hr Hsel.
  apply (IH _ Hr). simpl. intros n nns [[<- <-]|[_ Hn']]%lookup_insert_Some; [by exists nd|].
  by apply Hsel.
Qed.

(** ** A successful update *)

(** The network of the node itself, as the host reports it. *)
Definition own_network p (ipvs : IpvsdrProvider) : result NodeStatus :=
  nd ← Node_Get (nodeName p) (env p);
  getCurrentNodeIfaceIPs (net_Interfaces (env p)) (nodeName p)
    (newNodeNetSelector nd (getAllBinds ipvs)).

(** The networks of the nodes an update works with: each node with its selector,
    its own network as it is now, and the others as they are published. *)
Definition networks p (lb : LoadBalancer) (ipvs : IpvsdrProvider) (mine : NodeStatus)
    (sel : allNodeNetSelector) (nets : allNodeIfaceNetList) : Prop :=
  ∀ n, n ∈ elems (Names (Nodes (Spec lb))) →
    (∃ nd, Node_Get n (env p) = Ok nd ∧ sel !! n = Some (newNodeNetSelector nd (getAllBinds ipvs))) ∧
    nets !! n = status_of (nodeName p) mine (lb_NodeStatuses (Status lb)) n.

(** What the template is executed with for the blocks [b]. *)
Definition conf_of (lb : LoadBalancer) (b : list vrrpInstance * list virtualServer)
    : keepalived_conf :=
  {| conf_iptablesChain := iptablesChain; conf_instances := b.1; conf_vss := b.2;
     conf_httpPort := GetHTTPPort lb |}.

(** What the provider remembers of a file: its sum, "" when it cannot be read. *)
Definition file_sum (e : E) : string :=
  match checksum e with inl md5 => md5 | inr _ => "" end.

(** keepalived was configured with the blocks [b] on the way from [p] to [p']:
    when no call failed the file holds the text of their configuration; the sum
    that is remembered is that of the file, whatever it holds. *)
Definition keepalived_follows (lb : LoadBalancer)
    (b : list vrrpInstance * list virtualServer) p p' : Prop :=
  (failed_calls (env p') = failed_calls (env p) → ReadConfig (env p') = inl (rendered (conf_of lb b))) ∧
  cfgMD5 p' = file_sum (env p').

Lemma UpdateConfig_history vis vss port (e e' : E) r :
  UpdateConfig vis vss port e = (r, e') →
  failed_calls e <= failed_calls e' ∧ is_panic r = false ∧ (failed_calls e' = failed_calls e → r = Ok ()).
Proof.
  unfold UpdateConfig, mbind, prog_bind. pose proof (CreateConfig_history e) as H1.
  pose proof (create_returns e) as Hp1. destruct (CreateConfig e) as [[[]| |] e1]; simpl in *;
    [|by intros [= <- <-]; split_and!; [lia|done|lia]|done].
  intros H. match type of H with ExecuteTemplate ?c _ = _ =>
    pose proof (ExecuteTemplate_history c e1) as H2; pose proof (execute_returns c e1) as Hp2 end.
  rewrite H in H2, Hp2. simpl in *. split_and!; [lia|done|]. destruct r as [[]| |]; simpl in *; [done|lia..].
Qed.

Lemma onUpdateKeepalived_follows lb ipvs sel nets p p' :
  onUpdateKeepalived lb ipvs sel nets p = (Ok (), p') →
  nodeName p' = nodeName p ∧ same_listers (env p) (env p') ∧ same_rules (env p) (env p') ∧
  failed_calls (env p) <= failed_calls (env p') ∧
  ∃ b, keepalived_blocks (nodeName p) lb ipvs sel nets = Ok b ∧ keepalived_follows lb b p p'.
Proof.
  unfold onUpdateKeepalived. rewrite prog_bind_get, prog_bind_lift.
  destruct (keepalived_blocks _ _ _ _ _) as [b| |]; [|done..].
  destruct (UpdateConfig b.1 b.2 (GetHTTPPort lb) (env p)) as [r e1] eqn:He1.
  pose proof (UpdateConfig_listers b.1 b.2 (GetHTTPPort lb) (env p)) as Hl.
  pose proof (UpdateConfig_rules b.1 b.2 (GetHTTPPort lb) (env p)) as Hr.
  rewrite He1 in Hl, Hr. simpl in Hl, Hr.
  destruct (UpdateConfig_history _ _ _ _ _ _ He1) as (Hle & Hp & Hok).
  assert (failed_calls e1 = failed_calls (env p) → ReadConfig e1 = inl (rendered (conf_of lb b))) as Hf.
  { intros ->%Hok. by eapply UpdateConfig_reads. }
  rewrite (prog_bind_Ok (ignore (on_env _)) _ p () (with_env p e1));
    [|unfold ignore, catch, on_env; unfold_prog; rewrite He1; by destruct r].
  rewrite prog_bind_get. cbn [env cfgMD5 with_env].
  assert (∀ q, nodeName q = nodeName p → cfgMD5 q = file_sum e1 → reload_frame q p' →
    env q = e1 → nodeName p' = nodeName p ∧ same_listers (env p) (env p') ∧
    same_rules (env p) (env p') ∧ failed_calls (env p) <= failed_calls (env p') ∧
    ∃ b0, Ok b = Ok b0 ∧ keepalived_follows lb b0 p p') as Hend.
  { intros q Hn Hm (Hn' & Hm' & Hl' & Hr' & Hc' & Hf') Hq. rewrite Hq in *.
    split_and!; [congruence|by etrans|by etrans|lia|]. exists b. split; [done|]. unfold keepalived_follows.
    unfold file_sum, checksum, same_config in *. rewrite Hc', Hf', Hm', Hm. split; [exact Hf|done]. }
  unfold file_sum in Hend. destruct (checksum e1) as [md5|]; [case_bool_decide as Hmd5|].
  - intros [= <-]. by apply (Hend (with_env p e1)).
  - intros H. change (Reload (with_cfgMD5 (with_env p e1) md5) = (Ok (), p')) in H.
    apply Reload_frame in H. by eapply Hend; [..|exact H|].
  - intros H. change (Reload (with_cfgMD5 (with_env p e1) "") = (Ok (), p')) in H.
    apply Reload_frame in H. by eapply Hend; [..|exact H|].
Qed.

(** The host after an update that configured it.  iptables: when no call failed the
    chains follow the load balancer.  keepalived: configured when the load
    balancer changed, else left alone.  That is remembered in either case. *)
Definition configured l lb ipvs mine tcps udps (lb_changed : bool) p p' : Prop :=
  ∃ sel nets, networks p lb ipvs mine sel nets ∧
    (failed_calls (env p') = failed_calls (env p) →
     chains_follow (nodeName p) lb (ip_KeepalivedProvider ipvs) sel nets tcps udps (env p')) ∧
    (if lb_changed then ∃ b, keepalived_blocks (nodeName p) lb ipvs sel nets = Ok b ∧
                             keepalived_follows lb b p p'
     else same_config (env p) (env p') ∧ cfgMD5 p' = cfgMD5 p) ∧
    nodeName p' = nodeName p ∧ same_listers (env p) (env p') ∧
    cache_lb p' = Some l ∧ cache_tcps p' = Some tcps ∧ cache_udps p' = Some udps.

Lemma on_provider_inv {A} (m : prog (IpvsProvider E) A) s p a w :
  on_provider m (s, p) = (Ok a, w) → ∃ p', m p = (Ok a, p') ∧ w = (s, p').
Proof. unfold on_provider. destruct (m p) as [r p']. intros [= -> <-]. by exists p'. Qed.

Lemma apply_changes_configures l lb ipvs lb_changed ports_changed tcps udps mine sel nets s p w :
  nodeName p ∈ elems (Names (Nodes (Spec lb))) →
  lb_changed || ports_changed = true →
  (∀ n, n ∈ elems (Names (Nodes (Spec lb))) →
     nets !! n = status_of (nodeName p) mine (lb_NodeStatuses (Status lb)) n) →
  (∀ n nns, sel !! n = Some nns →
     ∃ nd, Node_Get n (env p) = Ok nd ∧ nns = newNodeNetSelector nd (getAllBinds ipvs)) →
  apply_changes l lb ipvs lb_changed ports_changed tcps udps p (getAllBinds ipvs) sel nets (s, p) =
    (Ok (), w) →
  w.1 = s ∧ configured l lb ipvs mine tcps udps lb_changed p w.2.
Proof.
  intros Hme Hch Hnets Hsel Hrun. unfold apply_changes in Hrun. rewrite Hch in Hrun.
  rewrite prog_bind_lift in Hrun.
  destruct (getNodeNetSelectors p sel _ _) as [sel'| |] eqn:Hs; [|done..].
  pose proof (getNodeNetSelectors_nodes _ _ _ _ _ Hs Hsel) as Hnodes.
  apply getNodeNetSelectors_known in Hs as [_ Hk].
  assert (selectors_known sel' nets (elems (Names (Nodes (Spec lb))))) as Hknown by (intros n Hn _; auto).
  apply prog_bind_inv in Hrun as ([] & w1 & H1 & Hrun). simpl in H1.
  apply on_provider_inv in H1 as (p1 & H1 & ->). unfold on_env in H1.
  destruct (onUpdateIPtables _ lb ipvs sel' nets tcps udps (env p)) as [r e1] eqn:Hip.
  injection H1 as -> <-.
  pose proof (onUpdateIPtables_chains _ _ _ _ _ _ _ _ _ Hknown Hme Hip) as Hchains.
  pose proof (onUpdateIPtables_history _ _ _ _ _ _ _ _ _ _ Hknown Hme Hip) as Hle1.
  pose proof (onUpdateIPtables_listers (nodeName p) lb ipvs sel' nets tcps udps (env p)) as Hl1.
  pose proof (onUpdateIPtables_config (nodeName p) lb ipvs sel' nets tcps udps (env p)) as Hc1.
  rewrite Hip in Hl1, Hc1. simpl in Hl1, Hc1.
  apply prog_bind_inv in Hrun as ([] & w2 & H2 & Hrun).
  assert (∃ p2, w2 = (s, p2) ∧ nodeName p2 = nodeName p ∧ same_listers e1 (env p2) ∧
    same_rules e1 (env p2) ∧ failed_calls e1 <= failed_calls (env p2) ∧
    if lb_changed then ∃ b, keepalived_blocks (nodeName p) lb ipvs sel' nets = Ok b ∧
                            keepalived_follows lb b (with_env p e1) p2
    else p2 = with_env p e1) as (p2 & -> & Hname & Hl2 & Hr2 & Hle2 & Hkeep).
  { destruct lb_changed; simpl in H2.
    - apply on_provider_inv in H2 as (p2 & H2 & ->). exists p2.
      apply onUpdateKeepalived_follows in H2 as (? & ? & ? & ? & ?). done.
    - injection H2 as <-. by exists (with_env p e1). }
  injection Hrun as <-. split; [done|]. exists sel', nets. simpl. split_and!; try done.
  - intros n Hn. split; [|by apply Hnets].
    destruct (Hk n Hn) as [nns Hnns]. destruct (Hnodes n nns Hnns) as (nd & Hnd & ->). by exists nd.
  - intros Hf f matches. specialize (Hchains ltac:(lia) f matches). by rewrite Hr2.
  - destruct lb_changed.
    + destruct Hkeep as (b & Hb & Hread & Hsum). exists b. split; [done|]. split; [|done].
      simpl in *. intros Hf. apply Hread. lia.
    + subst p2. by split.
  - by etrans.
Qed.

(** What a successful update of a load balancer comes to. *)
Definition update_outcome (l : nat) lb ipvs (s : store) p (s' : store) p' : Prop :=
  ∃ ports_changed tcps udps,
    isListenPortChanged range_map p lb = Ok (ports_changed, tcps, udps) ∧
    let lb_changed := isLBChanged s p lb in
    if lb_changed || ports_changed then
      ∃ mine, own_network p ipvs = Ok mine ∧
        let new := new_statuses (nodeName p) mine lb in
        if decide (lb_NodeStatuses (Status lb) = new)
        then s' = s ∧ configured l lb ipvs mine tcps udps lb_changed p p'
        else s' = <[l := set_NodeStatuses lb new]> s ∧
             ∃ r e, LoadBalancer_Update (set_NodeStatuses lb new) (env p) = (r, e) ∧ p' = with_env p e
    else s' = s ∧ p' = p.

Lemma OnUpdate_outcome l s p lb ipvs s' p' :
  s !! l = Some lb → validate p lb = Ok () → Ipvsdr (Providers (Spec lb)) = Some ipvs →
  ipvsdr_OnUpdate range_map l (s, p) = (Ok (), (s', p')) →
  update_outcome l lb ipvs s p s' p'.
Proof.
  intros Hl Hval Hip Hrun. unfold update_outcome.
  rewrite (OnUpdate_eq range_map l s p lb Hl), Hval, Hip in Hrun.
  apply validate_Ok in Hval as (Hme & _).
  destruct (isListenPortChanged range_map p lb) as [[[c tcps] udps]| |]; [|done..].
  exists c, tcps, udps. split; [done|]. cbv zeta in *.
  rewrite <-negb_orb in Hrun. destruct (isLBChanged s p lb || c) eqn:Hch; simpl in Hrun;
    [|by simplify_eq].
  rewrite reconfigure_eq in Hrun. unfold getNodeNetSelector in Hrun. rewrite lookup_empty in Hrun.
  unfold own_network.
  destruct (Node_Get (nodeName p) (env p)) as [nd| |] eqn:Hnd; [|done..].
  change (mbind (M := result) ?f (Ok nd)) with (f nd) in *. cbn [fst snd] in Hrun.
  set (nns := newNodeNetSelector nd (getAllBinds ipvs)) in *.
  destruct (registerNodeNetwork_eq l lb nns s p) as (nets & Hnets & Hreg). rewrite Hreg in Hrun.
  destruct (getCurrentNodeIfaceIPs _ _ _) as [mine|err|] eqn:Hmine; [| |done].
  2: { apply getCurrentNodeIfaceIPs_Err, interfaces_no_conflict in Hmine. cbv beta iota in Hrun.
       rewrite orb_false_l, bool_decide_true, Hmine in Hrun by done. done. }
  exists mine. split; [done|]. cbv zeta in Hrun |- *. unfold DeepEqual in Hrun.
  case_decide as Hst.
  - rewrite (bool_decide_true _ Hst) in Hrun. cbn in Hrun.
    refine (apply_changes_configures l lb ipvs _ c tcps udps mine _ (nets mine) s p (s', p') Hme Hch
              (Hnets mine) _ Hrun).
    intros n x [[<- <-]|[_ []%lookup_empty_Some]]%lookup_insert_Some. by exists nd.
  - rewrite (bool_decide_false _ Hst) in Hrun.
    destruct (LoadBalancer_Update _ _) as [r e] eqn:Hup.
    assert (s' = <[l := set_NodeStatuses lb (new_statuses (nodeName p) mine lb)]> s ∧
            p' = with_env p e) as [-> ->].
    { destruct r as [[]|err|]; cbv beta iota in Hrun; cbn [orb] in Hrun; [by simplify_eq| |done].
      destruct (k8s_IsConflict (Some err)); by simplify_eq. }
    split; [done|]. by exists r, e.
Qed.

Lemma isListenPortChanged_again p p' lb c tcps udps :
  isListenPortChanged range_map p lb = Ok (c, tcps, udps) →
  same_listers (env p) (env p') →
  cache_tcps p' = Some tcps → cache_udps p' = Some udps →
  isListenPortChanged range_map p' lb = Ok (false, tcps, udps).
Proof.
  intros H Hl Ht Hu. unfold isListenPortChanged, configmap_or_nil in *. cbv zeta in *.
  rewrite !Hl, Ht, Hu.
  apply result_bind_inv in H as (tcm & -> & H). apply result_bind_inv in H as (ucm & -> & H).
  cbn [mbind result_bind] in *. destruct (GetExportedPorts _ _ _ _ _) as [a b].
  injection H as _ <- <-. unfold DeepEqual. by rewrite !bool_decide_true.
Qed.

(** A publication is seen in the store. *)
Lemma publication_changes (l : nat) (s : store) lb new :
  s !! l = Some lb → lb_NodeStatuses (Status lb) ≠ new → s ≠ <[l := set_NodeStatuses lb new]> s.
Proof.
  intros Hl Hne Hs. apply Hne.
  assert (Some lb = Some (set_NodeStatuses lb new)) as [=Heq] by by rewrite <-Hl, Hs, lookup_insert_eq at 1.
  by rewrite Heq at 1.
Qed.

(** C7: What a successful update of a load balancer that is this node's to serve
    amounts to.  When neither the load balancer nor its ports changed, nothing
    is done.  When the network of the node is not what the load balancer says,
    it is published and nothing else is done.  Otherwise the host is configured.
    When no iptables or file call of the run failed, the mangle chains are those
    of the virtual IPs, of the peers and of the exported ports, and, when the load
    balancer changed, keepalived's file holds the instances and servers of its
    blocks; when only the ports changed the file is left alone.  The sum of the
    file that is there is remembered, and so are the load balancer and its ports,
    whether or not a call failed: the code drops these errors. *)
Theorem OnUpdate_configures l s p lb ipvs s' p' :
  s !! l = Some lb → validate p lb = Ok () → Ipvsdr (Providers (Spec lb)) = Some ipvs →
  ipvsdr_OnUpdate range_map l (s, p) = (Ok (), (s', p')) →
  update_outcome l lb ipvs s p s' p'.
Proof. apply OnUpdate_outcome. Qed.

(** C8: An update settles: when a successful update has published nothing, the next
    update of the same object, with the ConfigMaps as they were, finds nothing to
    do. *)
Theorem OnUpdate_settles l s p p' :
  ipvsdr_OnUpdate range_map l (s, p) = (Ok (), (s, p')) →
  ipvsdr_OnUpdate range_map l (s, p') = (Ok (), (s, p')).
Proof.
  intros Hrun. destruct (s !! l) as [lb|] eqn:Hl.
  2: { unfold ipvsdr_OnUpdate in Hrun. by rewrite prog_bind_get, prog_bind_lift, Hl in Hrun. }
  destruct (validate p lb) as [[]| |] eqn:Hval.
  2-3: pose proof Hrun as H; rewrite (OnUpdate_eq range_map l s p lb Hl), Hval in H;
       by simplify_eq.
  destruct (validate_Ok _ _ Hval) as (_ & _ & _ & [ipvs Hip]).
  destruct (OnUpdate_outcome l s p lb ipvs s p' Hl Hval Hip Hrun) as (c & tcps & udps & Hports & Hout).
  cbv zeta in Hout. destruct (isLBChanged s p lb || c); [|by destruct Hout as [_ ->]].
  destruct Hout as (mine & _ & Hout). case_decide as Hst.
  - destruct Hout as (_ & sel & nets & _ & _ & _ & Hname & Hlist & Hclb & Ht & Hu).
    assert (validate p' lb = Ok ()) as Hval' by (unfold validate; by rewrite Hname).
    rewrite (OnUpdate_eq range_map l s p' lb Hl), Hval', Hip,
      (isListenPortChanged_again p p' lb c tcps udps) by done.
    unfold isLBChanged. rewrite Hclb. cbn [mbind option_bind]. rewrite Hl.
    unfold DeepEqual. by rewrite !bool_decide_true.
  - destruct Hout as [Hs _]. by eapply publication_changes in Hs.
Qed.
End update.
