(* ===== verification/IpvsdrFile.v ===== *)
(** * The ipvs-dr provider: what keepalived reads

    The blocks an update computes have plain values, so the file written from the
    shipped template is read by keepalived as these blocks. *)

From S2P Require Import Prelude GoStd GoNet LbApi LbValid Ports NodeNetwork Sysctl Controller Execd.
From S2P Require Import GoMd5 Iptables Keepalived KeepalivedTmpl Ipvsdr IpvsdrFacts IpvsdrHost IpvsdrUpdate.
From Stdlib Require Import Ascii.

(** ** Addresses are plain words *)
Lemma digit_plain c d : Strconv.digit c = Some d → plain_char c = true.
Proof. by destruct c as [[] [] [] [] [] [] [] []]. Qed.

Lemma hexdigit_plain c d : hexdigit c = Some d → plain_char c = true.
Proof. by destruct c as [[] [] [] [] [] [] [] []]. Qed.

Lemma scan_plain dig base n started s v rest :
  (∀ c d, dig c = Some d → plain_char c = true) →
  scan dig base n started s = Some (v, rest) → plain_chars s = plain_chars rest.
Proof.
  intros Hdig. revert n started. induction s as [|c s IH]; intros n started; cbn [scan].
  { destruct started; [|done]. by intros [= _ <-]. }
  destruct (dig c) as [d|] eqn:Hd.
  - case_bool_decide; [done|]. intros Hs%IH. cbn [plain_chars]. by rewrite (Hdig _ _ Hd).
  - destruct started; [|done]. by intros [= _ <-].
Qed.

Lemma parse_octets_plain k first s b : parse_octets k first s = Some b → plain_chars s = true.
Proof.
  revert first s b. induction k as [|k IH]; intros first s b; cbn [parse_octets].
  { case_bool_decide; by subst. }
  destruct s as [|c s]; [done|]. destruct (negb first && negb (is_byte c ".")) eqn:Hc; [done|].
  destruct (dtoi (if first then String c s else s)) as [[n rest]|] eqn:Hd; [|done].
  case_bool_decide; [done|]. destruct (parse_octets k false rest) as [b'|] eqn:Hr; [|done]. intros _.
  apply IH in Hr. apply (scan_plain _ _ _ _ _ _ _ digit_plain) in Hd. rewrite Hr in Hd.
  destruct first; [done|]. cbn [plain_chars]. rewrite Hd, andb_true_r.
  apply negb_false_iff, bool_decide_eq_true in Hc. by subst.
Qed.

Lemma embed_ipv4_plain acc e s r : embed_ipv4 acc e s = Some r → plain_chars s = true.
Proof.
  unfold embed_ipv4. repeat (case_bool_decide; [done|]).
  destruct (parse_octets _ _ _) eqn:Ho; [|done]. intros _. by eapply parse_octets_plain.
Qed.

Lemma parse6_loop_plain fuel acc e s acc' e' :
  parse6_loop fuel acc e s = Some (acc', e', "") → plain_chars s = true.
Proof.
  revert acc e s. induction fuel as [|fuel IH]; intros acc e s; [done|]. cbn [parse6_loop].
  case_bool_decide; [|by intros [= _ _ ->]].
  destruct (xtoi s) as [[n rest]|] eqn:Hx; [|done]. apply (scan_plain _ _ _ _ _ _ _ hexdigit_plain) in Hx.
  case_bool_decide; [done|]. destruct rest as [|c rest]; [done|].
  destruct (is_byte c ".") eqn:Hdot; [by intros ?%embed_ipv4_plain|].
  destruct (is_byte c ":") eqn:Hcol; [|done]. apply bool_decide_eq_true in Hcol as ->.
  rewrite Hx. change (plain_chars (String ":" rest)) with (plain_chars rest).
  destruct rest as [|c rest]; [done|]. destruct (is_byte c ":") eqn:Hc; [|apply IH].
  apply bool_decide_eq_true in Hc as ->. change (plain_chars (String ":" rest)) with (plain_chars rest).
  destruct e; [done|]. case_bool_decide; [by subst|]. apply IH.
Qed.

Lemma HasPrefix_colons s :
  GoStrings.HasPrefix s "::" = true → ∃ t, s = String ":" (String ":" t).
Proof.
  unfold GoStrings.HasPrefix. destruct s as [|c [|c' t]]; cbn [String.prefix]; [done|by destruct (ascii_dec _ _)|].
  destruct (ascii_dec ":" c) as [<-|]; [|done]. destruct (ascii_dec ":" c') as [<-|]; [|done]. eauto.
Qed.

Lemma ParseIP_plain s b : ParseIP s = Some b → plain s.
Proof.
  unfold ParseIP. intros H. split; [by intros ->|]. destruct (ip_family s) as [[]|]; [| |done].
  - unfold parseIPv4 in H. destruct (parse_octets _ _ _) eqn:Ho; [|done]. by apply parse_octets_plain in Ho.
  - unfold parseIPv6 in H. destruct (GoStrings.HasPrefix s "::") eqn:Hp.
    + apply HasPrefix_colons in Hp as [t ->].
      change (GoStrings.drop_str 2 (String ":" (String ":" t))) with t in H.
      change (plain_chars t = true). case_bool_decide as Ht; [by destruct Ht as [_ ->]|].
      destruct (parse6_loop _ _ _ t) as [[[acc e] [|]]|] eqn:Hl; try done. by eapply parse6_loop_plain.
    + rewrite bool_decide_false in H by (by intros []).
      destruct (parse6_loop _ _ _ s) as [[[acc e] [|]]|] eqn:Hl; try done. by eapply parse6_loop_plain.
Qed.

(** What has an IP version is an address. *)
Lemma version_plain ip ver : getIPVersion (ParseIP ip) = ver → ver ≠ "unknown" → plain ip.
Proof. intros <- Hne. destruct (ParseIP ip) eqn:Hip; [by eapply ParseIP_plain|done]. Qed.

(** ** The names of the instances *)
Lemma word_plain c : plain_char (if is_word c then c else "_"%char) = true.
Proof. by destruct c as [[] [] [] [] [] [] [] []]. Qed.

Lemma instance_name_plain iface ver : plain (instance_name iface ver).
Proof.
  unfold instance_name. split.
  - rewrite !map_str_app. by destruct (GoStrings.map_str _ iface).
  - generalize (iface +:+ "_" +:+ ver). intros s. induction s as [|c s IH]; [done|].
    cbn [GoStrings.map_str plain_chars]. by rewrite word_plain, IH.
Qed.

(** ** The interfaces of the host *)
Lemma select_ifaces_names (P : string → Prop) nns l nets :
  Forall (λ i, P (iface_Name i)) l → select_ifaces nns l = Ok nets →
  Forall (λ i, P (if_Name i)) (elems nets).
Proof.
  intros H. revert nets. induction H as [|i l Hi _ IH]; intros nets; cbn [select_ifaces].
  { by intros [= <-]. }
  destruct (negb _); [auto|]. destruct (negb _); [auto|].
  destruct (iface_Addrs i) as [addrs| |]; [|auto|done]. unfold selectIface.
  intros (x & Hx & (nets' & Hn & Hr)%bind_Ok)%bind_Ok. apply IH in Hn.
  apply bind_Ok in Hx as ([[] ips] & _ & [= <-]); injection Hr as <-; [|done].
  by apply Forall_cons_2.
Qed.

Lemma own_interfaces (P : string → Prop) ifs me nns mine :
  (∀ l, ifs = Ok l → Forall (λ i, P (iface_Name i)) l) →
  getCurrentNodeIfaceIPs ifs me nns = Ok mine →
  Forall (λ i, P (if_Name i)) (elems (ns_IfaceNetList mine)).
Proof.
  unfold getCurrentNodeIfaceIPs. intros H (l & Hl & (nets & Hn & [= <-])%bind_Ok)%bind_Ok. simpl.
  apply (select_ifaces_names P) in Hn; [|by apply H]. destruct nets as [nets|]; [|done]. simpl in *.
  by rewrite merge_sort_Permutation.
Qed.

Lemma getNodeNetwork_iface nns nets bind i :
  getNodeNetwork nns nets bind = Some i → pn_InterfaceNet i ∈ nets.
Proof.
  unfold getNodeNetwork. destruct (negb _).
  - destruct (List.find _ nets) as [x|] eqn:Hf; [|done]. intros [= <-]. simpl.
    apply find_Some_iff in Hf as (l1 & l2 & -> & _). set_solver.
  - destruct (negb _); [|done]. destruct (List.find _ nets) as [x|] eqn:Hf; [|done]. intros [= <-]. simpl.
    apply find_Some_iff in Hf as (l1 & l2 & -> & _). set_solver.
Qed.

(** ** The blocks are plain *)
Definition plain_block (b : list vrrpInstance * list virtualServer) : Prop :=
  Forall plain_instance b.1 ∧ Forall plain_server b.2.

Lemma plain_block_app b b' : plain_block b → plain_block b' → plain_block (b.1 ++ b'.1, b.2 ++ b'.2).
Proof. intros [??] [??]. split; by apply Forall_app. Qed.

Lemma vrrp_state_plain me nodes kl state : vrrp_state me nodes kl = Ok state → plain state.
Proof.
  unfold vrrp_state. case_bool_decide; [|by intros [= <-]].
  destruct (last nodes); [|done]. intros [= <-]. by case_bool_decide.
Qed.

Lemma config_vips_plain my all kl state prio vrid vips :
  my ∈ all → plain (if_Name (pn_InterfaceNet my)) → plain state →
  (kp_HAMode kl ≠ ActivePassiveHA → plain (kp_Scheduler kl)) →
  plain_block (config_vips my all kl state prio vrid "" vips).
Proof.
  intros Hin Hmy Hstate Hsched.
  assert (Forall plain_instance (config_vips my all kl state prio vrid "" vips).1) as Hvis.
  { apply Forall_forall. intros vi (b & _ & Hb & -> & Hne)%config_vips_instances.
    assert (getIPVersion (Some b) ≠ "unknown") as Hu
      by (destruct (vip_version b (ParseIP_version _ _ Hb)) as [->| ->]; done).
    assert (∀ i, getIP i (getIPVersion (Some b)) ≠ "" → plain (getIP i (getIPVersion (Some b)))) as Hip.
    { intros i H. eapply version_plain; [|exact Hu]. apply (proj2 (getIP_facts i _ Hu) H). }
    split; simpl; auto using instance_name_plain; [|by eapply ParseIP_plain].
    apply Forall_forall. intros ip (H & i & _ & ->)%allIPs_of_elem. auto. }
  split; [done|]. rewrite config_vips_servers. case_bool_decide as Hm; [|done].
  apply Forall_fmap. eapply Forall_impl; [exact Hvis|]. intros vi Hvi. destruct Hvi. by split; simpl; auto.
Qed.

Section blocks.
Context (me : string) (nodes : list string) (sel : allNodeNetSelector) (nets : allNodeIfaceNetList).
Hypothesis Hknown : selectors_known sel nets nodes.
Hypothesis Hme : me ∈ nodes.
Hypothesis Hplain : ∀ st, nets !! me = Some st →
  Forall (λ i, plain (if_Name i)) (elems (ns_IfaceNetList st)).

Lemma block_plain kl prio vrid b :
  (kp_HAMode kl ≠ ActivePassiveHA → plain (kp_Scheduler kl)) →
  getKeepalivedConfigBlock me nodes sel nets kl prio vrid = Ok b → plain_block b.
Proof using All.
  intros Hs Hb. destruct b as [vis vss].
  destruct (block_inv _ _ _ _ _ _ _ _ _ Hknown Hme Hb) as (my & state & Hmy & Hstate & ->).
  apply config_vips_plain; [by eapply node_iface_self| |by eapply vrrp_state_plain|done].
  unfold node_iface in Hmy. apply bind_Some in Hmy as (st & Hst & Hmy).
  apply bind_Some in Hmy as (nns & _ & Hi%getNodeNetwork_iface).
  specialize (Hplain _ Hst). by eapply Forall_forall in Hplain.
Qed.

Lemma slave_blocks_plain prio vrid slaves b :
  slave_blocks me nodes sel nets prio vrid slaves = Ok b → plain_block b.
Proof using All.
  revert vrid b. induction slaves as [|kl slaves IH]; intros vrid b; cbn [slave_blocks].
  { by intros [= <-]. }
  case_bool_decide as Hm; [apply IH|]. cbv zeta.
  destruct (getKeepalivedConfigBlock _ _ _ _ kl _ _) as [b1| |] eqn:Hb; [|apply IH|done].
  intros (r & Hr%IH & [= <-])%bind_Ok. apply plain_block_app; [|done].
  eapply block_plain; [|exact Hb]. done.
Qed.
End blocks.

Lemma scheduler_plain s : s ∈ ipvs_schedulers → plain s.
Proof.
  unfold ipvs_schedulers. rewrite !elem_of_cons.
  intros [->|[->|[->|[->|[->|[->|[->|[]%not_elem_of_nil]]]]]]]; done.
Qed.

Lemma keepalived_blocks_plain me lb ipvs sel nets b :
  selectors_known sel nets (elems (Names (Nodes (Spec lb)))) →
  me ∈ elems (Names (Nodes (Spec lb))) →
  (∀ st, nets !! me = Some st → Forall (λ i, plain (if_Name i)) (elems (ns_IfaceNetList st))) →
  valid_ipvsdr ipvs → keepalived_blocks me lb ipvs sel nets = Ok b → plain_block b.
Proof.
  intros Hk Hme Hp [_ Hs]. unfold keepalived_blocks. cbv zeta.
  intros (b1 & H1 & (b2 & H2 & [= <-])%bind_Ok)%bind_Ok.
  assert (selectors_known sel nets (GoSort.Strings (elems (Names (Nodes (Spec lb)))))) as Hk'.
  { intros n Hn. apply Hk. by apply GoSort.Strings_elem. }
  assert (me ∈ GoSort.Strings (elems (Names (Nodes (Spec lb))))) as Hme' by by apply GoSort.Strings_elem.
  apply plain_block_app; [|by eapply slave_blocks_plain].
  eapply block_plain; [done..| |exact H1]. intros _. by apply scheduler_plain.
Qed.

(** ** The file after an update *)

(** The template that was loaded is the shipped one. *)
Class ShippedTemplate (E : Type) `{!IpvsEnv E, !IpvsEnvLaws E} := {
  rendered_shipped c : rendered c = keepalived_tmpl c;
}.

Section file.
Context {E : Type} `{!ProcFS E, !OS E, !Iptables E, !IpvsEnv E}.
Context `{!OSLaws E, !IptablesLaws E, !IpvsEnvLaws E, !IpvsFrame E, !ShippedTemplate E}.
Context `{!CallHistory E, !IptablesHistory E, !ConfigHistory E}.
Context (range_map : gmap string string → list (string * string)).
Implicit Types p : IpvsProvider E.

Lemma networks_known p lb ipvs mine sel nets :
  networks p lb ipvs mine sel nets → selectors_known sel nets (elems (Names (Nodes (Spec lb)))).
Proof. intros H n Hn _. destruct (H n Hn) as [(nd & _ & ->) _]. eauto. Qed.

Lemma keepalived_follows_reads lb b p p' :
  plain_block b → keepalived_follows lb b p p' → failed_calls (env p') = failed_calls (env p) →
  ∃ text, ReadConfig (env p') = inl text ∧ read_config text = Some (conf_items (conf_of lb b)).
Proof.
  intros [Hi Hs] [Hf _] Hno. eexists. split; [exact (Hf Hno)|]. rewrite rendered_shipped.
  by apply read_config_template.
Qed.

(** C9: The file keepalived reads.  After a successful update of a changed load
    balancer that published nothing and had no failing iptables or file call, the
    configuration file exists, and read line by line it is exactly the blocks of
    the update: the iptables chain, the synchronisation group when there are
    several instances, every instance with its peers, every virtual server with
    its real servers; no value of the load balancer or of a published status can
    break out of its place.  The template is the shipped one and the interfaces of
    the host have names without blanks and braces. *)
Theorem OnUpdate_file l s p lb ipvs p' :
  s !! l = Some lb → validate p lb = Ok () → Ipvsdr (Providers (Spec lb)) = Some ipvs →
  (∀ ifs, net_Interfaces (env p) = Ok ifs → Forall (λ i, plain (iface_Name i)) ifs) →
  isLBChanged s p lb = true →
  ipvsdr_OnUpdate range_map l (s, p) = (Ok (), (s, p')) →
  failed_calls (env p') = failed_calls (env p) →
  ∃ mine sel nets b text, own_network p ipvs = Ok mine ∧ networks p lb ipvs mine sel nets ∧
    keepalived_blocks (nodeName p) lb ipvs sel nets = Ok b ∧
    ReadConfig (env p') = inl text ∧ read_config text = Some (conf_items (conf_of lb b)).
Proof.
  intros Hl Hval Hip Hifs Hch Hrun Hno.
  destruct (OnUpdate_outcome range_map l s p lb ipvs s p' Hl Hval Hip Hrun) as (c & tcps & udps & _ & Hout).
  cbv zeta in Hout. rewrite Hch in Hout. destruct Hout as (mine & Hmine & Hout).
  case_decide as Hst; [|destruct Hout as [Hs _]; by eapply publication_changes in Hs].
  destruct Hout as (_ & sel & nets & Hnets & _ & (b & Hb & Hfollows) & _).
  apply validate_Ok in Hval as (Hme & Hval & _).
  assert (plain_block b) as Hpb.
  { eapply keepalived_blocks_plain; [by eapply networks_known|exact Hme| |..|exact Hb].
    - destruct (Hnets _ Hme) as [_ ->]. unfold status_of. rewrite bool_decide_true by done.
      intros st [= <-]. unfold own_network in Hmine.
      apply bind_Ok in Hmine as (nd & _ & Hmine). by eapply own_interfaces.
    - by eapply ValidateIpvsdr_Ok, ValidateLoadBalancer_ipvsdr. }
  destruct (keepalived_follows_reads lb b p p' Hpb Hfollows Hno) as (text & H1 & H2).
  by exists mine, sel, nets, b, text.
Qed.
End file.
