(* ===== verification/IpvsdrExample.v ===== *)
(** * An example host

    A host in memory that satisfies what the ipvs-dr provider relies on, and the
    theorems about the provider applied to it. *)

From S2P Require Import Prelude GoStd GoNet LbApi Ports NodeNetwork Sysctl Controller Execd.
From S2P Require Import GoMd5 Iptables Keepalived KeepalivedTmpl Ipvsdr IpvsdrFacts IpvsdrHost IpvsdrUpdate IpvsdrFile.

Record host := {
  h_proc : gmap string string;
  h_procs : processes;
  h_tables : memory;
  h_nodes : gmap string Node;
  h_cms : gmap string ConfigMap;
  (** the error of every update of the API server *)
  h_api : option error;
  (** the interfaces with the addresses they hold *)
  h_ifaces : list (string * list (option IPNet));
  (** the text of the configuration file *)
  h_config : option string;
  (** signals are refused *)
  h_deny : bool;
  (** the configuration file cannot be opened for writing *)
  h_readonly : bool;
  (** how often it could not *)
  h_file_errors : nat;
}.

Definition with_procs (h : host) (x : processes) : host :=
  {| h_proc := h_proc h; h_procs := x; h_tables := h_tables h; h_nodes := h_nodes h; h_cms :=
     h_cms h; h_api := h_api h; h_ifaces := h_ifaces h; h_config := h_config h; h_deny :=
     h_deny h; h_readonly := h_readonly h; h_file_errors := h_file_errors h |}.
Definition with_tables (h : host) (x : memory) : host :=
  {| h_proc := h_proc h; h_procs := h_procs h; h_tables := x; h_nodes := h_nodes h; h_cms :=
     h_cms h; h_api := h_api h; h_ifaces := h_ifaces h; h_config := h_config h; h_deny :=
     h_deny h; h_readonly := h_readonly h; h_file_errors := h_file_errors h |}.
Definition with_proc (h : host) (x : gmap string string) : host :=
  {| h_proc := x; h_procs := h_procs h; h_tables := h_tables h; h_nodes := h_nodes h; h_cms :=
     h_cms h; h_api := h_api h; h_ifaces := h_ifaces h; h_config := h_config h; h_deny :=
     h_deny h; h_readonly := h_readonly h; h_file_errors := h_file_errors h |}.
Definition with_config (h : host) (x : option string) : host :=
  {| h_proc := h_proc h; h_procs := h_procs h; h_tables := h_tables h; h_nodes := h_nodes h;
     h_cms := h_cms h; h_api := h_api h; h_ifaces := h_ifaces h; h_config := x; h_deny :=
     h_deny h; h_readonly := h_readonly h; h_file_errors := h_file_errors h |}.
Definition with_file_errors (h : host) (x : nat) : host :=
  {| h_proc := h_proc h; h_procs := h_procs h; h_tables := h_tables h; h_nodes := h_nodes h;
     h_cms := h_cms h; h_api := h_api h; h_ifaces := h_ifaces h; h_config := h_config h; h_deny
     := h_deny h; h_readonly := h_readonly h; h_file_errors := x |}.

Definition pass {X A} (get : host → X) (set : host → X → host) (m : prog X A) : prog host A :=
  λ h, let '(r, x) := m (get h) in (r, set h x).

#[export] Instance host_procfs : ProcFS host := {
  ReadFile f h := ReadFile f (h_proc h);
  WriteFile f v := pass h_proc with_proc (WriteFile f v);
}.

#[export] Instance host_os : OS host := {
  StartProcess c := pass h_procs with_procs (StartProcess c);
  FindProcess pid h := FindProcess pid (h_procs h);
  SignalProcess pid sig h :=
    if h_deny h then (Err (ErrorString "operation not permitted"), h)
    else pass h_procs with_procs (SignalProcess pid sig) h;
  LookPath name h := LookPath name (h_procs h);
  Elapse ns h := h;
}.

#[export] Instance host_iptables : Iptables host := {
  EnsureChain c := pass h_tables with_tables (EnsureChain c);
  EnsureRule pos c r := pass h_tables with_tables (EnsureRule pos c r);
  FlushChain c := pass h_tables with_tables (FlushChain c);
  DeleteRule c r := pass h_tables with_tables (DeleteRule c r);
  DeleteChain c := pass h_tables with_tables (DeleteChain c);
  rules c h := rules c (h_tables h);
}.

Definition host_iface (i : string * list (option IPNet)) : net_Interface :=
  {| iface_Name := i.1; iface_HardwareAddr := [2; 66; 10; 0; 0; 7]%Z; iface_Flags := 19;
     iface_Addrs := Ok (AddrIPNet <$> i.2) |}.

Definition not_found {A} : result A := Err (StatusError "NotFound" "not found").

Definition write_config (text : string) : prog host () := λ h,
  if h_readonly h
  then (Err (ErrorString "read-only file system"), with_file_errors h (S (h_file_errors h)))
  else (Ok (), with_config h (Some text)).

#[export] Instance host_env : IpvsEnv host := {
  Node_Get n h := match h_nodes h !! n with Some x => Ok x | None => not_found end;
  ConfigMap_Get ns n h :=
    match h_cms h !! (ns +:+ "/" +:+ n) with Some x => Ok x | None => not_found end;
  LoadBalancer_Update lb h :=
    match h_api h with Some e => (Err e, h) | None => (Ok (), h) end;
  net_Interfaces h := Ok (host_iface <$> h_ifaces h);
  CreateConfig := write_config "";
  ExecuteTemplate c := write_config (keepalived_tmpl c);
  ReadConfig h := match h_config h with
                  | Some text => inl text
                  | None => inr (ErrorString "no such file or directory")
                  end;
}.

#[export] Instance host_os_laws : OSLaws host.
Proof.
  split; simpl.
  - intros c h pid h'. unfold pass. simpl. destruct (can_start _); intros; simplify_eq/=.
    rewrite bool_decide_true by set_solver. done.
  - intros c h why h'. unfold pass. simpl. by destruct (can_start _).
  - done.
  - intros pid sig h why h'. destruct (h_deny h); [done|]. unfold pass. simpl.
    by destruct (bool_decide _).
Qed.

#[export] Instance host_iptables_laws : IptablesLaws host.
Proof.
  split; cbn [EnsureRule FlushChain rules host_iptables]; unfold pass.
  - intros pos c r h res h' H. pose proof (ensure_rule_law pos c r (h_tables h)) as L.
    destruct (EnsureRule pos c r (h_tables h)) as [res1 t1]. injection H as <- <-. by apply L.
  - intros c h res h' H. pose proof (flush_law c (h_tables h)) as L.
    destruct (FlushChain c (h_tables h)) as [res1 t1]. injection H as <- <-. by apply L.
Qed.

(** The calls that failed: those of iptables and those on the file. *)
#[export] Instance host_history : CallHistory host :=
  { failed_calls h := failed_calls (h_tables h) + h_file_errors h }.

#[export] Instance host_iptables_history : IptablesHistory host.
Proof.
  split; cbn [EnsureRule FlushChain host_iptables]; unfold pass; cbn [failed_calls host_history].
  - intros pos c r h. pose proof (EnsureRule_history pos c r (h_tables h)) as L.
    destruct (EnsureRule pos c r (h_tables h)). simpl in *. lia.
  - intros c h. pose proof (FlushChain_history c (h_tables h)) as L.
    destruct (FlushChain c (h_tables h)). simpl in *. lia.
Qed.

#[export] Instance host_env_laws : IpvsEnvLaws host.
Proof.
  refine {| rendered := keepalived_tmpl |}; simpl; try done.
  - intros n h. by destruct (h_nodes h !! n).
  - intros ns n h. by destruct (h_cms h !! _).
  - intros lb h. by destruct (h_api h).
  - intros lb h. by destruct (h_api h).
  - intros h l i [= <-] (x & -> & _)%list_elem_of_fmap. simpl. apply Forall_fmap.
    apply Forall_true. by intros y.
  - intros h. unfold write_config. by destruct (h_readonly h).
  - intros c h. unfold write_config. by destruct (h_readonly h).
  - intros c h h'. unfold write_config. destruct (h_readonly h); [done|]. by intros [= <-].
Defined.

#[export] Instance host_frame : IpvsFrame host.
Proof.
  split; intros; try intros h; simpl; unfold write_config, pass, same_listers, same_rules, same_config;
    try done; repeat case_match; simplify_eq/=; try done.
Qed.

#[export] Instance host_config_history : ConfigHistory host.
Proof.
  split; simpl; unfold write_config.
  - intros h. destruct (h_readonly h); simpl; lia.
  - intros c h. destruct (h_readonly h); simpl; lia.
  - intros pid sig h. destruct (h_deny h); [done|]. unfold pass. simpl. by destruct (bool_decide _).
Qed.

#[export] Instance host_shipped : ShippedTemplate host.
Proof. by split. Qed.

(** ** Node 1 of two nodes *)
Definition example_node (name ip : string) : Node :=
  {| node_Name := name; node_Labels := None; node_Annotations := None;
     node_Addresses := [{| addr_Type := "InternalIP"; addr_Address := ip |}] |}.

Definition example_host (api : option error) (deny readonly : bool) : host :=
  {| h_proc := ∅;
     h_procs := {| next_pid := 100; alive := ∅; can_start := true |};
     h_tables := (ensureChain builtin_tables).2;
     h_nodes := {[ "node1" := example_node "node1" "10.0.0.7";
                   "node2" := example_node "node2" "10.0.0.8" ]};
     h_cms := {[ "kube-system/tcp" :=
                 {| cm_Namespace := "kube-system"; cm_Name := "tcp"; cm_ResourceVersion := "1";
                    cm_Data := Some {[ "8080" := "default/web:80" ]} |} ]};
     h_api := api;
     h_ifaces := [("eth0", [Some {| ipnet_IP := Some [10; 0; 0; 7]%Z;
                                    ipnet_Mask := [255; 255; 255; 0]%Z |}])];
     h_config := None; h_deny := deny; h_readonly := readonly; h_file_errors := 0 |}.

Definition fresh_provider (h : host) : IpvsProvider host :=
  {| nodeName := "node1"; k_cmd := None; sysctlDefault := Some ∅; cfgMD5 := "";
     cache_lb := None; cache_tcps := None; cache_udps := None; env := h |}.

(** After [keepalived.Start]. *)
Definition ready (api : option error) (deny readonly : bool) : IpvsProvider host :=
  (keepalived_run (fresh_provider (example_host api deny readonly))).2.

Definition example_ipvs (mode : string) : IpvsdrProvider :=
  {| ip_KeepalivedProvider :=
       {| kp_VIP := ""; kp_VIPs := Some ["10.0.0.100"]; kp_Scheduler := "rr"; kp_HAMode := mode;
          kp_Bind := None |};
     ip_Slaves := None |}.

Definition example_spec : LoadBalancerSpec :=
  {| Nodes := {| Replicas := None; Names := Some ["node1"; "node2"]; Effect := None |};
     Proxy := {| ProxyType := "nginx"; HTTPPort := 80; HTTPSPort := 443 |};
     Providers := {| External := None; Ipvsdr := Some (example_ipvs ActiveActiveHA);
                     Azure := None |} |}.

Definition lb_with (version : string) (st : NodeStatuses) : LoadBalancer :=
  {| lb_Namespace := "kube-system"; lb_Name := "lb"; lb_ResourceVersion := version;
     lb_DeletionTimestamp := None; lb_Finalizers := None; Spec := example_spec;
     Status := {| lb_ProxyStatus := {| TCPConfigMap := "tcp"; UDPConfigMap := "udp" |};
                  Vrid := None; AzureStatus := None; lb_NodeStatuses := st |} |}.

Definition node_status (name ip : string) : NodeStatus :=
  {| ns_Name := name;
     ns_IfaceNetList := Some [{| if_Name := "eth0"; if_Mac := "02:42:0a:00:00:07";
                                 if_IPs := Some [ip] |}] |}.

Definition mine : NodeStatus := node_status "node1" "10.0.0.7".
Definition theirs : NodeStatus := node_status "node2" "10.0.0.8".

Definition node1_selector : nodeNetSelector :=
  newNodeNetSelector (example_node "node1" "10.0.0.7") [].

Definition up := ready None false false.

Lemma registerNodeNetwork_publishes_witness :
  getCurrentNodeIfaceIPs (net_Interfaces (env up)) (nodeName up) node1_selector = Ok mine ∧
  elems (new_statuses (nodeName up) mine (lb_with "1" (Some [theirs]))) = [mine; theirs].
Proof.
  assert (getCurrentNodeIfaceIPs (net_Interfaces (env up)) (nodeName up) node1_selector = Ok mine)
    as H by (vm_compute; reflexivity).
  split; [exact H|].
  etransitivity; [exact (proj1 (registerNodeNetwork_publishes 0 (lb_with "1" (Some [theirs]))
    node1_selector ∅ up mine H))|].
  vm_compute. reflexivity.
Defined.

Definition published : LoadBalancer := lb_with "1" (Some [mine; theirs]).
Definition published_store : store := {[ 0 := published ]}.

(** The other node's status alone is stored; this node publishes its own, and the
    object beside it stays. *)
Definition unpublished_store : store :=
  {[ 0 := lb_with "1" (Some [theirs]); 1 := lb_with "7" None ]}.

Lemma OnUpdate_safe_witness :
  let '(r, (s', p')) := ipvsdr_OnUpdate map_to_list 0 (unpublished_store, up) in
  r = Ok () ∧ started "node1" p' ∧ s' !! 1 = Some (lb_with "7" None) ∧ s' ≠ unpublished_store.
Proof.
  assert (started "node1" up) as H by (split; [vm_compute; discriminate|vm_compute; reflexivity]).
  destruct (OnUpdate_safe map_to_list "node1" 0 unpublished_store up _ eq_refl H) as (_ & Hp & Hs).
  assert ((ipvsdr_OnUpdate map_to_list 0 (unpublished_store, up)).1 = Ok ()) as Hr
    by (vm_compute; reflexivity).
  assert ((lb_NodeStatuses ∘ Status) <$> (ipvsdr_OnUpdate map_to_list 0 (unpublished_store, up)).2.1 !! 0
    = Some (Some [mine; theirs])) as H0 by (vm_compute; reflexivity).
  destruct (ipvsdr_OnUpdate _ _ _) as [r [s' p']]. simpl in *. split_and!; [done..| |by intros ->].
  by destruct Hs as [->|(st & _ & ->)].
Defined.

Lemma isListenPortChanged_order_witness :
  let reversed (m : gmap string string) := reverse (map_to_list m) in
  isListenPortChanged map_to_list up (lb_with "1" None) =
  isListenPortChanged reversed up (lb_with "1" None).
Proof.
  refine (isListenPortChanged_order map_to_list (λ m, reverse (map_to_list m)) up
    (lb_with "1" None) map_order_self _).
  intros m. unfold map_order. apply reverse_Permutation.
Defined.

(** *** Publication *)
Definition stale : LoadBalancer := lb_with "1" (Some [theirs]).
Definition stale_store : store := {[ 0 := stale ]}.
Definition refused : error := StatusError "ServiceUnavailable" "try again".
Definition refusing : IpvsProvider host := ready (Some refused) false false.

Definition after_register (p : IpvsProvider host) : store * IpvsProvider host :=
  (registerNodeNetwork 0 stale node1_selector (stale_store, p)).2.

Lemma failed_publish_not_retried_witness :
  ∃ lb' nets, (after_register refusing).1 !! 0 = Some lb' ∧
    registerNodeNetwork 0 lb' node1_selector (after_register refusing) =
      (Ok (nets, false, None), after_register refusing).
Proof.
  destruct (failed_publish_not_retried 0 stale node1_selector stale_store refusing refused
    (after_register refusing).1 (after_register refusing).2) as (lb' & nets & H1 & _ & H2).
  - vm_compute. reflexivity.
  - exists lb', nets. split; [exact H1|exact H2].
Defined.

(** The provider remembers object 0, publishes through it, and then gets the new
    version as object 1. *)
Definition remembering : IpvsProvider host := with_cache up (Some 0) None None.
Definition before_store : store :=
  {[ 0 := stale; 1 := lb_with "2" (Some [mine; theirs]) ]}.
Definition after_publish : store * IpvsProvider host :=
  (registerNodeNetwork 0 stale node1_selector (before_store, remembering)).2.

Lemma own_update_unnoticed_witness :
  isLBChanged after_publish.1 after_publish.2 (lb_with "2" (Some [mine; theirs])) = false.
Proof.
  refine (proj2 (own_update_unnoticed 0 stale node1_selector before_store remembering ∅
    after_publish.1 after_publish.2 1 (lb_with "1" (Some [mine; theirs]))
    (lb_with "2" (Some [mine; theirs])) eq_refl _ _ _ eq_refl eq_refl eq_refl eq_refl));
    vm_compute; reflexivity.
Defined.

(** *** iptables *)
Definition example_sel : allNodeNetSelector :=
  {[ "node1" := node1_selector;
     "node2" := newNodeNetSelector (example_node "node2" "10.0.0.8") [] ]}.
Definition example_nets : allNodeIfaceNetList := {[ "node1" := mine; "node2" := theirs ]}.

Definition marked_run : result () * host :=
  onUpdateIPtables "node1" published (example_ipvs ActiveActiveHA) example_sel example_nets
    ["80"] ["53"] (env up).

Lemma example_sel_known :
  selectors_known example_sel example_nets (elems (Names (Nodes (Spec published)))).
Proof.
  intros n. simpl. rewrite !elem_of_cons. intros [->|[->|[]%not_elem_of_nil]] _; by eexists.
Qed.

Lemma example_member : "node1" ∈ elems (Names (Nodes (Spec published))).
Proof. simpl. by left. Qed.

(** A packet to the VIP that only the TCP rule matches. *)
Definition client_packet (r : rule) : bool := bool_decide ("tcp" ∈ r).

Lemma onUpdateIPtables_marks_witness :
  marked_run.1 = Ok () ∧
  ∃ my, node_iface example_sel example_nets None "node1" = Some my ∧
    ∀ r, r ∈ rules (mangle_chain IPv4Tables) marked_run.2 ↔
      neighbour_rules ["10.0.0.100"] (if_Name (pn_InterfaceNet my))
        (omap (node_iface example_sel example_nets None) ["node1"; "node2"]) IPv4Tables r ∨
      port_rules ["10.0.0.100"] (if_Name (pn_InterfaceNet my)) ["80"] ["53"] IPv4Tables r.
Proof.
  split; [vm_compute; reflexivity|].
  destruct (onUpdateIPtables_marks "node1" published (example_ipvs ActiveActiveHA) example_sel
    example_nets ["80"] ["53"] (env up) marked_run.2 IPv4Tables client_packet
    example_sel_known example_member) as (my & H1 & H2 & _).
  - vm_compute. reflexivity.
  - vm_compute. reflexivity.
  - exists my. split; [exact H1|exact H2].
Defined.

Lemma onUpdateIPtables_order_witness : chains_ok marked_run.2.
Proof.
  assert (chains_ok (env up)) as H by (intros f; exists [], []; destruct f; repeat constructor).
  exact (onUpdateIPtables_order "node1" published (example_ipvs ActiveActiveHA) example_sel
    example_nets ["80"] ["53"] (env up) example_sel_known example_member H).
Defined.

(** *** keepalived *)
Definition denied : IpvsProvider host := ready None true false.
Definition denied_run : result () * IpvsProvider host :=
  onUpdateKeepalived published (example_ipvs ActiveActiveHA) example_sel example_nets denied.

Definition written (h : host) (b : list vrrpInstance * list virtualServer) : host :=
  (UpdateConfig b.1 b.2 80 h).2.

Lemma reload_not_retried_witness :
  let b := block_of (keepalived_blocks "node1" published (example_ipvs ActiveActiveHA)
                       example_sel example_nets) in
  denied_run.1 = Err (ErrorString "error reloading keepalived") ∧
  onUpdateKeepalived published (example_ipvs ActiveActiveHA) example_sel example_nets denied_run.2 =
    (Ok (), with_env denied_run.2 (written (env denied_run.2) b)).
Proof.
  split; [vm_compute; reflexivity|].
  refine (reload_not_retried published (example_ipvs ActiveActiveHA) example_sel example_nets
    denied (block_of (keepalived_blocks "node1" published (example_ipvs ActiveActiveHA)
      example_sel example_nets)) (ErrorString "error reloading keepalived") denied_run.2
    (written (env denied) (block_of (keepalived_blocks "node1" published
      (example_ipvs ActiveActiveHA) example_sel example_nets))) _ _ _ _ _);
    vm_compute; reflexivity.
Defined.

(** *** A whole update: the first one configures the host, the second one finds
    nothing to do. *)
Definition first_update : result () * (store * IpvsProvider host) :=
  ipvsdr_OnUpdate map_to_list 0 (published_store, up).
Definition configured_provider : IpvsProvider host := first_update.2.2.

Lemma first_update_publishes_nothing :
  ipvsdr_OnUpdate map_to_list 0 (published_store, up) =
    (Ok (), (published_store, configured_provider)).
Proof. vm_compute. reflexivity. Qed.

Lemma OnUpdate_settles_witness :
  cache_lb up = None ∧ cache_lb configured_provider = Some 0 ∧
  ipvsdr_OnUpdate map_to_list 0 (published_store, configured_provider) =
    (Ok (), (published_store, configured_provider)).
Proof.
  split; [vm_compute; reflexivity|]. split; [vm_compute; reflexivity|].
  exact (OnUpdate_settles map_to_list 0 published_store up configured_provider
           first_update_publishes_nothing).
Defined.

Lemma OnUpdate_configures_witness :
  own_network up (example_ipvs ActiveActiveHA) = Ok mine ∧
  configured 0 published (example_ipvs ActiveActiveHA) mine ["443"; "450"; "451"; "80"; "8080"] [] true up
    configured_provider.
Proof.
  assert (own_network up (example_ipvs ActiveActiveHA) = Ok mine) as Hmine
    by (vm_compute; reflexivity).
  split; [exact Hmine|].
  destruct (OnUpdate_configures map_to_list 0 published_store up published
    (example_ipvs ActiveActiveHA) published_store configured_provider eq_refl
    ltac:(vm_compute; reflexivity) eq_refl first_update_publishes_nothing)
    as (c & tcps & udps & Hports & Hout).
  assert (isListenPortChanged map_to_list up published =
    Ok (true, ["443"; "450"; "451"; "80"; "8080"], [])) as H by (vm_compute; reflexivity).
  rewrite H in Hports. injection Hports as <- <- <-.
  assert (isLBChanged published_store up published = true) as Hlb by (vm_compute; reflexivity).
  rewrite Hlb in Hout. destruct Hout as (m & Hm & Hout). rewrite Hmine in Hm. injection Hm as <-.
  cbv zeta in Hout. case_decide as Hne; [exact (proj2 Hout)|].
  exfalso. apply Hne. vm_compute. reflexivity.
Defined.

(** An update on a host whose configuration file cannot be written succeeds,
    although there is no file, and is remembered: when the file can be written
    again, the next update finds nothing to do. *)
Definition with_readonly (h : host) (x : bool) : host :=
  {| h_proc := h_proc h; h_procs := h_procs h; h_tables := h_tables h; h_nodes := h_nodes h;
     h_cms := h_cms h; h_api := h_api h; h_ifaces := h_ifaces h; h_config := h_config h;
     h_deny := h_deny h; h_readonly := x; h_file_errors := h_file_errors h |}.

Definition unwritable : IpvsProvider host := ready None false true.
Definition unwritten_update : result () * (store * IpvsProvider host) :=
  ipvsdr_OnUpdate map_to_list 0 (published_store, unwritable).
Definition writable_again : IpvsProvider host :=
  with_env unwritten_update.2.2 (with_readonly (env unwritten_update.2.2) false).

Example dropped_error_not_retried :
  unwritten_update.1 = Ok () ∧
  (failed_calls (env unwritable), failed_calls (env unwritten_update.2.2)) = (0, 1) ∧
  ReadConfig (env unwritten_update.2.2) = inr (ErrorString "no such file or directory") ∧
  ipvsdr_OnUpdate map_to_list 0 (published_store, writable_again) =
    (Ok (), (published_store, writable_again)).
Proof. vm_compute. repeat split. Qed.

(** *** The file after the first update *)
Definition example_blocks : list vrrpInstance * list virtualServer :=
  block_of (keepalived_blocks "node1" published (example_ipvs ActiveActiveHA) example_sel example_nets).

Definition example_file : string := keepalived_tmpl (conf_of published example_blocks).

Lemma OnUpdate_file_witness :
  ReadConfig (env configured_provider) = inl example_file ∧
  cfgMD5 configured_provider = hexString (Md5.Sum example_file) ∧
  ∃ text, ReadConfig (env configured_provider) = inl text ∧ is_Some (read_config text).
Proof.
  split; [vm_compute; reflexivity|]. split; [vm_compute; reflexivity|].
  assert (∀ ifs, net_Interfaces (env up) = Ok ifs → Forall (λ i, plain (iface_Name i)) ifs) as Hifs.
  { intros ifs [= <-]. repeat constructor. discriminate. }
  destruct (OnUpdate_file map_to_list 0 published_store up published (example_ipvs ActiveActiveHA)
    configured_provider eq_refl ltac:(vm_compute; reflexivity) eq_refl Hifs
    ltac:(vm_compute; reflexivity) first_update_publishes_nothing ltac:(vm_compute; reflexivity))
    as (m & sel & nets & b & text & _ & _ & _ & Hf & Hr).
  exists text. split; [exact Hf|]. rewrite Hr. by eexists.
Defined.

(** What keepalived reads there. *)
Example example_file_items :
  read_config example_file = Some
    [Block ["global_defs"]
       [Setting ["vrrp_version"; "3"]; Setting ["vrrp_iptables"; "LOADBALANCER-IPVS-DR"]];
     Block ["vrrp_instance"; "inst_eth0_4"]
       [Setting ["state"; "BACKUP"]; Setting ["interface"; "eth0"];
        Setting ["virtual_router_id"; "110"]; Setting ["priority"; "100"]; Setting ["nopreempt"];
        Setting ["advert_int"; "1"]; Block ["track_interface"] [Setting ["eth0"]];
        Setting ["unicast_src_ip"; "10.0.0.7"]; Block ["unicast_peer"] [Setting ["10.0.0.8"]];
        Block ["virtual_ipaddress"] [Setting ["10.0.0.100"]]];
     Block ["static_ipaddress"] [Setting ["10.0.0.100"; "dev"; "lo"; "scope"; "global"]];
     Block ["virtual_server"; "fwmark"; "1"]
       [Setting ["delay_loop"; "5"]; Setting ["lvs_sched"; "rr"]; Setting ["lvs_method"; "DR"];
        Setting ["persistence_timeout"; "360"];
        real_server_item 80 "10.0.0.7"; real_server_item 80 "10.0.0.8"]].
Proof. vm_compute. reflexivity. Qed.
