(* ===== verification/IpvsdrSystem.v ===== *)
(** * The ipvs-dr provider under the controller

    The provider of Ipvsdr.v as the backend of the system of ControllerSystem.v,
    and a run of the two on the host of IpvsdrExample.v. *)

From S2P Require Import Prelude GoStd GoNet LbApi LbValid Ports NodeNetwork Sysctl.
From S2P Require Import Execd Iptables Keepalived Ipvsdr IpvsdrFacts IpvsdrHost IpvsdrUpdate IpvsdrExample.
From S2P Require Import Workqueue Controller ControllerSystem ControllerProgress ControllerSettles.

Section system.
Context {E : Type} `{!ProcFS E, !OS E, !Iptables E, !IpvsEnv E}.
Context `{!OSLaws E, !IptablesLaws E, !IpvsEnvLaws E, !IpvsFrame E}.
Context `{!CallHistory E, !IptablesHistory E, !ConfigHistory E}.
Context (GOOS : string) (range_map : gmap string string → list (string * string)).

#[local] Instance backend : Provider (IpvsProvider E) := ipvsdr_provider GOOS range_map.
#[local] Instance backend_laws : ProviderLaws (IpvsProvider E) := ipvsdr_provider_laws GOOS range_map.

(** What the host shows of the current version of the configured load balancer
    [lb]: the provider is as the update for a state of that version left it.  It
    found nothing changed, or it published the network of the node, or it
    configured the mangle chains and the file of keepalived; a load balancer that
    is not this node's to serve changed nothing. *)
Definition host_applied c (s : system (IpvsProvider E)) (m : monitor (IpvsProvider E)) : Prop :=
  ∀ l lb, lister_Get (provider s) (LoadBalancerNamespace c) (LoadBalancerName c) = Some (l, lb) →
  ∃ p l0 lb0, before m = Some p ∧
    lister_Get p (LoadBalancerNamespace c) (LoadBalancerName c) = Some (l0, lb0) ∧
    lb_ResourceVersion lb0 = lb_ResourceVersion lb ∧
    match validate (Backend p) lb0, Ipvsdr (Providers (Spec lb0)) with
    | Ok _, Some ipvs => ∃ h, update_outcome range_map l0 lb0 ipvs (heap p) (Backend p) h
                                (Backend (provider s))
    | _, _ => Backend (provider s) = Backend p
    end.

Lemma ipvsdr_applied c b (s : system (IpvsProvider E)) m :
  no_slash (LoadBalancerNamespace c) → no_slash (LoadBalancerName c) → watched c b (s, m) →
  quiescent s → queued_keys (gp_queue (provider s)) = ∅ →
  streak m <= maxRetries → shutdown (provider s) = false → host_applied c s m.
Proof.
  intros Hns Hn Hw Hq Hk Hst Hsd l lb Hget.
  destruct (quiescent_applied c b s m Hns Hn Hw Hq Hk Hst Hsd l lb Hget)
    as (p & l0 & lb0 & h & Hp & Hl0 & Hv & Hval & Hup).
  exists p, l0, lb0. split_and!; [done..|]. apply lister_Get_heap in Hl0.
  change (ipvsdr_OnUpdate range_map l0 (heap p, Backend p) = (Ok (), (h, Backend (provider s)))) in Hup.
  destruct (validate (Backend p) lb0) as [[]| |] eqn:Hv0.
  2-3: rewrite (OnUpdate_eq range_map l0 _ _ lb0 Hl0), Hv0 in Hup; by simplify_eq.
  destruct (validate_Ok _ _ Hv0) as (_ & _ & _ & [ipvs Hip]). rewrite Hip. exists h.
  by apply OnUpdate_outcome.
Qed.

(** C5: The ipvs-dr controller brings the host to what the cluster says.  From
    every reachable state the process can come to rest by steps of its own.  When
    it rests, its worker has not ended, it was not told to stop and the last sync
    was not given up after the retries, then the last update was one for the
    current version of the load balancer, and the host is as that update left it:
    it found nothing to do, or published the network of the node, or configured
    the host.  The mangle chains and keepalived's file are those of the load
    balancer when none of that update's calls to them failed; the code drops
    their errors, so the controller rests in any case. *)
Theorem ipvsdr_converges c b (s : system (IpvsProvider E)) m :
  no_slash (LoadBalancerNamespace c) → no_slash (LoadBalancerName c) → watched c b (s, m) →
  (∃ ls y, forallb internal ls = true ∧ watch_run ls (s, m) = Some y ∧ at_rest y.1) ∧
  (∀ ls y, watch_run ls (s, m) = Some y → at_rest y.1 → ¬ ended y.1 →
     streak y.2 <= maxRetries → shutdown (provider y.1) = false → host_applied c y.1 y.2).
Proof.
  intros Hns Hn Hw. split; [by apply (settle c b)|]. intros ls y Hrun Hrest He Hst Hsd.
  destruct (settled c b (s, m) ls y Hw Hrun Hrest He) as (Hw' & Hq & Hk).
  by eapply ipvsdr_applied.
Qed.
End system.

(** ** A run: the load balancer is added, and the worker configures the host. *)
#[local] Instance host_provider : Provider (IpvsProvider host) := ipvsdr_provider "linux" map_to_list.

Definition host_cfg : Configuration :=
  {| LoadBalancerName := lb_Name published; LoadBalancerNamespace := lb_Namespace published;
     cfg_TCPConfigMap := ""; cfg_UDPConfigMap := "" |}.

Definition host_start : system (IpvsProvider host) * monitor (IpvsProvider host) :=
  (init host_cfg (fresh_provider (example_host None false false)), {| before := None; streak := 0 |}).

(** The informer has seen the load balancer. *)
Definition host_added : system (IpvsProvider host) * monitor (IpvsProvider host) :=
  default host_start (watch_run [InformerAdd 0 published] host_start).

Definition host_run : list action := [Deliver; StartProvider; WorkerGet; WorkerHandle; WorkerDone].

Definition host_end : system (IpvsProvider host) * monitor (IpvsProvider host) :=
  default host_added (watch_run host_run host_added).

Definition host_before : GenericProvider (IpvsProvider host) :=
  default (provider host_start.1) (before host_end.2).

Lemma ipvsdr_converges_witness :
  cache_lb (Backend (provider host_end.1)) = Some 0 ∧
  ∃ h, update_outcome map_to_list 0 published (example_ipvs ActiveActiveHA) (heap host_before)
         (Backend host_before) h (Backend (provider host_end.1)).
Proof.
  split; [vm_compute; reflexivity|].
  assert (watched host_cfg (fresh_provider (example_host None false false))
    (host_added.1, host_added.2)) as Hw.
  { rewrite <-surjective_pairing. apply watch_run_watched. vm_compute. reflexivity. }
  assert (watch_run host_run (host_added.1, host_added.2) = Some host_end) as Hrun.
  { rewrite <-surjective_pairing.
    assert (is_done (watch_run host_run host_added) = true) as H by (vm_compute; reflexivity).
    unfold host_end. by destruct (watch_run host_run host_added). }
  assert (at_rest host_end.1) as Hrest by (apply rests_at_rest; vm_compute; reflexivity).
  assert (¬ ended host_end.1) as He by by_compute.
  assert (streak host_end.2 <= maxRetries) as Hst by (vm_compute; lia).
  assert (shutdown (provider host_end.1) = false) as Hsd by (vm_compute; reflexivity).
  assert (lister_Get (provider host_end.1) (LoadBalancerNamespace host_cfg)
    (LoadBalancerName host_cfg) = Some (0, published)) as Hl by (vm_compute; reflexivity).
  destruct (proj2 (ipvsdr_converges "linux" map_to_list host_cfg _ _ _ eq_refl eq_refl Hw) host_run
    host_end Hrun Hrest He Hst Hsd 0 published Hl) as (p & l0 & lb0 & Hp & Hl0 & _ & Hout).
  assert (p = host_before) as -> by (unfold host_before; by rewrite Hp).
  assert (lister_Get host_before (LoadBalancerNamespace host_cfg)
    (LoadBalancerName host_cfg) = Some (0, published)) as Hl1 by (vm_compute; reflexivity).
  rewrite Hl1 in Hl0. injection Hl0 as <- <-.
  assert (validate (Backend host_before) published = Ok ()) as Hv by (vm_compute; reflexivity).
  rewrite Hv in Hout. exact Hout.
Defined.
