(* ===== verification/AzureNet.v ===== *)
(** * Azure resources

    The resources of azure-sdk-for-go the provider reads and writes, the JSON
    they are compared by, and the calls of the SDK.  An embedded
    [*PropertiesFormat] is an [option], so that a promoted field of a resource
    without properties panics as it does in Go.  What the provider never looks
    into is kept as the JSON [members] it consists of. *)

From S2P Require Import Prelude GoStd Json.

(** ** JSON *)
(** A member that is left out when the pointer is nil, or the string empty. *)
Definition member {A} (name : string) (f : A → json) (p : option A) : members :=
  match p with Some a => [(name, f a)] | None => [] end.

Definition member_str (name s : string) : members :=
  if bool_decide (s = "") then [] else [(name, JString s)].

(** [json.Marshal] of a pointer to a slice. *)
Definition marshal_list {A} (f : A → json) (l : slice A) : json :=
  match l with Some l => JArray (f <$> l) | None => JNull end.

(** ** References *)
Record SubResource := { sub_ID : option string }.

(** A [network.BackendAddressPool] or [network.InterfaceIPConfiguration] inside
    another resource: its ID, and the rest. *)
Record reference := {
  ref_ID : option string;
  ref_other : members;
}.

(** ** Load balancers *)
Record ProbeProperties := {
  pp_LoadBalancingRules : slice SubResource;
  pp_Protocol : string;
  pp_Port : option Z;
  pp_IntervalInSeconds : option Z;
  pp_NumberOfProbes : option Z;
  pp_RequestPath : option string;
  pp_ProvisioningState : option string;
}.

Record Probe := {
  probe_Name : option string;
  probe_Etag : option string;
  probe_ID : option string;
  probe_Properties : option ProbeProperties;
}.

Record Subnet := {
  subnet_ID : option string;
  subnet_other : members;
}.

Record PublicIPAddressProperties := {
  pip_IPAddress : option string;
  pip_rest : members;
}.

Record PublicIP := {
  pip_ID : option string;
  pip_Properties : option PublicIPAddressProperties;
  pip_other : members;
}.

Record FrontendProperties := {
  fp_PrivateIPAddress : option string;
  fp_PrivateIPAllocationMethod : string;
  fp_Subnet : option Subnet;
  fp_PublicIPAddress : option PublicIP;
  fp_rest : members;
}.

Record FrontendIPConfiguration := {
  fe_Name : option string;
  fe_ID : option string;
  fe_Properties : option FrontendProperties;
  fe_other : members;
}.

Record BackendProperties := {
  bp_BackendIPConfigurations : slice reference;
  bp_rest : members;
}.

Record BackendAddressPool := {
  pool_Name : option string;
  pool_ID : option string;
  pool_Properties : option BackendProperties;
  pool_other : members;
}.

Record RuleProperties := {
  rp_FrontendIPConfiguration : option SubResource;
  rp_BackendAddressPool : option SubResource;
  rp_Probe : option SubResource;
  rp_Protocol : string;
  rp_LoadDistribution : string;
  rp_FrontendPort : option Z;
  rp_BackendPort : option Z;
  rp_IdleTimeoutInMinutes : option Z;
  rp_EnableFloatingIP : option bool;
  rp_DisableOutboundSnat : option bool;
  rp_ProvisioningState : option string;
}.

Record LoadBalancingRule := {
  rule_Name : option string;
  rule_Etag : option string;
  rule_ID : option string;
  rule_Properties : option RuleProperties;
}.

Record LBProperties := {
  FrontendIPConfigurations : slice FrontendIPConfiguration;
  BackendAddressPools : slice BackendAddressPool;
  LoadBalancingRules : slice LoadBalancingRule;
  Probes : slice Probe;
  azlb_ProvisioningState : option string;
  azlb_rest : members;
}.

(** [network.LoadBalancer]; [Sku] is the name inside the [LoadBalancerSku]. *)
Record AzureLB := {
  azlb_Name : option string;
  azlb_Location : option string;
  azlb_Sku : option string;
  azlb_Properties : option LBProperties;
  azlb_other : members;
}.

(** The zero value of [network.LoadBalancer]. *)
Definition zero_lb : AzureLB :=
  {| azlb_Name := None; azlb_Location := None; azlb_Sku := None; azlb_Properties := None;
     azlb_other := [] |}.

(** ** Security groups *)
Record SecurityRuleProperties := {
  sp_Description : option string;
  sp_Protocol : string;
  sp_SourcePortRange : option string;
  sp_DestinationPortRange : option string;
  sp_SourceAddressPrefix : option string;
  sp_DestinationAddressPrefix : option string;
  sp_Access : string;
  sp_Priority : option Z;
  sp_Direction : string;
  sp_rest : members;
}.

Record SecurityRule := {
  sr_Name : option string;
  sr_Properties : option SecurityRuleProperties;
  sr_other : members;
}.

Record SecurityGroupProperties := {
  SecurityRules : slice SecurityRule;
  sg_rest : members;
}.

Record SecurityGroup := {
  sg_ID : option string;
  sg_Properties : option SecurityGroupProperties;
  sg_other : members;
}.

(** ** Network interfaces and virtual machines *)
Record IPConfigurationProperties := {
  LoadBalancerBackendAddressPools : slice reference;
  ipc_rest : members;
}.

Record InterfaceIPConfiguration := {
  ipc_Properties : option IPConfigurationProperties;
  ipc_other : members;
}.

Record InterfaceProperties := {
  NetworkSecurityGroup : option reference;
  IPConfigurations : slice InterfaceIPConfiguration;
  nic_rest : members;
}.

(** [network.Interface] *)
Record Interface := {
  nic_Properties : option InterfaceProperties;
  nic_other : members;
}.

(** [compute.VirtualMachine]: its properties, their [NetworkProfile] and its
    [NetworkInterfaces] are pointers. *)
Record VirtualMachine := {
  vm_Name : option string;
  vm_Properties : option (option (slice reference));
}.

(** ** Decidable equality *)
#[export] Instance SubResource_eq_dec : EqDecision SubResource.
Proof. solve_decision. Defined.
#[export] Instance reference_eq_dec : EqDecision reference.
Proof. solve_decision. Defined.
#[export] Instance ProbeProperties_eq_dec : EqDecision ProbeProperties.
Proof. solve_decision. Defined.
#[export] Instance Probe_eq_dec : EqDecision Probe.
Proof. solve_decision. Defined.
#[export] Instance Subnet_eq_dec : EqDecision Subnet.
Proof. solve_decision. Defined.
#[export] Instance PublicIPAddressProperties_eq_dec : EqDecision PublicIPAddressProperties.
Proof. solve_decision. Defined.
#[export] Instance PublicIP_eq_dec : EqDecision PublicIP.
Proof. solve_decision. Defined.
#[export] Instance FrontendProperties_eq_dec : EqDecision FrontendProperties.
Proof. solve_decision. Defined.
#[export] Instance FrontendIPConfiguration_eq_dec : EqDecision FrontendIPConfiguration.
Proof. solve_decision. Defined.
#[export] Instance BackendProperties_eq_dec : EqDecision BackendProperties.
Proof. solve_decision. Defined.
#[export] Instance BackendAddressPool_eq_dec : EqDecision BackendAddressPool.
Proof. solve_decision. Defined.
#[export] Instance RuleProperties_eq_dec : EqDecision RuleProperties.
Proof. solve_decision. Defined.
#[export] Instance LoadBalancingRule_eq_dec : EqDecision LoadBalancingRule.
Proof. solve_decision. Defined.
#[export] Instance LBProperties_eq_dec : EqDecision LBProperties.
Proof. solve_decision. Defined.
#[export] Instance AzureLB_eq_dec : EqDecision AzureLB.
Proof. solve_decision. Defined.
#[export] Instance SecurityRuleProperties_eq_dec : EqDecision SecurityRuleProperties.
Proof. solve_decision. Defined.
#[export] Instance SecurityRule_eq_dec : EqDecision SecurityRule.
Proof. solve_decision. Defined.
#[export] Instance SecurityGroupProperties_eq_dec : EqDecision SecurityGroupProperties.
Proof. solve_decision. Defined.
#[export] Instance SecurityGroup_eq_dec : EqDecision SecurityGroup.
Proof. solve_decision. Defined.
#[export] Instance IPConfigurationProperties_eq_dec : EqDecision IPConfigurationProperties.
Proof. solve_decision. Defined.
#[export] Instance InterfaceIPConfiguration_eq_dec : EqDecision InterfaceIPConfiguration.
Proof. solve_decision. Defined.
#[export] Instance InterfaceProperties_eq_dec : EqDecision InterfaceProperties.
Proof. solve_decision. Defined.
#[export] Instance Interface_eq_dec : EqDecision Interface.
Proof. solve_decision. Defined.
#[export] Instance VirtualMachine_eq_dec : EqDecision VirtualMachine.
Proof. solve_decision. Defined.

(** ** Encodings

    The [MarshalJSON] methods of what [isEqual] compares, with the members of
    an object in a fixed order. *)
Definition MarshalSubResource (r : SubResource) : json :=
  JObject (member "id" JString (sub_ID r)).

Definition MarshalProbe (p : Probe) : json :=
  JObject (
    member "etag" JString (probe_Etag p) ++
    member "id" JString (probe_ID p) ++
    member "name" JString (probe_Name p) ++
    member "properties" (λ pp, JObject (
      member "loadBalancingRules" (λ l, JArray (MarshalSubResource <$> l))
        (pp_LoadBalancingRules pp) ++
      member_str "protocol" (pp_Protocol pp) ++
      member "port" JNumber (pp_Port pp) ++
      member "intervalInSeconds" JNumber (pp_IntervalInSeconds pp) ++
      member "numberOfProbes" JNumber (pp_NumberOfProbes pp) ++
      member "requestPath" JString (pp_RequestPath pp) ++
      member "provisioningState" JString (pp_ProvisioningState pp)))
      (probe_Properties p)).

Definition MarshalSubnet (s : Subnet) : json :=
  JObject (member "id" JString (subnet_ID s) ++ subnet_other s).

Definition MarshalPublicIPAddress (p : PublicIP) : json :=
  JObject (
    member "id" JString (pip_ID p) ++
    member "properties" (λ pp, JObject (
      member "ipAddress" JString (pip_IPAddress pp) ++ pip_rest pp)) (pip_Properties p) ++
    pip_other p).

Definition MarshalFrontend (f : FrontendIPConfiguration) : json :=
  JObject (
    member "id" JString (fe_ID f) ++
    member "name" JString (fe_Name f) ++
    member "properties" (λ fp, JObject (
      member "privateIPAddress" JString (fp_PrivateIPAddress fp) ++
      member_str "privateIPAllocationMethod" (fp_PrivateIPAllocationMethod fp) ++
      member "subnet" MarshalSubnet (fp_Subnet fp) ++
      member "publicIPAddress" MarshalPublicIPAddress (fp_PublicIPAddress fp) ++
      fp_rest fp)) (fe_Properties f) ++
    fe_other f).

(** ** The SDK

    The clients of azure-sdk-for-go and go-autorest.  [Config] holds what a
    client was made from. *)
Record Config := {
  SubscriptionID : string;
  ClientID : string;
  ClientSecret : string;
  TenantID : string;
}.

Class AzureSDK (E : Type) := {
  (** [auth.ClientCredentialsConfig.Authorizer] *)
  Authorizer : Config → E → result ();
  LoadBalancers_Get : Config → string → string → prog E AzureLB;
  LoadBalancers_CreateOrUpdate : Config → string → string → AzureLB → prog E AzureLB;
  LoadBalancers_Delete : Config → string → string → prog E ();
  SecurityGroups_Get : Config → string → string → prog E SecurityGroup;
  SecurityGroups_CreateOrUpdate : Config → string → string → SecurityGroup → prog E SecurityGroup;
  Interfaces_Get : Config → string → string → prog E Interface;
  Interfaces_CreateOrUpdate : Config → string → string → Interface → prog E Interface;
  VirtualMachines_Get : Config → string → string → prog E VirtualMachine;
  PublicIPAddresses_Get : Config → string → string → prog E PublicIP;
}.

(** A promoted field of a resource: it panics when there are no properties. *)
Definition lb_properties (azlb : AzureLB) : result LBProperties := deref (azlb_Properties azlb).

Definition with_properties (azlb : AzureLB) (p : LBProperties) : AzureLB :=
  {| azlb_Name := azlb_Name azlb; azlb_Location := azlb_Location azlb; azlb_Sku := azlb_Sku azlb;
     azlb_Properties := Some p; azlb_other := azlb_other azlb |}.

Definition with_rules (p : LBProperties) (rules : slice LoadBalancingRule) : LBProperties :=
  {| FrontendIPConfigurations := FrontendIPConfigurations p;
     BackendAddressPools := BackendAddressPools p; LoadBalancingRules := rules;
     Probes := Probes p; azlb_ProvisioningState := azlb_ProvisioningState p;
     azlb_rest := azlb_rest p |}.
