(* ===== verification/AzureIds.v ===== *)
(** * providers/azure/utils.go: resource IDs

    Azure names a resource by a path such as
    [/subscriptions/S/resourceGroups/G/providers/P/networkInterfaces/N].  The
    provider takes the group and the name out of it by searching for a segment's
    key anywhere in the text. *)

From Stdlib Require Import Ascii.
From S2P Require Import Prelude GoStd.

Definition azureResourceGroups : string := "resourceGroups".
Definition azureNetworkInterfaces : string := "networkInterfaces".
Definition azureSecurityGroups : string := "networkSecurityGroups".
Definition azureVirtualMachines : string := "virtualMachines".
Definition azurePublicIPAddresses : string := "publicIPAddresses".
Definition azureIPConfigurations : string := "/ipConfigurations".

(** ** Definitions *)
Definition getSpecifyName (id prefix : string) : result string :=
  match GoStrings.Index id prefix with
  | None => Err (ErrorString ("find prefix " +:+ prefix +:+ " failed"))
  | Some index =>
      match GoStrings.Split (GoStrings.drop_str index id) "/"%char with
      | _ :: name :: _ => Ok name
      | _ => Err (ErrorString ("find prefix " +:+ prefix +:+ " failed"))
      end
  end.

Definition getGroupAndResourceNameFromID (id resourceType : string) : result (string * string) :=
  groupName ← getSpecifyName id azureResourceGroups;
  name ← getSpecifyName id resourceType;
  mret (groupName, name).

Definition getIPIDFromIPConfig (id : string) : result string :=
  match GoStrings.Index id azureIPConfigurations with
  | None => Err (ErrorString "find ipConfigurations failed")
  | Some index => Ok (GoStrings.take_str index id)
  end.

Definition getAzureLBName (lbName clusterID : string) : string := lbName +:+ "-" +:+ clusterID.

Record machineInfo := {
  VMID : string;
  VMName : string;
  GroupName : string;
}.

Definition Parse (m : machineInfo) : result machineInfo :=
  name ← (if bool_decide (VMName m = "") then getSpecifyName (VMID m) azureVirtualMachines
          else mret (VMName m));
  group ← (if bool_decide (GroupName m = "") then getSpecifyName (VMID m) azureResourceGroups
           else mret (GroupName m));
  mret {| VMID := VMID m; VMName := name; GroupName := group |}.

(** ** Searching a path for a key *)
Definition path (segments : list string) : string := GoStrings.Join segments "/".

Lemma path_cons w v l : path (w :: v :: l) = w +:+ String "/"%char (path (v :: l)).
Proof. done. Qed.

Lemma prefix_before_slash a s key :
  GoStrings.contains "/"%char key = false →
  GoStrings.HasPrefix (a +:+ String "/"%char s) key = true → GoStrings.HasPrefix a key = true.
Proof.
  unfold GoStrings.HasPrefix. revert a. induction key as [|c key IH]; intros a Hc Hp; [by destruct a|].
  simpl in Hc. apply orb_false_iff in Hc as [Hne Hc].
  destruct a as [|c' a].
  - simpl in Hp. destruct (Ascii.ascii_dec c "/"%char) as [->|]; [|done].
    by rewrite bool_decide_true in Hne.
  - change (String c' a +:+ String "/"%char s) with (String c' (a +:+ String "/"%char s)) in Hp.
    simpl in *. destruct (Ascii.ascii_dec c c'); [|done]. by apply IH.
Qed.

Lemma Index_skip w s key i :
  GoStrings.contains "/"%char key = false → key ≠ "" →
  GoStrings.Index w key = None → GoStrings.Index s key = Some i →
  GoStrings.Index (w +:+ String "/"%char s) key = Some (String.length w + S i).
Proof.
  intros Hc Hne. unfold GoStrings.Index. induction w as [|c w IH]; intros Hw Hs.
  - change ("" +:+ String "/"%char s) with (String "/"%char s).
    destruct key as [|c key]; [done|]. simpl in Hc. apply orb_false_iff in Hc as [Hne' _].
    cbn [String.index String.prefix]. destruct (Ascii.ascii_dec c "/"%char) as [->|].
    + by rewrite bool_decide_true in Hne'.
    + by rewrite Hs.
  - change (String c w +:+ String "/"%char s) with (String c (w +:+ String "/"%char s)).
    cbn [String.index] in *.
    destruct (String.prefix key (String c w)) eqn:Hp; [done|].
    destruct (String.index 0 key w) eqn:Hi; [done|].
    destruct (String.prefix key (String c (w +:+ String "/"%char s))) eqn:Hp'.
    { exfalso. eapply eq_true_false_abs; [|exact Hp].
      by apply (prefix_before_slash (String c w) s). }
    by rewrite (IH eq_refl Hs).
Qed.

Lemma drop_skip w s i :
  GoStrings.drop_str (String.length w + S i) (w +:+ String "/"%char s) = GoStrings.drop_str i s.
Proof. by induction w as [|c w IH]; [|exact IH]. Qed.

Lemma Index_start key t : GoStrings.Index (key +:+ t) key = Some 0.
Proof.
  unfold GoStrings.Index.
  assert (String.prefix key (key +:+ t) = true) as Hp.
  { apply (GoStrings.HasPrefix_iff (key +:+ t) key). by exists t. }
  destruct (key +:+ t) eqn:E; [by destruct key|]. cbn [String.index]. by rewrite Hp.
Qed.

(** The segment after the first segment that contains the key. *)
Lemma getSpecifyName_path pre key name post :
  GoStrings.contains "/"%char key = false → key ≠ "" → GoStrings.contains "/"%char name = false →
  Forall (λ w, GoStrings.Index w key = None) pre →
  getSpecifyName (path (pre ++ key :: name :: post)) key = Ok name.
Proof.
  intros Hc Hne Hn Hpre.
  assert (∃ i, GoStrings.Index (path (pre ++ key :: name :: post)) key = Some i ∧
    GoStrings.drop_str i (path (pre ++ key :: name :: post)) = path (key :: name :: post)) as (i & Hi & Hd).
  { induction Hpre as [|w pre Hw _ (i & Hi & Hd)].
    - exists 0. change ([] ++ key :: name :: post) with (key :: name :: post).
      rewrite path_cons. split; [apply Index_start|by destruct (key +:+ _)].
    - assert (∃ v l, pre ++ key :: name :: post = v :: l) as (v & l & Hl).
      { by destruct pre; eexists _, _. }
      exists (String.length w + S i).
      change ((w :: pre) ++ key :: name :: post) with (w :: (pre ++ key :: name :: post)).
      rewrite Hl in *. rewrite path_cons. split; [by apply Index_skip|]. by rewrite drop_skip. }
  unfold getSpecifyName. rewrite Hi, Hd, path_cons, GoStrings.Split_app_sep by done.
  destruct post as [|v l].
  - change (path [name]) with name. by rewrite GoStrings.Split_no_sep.
  - by rewrite path_cons, GoStrings.Split_app_sep.
Qed.

(** ** Resource IDs *)
Definition resource_id (subscription group namespace type name : string) : string :=
  path [""; "subscriptions"; subscription; azureResourceGroups; group; "providers"; namespace;
        type; name].

Definition resource_types : list string :=
  [azureNetworkInterfaces; azureSecurityGroups; azureVirtualMachines; azurePublicIPAddresses].

(** The group and the name of a resource are read back from its ID, provided
    the key of the type occurs nowhere in the subscription, the group or the
    namespace and [resourceGroups] nowhere in the subscription. *)
Theorem resource_id_roundtrip sub group ns type name :
  type ∈ resource_types →
  GoStrings.contains "/"%char group = false → GoStrings.contains "/"%char name = false →
  GoStrings.Index sub azureResourceGroups = None →
  Forall (λ w, GoStrings.Index w type = None) [sub; group; ns] →
  getGroupAndResourceNameFromID (resource_id sub group ns type name) type = Ok (group, name).
Proof.
  intros Htype Hgroup Hname Hsub Hkey. unfold getGroupAndResourceNameFromID, resource_id.
  rewrite !Forall_cons in Hkey. destruct Hkey as (? & ? & ? & _).
  assert (GoStrings.contains "/"%char type = false ∧ type ≠ "" ∧
    Forall (λ w, GoStrings.Index w type = None)
      [""; "subscriptions"; sub; azureResourceGroups; group; "providers"; ns]) as (? & ? & ?).
  { unfold resource_types in Htype. rewrite !Forall_cons.
    decompose_list_elem_of; subst; split_and!; done. }
  pose proof (getSpecifyName_path [""; "subscriptions"; sub] azureResourceGroups group
    ["providers"; ns; type; name]) as Hg.
  pose proof (getSpecifyName_path
    [""; "subscriptions"; sub; azureResourceGroups; group; "providers"; ns] type name []) as Hn.
  cbn [app] in Hg, Hn. rewrite Hg by (repeat constructor; done).
  change (mbind ?f (Ok ?a)) with (f a). cbv beta. by rewrite Hn.
Qed.

(** A group whose name contains the key of the type breaks the search: the
    key is found in the group, and the word after it is taken for the name. *)
Theorem resource_id_shadowed :
  getGroupAndResourceNameFromID
    (resource_id "s" "networkInterfaces-rg" "Microsoft.Network" azureNetworkInterfaces "nic0")
    azureNetworkInterfaces = Ok ("networkInterfaces-rg", "providers").
Proof. reflexivity. Qed.

(** An IP configuration belongs to the network interface whose ID it extends. *)
Lemma getIPIDFromIPConfig_of nic name :
  GoStrings.Index nic azureIPConfigurations = None →
  getIPIDFromIPConfig (nic +:+ azureIPConfigurations +:+ String "/"%char name) = Ok nic.
Proof.
  intros Hnic. unfold getIPIDFromIPConfig.
  assert (GoStrings.Index (nic +:+ azureIPConfigurations +:+ String "/"%char name)
    azureIPConfigurations = Some (String.length nic)) as ->;
    [|by rewrite GoStrings.take_str_app].
  generalize (String "/"%char name) as t. intros t. unfold GoStrings.Index in *.
  induction nic as [|c nic IH].
  - apply (Index_start azureIPConfigurations t).
  - change (String c nic +:+ ?x) with (String c (nic +:+ x)). cbn [String.index] in *.
    destruct (String.prefix azureIPConfigurations (String c nic)) eqn:Hp; [done|].
    destruct (String.index 0 azureIPConfigurations nic) eqn:Hi; [done|].
    destruct (String.prefix azureIPConfigurations (String c (nic +:+ _))) eqn:Hp';
      [|by rewrite (IH eq_refl)].
    exfalso. unfold azureIPConfigurations in Hp, Hp'. cbn [String.prefix] in Hp, Hp'.
    destruct (Ascii.ascii_dec "/" c); [|done].
    eapply eq_true_false_abs; [|exact Hp].
    apply (prefix_before_slash nic ("ipConfigurations" +:+ t) "ipConfigurations"); [done|].
    exact Hp'.
Qed.

(** ** Witnesses *)
Lemma resource_id_roundtrip_witness :
  getGroupAndResourceNameFromID
    (resource_id "0b1f" "prod" "Microsoft.Network" azureNetworkInterfaces "nic0")
    azureNetworkInterfaces = Ok ("prod", "nic0").
Proof.
  apply (resource_id_roundtrip "0b1f" "prod" "Microsoft.Network" azureNetworkInterfaces "nic0");
    [by left|reflexivity..|repeat constructor].
Defined.
