(* ===== verification/AzureRules.v ===== *)
(** * providers/azure/utils.go: load balancing rules

    The rules of the Azure load balancer are made to follow the ports of the
    TCP and UDP ConfigMaps: rules of other protocols and the default rules stay,
    a rule that belongs to a port stays, the rest is dropped and the missing
    ones are added. *)

From S2P Require Import Prelude GoStd AzureNet.

Definition TransportProtocolTCP : string := "Tcp".
Definition TransportProtocolUDP : string := "Udp".
Definition SourceIPProtocol : string := "SourceIPProtocol".

Abbreviation ports := (gmap string string).

(** ** Definitions *)
Definition getRuleName (port : Z) (protocol : string) : string :=
  GoStrings.ToLower (protocol +:+ "-" +:+ Strconv.Itoa port).

(** The literal that [azureLBProbes2Rules] and [newRuleWithConfig] share. *)
Definition rule_for (name frontendID backendID : string) (probeID : option string)
    (protocol : string) (port : option Z) : LoadBalancingRule :=
  {| rule_Name := Some name; rule_Etag := None; rule_ID := None;
     rule_Properties := Some
       {| rp_FrontendIPConfiguration := Some {| sub_ID := Some frontendID |};
          rp_BackendAddressPool := Some {| sub_ID := Some backendID |};
          rp_Probe := Some {| sub_ID := probeID |};
          rp_Protocol := protocol; rp_LoadDistribution := SourceIPProtocol;
          rp_FrontendPort := port; rp_BackendPort := port;
          rp_IdleTimeoutInMinutes := Some 4%Z; rp_EnableFloatingIP := Some false;
          rp_DisableOutboundSnat := Some false; rp_ProvisioningState := None |} |}.

Fixpoint azureLBProbes2Rules (frontendIPConfigurationID backendAddressPoolID : string)
    (probes : list Probe) : result (list LoadBalancingRule) :=
  match probes with
  | [] => mret []
  | probe :: rest =>
      p ← deref (probe_Properties probe);
      rules ← azureLBProbes2Rules frontendIPConfigurationID backendAddressPoolID rest;
      mret (rule_for (getRuleName (to_Int32 (pp_Port p)) TransportProtocolTCP)
              frontendIPConfigurationID backendAddressPoolID (probe_ID probe)
              TransportProtocolTCP (pp_Port p) :: rules)
  end.

Definition isDefaultRules (rule : LoadBalancingRule) : result bool :=
  p ← deref (rule_Properties rule);
  let port := to_Int32 (rp_FrontendPort p) in
  mret (bool_decide (rp_Protocol p = TransportProtocolTCP) &&
        (bool_decide (port = 80%Z) || bool_decide (port = 443%Z))).

(** What is found under a port: the rule of that name stays and its port is
    deleted from the map. *)
Definition matched_rule (rule : LoadBalancingRule) (p : RuleProperties) (m : ports) : bool :=
  let port := to_Int32 (rp_FrontendPort p) in
  bool_decide (is_Some (m !! Strconv.Itoa port)) &&
  bool_decide (to_String (rule_Name rule) = getRuleName port (rp_Protocol p)).

(** One turn of the loop of [remainConstantRules]: whether the rule stays, and
    the maps. *)
Definition remain_rule (rule : LoadBalancingRule) (tcpMap udpMap : ports)
    : result (bool * (ports * ports)) :=
  p ← deref (rule_Properties rule);
  let portKey := Strconv.Itoa (to_Int32 (rp_FrontendPort p)) in
  if bool_decide (rp_Protocol p = TransportProtocolTCP) then
    if matched_rule rule p tcpMap then mret (true, (delete portKey tcpMap, udpMap))
    else (default_rule ← isDefaultRules rule; mret (default_rule, (tcpMap, udpMap)))
  else if bool_decide (rp_Protocol p = TransportProtocolUDP) then
    if matched_rule rule p udpMap then mret (true, (tcpMap, delete portKey udpMap))
    else (default_rule ← isDefaultRules rule; mret (default_rule, (tcpMap, udpMap)))
  else mret (true, (tcpMap, udpMap)).

Fixpoint remainConstantRules (oldRules : list LoadBalancingRule) (tcpMap udpMap : ports)
    : result (list LoadBalancingRule * bool * (ports * ports)) :=
  match oldRules with
  | [] => mret ([], false, (tcpMap, udpMap))
  | rule :: rest =>
      '(remain, (tcpMap, udpMap)) ← remain_rule rule tcpMap udpMap;
      '(newRules, diff, maps) ← remainConstantRules rest tcpMap udpMap;
      mret (if remain : bool then (rule :: newRules, diff, maps) else (newRules, true, maps))
  end.

Definition newRuleWithConfig (azlb : AzureLB) (port service protocol : string)
    : result LoadBalancingRule :=
  p ← lb_properties azlb;
  match elems (Probes p) with
  | [] => Err (ErrorString "azure lb probes is nil")
  | probe :: _ =>
      match elems (FrontendIPConfigurations p) with
      | [] => Err (ErrorString "azure lb frontendIPConfigurations is nil")
      | frontend :: _ =>
          match elems (BackendAddressPools p) with
          | [] => Err (ErrorString "azure lb backendAddressPools is nil")
          | backend :: _ =>
              match Strconv.Atoi port with
              | (_, Some e) => Err (ErrorString (Strconv.num_error_msg e))
              | (lbPort, None) =>
                  mret (rule_for (getRuleName (to_int32 lbPort) protocol)
                          (to_String (fe_ID frontend)) (to_String (pool_ID backend))
                          (probe_ID probe) protocol (Some (to_int32 lbPort)))
              end
          end
      end
  end.

(** The loop over a map of ports, in the order [range] gives. *)
Fixpoint add_rules (azlb : AzureLB) (protocol : string) (range : list (string * string))
    : result (list LoadBalancingRule) :=
  match range with
  | [] => mret []
  | (port, service) :: rest =>
      match newRuleWithConfig azlb port service protocol with
      | Ok rule => rules ← add_rules azlb protocol rest; mret (rule :: rules)
      | Err _ => add_rules azlb protocol rest
      | Panic why => Panic why
      end
  end.

Section rules.
Context (range_map : ports → list (string * string)).

(** [tcpMap] and [udpMap] are copies that nobody reads afterwards. *)
Definition makeUpRules (azlb : AzureLB) (tcpMap udpMap : ports) : result (bool * AzureLB) :=
  p ← lb_properties azlb;
  '(remaining, diff, (tcpMap, udpMap)) ←
    remainConstantRules (elems (LoadBalancingRules p)) tcpMap udpMap;
  let diff := diff || bool_decide (tcpMap ≠ ∅) || bool_decide (udpMap ≠ ∅) in
  tcpRules ← add_rules azlb TransportProtocolTCP (range_map tcpMap);
  udpRules ← add_rules azlb TransportProtocolUDP (range_map udpMap);
  mret (diff, if diff then with_properties azlb
                             (with_rules p (Some (remaining ++ tcpRules ++ udpRules)))
              else azlb).
End rules.

(** ** equalRule and the default rules *)
Definition sub_brief (r : option SubResource) : result (option SubResource) :=
  s ← deref r; mret (Some {| sub_ID := sub_ID s |}).

Definition equalRule (x brief : LoadBalancingRule) : result bool :=
  p ← deref (rule_Properties x);
  frontend ← sub_brief (rp_FrontendIPConfiguration p);
  backend ← sub_brief (rp_BackendAddressPool p);
  probe ← sub_brief (rp_Probe p);
  mret (bool_decide (
    {| rule_Name := rule_Name x; rule_Etag := None; rule_ID := None;
       rule_Properties := Some
         {| rp_FrontendIPConfiguration := frontend; rp_BackendAddressPool := backend;
            rp_Probe := probe; rp_Protocol := rp_Protocol p;
            rp_LoadDistribution := rp_LoadDistribution p;
            rp_FrontendPort := rp_FrontendPort p; rp_BackendPort := rp_BackendPort p;
            rp_IdleTimeoutInMinutes := rp_IdleTimeoutInMinutes p;
            rp_EnableFloatingIP := rp_EnableFloatingIP p;
            rp_DisableOutboundSnat := rp_DisableOutboundSnat p;
            rp_ProvisioningState := None |} |} = brief)).

(** The inner loop: it stops at the first equal rule. *)
Fixpoint rule_exists (rules : list LoadBalancingRule) (defaultRule : LoadBalancingRule)
    : result bool :=
  match rules with
  | [] => mret false
  | rule :: rest =>
      equal ← equalRule rule defaultRule;
      if equal : bool then mret true else rule_exists rest defaultRule
  end.

(** The rules of the load balancer grow while the default rules are visited. *)
Fixpoint patchAzureLoadBalancerDefaultRules (rules defaultRules : list LoadBalancingRule)
    : result (bool * list LoadBalancingRule) :=
  match defaultRules with
  | [] => mret (false, rules)
  | defaultRule :: rest =>
      exist ← rule_exists rules defaultRule;
      '(change, rules') ← patchAzureLoadBalancerDefaultRules
        (if exist : bool then rules else rules ++ [defaultRule]) rest;
      mret (negb exist || change, rules')
  end.

(** ** The rules that stay

    The loop as a function of the rule: whether it is owned by a port of its
    protocol, a default rule, or foreign. *)
Definition has_properties (r : LoadBalancingRule) : Prop := is_Some (rule_Properties r).

Definition protocol_of (r : LoadBalancingRule) : string :=
  match rule_Properties r with Some p => rp_Protocol p | None => "" end.
Definition port_of (r : LoadBalancingRule) : Z :=
  match rule_Properties r with Some p => to_Int32 (rp_FrontendPort p) | None => 0 end.
Definition key_of (r : LoadBalancingRule) : string := Strconv.Itoa (port_of r).

(** [r] is the rule of [protocol] for the port written [k]. *)
Definition serves (protocol k : string) (r : LoadBalancingRule) : Prop :=
  protocol_of r = protocol ∧ key_of r = k ∧
  to_String (rule_Name r) = getRuleName (port_of r) protocol.

#[export] Instance serves_dec protocol k r : Decision (serves protocol k r).
Proof. unfold serves. apply _. Defined.

Definition foreign (r : LoadBalancingRule) : Prop :=
  protocol_of r ≠ TransportProtocolTCP ∧ protocol_of r ≠ TransportProtocolUDP.

#[export] Instance foreign_dec r : Decision (foreign r).
Proof. unfold foreign. apply _. Defined.

Definition default_rule (r : LoadBalancingRule) : Prop :=
  protocol_of r = TransportProtocolTCP ∧ (port_of r = 80%Z ∨ port_of r = 443%Z).

#[export] Instance default_rule_dec r : Decision (default_rule r).
Proof. unfold default_rule. apply _. Defined.

Definition owned (protocol : string) (r : LoadBalancingRule) (m : ports) : bool :=
  bool_decide (serves protocol (key_of r) r ∧ is_Some (m !! key_of r)).

Definition stays (r : LoadBalancingRule) (tcp udp : ports) : bool :=
  owned TransportProtocolTCP r tcp || owned TransportProtocolUDP r udp ||
  bool_decide (foreign r ∨ default_rule r).

Definition consume (protocol : string) (m : ports) (r : LoadBalancingRule) : ports :=
  if owned protocol r m then delete (key_of r) m else m.

Lemma remain_rule_eq r tcp udp :
  has_properties r →
  remain_rule r tcp udp =
    Ok (stays r tcp udp, (consume TransportProtocolTCP tcp r, consume TransportProtocolUDP udp r)).
Proof.
  destruct r as [name etag id props]. intros [p Hp]. simpl in Hp. subst props.
  unfold remain_rule, isDefaultRules, matched_rule, stays, consume, owned, serves,
    foreign, default_rule, key_of, protocol_of, port_of. cbn [rule_Properties rule_Name].
  unfold deref, mbind, result_bind, mret, result_ret.
  assert (TransportProtocolTCP ≠ TransportProtocolUDP) as Hdiff by done.
  destruct p as [? ? ? protocol ? port ? ? ? ? ?].
  cbn [rp_Protocol rp_FrontendPort]. generalize dependent protocol. intros protocol.
  destruct (decide (protocol = TransportProtocolTCP)) as [->|];
    [|destruct (decide (protocol = TransportProtocolUDP)) as [->|]];
    repeat case_bool_decide; simpl; try done; exfalso; tauto.
Qed.

Fixpoint kept (rules : list LoadBalancingRule) (tcp udp : ports) : list LoadBalancingRule :=
  match rules with
  | [] => []
  | r :: rest =>
      let l := kept rest (consume TransportProtocolTCP tcp r) (consume TransportProtocolUDP udp r) in
      if stays r tcp udp then r :: l else l
  end.

Definition remaining (protocol : string) (rules : list LoadBalancingRule) (m : ports) : ports :=
  foldl (consume protocol) m rules.

Lemma kept_length rules tcp udp : length (kept rules tcp udp) <= length rules.
Proof.
  revert tcp udp. induction rules as [|r rules IH]; intros tcp udp; simpl; [done|].
  destruct (stays r tcp udp); simpl; pose proof (IH (consume TransportProtocolTCP tcp r)
    (consume TransportProtocolUDP udp r)); lia.
Qed.

Lemma remainConstantRules_eq rules tcp udp :
  Forall has_properties rules →
  remainConstantRules rules tcp udp =
    Ok (kept rules tcp udp, bool_decide (kept rules tcp udp ≠ rules),
        (remaining TransportProtocolTCP rules tcp, remaining TransportProtocolUDP rules udp)).
Proof.
  intros H. revert tcp udp. induction H as [|r rules Hr _ IH]; intros tcp udp; [done|].
  cbn [remainConstantRules kept]. rewrite (remain_rule_eq _ _ _ Hr).
  unfold mbind, result_bind. rewrite IH. unfold mret, result_ret.
  unfold remaining. cbn [foldl]. pose proof (kept_length rules (consume TransportProtocolTCP tcp r)
    (consume TransportProtocolUDP udp r)) as Hlen.
  destruct (stays r tcp udp).
  - do 3 f_equal. apply bool_decide_ext. split; [by intros H [=]|]. intros H Heq. by rewrite Heq in H.
  - rewrite bool_decide_true; [done|]. intros Heq. rewrite Heq in Hlen. simpl in Hlen. lia.
Qed.

(** ** What the loop leaves *)
Lemma remaining_lookup protocol rules m k :
  remaining protocol rules m !! k =
    if bool_decide (Exists (serves protocol k) rules) then None else m !! k.
Proof.
  unfold remaining. revert m. induction rules as [|r rules IH]; intros m; simpl; [done|].
  rewrite IH. unfold consume, owned.
  destruct (decide (serves protocol k r)) as [Hs|Hs].
  - rewrite (bool_decide_true (Exists _ (r :: rules))) by by left.
    case_bool_decide; [done|]. destruct (Hs) as (? & Hk & ?). rewrite Hk.
    case_bool_decide as Hd; [by rewrite lookup_delete_eq|].
    destruct (m !! k) eqn:E; [|done]. exfalso. apply Hd. split; [done|by eexists].
  - rewrite (bool_decide_ext (Exists _ (r :: rules)) (Exists (serves protocol k) rules));
      [|rewrite Exists_cons; tauto].
    case_bool_decide; [done|]. case_bool_decide as Hd; [|done].
    destruct Hd as [Hd _]. rewrite lookup_delete_ne; [done|]. intros <-. by apply Hs.
Qed.

Lemma kept_app l1 l2 tcp udp :
  kept (l1 ++ l2) tcp udp =
    kept l1 tcp udp ++ kept l2 (remaining TransportProtocolTCP l1 tcp)
                         (remaining TransportProtocolUDP l1 udp).
Proof.
  revert tcp udp. induction l1 as [|r l1 IH]; intros tcp udp; simpl; [done|].
  rewrite IH. by destruct (stays r tcp udp).
Qed.

Lemma remaining_app protocol l1 l2 m :
  remaining protocol (l1 ++ l2) m = remaining protocol l2 (remaining protocol l1 m).
Proof. apply foldl_app. Qed.

Lemma stays_consume r tcp udp :
  stays r tcp udp = false →
  consume TransportProtocolTCP tcp r = tcp ∧ consume TransportProtocolUDP udp r = udp.
Proof.
  unfold stays, consume. intros H. by destruct (owned _ r tcp), (owned _ r udp).
Qed.

(** A second visit finds the same. *)
Lemma kept_again rules tcp udp :
  kept (kept rules tcp udp) tcp udp = kept rules tcp udp ∧
  remaining TransportProtocolTCP (kept rules tcp udp) tcp = remaining TransportProtocolTCP rules tcp ∧
  remaining TransportProtocolUDP (kept rules tcp udp) udp = remaining TransportProtocolUDP rules udp.
Proof.
  unfold remaining. revert tcp udp. induction rules as [|r rules IH]; intros tcp udp; [done|].
  cbn [kept foldl]. destruct (stays r tcp udp) eqn:E.
  - cbn [kept foldl]. rewrite E. destruct (IH (consume TransportProtocolTCP tcp r)
      (consume TransportProtocolUDP udp r)) as (-> & -> & ->). done.
  - destruct (stays_consume r tcp udp E) as [-> ->]. apply IH.
Qed.

Lemma kept_sound rules tcp udp r :
  r ∈ kept rules tcp udp →
  r ∈ rules ∧ (foreign r ∨ default_rule r ∨
    (serves TransportProtocolTCP (key_of r) r ∧ is_Some (tcp !! key_of r)) ∨
    (serves TransportProtocolUDP (key_of r) r ∧ is_Some (udp !! key_of r))).
Proof.
  revert tcp udp. induction rules as [|r' rules IH]; intros tcp udp; simpl; [by intros ?%elem_of_nil|].
  assert (∀ protocol m k, is_Some (consume protocol m r' !! k) → is_Some (m !! k)) as Hsub.
  { intros protocol m k. unfold consume. case_match; [|done].
    rewrite lookup_delete_is_Some. tauto. }
  destruct (stays r' tcp udp) eqn:E.
  - intros [->|Hin]%elem_of_cons.
    + split; [by left|]. unfold stays, owned in E.
      apply orb_true_iff in E as [[E|E]%orb_true_iff|E]; apply bool_decide_eq_true_1 in E; tauto.
    + apply IH in Hin as [? Hr]. split; [by right|]. naive_solver.
  - intros Hin. apply IH in Hin as [? Hr]. split; [by right|]. naive_solver.
Qed.

Lemma kept_foreign rules tcp udp : filter foreign (kept rules tcp udp) = filter foreign rules.
Proof.
  revert tcp udp. induction rules as [|r rules IH]; intros tcp udp; [done|]. cbn [kept].
  rewrite filter_cons. case_decide as Hf.
  - assert (stays r tcp udp = true) as ->.
    { unfold stays. rewrite (bool_decide_true (foreign r ∨ _)) by by left. by rewrite orb_true_r. }
    rewrite filter_cons_True by done. by rewrite IH.
  - destruct (stays r tcp udp); [|apply IH]. rewrite filter_cons_False by done. apply IH.
Qed.

(** The rules of one port among those that stay. *)
Definition for_port (protocol k : string) (r : LoadBalancingRule) : Prop :=
  protocol_of r = protocol ∧ key_of r = k.

#[export] Instance for_port_dec protocol k r : Decision (for_port protocol k r).
Proof. unfold for_port. apply _. Defined.

Definition port_protocols : list string := [TransportProtocolTCP; TransportProtocolUDP].

(** [p] is not a port of the default rules. *)
Definition no_default (protocol k : string) : Prop :=
  protocol = TransportProtocolTCP → k ≠ "80" ∧ k ≠ "443".

Lemma no_default_rule protocol k r :
  protocol ∈ port_protocols → no_default protocol k → for_port protocol k r →
  ¬ (foreign r ∨ default_rule r).
Proof.
  intros Hproto Hk [Hp <-] [[? ?]|[Ht [Hport|Hport]]].
  - unfold port_protocols in Hproto. decompose_list_elem_of; congruence.
  - rewrite Ht in Hp. destruct (Hk (eq_sym Hp)) as [Hne _]. apply Hne. unfold key_of. by rewrite Hport.
  - rewrite Ht in Hp. destruct (Hk (eq_sym Hp)) as [_ Hne]. apply Hne. unfold key_of. by rewrite Hport.
Qed.

(** The map of a protocol. *)
Definition map_of (protocol : string) (tcp udp : ports) : ports :=
  if bool_decide (protocol = TransportProtocolTCP) then tcp else udp.

Lemma map_of_cases (P : string → ports → Prop) tcp udp protocol :
  protocol ∈ port_protocols →
  P TransportProtocolTCP tcp → P TransportProtocolUDP udp → P protocol (map_of protocol tcp udp).
Proof.
  unfold port_protocols, map_of. intros. decompose_list_elem_of; subst; case_bool_decide; done.
Qed.

Lemma map_of_consume protocol tcp udp r :
  protocol ∈ port_protocols →
  map_of protocol (consume TransportProtocolTCP tcp r) (consume TransportProtocolUDP udp r) =
  consume protocol (map_of protocol tcp udp) r.
Proof. unfold port_protocols, map_of. intros. decompose_list_elem_of; subst; case_bool_decide; done. Qed.

Lemma map_of_remaining protocol tcp udp rules :
  protocol ∈ port_protocols →
  map_of protocol (remaining TransportProtocolTCP rules tcp) (remaining TransportProtocolUDP rules udp) =
  remaining protocol rules (map_of protocol tcp udp).
Proof. unfold port_protocols, map_of. intros. decompose_list_elem_of; subst; case_bool_decide; done. Qed.

(** Whether a rule for a port without default rule stays. *)
Lemma stays_for_port protocol k r tcp udp :
  protocol ∈ port_protocols → no_default protocol k → for_port protocol k r →
  stays r tcp udp = owned protocol r (map_of protocol tcp udp).
Proof.
  intros Hproto Hk Hr. unfold stays.
  rewrite (bool_decide_false (foreign r ∨ default_rule r)) by by eapply no_default_rule.
  rewrite orb_false_r. destruct Hr as [Hp _].
  unfold port_protocols, map_of, owned, serves in *.
  decompose_list_elem_of; subst protocol; simpl.
  - rewrite (bool_decide_false (_ ∧ is_Some (udp !! _))); [by rewrite orb_false_r|].
    by intros [[Hu _] _]; rewrite Hp in Hu.
  - rewrite (bool_decide_false (_ ∧ is_Some (tcp !! _))); [done|].
    by intros [[Ht _] _]; rewrite Hp in Ht.
Qed.

Lemma consume_owned protocol m r : owned protocol r m = true → consume protocol m r = delete (key_of r) m.
Proof. unfold consume. by intros ->. Qed.

Lemma consume_not_owned protocol m r : owned protocol r m = false → consume protocol m r = m.
Proof. unfold consume. by intros ->. Qed.

Lemma remaining_None protocol rules m k : m !! k = None → remaining protocol rules m !! k = None.
Proof. rewrite remaining_lookup. by case_bool_decide. Qed.

(** One rule stays for a port that was in the map and is not any more. *)
Lemma kept_count rules tcp udp protocol k :
  protocol ∈ port_protocols → no_default protocol k →
  let m := map_of protocol tcp udp in
  length (filter (for_port protocol k) (kept rules tcp udp)) =
    used_up (m !! k) (remaining protocol rules m !! k).
Proof.
  intros Hproto Hk. revert tcp udp. induction rules as [|r rules IH]; intros tcp udp m.
  { unfold remaining. simpl. by destruct (m !! k). }
  specialize (IH (consume TransportProtocolTCP tcp r) (consume TransportProtocolUDP udp r)).
  cbv zeta in IH. rewrite map_of_consume in IH by done. fold m in IH. cbn [kept].
  change (remaining protocol (r :: rules) m) with (remaining protocol rules (consume protocol m r)).
  destruct (decide (for_port protocol k r)) as [Hr|Hr].
  - rewrite (stays_for_port protocol k) by done. fold m. destruct (owned protocol r m) eqn:E.
    + rewrite (consume_owned _ _ _ E) in *. destruct Hr as [Hp Hkey].
      unfold owned in E. apply bool_decide_eq_true_1 in E as [_ [v Hv]].
      rewrite Hkey in *. rewrite filter_cons_True by done. simpl. rewrite IH.
      rewrite lookup_delete_eq, Hv. rewrite remaining_None by apply lookup_delete_eq. done.
    + rewrite (consume_not_owned _ _ _ E) in *. exact IH.
  - transitivity (length (filter (for_port protocol k) (kept rules
      (consume TransportProtocolTCP tcp r) (consume TransportProtocolUDP udp r)))).
    { destruct (stays r tcp udp); [|done]. by rewrite filter_cons_False. }
    rewrite IH. assert (consume protocol m r !! k = m !! k) as ->; [|done].
    destruct (owned protocol r m) eqn:E; [|by rewrite consume_not_owned].
    rewrite consume_owned by done. rewrite lookup_delete_ne; [done|]. intros <-.
    apply bool_decide_eq_true_1 in E as [[? _] _]. by apply Hr.
Qed.

(** ** The rules that are added *)
Definition lb_parts (p : LBProperties)
    : option (Probe * FrontendIPConfiguration * BackendAddressPool) :=
  match elems (Probes p), elems (FrontendIPConfigurations p), elems (BackendAddressPools p) with
  | probe :: _, frontend :: _, backend :: _ => Some (probe, frontend, backend)
  | _, _, _ => None
  end.

(** A port as [strconv] prints it. *)
Definition canonical (k : string) : Prop := ∃ z, (0 <= z < 2 ^ 31)%Z ∧ k = Strconv.Itoa z.

Definition port_number (k : string) : Z := to_int32 (Strconv.Atoi k).1.

Definition new_rule (parts : Probe * FrontendIPConfiguration * BackendAddressPool)
    (protocol k : string) : LoadBalancingRule :=
  let '(probe, frontend, backend) := parts in
  rule_for (getRuleName (port_number k) protocol) (to_String (fe_ID frontend))
    (to_String (pool_ID backend)) (probe_ID probe) protocol (Some (port_number k)).

Lemma canonical_Atoi k :
  canonical k → Strconv.Atoi k = (port_number k, None) ∧ k = Strconv.Itoa (port_number k).
Proof.
  intros (z & Hz & ->). unfold port_number. rewrite Strconv.Atoi_Itoa by lia. simpl.
  by rewrite to_int32_id by (unfold is_int32; lia).
Qed.

Lemma new_rule_serves parts protocol k : canonical k → serves protocol k (new_rule parts protocol k).
Proof.
  intros Hk. destruct parts as [[probe frontend] backend].
  split_and!; [done| |done]. symmetry. by apply canonical_Atoi.
Qed.

Lemma new_rule_protocol parts protocol k : protocol_of (new_rule parts protocol k) = protocol.
Proof. by destruct parts as [[probe frontend] backend]. Qed.

Lemma new_rule_key parts protocol k : canonical k → key_of (new_rule parts protocol k) = k.
Proof. intros Hk. by destruct (new_rule_serves parts protocol k Hk) as (_ & ? & _). Qed.

Lemma newRuleWithConfig_canonical azlb p parts port service protocol :
  azlb_Properties azlb = Some p → lb_parts p = Some parts → canonical port →
  newRuleWithConfig azlb port service protocol = Ok (new_rule parts protocol port).
Proof.
  intros Hp Hparts Hk. destruct (canonical_Atoi _ Hk) as [Hatoi _].
  unfold newRuleWithConfig, lb_properties. rewrite Hp. simpl. unfold lb_parts in Hparts.
  destruct (elems (Probes p)); [done|]. destruct (elems (FrontendIPConfigurations p)); [done|].
  destruct (elems (BackendAddressPools p)); [done|]. rewrite Hatoi. simplify_eq/=.
  unfold mret, result_ret. do 2 f_equal; rewrite (to_int32_id (port_number _)); try done;
    apply to_int32_range.
Qed.

Lemma add_rules_canonical azlb p parts protocol range :
  azlb_Properties azlb = Some p → lb_parts p = Some parts → Forall canonical range.*1 →
  add_rules azlb protocol range = Ok (new_rule parts protocol <$> range.*1).
Proof.
  intros Hp Hparts. induction range as [|[k v] range IH]; simpl; [done|].
  intros [Hk Hrange]%Forall_cons. rewrite (newRuleWithConfig_canonical azlb p parts) by done.
  by rewrite IH.
Qed.

Lemma new_rules_stay parts protocol ks tcp udp :
  protocol ∈ port_protocols → Forall canonical ks → NoDup ks →
  Forall (λ k, is_Some (map_of protocol tcp udp !! k)) ks →
  kept (new_rule parts protocol <$> ks) tcp udp = new_rule parts protocol <$> ks.
Proof.
  intros Hproto. revert tcp udp. induction ks as [|k ks IH]; intros tcp udp; [done|].
  rewrite !Forall_cons, NoDup_cons. intros [Hk Hks] [Hnot Hnd] [Hin Hall].
  cbn [fmap list_fmap kept]. set (r := new_rule parts protocol k).
  assert (owned protocol r (map_of protocol tcp udp) = true) as Howned.
  { unfold owned, r. rewrite new_rule_key by done. apply bool_decide_eq_true.
    split; [by apply new_rule_serves|done]. }
  assert (stays r tcp udp = true) as ->.
  { unfold stays. unfold port_protocols, map_of in *.
    decompose_list_elem_of; subst protocol; simpl in Howned; rewrite Howned; [done|].
    by rewrite orb_true_r. }
  f_equal. apply IH; [done..|].
  rewrite map_of_consume by done. rewrite consume_owned by done.
  unfold r. rewrite new_rule_key by done.
  rewrite Forall_forall in Hall |- *. intros k' Hk'.
  rewrite lookup_delete_is_Some. split; [|by apply Hall]. by intros <-.
Qed.

Lemma new_rules_remaining parts protocol protocol' ks m :
  Forall canonical ks →
  remaining protocol (new_rule parts protocol' <$> ks) m =
    if bool_decide (protocol' = protocol) then without ks m else m.
Proof.
  intros Hks. apply map_eq. intros k. rewrite remaining_lookup.
  assert (Exists (serves protocol k) (new_rule parts protocol' <$> ks) ↔ protocol' = protocol ∧ k ∈ ks)
    as Hex.
  { rewrite Exists_fmap, Exists_exists. rewrite Forall_forall in Hks. split.
    - intros (k' & Hin & (Hp & Hk & _)). simpl in *. rewrite new_rule_protocol in Hp.
      rewrite new_rule_key in Hk by by apply Hks. by subst.
    - intros [-> Hin]. exists k. split; [done|]. apply new_rule_serves. by apply Hks. }
  rewrite (bool_decide_ext _ _ Hex). case_bool_decide as Hp; case_bool_decide as Hp';
    rewrite ?without_lookup; [| |by rewrite bool_decide_false by tauto|done].
  - by rewrite bool_decide_true by apply Hp.
  - by destruct Hp.
Qed.

(** ** Settled rules

    The rules that a further visit leaves alone and that leave no port over. *)
Definition settled (rules : list LoadBalancingRule) (tcp udp : ports) : Prop :=
  kept rules tcp udp = rules ∧ remaining TransportProtocolTCP rules tcp = ∅ ∧
  remaining TransportProtocolUDP rules udp = ∅.

Lemma settled_remaining rules tcp udp protocol :
  protocol ∈ port_protocols → settled rules tcp udp →
  remaining protocol rules (map_of protocol tcp udp) = ∅.
Proof. intros ? (_ & ? & ?). by apply (map_of_cases (λ q m, remaining q rules m = ∅)). Qed.

Lemma settled_serves rules tcp udp protocol k :
  protocol ∈ port_protocols → settled rules tcp udp →
  is_Some (map_of protocol tcp udp !! k) → Exists (serves protocol k) rules.
Proof.
  intros Hproto Hs [v Hv]. pose proof (settled_remaining _ _ _ _ Hproto Hs) as Hr.
  apply (f_equal (lookup k)) in Hr. rewrite remaining_lookup, Hv, lookup_empty in Hr.
  by case_bool_decide.
Qed.

Lemma settled_count rules tcp udp protocol k :
  protocol ∈ port_protocols → no_default protocol k → settled rules tcp udp →
  length (filter (for_port protocol k) rules) =
    if bool_decide (is_Some (map_of protocol tcp udp !! k)) then 1 else 0.
Proof.
  intros Hproto Hk Hs. pose proof (settled_remaining _ _ _ _ Hproto Hs) as Hr.
  pose proof (kept_count rules tcp udp protocol k Hproto Hk) as Hc. cbv zeta in Hc.
  rewrite Hr, lookup_empty, (proj1 Hs) in Hc. rewrite Hc.
  by destruct (map_of protocol tcp udp !! k).
Qed.

Section makeUpRules.
Context (range_map : ports → list (string * string)).
Context (range_map_order : ∀ m, map_order (range_map m) m).

Lemma range_keys m : NoDup (range_map m).*1 ∧ (∀ k, k ∈ (range_map m).*1 ↔ is_Some (m !! k)).
Proof.
  split; [by eapply map_order_keys_NoDup|]. intros k. by apply map_order_keys.
Qed.

(** What [makeUpRules] computes. *)
Definition made_up parts rules tcp udp : list LoadBalancingRule :=
  kept rules tcp udp ++
  (new_rule parts TransportProtocolTCP <$> (range_map (remaining TransportProtocolTCP rules tcp)).*1) ++
  (new_rule parts TransportProtocolUDP <$> (range_map (remaining TransportProtocolUDP rules udp)).*1).

Lemma remaining_subset protocol rules m k :
  is_Some (remaining protocol rules m !! k) → is_Some (m !! k).
Proof. rewrite remaining_lookup. case_bool_decide; [by intros []|done]. Qed.

Lemma made_up_settled parts rules tcp udp :
  (∀ k, is_Some (tcp !! k) ∨ is_Some (udp !! k) → canonical k) →
  settled (made_up parts rules tcp udp) tcp udp.
Proof.
  intros Hcan. unfold settled, made_up.
  destruct (kept_again rules tcp udp) as (Hk & Ht & Hu).
  set (tcp' := remaining TransportProtocolTCP rules tcp) in *.
  set (udp' := remaining TransportProtocolUDP rules udp) in *.
  destruct (range_keys tcp') as [Hnt Hint], (range_keys udp') as [Hnu Hinu].
  assert (Forall canonical (range_map tcp').*1) as Hct.
  { apply Forall_forall. intros k Hin%Hint%remaining_subset. auto. }
  assert (Forall canonical (range_map udp').*1) as Hcu.
  { apply Forall_forall. intros k Hin%Hinu%remaining_subset. auto. }
  rewrite !kept_app, !remaining_app, Hk, Ht, Hu. split_and!.
  - f_equal. rewrite !new_rules_remaining by done. simpl. f_equal.
    + apply new_rules_stay; [by left|done..|]. apply Forall_forall. intros k. by apply Hint.
    + apply new_rules_stay; [by right; left|done..|]. apply Forall_forall. intros k. by apply Hinu.
  - rewrite !new_rules_remaining by done. by apply without_order.
  - rewrite !new_rules_remaining by done. by apply without_order.
Qed.

Lemma made_up_foreign parts rules tcp udp :
  filter foreign (made_up parts rules tcp udp) = filter foreign rules.
Proof.
  unfold made_up. rewrite !filter_app, kept_foreign.
  assert (∀ protocol ks, protocol ∈ port_protocols →
    filter foreign (new_rule parts protocol <$> ks) = []) as Hnone.
  { intros protocol ks Hproto. induction ks as [|k ks IH]; [done|]. cbn [fmap list_fmap].
    rewrite filter_cons_False; [done|]. unfold foreign. rewrite new_rule_protocol.
    unfold port_protocols in Hproto. intros [? ?]. by decompose_list_elem_of. }
  rewrite !Hnone by (unfold port_protocols; set_solver). by rewrite !app_nil_r.
Qed.

Lemma makeUpRules_eq azlb p parts tcp udp :
  azlb_Properties azlb = Some p → Forall has_properties (elems (LoadBalancingRules p)) →
  lb_parts p = Some parts →
  (∀ k, is_Some (tcp !! k) ∨ is_Some (udp !! k) → canonical k) →
  let rules := elems (LoadBalancingRules p) in
  makeUpRules range_map azlb tcp udp =
    if bool_decide (settled rules tcp udp) then Ok (false, azlb)
    else Ok (true, with_properties azlb (with_rules p (Some (made_up parts rules tcp udp)))).
Proof.
  intros Hp Hall Hparts Hcan rules. unfold makeUpRules, lb_properties. rewrite Hp.
  change (mbind ?f (deref (Some ?a))) with (f a). cbv beta.
  fold rules in Hall |- *. rewrite remainConstantRules_eq by done.
  change (mbind ?f (Ok ?a)) with (f a). cbv beta iota zeta.
  rewrite !(add_rules_canonical azlb p parts) by
    (done || (apply Forall_forall; intros k Hin%range_keys%remaining_subset; auto)).
  change (mbind ?f (Ok ?a)) with (f a). cbv beta iota zeta.
  unfold settled. repeat case_bool_decide; simpl; try done; tauto.
Qed.

(** C14: [makeUpRules] makes the rules follow the ports, in whatever order the maps
    are visited.  Afterwards every port of the maps has its rule, a port that is
    not a default one has exactly one rule or, when it is not in the map, none;
    rules of other protocols are kept in place, nothing but the rules changed,
    and a second call changes nothing. *)
Theorem makeUpRules_follows azlb p tcp udp :
  azlb_Properties azlb = Some p → Forall has_properties (elems (LoadBalancingRules p)) →
  is_Some (lb_parts p) →
  (∀ k, is_Some (tcp !! k) ∨ is_Some (udp !! k) → canonical k) →
  ∃ diff azlb' rules,
    makeUpRules range_map azlb tcp udp = Ok (diff, azlb') ∧
    azlb' = with_properties azlb (with_rules p rules) ∧
    makeUpRules range_map azlb' tcp udp = Ok (false, azlb') ∧
    (∀ protocol k, protocol ∈ port_protocols → is_Some (map_of protocol tcp udp !! k) →
       Exists (serves protocol k) (elems rules)) ∧
    (∀ protocol k, protocol ∈ port_protocols → no_default protocol k →
       length (filter (for_port protocol k) (elems rules)) =
         if bool_decide (is_Some (map_of protocol tcp udp !! k)) then 1 else 0) ∧
    filter foreign (elems rules) = filter foreign (elems (LoadBalancingRules p)).
Proof.
  intros Hp Hall [parts Hparts] Hcan. rewrite (makeUpRules_eq azlb p parts) by done.
  set (old := elems (LoadBalancingRules p)). case_bool_decide as Hs.
  - exists false, azlb, (LoadBalancingRules p). split_and!; [done| | |..].
    + destruct azlb, p. simpl in *. by simplify_eq.
    + rewrite (makeUpRules_eq azlb p parts) by done. by rewrite bool_decide_true.
    + intros. by eapply settled_serves.
    + intros. by apply settled_count.
    + done.
  - set (new := made_up parts old tcp udp).
    pose proof (made_up_settled parts old tcp udp Hcan) as Hnew. fold new in Hnew.
    exists true, (with_properties azlb (with_rules p (Some new))), (Some new).
    split_and!; [done|done| |..].
    + rewrite (makeUpRules_eq _ (with_rules p (Some new)) parts); [|done| |done|done].
      * by rewrite bool_decide_true.
      * simpl. unfold new, made_up. rewrite !Forall_app, !Forall_fmap.
        split_and!; [|by apply Forall_true; intros k; destruct parts as [[??]?]; eexists..].
        apply Forall_forall. intros r [Hr _]%kept_sound. rewrite Forall_forall in Hall. by apply Hall.
    + intros. by eapply settled_serves.
    + intros. by apply settled_count.
    + apply made_up_foreign.
Qed.

(** A port that is not written the way [strconv] prints it, such as [0443],
    never settles: no rule is ever found under it, so every sync reports a
    difference and updates the load balancer again. *)
Theorem noncanonical_port_diff azlb p k tcp udp diff azlb' :
  azlb_Properties azlb = Some p →
  Forall (λ r, has_properties r ∧ is_int32 (port_of r)) (elems (LoadBalancingRules p)) →
  (∀ z, is_int32 z → k ≠ Strconv.Itoa z) → is_Some (tcp !! k) ∨ is_Some (udp !! k) →
  makeUpRules range_map azlb tcp udp = Ok (diff, azlb') → diff = true.
Proof.
  intros Hp Hall Hk Hin. unfold makeUpRules, lb_properties. rewrite Hp.
  change (mbind ?f (deref (Some ?a))) with (f a). cbv beta.
  rewrite remainConstantRules_eq by (eapply Forall_impl; [exact Hall|]; by intros ? []). change (mbind ?f (Ok ?a)) with (f a). cbv beta iota zeta.
  set (rules := elems (LoadBalancingRules p)).
  assert (∀ protocol m, is_Some (m !! k) → remaining protocol rules m ≠ ∅) as Hleft.
  { intros protocol m [v Hv] He. apply (f_equal (lookup k)) in He.
    rewrite remaining_lookup, Hv, lookup_empty in He. case_bool_decide as Hex; [|done].
    apply Exists_exists in Hex as (r & Hr & _ & Hkey & _). rewrite Forall_forall in Hall.
    by apply (Hk (port_of r)); [apply Hall|]. }
  assert (bool_decide (remaining TransportProtocolTCP rules tcp ≠ ∅) ||
          bool_decide (remaining TransportProtocolUDP rules udp ≠ ∅) = true) as Hdiff.
  { destruct Hin as [Hin|Hin].
    - by rewrite bool_decide_true by auto.
    - rewrite (bool_decide_true (remaining TransportProtocolUDP _ _ ≠ _)) by auto.
      apply orb_true_r. }
  destruct (add_rules azlb TransportProtocolTCP _); [|done..].
  destruct (add_rules azlb TransportProtocolUDP _); [|done..].
  change (mbind ?f (Ok ?a)) with (f a). cbv beta iota zeta. intros [= <- _].
  by rewrite <-orb_assoc, Hdiff, orb_true_r.
Qed.
End makeUpRules.

(** ** The default rules *)
Definition rule_brief (x : LoadBalancingRule) : LoadBalancingRule :=
  {| rule_Name := rule_Name x; rule_Etag := None; rule_ID := None;
     rule_Properties :=
       (λ p, {| rp_FrontendIPConfiguration := rp_FrontendIPConfiguration p;
                rp_BackendAddressPool := rp_BackendAddressPool p; rp_Probe := rp_Probe p;
                rp_Protocol := rp_Protocol p; rp_LoadDistribution := rp_LoadDistribution p;
                rp_FrontendPort := rp_FrontendPort p; rp_BackendPort := rp_BackendPort p;
                rp_IdleTimeoutInMinutes := rp_IdleTimeoutInMinutes p;
                rp_EnableFloatingIP := rp_EnableFloatingIP p;
                rp_DisableOutboundSnat := rp_DisableOutboundSnat p;
                rp_ProvisioningState := None |}) <$> rule_Properties x |}.

(** A rule whose references are all there. *)
Definition complete_rule (x : LoadBalancingRule) : Prop :=
  match rule_Properties x with
  | Some p => is_Some (rp_FrontendIPConfiguration p) ∧ is_Some (rp_BackendAddressPool p) ∧
              is_Some (rp_Probe p)
  | None => False
  end.

Lemma equalRule_eq x d : complete_rule x → equalRule x d = Ok (bool_decide (rule_brief x = d)).
Proof.
  destruct x as [n e i [p|]]; [|done]. intros ([[f] Hf] & [[b] Hb] & [[pr] Hpr]). simpl in *.
  unfold equalRule, sub_brief. simpl. rewrite Hf, Hb, Hpr. simpl.
  unfold mret, result_ret, rule_brief. simpl. by rewrite Hf, Hb, Hpr.
Qed.

Lemma rule_exists_eq rules d :
  Forall complete_rule rules → rule_exists rules d = Ok (bool_decide (d ∈ rule_brief <$> rules)).
Proof.
  induction 1 as [|x rules Hx _ IH]; [done|]. cbn [rule_exists]. rewrite equalRule_eq by done.
  change (mbind ?f (Ok ?a)) with (f a). cbv beta. rewrite IH. cbn [fmap list_fmap].
  destruct (bool_decide (rule_brief x = d)) eqn:He.
  - apply bool_decide_eq_true_1 in He. rewrite bool_decide_true; [done|]. rewrite He. by left.
  - apply bool_decide_eq_false_1 in He. f_equal. apply bool_decide_ext. rewrite elem_of_cons. split; [by right|].
    intros [Hd|?]; [by rewrite Hd in He|done].
Qed.

Definition plain_rule (d : LoadBalancingRule) : Prop := complete_rule d ∧ rule_brief d = d.

(** After [patchAzureLoadBalancerDefaultRules] every default rule is there, up
    to what Azure adds to a rule; the rules that were there stay in front, and
    what is reported as a change is exactly that something was appended. *)
Theorem patch_default_rules rules defaults :
  Forall complete_rule rules → Forall plain_rule defaults →
  ∃ added,
    patchAzureLoadBalancerDefaultRules rules defaults =
      Ok (bool_decide (added ≠ []), rules ++ added) ∧
    Forall (λ d, d ∈ rule_brief <$> (rules ++ added)) defaults ∧
    Forall (λ d, d ∈ defaults ∧ d ∉ rule_brief <$> rules) added.
Proof.
  intros Hrules Hdef. revert rules Hrules.
  induction Hdef as [|d defaults [Hd Hplain] Hdefs IH]; intros rules Hrules.
  { exists []. rewrite app_nil_r. split_and!; [done|constructor..]. }
  cbn [patchAzureLoadBalancerDefaultRules]. rewrite rule_exists_eq by done.
  change (mbind ?f (Ok ?a)) with (f a). cbv beta. case_bool_decide as Hin.
  - destruct (IH rules Hrules) as (added & -> & Hall & Hadd). exists added. split_and!.
    + done.
    + constructor; [|done]. rewrite fmap_app. set_solver.
    + eapply Forall_impl; [exact Hadd|]. intros x [??]. split; [by right|done].
  - destruct (IH (rules ++ [d])) as (added & -> & Hall & Hadd).
    { apply Forall_app. split; [done|by constructor]. }
    exists (d :: added). rewrite <-(assoc_L (++)) in *. split_and!.
    + unfold mbind, result_bind, mret, result_ret. simpl.
      by destruct added.
    + constructor; [|done]. rewrite !fmap_app. simpl. rewrite Hplain. set_solver.
    + constructor; [split; [by left|done]|]. eapply Forall_impl; [exact Hadd|].
      intros x [? Hx]. split; [by right|]. intros Hold. apply Hx. rewrite fmap_app. set_solver.
Qed.

(** ** Witnesses *)
Definition example_probe (port : Z) : Probe :=
  {| probe_Name := Some (Strconv.Itoa port); probe_Etag := None;
     probe_ID := Some ("/probes/" +:+ Strconv.Itoa port);
     probe_Properties := Some
       {| pp_LoadBalancingRules := None; pp_Protocol := "Tcp"; pp_Port := Some port;
          pp_IntervalInSeconds := Some 5%Z; pp_NumberOfProbes := Some 3%Z;
          pp_RequestPath := None; pp_ProvisioningState := Some "Succeeded" |} |}.

Definition example_frontend : FrontendIPConfiguration :=
  {| fe_Name := Some "LoadBalancerFrontend"; fe_ID := Some "/frontend"; fe_Properties := None;
     fe_other := [] |}.

Definition example_backend : BackendAddressPool :=
  {| pool_Name := Some "LoadBalancerBackend"; pool_ID := Some "/backend"; pool_Properties := None;
     pool_other := [] |}.

Definition example_rule (protocol : string) (port : Z) : LoadBalancingRule :=
  rule_for (getRuleName port protocol) "/frontend" "/backend" (Some "/probes/80") protocol (Some port).

Definition example_props (rules : list LoadBalancingRule) : LBProperties :=
  {| FrontendIPConfigurations := Some [example_frontend];
     BackendAddressPools := Some [example_backend]; LoadBalancingRules := Some rules;
     Probes := Some [example_probe 80; example_probe 443];
     azlb_ProvisioningState := Some "Succeeded"; azlb_rest := [] |}.

Definition example_azlb (rules : list LoadBalancingRule) : AzureLB :=
  with_properties zero_lb (example_props rules).

(** A default rule, a rule whose port is gone, one that stays, a foreign one. *)
Definition example_rules : list LoadBalancingRule :=
  [example_rule "Tcp" 80; example_rule "Tcp" 8080; example_rule "Udp" 53; example_rule "All" 0].

Definition example_tcp : ports := {[ "9000" := "svc" ]}.
Definition example_udp : ports := {[ "53" := "dns" ]}.

Example makeUpRules_names :
  (match makeUpRules map_to_list (example_azlb example_rules) example_tcp example_udp with
   | Ok (_, azlb) => (λ p, rule_Name <$> elems (LoadBalancingRules p)) <$> azlb_Properties azlb
   | _ => None
   end) = Some [Some "tcp-80"; Some "udp-53"; Some "all-0"; Some "tcp-9000"].
Proof. vm_compute. reflexivity. Qed.

Lemma makeUpRules_follows_witness :
  ∃ diff azlb' rules,
    makeUpRules map_to_list (example_azlb example_rules) example_tcp example_udp = Ok (diff, azlb') ∧
    azlb' = with_properties (example_azlb example_rules) (with_rules (example_props example_rules) rules) ∧
    makeUpRules map_to_list azlb' example_tcp example_udp = Ok (false, azlb').
Proof.
  destruct (makeUpRules_follows map_to_list map_order_self (example_azlb example_rules)
    (example_props example_rules) example_tcp example_udp) as (diff & azlb' & rules & H & Heq & Ha & _).
  - reflexivity.
  - repeat constructor; eexists; reflexivity.
  - eexists; reflexivity.
  - unfold example_tcp, example_udp. intros k [[v Hk]|[v Hk]];
      apply lookup_singleton_Some in Hk as [<- _].
    + exists 9000%Z. split; [lia|by_compute].
    + exists 53%Z. split; [lia|by_compute].
  - exists diff, azlb', rules. exact (conj H (conj Heq Ha)).
Defined.

Lemma noncanonical_port_diff_witness :
  (∃ azlb', makeUpRules map_to_list (example_azlb [example_rule "Tcp" 443]) {[ "0443" := "svc" ]} ∅
             = Ok (true, azlb')).
Proof.
  assert (∃ r, makeUpRules map_to_list (example_azlb [example_rule "Tcp" 443]) {[ "0443" := "svc" ]} ∅
    = Ok r) as [[diff azlb'] H] by (eexists; reflexivity).
  exists azlb'. rewrite H. do 2 f_equal.
  apply (noncanonical_port_diff map_to_list (example_azlb [example_rule "Tcp" 443])
    (example_props [example_rule "Tcp" 443]) "0443" {[ "0443" := "svc" ]} ∅ diff azlb').
  - reflexivity.
  - constructor; [|constructor]. split; [by eexists|].
    change (is_int32 443). unfold is_int32. lia.
  - intros z Hz Hk. destruct (decide (0 <= z)%Z) as [Hpos|Hneg].
    + unfold is_int32 in Hz. apply (f_equal Strconv.Atoi) in Hk as Ha.
      rewrite Strconv.Atoi_Itoa in Ha by lia. vm_compute in Ha. injection Ha as <-.
      vm_compute in Hk. discriminate Hk.
    + destruct z as [|z|z]; [lia|lia|].
      change (Strconv.Itoa (Z.neg z)) with ("-" +:+ pretty (N.pos z)) in Hk. discriminate Hk.
  - left. rewrite lookup_singleton_eq. by eexists.
  - exact H.
Defined.

Lemma patch_default_rules_witness :
  ∃ added,
    patchAzureLoadBalancerDefaultRules [example_rule "Tcp" 80]
      [example_rule "Tcp" 80; example_rule "Tcp" 443] = Ok (bool_decide (added ≠ []), [example_rule "Tcp" 80] ++ added) ∧
    Forall (λ d, d ∈ rule_brief <$> ([example_rule "Tcp" 80] ++ added))
      [example_rule "Tcp" 80; example_rule "Tcp" 443].
Proof.
  destruct (patch_default_rules [example_rule "Tcp" 80] [example_rule "Tcp" 80; example_rule "Tcp" 443])
    as (added & ? & ? & _).
  - repeat constructor; eexists; reflexivity.
  - repeat constructor; eexists; reflexivity.
  - by exists added.
Defined.
