(* ===== verification/AzureOrder.v ===== *)
(** * Iteration order

    Go visits a map in a random order.  What the Azure provider makes of the
    ports does not depend on it, up to the order of the rules it adds. *)

From S2P Require Import Prelude GoStd AzureNet AzureRules.

(** ** Load balancing rules *)

(** The rule of one port of the map, when it can be made. *)
Definition rule_of (azlb : AzureLB) (protocol : string) (kv : string * string)
    : option LoadBalancingRule :=
  match newRuleWithConfig azlb kv.1 kv.2 protocol with Ok rule => Some rule | _ => None end.

Lemma newRuleWithConfig_calm azlb p port service protocol :
  azlb_Properties azlb = Some p → is_panic (newRuleWithConfig azlb port service protocol) = false.
Proof.
  intros Hp. unfold newRuleWithConfig, lb_properties. rewrite Hp.
  change (mbind ?f (deref (Some ?a))) with (f a). cbv beta. repeat case_match; done.
Qed.

(** The loop adds the rules of the ports it can make one for, one by one. *)
Lemma add_rules_omap azlb p protocol range :
  azlb_Properties azlb = Some p →
  add_rules azlb protocol range = Ok (omap (rule_of azlb protocol) range).
Proof.
  intros Hp. induction range as [|[port service] range IH]; [done|]. cbn [add_rules]. unfold rule_of at 1.
  cbn [omap list_omap fst snd].
  pose proof (newRuleWithConfig_calm azlb p port service protocol Hp) as Hc.
  destruct (newRuleWithConfig azlb port service protocol); [|done..]. by rewrite IH.
Qed.

(** Load balancers that differ in the order of their rules only. *)
Definition same_rules (a1 a2 : AzureLB) : Prop :=
  match azlb_Properties a1, azlb_Properties a2 with
  | Some p1, Some p2 =>
      elems (LoadBalancingRules p1) ≡ₚ elems (LoadBalancingRules p2) ∧
      a1 = with_properties a2 (with_rules p2 (LoadBalancingRules p1))
  | None, None => a1 = a2
  | _, _ => False
  end.

Lemma same_rules_refl a : same_rules a a.
Proof.
  unfold same_rules. destruct (azlb_Properties a) as [p|] eqn:Hp; [|done]. split; [done|].
  destruct a, p. simpl in *. by rewrite Hp.
Qed.

Lemma range_omap {B} (f : string * string → option B) ord1 ord2 (m : ports) :
  map_order ord1 m → map_order ord2 m → omap f ord1 ≡ₚ omap f ord2.
Proof. unfold map_order. intros -> ->. done. Qed.

(** C35: The order in which the maps of ports are visited does not matter: whether
    there is a difference is the same, a panic or an error is the same, and so
    are the rules of the load balancer but for their order. *)
Theorem makeUpRules_order range1 range2 azlb tcp udp :
  (∀ m, map_order (range1 m) m) → (∀ m, map_order (range2 m) m) →
  match makeUpRules range1 azlb tcp udp, makeUpRules range2 azlb tcp udp with
  | Ok (diff1, azlb1), Ok (diff2, azlb2) => diff1 = diff2 ∧ same_rules azlb1 azlb2
  | Err e1, Err e2 => e1 = e2
  | Panic _, Panic _ => True
  | _, _ => False
  end.
Proof.
  intros H1 H2. unfold makeUpRules, lb_properties.
  destruct (azlb_Properties azlb) as [p|] eqn:Hp; [|done].
  change (mbind ?f (deref (Some ?a))) with (f a). cbv beta.
  destruct (remainConstantRules _ tcp udp) as [[[kept diff] [tcp' udp']]| |]; [|done..].
  change (mbind ?f (Ok ?a)) with (f a). cbv beta iota zeta.
  rewrite !(add_rules_omap azlb p) by done. change (mbind ?f (Ok ?a)) with (f a). cbv beta iota.
  unfold mret, result_ret. split; [done|].
  destruct (diff || _ || _); [|apply same_rules_refl]. unfold same_rules. simpl. split; [|done].
  by rewrite (range_omap _ _ _ tcp' (H1 tcp') (H2 tcp')), (range_omap _ _ _ udp' (H1 udp') (H2 udp')).
Qed.

Lemma makeUpRules_order_witness :
  let ports : ports := {[ "80" := ""; "9000" := "svc"; "x" := "bad" ]} in
  (∀ m : AzureRules.ports, map_order (map_to_list m) m) ∧ (∀ m : AzureRules.ports, map_order (rev (map_to_list m)) m) ∧
  match makeUpRules map_to_list (example_azlb example_rules) ports ports,
        makeUpRules (λ m, rev (map_to_list m)) (example_azlb example_rules) ports ports with
  | Ok (diff1, azlb1), Ok (diff2, azlb2) => diff1 = diff2 ∧ same_rules azlb1 azlb2
  | Err e1, Err e2 => e1 = e2
  | Panic _, Panic _ => True
  | _, _ => False
  end.
Proof.
  intros ports. assert (∀ m : AzureRules.ports, map_order (map_to_list m) m) as H1 by apply map_order_self.
  assert (∀ m : AzureRules.ports, map_order (rev (map_to_list m)) m) as H2.
  { intros m. unfold map_order. symmetry. apply Permutation_rev. }
  split; [exact H1|]. split; [exact H2|].
  exact (makeUpRules_order map_to_list (λ m, rev (map_to_list m)) (example_azlb example_rules) ports ports H1 H2).
Defined.
