(* ===== verification/AzureConfig.v ===== *)
(** * providers/azure: the default configuration

    The probes, the backend pool and the frontend the provider wants on its
    Azure load balancer, and how it tells whether they are there. *)

From S2P Require Import Prelude GoStd GoNet Json LbApi AzureNet AzureIds.

Definition azureLoadBalancerFrontendName : string := "LoadBalancerFrontend".
Definition azureLoadBalancerBackendName : string := "LoadBalancerBackend".
Definition ProbeProtocolTCP : string := "Tcp".

(** ** Definitions *)
Definition defaultClusterAzureLBProbes : list Probe :=
  (λ port, {| probe_Name := Some (Strconv.Itoa port); probe_Etag := None; probe_ID := None;
              probe_Properties := Some
                {| pp_LoadBalancingRules := None; pp_Protocol := ProbeProtocolTCP;
                   pp_Port := Some port; pp_IntervalInSeconds := Some 5%Z;
                   pp_NumberOfProbes := Some 3%Z; pp_RequestPath := None;
                   pp_ProvisioningState := None |} |}) <$> [80%Z; 443%Z].

Definition probe_brief (probe : Probe) : result Probe :=
  p ← deref (probe_Properties probe);
  mret {| probe_Name := probe_Name probe; probe_Etag := None; probe_ID := None;
          probe_Properties := Some
            {| pp_LoadBalancingRules := None; pp_Protocol := pp_Protocol p; pp_Port := pp_Port p;
               pp_IntervalInSeconds := pp_IntervalInSeconds p;
               pp_NumberOfProbes := pp_NumberOfProbes p; pp_RequestPath := None;
               pp_ProvisioningState := None |} |}.

Fixpoint probes_brief (probes : list Probe) : result (list Probe) :=
  match probes with
  | [] => mret []
  | probe :: rest => brief ← probe_brief probe; briefs ← probes_brief rest; mret (brief :: briefs)
  end.

Definition getProbesBrief (probes : slice Probe) : result (slice Probe) :=
  match elems probes with
  | [] => mret None
  | l => briefs ← probes_brief l; mret (Some briefs)
  end.

Definition getAzureLoadBalancerFrontendIPConfigByConfig (properties : AzureIPAddressProperties)
    : list FrontendIPConfiguration :=
  [{| fe_Name := Some azureLoadBalancerFrontendName; fe_ID := None;
      fe_Properties := Some
        {| fp_PrivateIPAddress := Private properties ≫= pri_PrivateIPAddress;
           fp_PrivateIPAllocationMethod :=
             default "" (pri_IPAllocationMethod <$> Private properties);
           fp_Subnet := (λ private, {| subnet_ID := Some (pri_SubnetID private);
                                       subnet_other := [] |}) <$> Private properties;
           fp_PublicIPAddress := (λ public, {| pip_ID := pub_PublicIPAddressID public;
                                               pip_Properties := None; pip_other := [] |})
                                 <$> Public properties;
           fp_rest := [] |};
      fe_other := [] |}].

Definition frontend_brief (config : FrontendIPConfiguration) : option FrontendIPConfiguration :=
  (λ format,
     {| fe_Name := fe_Name config; fe_ID := None;
        fe_Properties := Some
          (if bool_decide (fp_PrivateIPAddress format = None) then
             {| fp_PrivateIPAddress := None; fp_PrivateIPAllocationMethod := "";
                fp_Subnet := fp_Subnet format; fp_PublicIPAddress := fp_PublicIPAddress format;
                fp_rest := [] |}
           else
             {| fp_PrivateIPAddress := fp_PrivateIPAddress format;
                fp_PrivateIPAllocationMethod := fp_PrivateIPAllocationMethod format;
                fp_Subnet := fp_Subnet format; fp_PublicIPAddress := None; fp_rest := [] |});
        fe_other := [] |}) <$> fe_Properties config.

Definition getAzureLoadBalancerFrontendIPConfigBrief (ipConfigs : slice FrontendIPConfiguration)
    : slice FrontendIPConfiguration :=
  match elems ipConfigs with
  | [] => None
  | l => Some (omap frontend_brief l)
  end.

(** Neither encoding fails for the types it is used at. *)
Definition isEqual (src dest : json) : bool := bool_decide (src = dest).

Definition default_pool : BackendAddressPool :=
  {| pool_Name := Some azureLoadBalancerBackendName; pool_ID := None; pool_Properties := None;
     pool_other := [] |}.

(** The message logged when there are no backend pools reads through the
    pointer, so a nil pointer panics. *)
Definition ensureSyncDefaultConfigExceptRules (azlb : AzureLB) (lb : LoadBalancer)
    : result (AzureLB * bool) :=
  p ← lb_properties azlb;
  let probes := defaultClusterAzureLBProbes in
  probesBrief ← getProbesBrief (Probes p);
  let probes_equal := isEqual (marshal_list MarshalProbe (Some probes))
                              (marshal_list MarshalProbe probesBrief) in
  pools ← (match BackendAddressPools p with
           | None => nil_dereference
           | Some [] => mret (Some [default_pool])
           | Some pools => mret (Some pools)
           end);
  azure ← deref (Azure (Providers (Spec lb)));
  let frontsConfig :=
    getAzureLoadBalancerFrontendIPConfigByConfig (az_IPAddressProperties azure) in
  let frontsBrief := getAzureLoadBalancerFrontendIPConfigBrief (FrontendIPConfigurations p) in
  let fronts_equal := isEqual (marshal_list MarshalFrontend (Some frontsConfig))
                              (marshal_list MarshalFrontend frontsBrief) in
  mret (with_properties azlb
          {| FrontendIPConfigurations :=
               if fronts_equal then FrontendIPConfigurations p else Some frontsConfig;
             BackendAddressPools := pools;
             LoadBalancingRules := LoadBalancingRules p;
             Probes := if probes_equal then Probes p else Some probes;
             azlb_ProvisioningState := azlb_ProvisioningState p;
             azlb_rest := azlb_rest p |},
        negb probes_equal || bool_decide (elems (BackendAddressPools p) = []) || negb fronts_equal).

Definition initClusterAzureLoadBalancerObject (lb : LoadBalancer) (clusterID : string)
    : result AzureLB :=
  azure ← deref (Azure (Providers (Spec lb)));
  let lbName := if bool_decide (az_Name azure = "") then getAzureLBName (lb_Name lb) clusterID
                else az_Name azure in
  mret {| azlb_Name := Some lbName; azlb_Location := Some (az_Location azure);
          azlb_Sku := Some (az_SKU azure);
          azlb_Properties := Some
            {| FrontendIPConfigurations :=
                 Some (getAzureLoadBalancerFrontendIPConfigByConfig (az_IPAddressProperties azure));
               BackendAddressPools := None; LoadBalancingRules := None; Probes := None;
               azlb_ProvisioningState := None; azlb_rest := [] |};
          azlb_other := [] |}.

(** ** The configuration settles *)
Definition static (azure : AzureProvider) : Prop :=
  match Private (az_IPAddressProperties azure) with
  | Some private => pri_IPAllocationMethod private = "Static"
  | None => True
  end.

(** A validated provider has a private or a public address, not both. *)
Lemma ValidateAzure_address azure :
  ValidateAzure azure = Ok () →
  match Private (az_IPAddressProperties azure), Public (az_IPAddressProperties azure) with
  | Some private, None => ValidatePrivate private = Ok ()
  | None, Some public => ValidatePublic public = Ok ()
  | _, _ => False
  end.
Proof.
  unfold ValidateAzure. intros H. open_checks H.
  by destruct (Private (az_IPAddressProperties azure)), (Public (az_IPAddressProperties azure)).
Qed.

(** A static private address is given. *)
Lemma ValidatePrivate_static private :
  ValidatePrivate private = Ok () → pri_IPAllocationMethod private = "Static" →
  is_Some (pri_PrivateIPAddress private).
Proof.
  unfold ValidatePrivate. intros H Hstatic. open_checks H.
  rewrite bool_decide_true in H by done. by destruct (pri_PrivateIPAddress private).
Qed.

Lemma frontend_brief_config azure :
  ValidateAzure azure = Ok () → static azure →
  omap frontend_brief
    (getAzureLoadBalancerFrontendIPConfigByConfig (az_IPAddressProperties azure)) =
  getAzureLoadBalancerFrontendIPConfigByConfig (az_IPAddressProperties azure).
Proof.
  intros H%ValidateAzure_address Hstatic. unfold static in Hstatic.
  destruct (az_IPAddressProperties azure) as [[private|] [public|]]; simpl in *; try done.
  destruct (ValidatePrivate_static private H Hstatic) as [ip Hip].
  unfold frontend_brief. simpl. rewrite bool_decide_false by by rewrite Hip. done.
Qed.

(** A private address that Azure is to choose does not survive the brief: the
    allocation method is only kept next to an address. *)
Lemma frontend_brief_dynamic azure private fronts :
  Private (az_IPAddressProperties azure) = Some private →
  pri_IPAllocationMethod private ≠ "" → pri_PrivateIPAddress private = None →
  isEqual
    (marshal_list MarshalFrontend
       (Some (getAzureLoadBalancerFrontendIPConfigByConfig (az_IPAddressProperties azure))))
    (marshal_list MarshalFrontend (getAzureLoadBalancerFrontendIPConfigBrief fronts)) = false.
Proof.
  intros Hp Hm Hip. unfold isEqual. apply bool_decide_eq_false. intros Heq.
  destruct (getAzureLoadBalancerFrontendIPConfigBrief fronts) as [briefs|] eqn:E; [|done].
  unfold marshal_list in Heq. injection Heq as Heq.
  destruct briefs as [|brief [|]]; [done| |done]. simpl in Heq. injection Heq as Heq.
  assert (brief ∈ omap frontend_brief (elems fronts)) as Hin.
  { unfold getAzureLoadBalancerFrontendIPConfigBrief in E.
    destruct (elems fronts) as [|f l]; [done|].
    assert (omap frontend_brief (f :: l) = [brief]) as -> by congruence. by left. }
  apply list_elem_of_omap in Hin as (g & _ & Hg). unfold frontend_brief in Hg.
  destruct (fe_Properties g) as [fmt|]; [|done]. simpl in Hg. injection Hg as <-.
  unfold MarshalFrontend in Heq. simpl in Heq. rewrite Hp in Heq. simpl in Heq.
  rewrite Hip in Heq. unfold member_str in Heq. rewrite (bool_decide_false _ Hm) in Heq.
  destruct (fe_Name g); simpl in Heq; [|done].
  destruct (fp_PrivateIPAddress fmt); simpl in Heq; [done|].
  destruct (fp_Subnet fmt), (fp_PublicIPAddress fmt); simpl in Heq; done.
Qed.

Lemma getProbesBrief_default :
  getProbesBrief (Some defaultClusterAzureLBProbes) = Ok (Some defaultClusterAzureLBProbes).
Proof. reflexivity. Qed.

(** Nothing of the kind of a default probe is cut off by the brief. *)
Lemma probes_brief_ok probes :
  Forall (λ p, is_Some (probe_Properties p)) probes → ∃ briefs, probes_brief probes = Ok briefs.
Proof.
  induction 1 as [|probe probes [p Hp] _ [briefs IH]]; [by eexists|].
  cbn [probes_brief]. unfold probe_brief. rewrite Hp, IH. by eexists.
Qed.

(** Everything the provider reads of the load balancer is there. *)
Definition readable (p : LBProperties) : Prop :=
  is_Some (BackendAddressPools p) ∧
  Forall (λ pr, is_Some (probe_Properties pr)) (elems (Probes p)).

(** The load balancer has the default probes and frontend, and a backend pool. *)
Definition configured (azure : AzureProvider) (p : LBProperties) : Prop :=
  elems (BackendAddressPools p) ≠ [] ∧
  (∃ briefs, getProbesBrief (Probes p) = Ok briefs ∧
     isEqual (marshal_list MarshalProbe (Some defaultClusterAzureLBProbes))
             (marshal_list MarshalProbe briefs) = true) ∧
  isEqual
    (marshal_list MarshalFrontend
       (Some (getAzureLoadBalancerFrontendIPConfigByConfig (az_IPAddressProperties azure))))
    (marshal_list MarshalFrontend
       (getAzureLoadBalancerFrontendIPConfigBrief (FrontendIPConfigurations p))) = true.

Lemma configured_unchanged azlb lb azure p :
  azlb_Properties azlb = Some p → Azure (Providers (Spec lb)) = Some azure →
  configured azure p → ensureSyncDefaultConfigExceptRules azlb lb = Ok (azlb, false).
Proof.
  intros Hp Ha (Hpools & (briefs & Hbriefs & Hprobes) & Hfronts).
  unfold ensureSyncDefaultConfigExceptRules, lb_properties. rewrite Hp, Ha.
  change (mbind ?f (deref (Some ?a))) with (f a). cbv beta zeta. rewrite Hbriefs.
  change (mbind ?f (Ok ?a)) with (f a). cbv beta. rewrite Hprobes.
  destruct (BackendAddressPools p) as [[|b bs]|] eqn:Hb; [done| |done].
  change (mbind ?f (mret ?a)) with (f a). cbv beta.
  change (mbind ?f (deref (Some ?a))) with (f a). cbv beta. rewrite Hfronts.
  unfold mret, result_ret. simpl. do 2 f_equal.
  destruct azlb, p. simpl in *. by simplify_eq.
Qed.

(** C23: The default configuration settles for every provider that passes
    validation and does not leave a private address to Azure.  The first call
    repairs probes, backend pool and frontend and leaves the rest alone; what it
    returns is configured, so a second call changes nothing.  When the load
    balancer was configured already the first call changes nothing either. *)
Theorem default_config_settles azlb lb azure p :
  azlb_Properties azlb = Some p → readable p →
  Azure (Providers (Spec lb)) = Some azure → ValidateAzure azure = Ok () → static azure →
  ∃ p' change,
    ensureSyncDefaultConfigExceptRules azlb lb = Ok (with_properties azlb p', change) ∧
    configured azure p' ∧ LoadBalancingRules p' = LoadBalancingRules p ∧
    ensureSyncDefaultConfigExceptRules (with_properties azlb p') lb =
      Ok (with_properties azlb p', false) ∧
    (change = false ↔ configured azure p).
Proof.
  intros Hp [[pools Hpools] Hprobes] Ha Hv Hs.
  destruct (probes_brief_ok _ Hprobes) as [briefs Hbriefs].
  assert (∃ briefs, getProbesBrief (Probes p) = Ok briefs) as [bs Hbs].
  { unfold getProbesBrief. destruct (elems (Probes p)); [by eexists|]. rewrite Hbriefs. by eexists. }
  pose proof (frontend_brief_config azure Hv Hs) as Hfix.
  unfold ensureSyncDefaultConfigExceptRules at 1, lb_properties. rewrite Hp, Ha.
  change (mbind ?f (deref (Some ?a))) with (f a). cbv beta zeta. rewrite Hbs.
  change (mbind ?f (Ok ?a)) with (f a). cbv beta. rewrite Hpools.
  set (probes_equal := isEqual (marshal_list MarshalProbe _) _).
  set (pools' := match pools with [] => [default_pool] | _ => pools end).
  assert (∀ f : slice BackendAddressPool → result (AzureLB * bool),
    mbind f (match pools with [] => mret (Some [default_pool]) | _ :: _ => mret (Some pools) end)
    = f (Some pools')) as -> by by destruct pools.
  change (mbind ?f (deref (Some ?a))) with (f a). cbv beta zeta.
  set (fronts_equal := isEqual (marshal_list MarshalFrontend _) _).
  match goal with |- context [with_properties azlb ?q] => set (p' := q) end.
  assert (configured azure p') as Hconf.
  { unfold configured, p'. cbn [BackendAddressPools Probes FrontendIPConfigurations]. split_and!.
    - by destruct pools.
    - destruct probes_equal eqn:E; [by exists bs|]. eexists. split; [apply getProbesBrief_default|].
      by apply bool_decide_eq_true.
    - destruct fronts_equal eqn:E; [exact E|]. apply bool_decide_eq_true.
      unfold getAzureLoadBalancerFrontendIPConfigBrief. simpl elems. cbv iota.
      by rewrite <-Hfix at 1. }
  eexists p', _. split_and!; [done|done|done|by eapply configured_unchanged|].
  split.
  - intros [[Hpe Hb]%orb_false_iff Hf]%orb_false_iff. apply negb_false_iff in Hpe, Hf.
    apply bool_decide_eq_false in Hb. rewrite <-Hpools in Hb. split_and!; [done|by exists bs|done].
  - intros (Hb & (bs' & Hbs' & He) & Hf). rewrite Hbs in Hbs'. injection Hbs' as <-.
    fold probes_equal in He. fold fronts_equal in Hf. rewrite He, Hf.
    rewrite bool_decide_false; [done|]. by rewrite <-Hpools.
Qed.

(** A private address that is left to Azure passes validation, but the default
    configuration never settles: whatever Azure reports, the frontend counts as
    changed at every sync, which clears the rules of the load balancer and
    updates it again. *)
Theorem dynamic_address_never_settles azlb lb azure private azlb' change :
  Azure (Providers (Spec lb)) = Some azure →
  Private (az_IPAddressProperties azure) = Some private →
  pri_IPAllocationMethod private = "Dynamic" → pri_PrivateIPAddress private = None →
  ensureSyncDefaultConfigExceptRules azlb lb = Ok (azlb', change) → change = true.
Proof.
  intros Ha Hp Hm Hip. unfold ensureSyncDefaultConfigExceptRules. rewrite Ha.
  destruct (lb_properties azlb) as [p| |]; [|done..].
  change (mbind ?f (Ok ?a)) with (f a). cbv beta zeta.
  destruct (getProbesBrief (Probes p)) as [briefs| |]; [|done..].
  change (mbind ?f (Ok ?a)) with (f a). cbv beta.
  destruct (BackendAddressPools p) as [[|b bs]|]; [..|done];
    change (mbind ?f (mret ?a)) with (f a); cbv beta;
    change (mbind ?f (deref (Some ?a))) with (f a); cbv beta zeta;
    rewrite (frontend_brief_dynamic azure private) by (done || by rewrite Hm);
    intros [= <- <-]; apply orb_true_r.
Qed.

(** ** Witnesses *)
Definition example_azure (method : string) (ip : option string) : AzureProvider :=
  {| az_Name := "lb-1"; az_ResourceGroupName := "group"; az_Location := "chinaeast";
     az_SKU := "Basic"; az_ClusterID := "cluster"; az_ReserveAzure := None;
     az_IPAddressProperties :=
       {| Private := Some {| pri_IPAllocationMethod := method; pri_VPCID := "vpc";
                             pri_SubnetID := "/subnets/s"; pri_PrivateIPAddress := ip |};
          Public := None |} |}.

Definition azure_lb (azure : option AzureProvider) : LoadBalancer :=
  {| lb_Namespace := "default"; lb_Name := "lb"; lb_ResourceVersion := "1";
     lb_DeletionTimestamp := None; lb_Finalizers := None;
     Spec := {| Nodes := {| Replicas := None; Names := Some ["n1"]; Effect := None |};
                Proxy := {| ProxyType := "nginx"; HTTPPort := 80; HTTPSPort := 443 |};
                Providers := {| External := None; Ipvsdr := None; Azure := azure |} |};
     Status := {| lb_ProxyStatus := {| TCPConfigMap := "tcp"; UDPConfigMap := "udp" |};
                  Vrid := None; AzureStatus := None; lb_NodeStatuses := None |} |}.

(** What Azure returns for a load balancer without probes and pools. *)
Definition bare_properties : LBProperties :=
  {| FrontendIPConfigurations := None; BackendAddressPools := Some [];
     LoadBalancingRules := Some []; Probes := Some [];
     azlb_ProvisioningState := Some "Succeeded"; azlb_rest := [] |}.

Lemma default_config_settles_witness :
  let azure := example_azure "Static" (Some "10.0.0.7") in
  ∃ p' change,
    ensureSyncDefaultConfigExceptRules (with_properties zero_lb bare_properties)
      (azure_lb (Some azure)) = Ok (with_properties zero_lb p', change) ∧
    ensureSyncDefaultConfigExceptRules (with_properties zero_lb p') (azure_lb (Some azure)) =
      Ok (with_properties zero_lb p', false) ∧ change = true.
Proof.
  intros azure.
  destruct (default_config_settles (with_properties zero_lb bare_properties)
    (azure_lb (Some azure)) azure bare_properties) as (p' & change & H & _ & _ & Hagain & Hc).
  - reflexivity.
  - split; [by eexists|constructor].
  - reflexivity.
  - vm_compute. reflexivity.
  - reflexivity.
  - exists p', change. split_and!; [exact H|exact Hagain|].
    destruct change; [reflexivity|]. destruct (proj1 Hc eq_refl) as [Hb _]. by destruct Hb.
Defined.

Lemma dynamic_address_never_settles_witness :
  ∃ azlb', ensureSyncDefaultConfigExceptRules (with_properties zero_lb bare_properties)
    (azure_lb (Some (example_azure "Dynamic" None))) = Ok (azlb', true) ∧
    ValidateAzure (example_azure "Dynamic" None) = Ok ().
Proof.
  assert (∃ r, ensureSyncDefaultConfigExceptRules (with_properties zero_lb bare_properties)
    (azure_lb (Some (example_azure "Dynamic" None))) = Ok r) as [[azlb' change] H]
    by (eexists; reflexivity).
  exists azlb'. split; [|vm_compute; reflexivity]. rewrite H. do 2 f_equal.
  apply (dynamic_address_never_settles (with_properties zero_lb bare_properties)
    (azure_lb (Some (example_azure "Dynamic" None))) (example_azure "Dynamic" None)
    {| pri_IPAllocationMethod := "Dynamic"; pri_VPCID := "vpc"; pri_SubnetID := "/subnets/s";
       pri_PrivateIPAddress := None |} azlb' change); [reflexivity..|exact H].
Defined.
