(* ===== verification/AzureSecurity.v ===== *)
(** * providers/azure/loadbalancer.go: security groups

    The rules of a network security group that carry one of the provider's
    prefixes are made to follow the ports; the rules of others stay.  A new rule
    needs a priority that no other rule of the group has. *)

From S2P Require Import Prelude GoStd AzureNet AzureIds.

Definition maxSecurityGroupPriority : Z := 4096.
Definition defaultSecurityGroupPriorityStart : Z := 1000.
Definition defaultSecurityGroupPriorityIncrease : Z := 10.
Definition securityGroupTCPPrefix : string := "cps-lb-tcp-".
Definition securityGroupUDPPrefix : string := "cps-lb-udp-".

Abbreviation ports := (gmap string string).

(** ** One rule *)
Definition getDefaultSecurityGroupRule (prefix port : string) (priority : option Z) : SecurityRule :=
  {| sr_Name := Some (prefix +:+ port);
     sr_Properties := Some
       {| sp_Description := Some "use for cps";
          sp_Protocol := if bool_decide (prefix = securityGroupUDPPrefix) then "Udp" else "Tcp";
          sp_SourcePortRange := Some "*";
          sp_DestinationPortRange := Some port;
          sp_SourceAddressPrefix := Some "*";
          sp_DestinationAddressPrefix := Some "*";
          sp_Access := "Allow";
          sp_Priority := priority;
          sp_Direction := "Inbound";
          sp_rest := [] |};
     sr_other := [] |}.

Definition getSecurityGroupRuleBrief (rule : SecurityRule) (p : SecurityRuleProperties) : SecurityRule :=
  {| sr_Name := sr_Name rule;
     sr_Properties := Some
       {| sp_Description := sp_Description p; sp_Protocol := sp_Protocol p;
          sp_SourcePortRange := sp_SourcePortRange p;
          sp_DestinationPortRange := sp_DestinationPortRange p;
          sp_SourceAddressPrefix := sp_SourceAddressPrefix p;
          sp_DestinationAddressPrefix := sp_DestinationAddressPrefix p;
          sp_Access := sp_Access p; sp_Priority := sp_Priority p;
          sp_Direction := sp_Direction p; sp_rest := [] |};
     sr_other := [] |}.

(** The fields that are not copied keep their values. *)
Definition copySecurityGroup (dst src : SecurityRule) : result SecurityRule :=
  d ← deref (sr_Properties dst);
  s ← deref (sr_Properties src);
  mret {| sr_Name := sr_Name src;
          sr_Properties := Some
            {| sp_Description := sp_Description s; sp_Protocol := sp_Protocol s;
               sp_SourcePortRange := sp_SourcePortRange s;
               sp_DestinationPortRange := sp_DestinationPortRange s;
               sp_SourceAddressPrefix := sp_SourceAddressPrefix s;
               sp_DestinationAddressPrefix := sp_DestinationAddressPrefix s;
               sp_Access := sp_Access s; sp_Priority := sp_Priority s;
               sp_Direction := sp_Direction s; sp_rest := sp_rest d |};
          sr_other := sr_other dst |}.

Definition ensureSettingDefaultRules (rule : SecurityRule) (prefix : string)
    : result (bool * SecurityRule) :=
  p ← deref (sr_Properties rule);
  let defaultRule :=
    getDefaultSecurityGroupRule prefix (to_String (sp_DestinationPortRange p)) (sp_Priority p) in
  if bool_decide (defaultRule = getSecurityGroupRuleBrief rule p) then mret (false, rule)
  else (rule' ← copySecurityGroup rule defaultRule; mret (true, rule')).

(** Whether the rule was modified, whether it stays, the rule, and the maps from
    which the port of a rule that stays was deleted. *)
Definition ensureSyncWithDefaultSetting (rule : SecurityRule) (tcp udp : ports)
    : result (bool * bool * SecurityRule * (ports * ports)) :=
  if GoStrings.HasPrefix (to_String (sr_Name rule)) securityGroupTCPPrefix then
    p ← deref (sr_Properties rule);
    let port := to_String (sp_DestinationPortRange p) in
    if bool_decide (tcp !! port = None) then mret (true, false, rule, (tcp, udp))
    else ('(change, rule') ← ensureSettingDefaultRules rule securityGroupTCPPrefix;
          mret (change, true, rule', (delete port tcp, udp)))
  else if GoStrings.HasPrefix (to_String (sr_Name rule)) securityGroupUDPPrefix then
    p ← deref (sr_Properties rule);
    let port := to_String (sp_DestinationPortRange p) in
    if bool_decide (udp !! port = None) then mret (true, false, rule, (tcp, udp))
    else ('(change, rule') ← ensureSettingDefaultRules rule securityGroupUDPPrefix;
          mret (change, true, rule', (tcp, delete port udp)))
  else mret (false, true, rule, (tcp, udp)).

(** ** Priorities *)
Section security.
Context (range_map : ports → list (string * string)) (range_set : gset Z → list Z).

(** The loop ends after [311] turns: [search] starts with more. *)
Fixpoint search (fuel : nat) (priority : Z) (used : gset Z) : result Z :=
  match fuel with
  | 0 => Panic "out of fuel"
  | S fuel =>
      if bool_decide (maxSecurityGroupPriority < priority)%Z then
        Err (ErrorString
          "get valid priority failed, suggest to delete useless rule from cps")
      else if bool_decide (priority ∈ used) then
        search fuel (priority + defaultSecurityGroupPriorityIncrease) used
      else mret priority
  end.

(** A deleted priority is used first; [del] loses it. *)
Definition getValidPriority (used del : gset Z) : result (Z * gset Z) :=
  match range_set del with
  | pri :: _ => mret (pri, del ∖ {[pri]})
  | [] => priority ← search 400 defaultSecurityGroupPriorityStart used; mret (priority, del)
  end.

(** ** One security group *)
Record visited := {
  newRules : list SecurityRule;
  sgUsedPriority : gset Z;
  sgDeletePriority : gset Z;
  changed : bool;
}.

Fixpoint visit_rules (rules : list SecurityRule) (v : visited) (tcp udp : ports)
    : result (visited * (ports * ports)) :=
  match rules with
  | [] => mret (v, (tcp, udp))
  | rule :: rest =>
      '(modify, remain, rule, (tcp, udp)) ← ensureSyncWithDefaultSetting rule tcp udp;
      p ← deref (sr_Properties rule);
      let priority := to_Int32 (sp_Priority p) in
      visit_rules rest
        (if remain : bool then
           {| newRules := newRules v ++ [rule];
              sgUsedPriority := {[priority]} ∪ sgUsedPriority v;
              sgDeletePriority := sgDeletePriority v; changed := modify || changed v |}
         else
           {| newRules := newRules v; sgUsedPriority := sgUsedPriority v;
              sgDeletePriority := {[priority]} ∪ sgDeletePriority v;
              changed := modify || changed v |})
        tcp udp
  end.

Fixpoint add_ports (prefix : string) (range : list (string * string)) (v : visited)
    : result visited :=
  match range with
  | [] => mret v
  | (port, _) :: rest =>
      '(priority, del) ← getValidPriority (sgUsedPriority v) (sgDeletePriority v);
      add_ports prefix rest
        {| newRules := newRules v ++ [getDefaultSecurityGroupRule prefix port (Some priority)];
           sgUsedPriority := {[priority]} ∪ sgUsedPriority v;
           sgDeletePriority := del; changed := changed v |}
  end.

Definition nothing_visited : visited :=
  {| newRules := []; sgUsedPriority := ∅; sgDeletePriority := ∅; changed := false |}.

(** What one turn of [ensureSyncRulesToSecurityGroups] makes of the rules of a
    group: whether to update it, its new rules, and the maps it leaves to the
    next group. *)
Definition sync_group_rules (rules : list SecurityRule) (tcp udp : ports)
    : result (bool * list SecurityRule * (ports * ports)) :=
  '(v, (tcp, udp)) ← visit_rules rules nothing_visited tcp udp;
  let change := changed v || bool_decide (udp ≠ ∅) || bool_decide (tcp ≠ ∅) in
  v ← add_ports securityGroupUDPPrefix (range_map udp) v;
  v ← add_ports securityGroupTCPPrefix (range_map tcp) v;
  mret (change, newRules v, (tcp, udp)).

(** ** The groups in the cloud *)
Context {E : Type} `{!AzureSDK E} (range_ids : gset string → list string) (c : Config).

Definition with_security_rules (sg : SecurityGroup) (rules : slice SecurityRule) : SecurityGroup :=
  {| sg_ID := sg_ID sg;
     sg_Properties := (λ p, {| SecurityRules := rules; sg_rest := sg_rest p |}) <$> sg_Properties sg;
     sg_other := sg_other sg |}.

(** The length of [*sg.SecurityRules] is taken before the pointer is checked. *)
Fixpoint sync_groups (sgIDs : list string) (tcp udp : ports) : prog E () :=
  match sgIDs with
  | [] => mret ()
  | sgID :: rest =>
      '(groupName, name) ← lift (getGroupAndResourceNameFromID sgID azureSecurityGroups);
      sg ← SecurityGroups_Get c groupName name;
      p ← lift (deref (sg_Properties sg));
      rules ← lift (deref (SecurityRules p));
      '(change, rules, (tcp, udp)) ← lift (sync_group_rules rules tcp udp);
      _ ← (if change : bool then
             SecurityGroups_CreateOrUpdate c groupName name (with_security_rules sg (Some rules))
           else mret sg);
      sync_groups rest tcp udp
  end.

Definition ensureSyncRulesToSecurityGroups (sgIDs : gset string) (tcp udp : ports) : prog E () :=
  sync_groups (range_ids sgIDs) tcp udp.

Definition managed_name (name : string) : bool :=
  GoStrings.HasPrefix name securityGroupTCPPrefix ||
  GoStrings.HasPrefix name securityGroupUDPPrefix.

Definition deleteUselessSecurityRules (sgIDs : gset string) : prog E () :=
  for_each (range_ids sgIDs) (λ sgID,
    '(groupName, name) ← lift (getGroupAndResourceNameFromID sgID azureSecurityGroups);
    sg ← SecurityGroups_Get c groupName name;
    p ← lift (deref (sg_Properties sg));
    let rules := elems (SecurityRules p) in
    if bool_decide (Exists (λ r, managed_name (to_String (sr_Name r)) = true) rules) then
      _ ← SecurityGroups_CreateOrUpdate c groupName name
            (with_security_rules sg
               (Some (filter (λ r, managed_name (to_String (sr_Name r)) = false) rules)));
      mret ()
    else mret ()).

Definition getSecurityGroupIDFromNetWork (network : string) : prog E string :=
  '(groupName, name) ← lift (getGroupAndResourceNameFromID network azureNetworkInterfaces);
  net ← Interfaces_Get c groupName name;
  p ← lift (deref (nic_Properties net));
  match NetworkSecurityGroup p with
  | None => fail (ErrorString ("network " +:+ network +:+ " has no network security group"))
  | Some sg => mret (to_String (ref_ID sg))
  end.

Fixpoint security_groups_of (networks : list string) : prog E (gset string) :=
  match networks with
  | [] => mret ∅
  | network :: rest =>
      sg ← getSecurityGroupIDFromNetWork network;
      sgs ← security_groups_of rest;
      mret ({[sg]} ∪ sgs)
  end.

Definition getSuitableSecurityGroup (detachs : list string) (networks : gset string)
    : prog E (gset string * gset string) :=
  deleteSg ← security_groups_of detachs;
  syncSg ← security_groups_of (range_ids networks);
  mret (deleteSg ∖ syncSg, syncSg).

Definition syncSecurityGroupRules (tcp udp : ports) (detachs : list string)
    (networks : gset string) : prog E () :=
  '(deleteSg, syncSg) ← getSuitableSecurityGroup detachs networks;
  _ ← deleteUselessSecurityRules deleteSg;
  ensureSyncRulesToSecurityGroups syncSg tcp udp.
End security.
