(* ===== verification/AzureSecurityFacts.v ===== *)
(** * Security groups: properties

    The priorities the provider gives out, and what one turn of
    [ensureSyncRulesToSecurityGroups] makes of the rules of a group. *)

From S2P Require Import Prelude GoStd AzureNet AzureIds AzureSecurity.

(** ** Priorities *)

(** The [i]-th priority that is tried. *)
Definition priority_at (i : nat) : Z :=
  (defaultSecurityGroupPriorityStart + defaultSecurityGroupPriorityIncrease * Z.of_nat i)%Z.

(** How many of them there are. *)
Definition priorities : nat := 310.

Lemma search_spec fuel i used :
  (i <= priorities) → (priorities < fuel + i) →
  (∃ j, i <= j < priorities ∧ (priority_at j ∉ used) ∧
     (∀ k, i <= k < j → priority_at k ∈ used) ∧
     search fuel (priority_at i) used = Ok (priority_at j)) ∨
  ((∀ k, i <= k < priorities → priority_at k ∈ used) ∧
   ∃ e, search fuel (priority_at i) used = Err e).
Proof.
  unfold priorities. revert i. induction fuel as [|fuel IH]; intros i Hi Hf; [lia|]. cbn [search].
  case_bool_decide as Hmax.
  { unfold maxSecurityGroupPriority, priority_at, defaultSecurityGroupPriorityStart,
      defaultSecurityGroupPriorityIncrease in Hmax.
    right. split; [intros k ?; lia|by eexists]. }
  assert (i < 310) as Hlt.
  { unfold maxSecurityGroupPriority, priority_at, defaultSecurityGroupPriorityStart,
      defaultSecurityGroupPriorityIncrease in Hmax. lia. }
  case_bool_decide as Hin.
  - replace (priority_at i + defaultSecurityGroupPriorityIncrease)%Z with (priority_at (S i))
      by (unfold priority_at; lia).
    destruct (IH (S i)) as [(j & Hj & Hnot & Hall & ->)|[Hall He]]; [lia..| |].
    + left. exists j. split_and!; [lia|lia|done| |done].
      intros k Hk. destruct (decide (k = i)) as [->|]; [done|]. apply Hall. lia.
    + right. split; [|done]. intros k Hk. destruct (decide (k = i)) as [->|]; [done|].
      apply Hall. lia.
  - left. exists i. split_and!; [lia|done|done|intros; lia|done].
Qed.

Section priorities.
Context (range_set : gset Z → list Z) (range_set_order : ∀ s, set_order (range_set s) s).

(** C38: [getValidPriority] gives out a deleted priority when there is one, which is
    then deleted no more.  Otherwise it gives out the first of the 310
    priorities 1000, 1010, ..., 4090 that is not used, and fails exactly when
    all of them are. *)
Theorem getValidPriority_spec used del :
  match getValidPriority range_set used del with
  | Ok (priority, del') =>
      (priority ∈ del ∧ del' = del ∖ {[priority]}) ∨
      (del = ∅ ∧ del' = ∅ ∧ ∃ i, i < priorities ∧ priority = priority_at i ∧
         (priority ∉ used) ∧ ∀ k, k < i → priority_at k ∈ used)
  | Err _ => del = ∅ ∧ ∀ k, k < priorities → priority_at k ∈ used
  | Panic _ => False
  end.
Proof.
  unfold getValidPriority. pose proof (range_set_order del) as Hr.
  destruct (range_set del) as [|pri l] eqn:E.
  - assert (del = ∅) as ->.
    { apply leibniz_equiv, elements_empty_inv. unfold set_order in Hr.
      by apply Permutation_nil_l in Hr. }
    change defaultSecurityGroupPriorityStart with (priority_at 0).
    destruct (search_spec 400 0 used) as [(j & Hj & Hnot & Hall & ->)|[Hall [e ->]]];
      [unfold priorities; lia..| |].
    + right. split_and!; [done|done|]. exists j. split_and!; [lia|done|done|].
      intros k Hk. apply Hall. lia.
    + split; [done|]. intros k Hk. apply Hall. lia.
  - left. split; [|done]. apply (set_order_elem _ _ _ Hr). by left.
Qed.

(** There is a priority as long as fewer than 310 are used. *)
Lemma getValidPriority_Ok used del :
  (size used < priorities) → ∃ r, getValidPriority range_set used del = Ok r.
Proof.
  intros Hsize. pose proof (getValidPriority_spec used del) as H.
  destruct (getValidPriority range_set used del) as [r| |]; [by exists r| |done].
  exfalso. destruct H as [_ Hall].
  assert (list_to_set (priority_at <$> seq 0 priorities) ⊆ used) as Hsub.
  { intros p Hp. apply elem_of_list_to_set, list_elem_of_fmap in Hp as (k & -> & Hk).
    apply Hall. apply elem_of_seq in Hk. lia. }
  apply subseteq_size in Hsub. rewrite size_list_to_set in Hsub.
  - rewrite length_fmap, length_seq in Hsub. lia.
  - apply NoDup_fmap_2; [|apply NoDup_seq]. intros i j. unfold priority_at,
      defaultSecurityGroupPriorityStart, defaultSecurityGroupPriorityIncrease. lia.
Qed.

(** A priority that was given out is new. *)
Lemma getValidPriority_fresh used del priority del' :
  getValidPriority range_set used del = Ok (priority, del') → used ## del →
  (priority ∉ used) ∧ ({[priority]} ∪ used) ## del'.
Proof.
  intros H Hd. pose proof (getValidPriority_spec used del) as Hs. rewrite H in Hs.
  destruct Hs as [[Hin ->]|(-> & -> & i & _ & -> & Hnot & _)]; set_solver.
Qed.
End priorities.

(** ** A rule of the provider *)
Definition prefixes : list string := [securityGroupTCPPrefix; securityGroupUDPPrefix].

Definition prefix_of (r : SecurityRule) : option string :=
  if GoStrings.HasPrefix (to_String (sr_Name r)) securityGroupTCPPrefix then Some securityGroupTCPPrefix
  else if GoStrings.HasPrefix (to_String (sr_Name r)) securityGroupUDPPrefix then
    Some securityGroupUDPPrefix
  else None.

Definition has_properties (r : SecurityRule) : Prop := is_Some (sr_Properties r).

Definition destination (r : SecurityRule) : string :=
  match sr_Properties r with Some p => to_String (sp_DestinationPortRange p) | None => "" end.

Definition priority_of (r : SecurityRule) : Z :=
  match sr_Properties r with Some p => to_Int32 (sp_Priority p) | None => 0 end.

(** The default rule with what the provider does not look at. *)
Definition normalized (prefix : string) (r : SecurityRule) : SecurityRule :=
  match sr_Properties r, sr_Properties
    (getDefaultSecurityGroupRule prefix (destination r) (sr_Properties r ≫= sp_Priority)) with
  | Some p, Some s =>
      {| sr_Name := Some (prefix +:+ destination r);
         sr_Properties := Some
           {| sp_Description := sp_Description s; sp_Protocol := sp_Protocol s;
              sp_SourcePortRange := sp_SourcePortRange s;
              sp_DestinationPortRange := sp_DestinationPortRange s;
              sp_SourceAddressPrefix := sp_SourceAddressPrefix s;
              sp_DestinationAddressPrefix := sp_DestinationAddressPrefix s;
              sp_Access := sp_Access s; sp_Priority := sp_Priority s;
              sp_Direction := sp_Direction s; sp_rest := sp_rest p |};
         sr_other := sr_other r |}
  | _, _ => r
  end.

(** [r] has the default settings for a port. *)
Definition default_for (prefix port : string) (r : SecurityRule) : Prop :=
  match sr_Properties r with
  | Some p => getSecurityGroupRuleBrief r p = getDefaultSecurityGroupRule prefix port (sp_Priority p)
  | None => False
  end.

#[export] Instance default_for_dec prefix port r : Decision (default_for prefix port r).
Proof. unfold default_for. destruct (sr_Properties r); apply _. Defined.

Definition user_rule (r : SecurityRule) : Prop := prefix_of r = None.

#[export] Instance user_rule_dec r : Decision (user_rule r).
Proof. unfold user_rule. apply _. Defined.

Lemma ensureSettingDefaultRules_eq r prefix :
  has_properties r →
  ensureSettingDefaultRules r prefix = Ok (bool_decide (normalized prefix r ≠ r), normalized prefix r).
Proof.
  destruct r as [name [p|] other]; intros [? [=]]. destruct p.
  unfold ensureSettingDefaultRules, copySecurityGroup, normalized, getDefaultSecurityGroupRule,
    getSecurityGroupRuleBrief, destination. simpl.
  case_bool_decide as H.
  - simplify_eq. destruct sp_DestinationPortRange; [|done]. simpl.
    rewrite (bool_decide_false (_ ≠ _)); [done|]. intros Hn. by apply Hn.
  - unfold mbind, result_bind, mret, result_ret. rewrite (bool_decide_true (_ ≠ _)); [done|].
    intros Heq. apply H. destruct sp_DestinationPortRange; by simplify_eq/=.
Qed.

Lemma prefix_of_app prefix s :
  prefix ∈ prefixes →
  (if GoStrings.HasPrefix (prefix +:+ s) securityGroupTCPPrefix then Some securityGroupTCPPrefix
   else if GoStrings.HasPrefix (prefix +:+ s) securityGroupUDPPrefix then Some securityGroupUDPPrefix
   else None) = Some prefix.
Proof. unfold prefixes. intros. decompose_list_elem_of; subst; simpl; by destruct s. Qed.

Lemma prefix_of_prefixes r prefix : prefix_of r = Some prefix → prefix ∈ prefixes.
Proof. unfold prefix_of, prefixes. repeat case_match; intros [= <-]; set_solver. Qed.

Lemma normalized_facts prefix r :
  prefix ∈ prefixes → has_properties r →
  default_for prefix (destination r) (normalized prefix r) ∧
  has_properties (normalized prefix r) ∧
  priority_of (normalized prefix r) = priority_of r.
Proof.
  destruct r as [name [p|] other]; intros Hpre [? [=]]. destruct p. split_and!; [done|by eexists|done].
Qed.

Lemma default_for_facts prefix port r :
  prefix ∈ prefixes → default_for prefix port r →
  prefix_of r = Some prefix ∧ destination r = port ∧ normalized prefix r = r ∧ has_properties r.
Proof.
  destruct r as [name [p|] other]; intros Hpre; [|done]. destruct p. unfold default_for. simpl.
  unfold getSecurityGroupRuleBrief, getDefaultSecurityGroupRule. simpl. intros [= -> -> -> -> -> -> -> -> ->].
  split_and!; [by apply prefix_of_app|done|done|by eexists].
Qed.

(** ** The rules that stay *)
Definition map_of (prefix : string) (tcp udp : ports) : ports :=
  if bool_decide (prefix = securityGroupTCPPrefix) then tcp else udp.

(** The rule as it stays, if it does. *)
Definition outcome (r : SecurityRule) (tcp udp : ports) : option SecurityRule :=
  match prefix_of r with
  | None => Some r
  | Some prefix =>
      match map_of prefix tcp udp !! destination r with
      | Some _ => Some (normalized prefix r)
      | None => None
      end
  end.

(** The ports a rule takes from the map of a prefix. *)
Definition take (prefix : string) (m : ports) (r : SecurityRule) : ports :=
  if bool_decide (prefix_of r = Some prefix) then delete (destination r) m else m.

Lemma ensureSyncWithDefaultSetting_eq r tcp udp :
  has_properties r →
  ensureSyncWithDefaultSetting r tcp udp =
    Ok (bool_decide (outcome r tcp udp ≠ Some r), bool_decide (is_Some (outcome r tcp udp)),
        default r (outcome r tcp udp),
        (take securityGroupTCPPrefix tcp r, take securityGroupUDPPrefix udp r)).
Proof.
  intros Hr. destruct (Hr) as [p Hp]. unfold ensureSyncWithDefaultSetting, outcome, take, prefix_of.
  assert (destination r = to_String (sp_DestinationPortRange p)) as Hd
    by (unfold destination; by rewrite Hp).
  assert (∀ prefix, bool_decide (Some (normalized prefix r) ≠ Some r) =
    bool_decide (normalized prefix r ≠ r)) as Hsome by (intros; apply bool_decide_ext; split; congruence).
  assert (∀ (m : ports) k, bool_decide (m !! k = None) = match m !! k with None => true | _ => false end)
    as Hnone by (intros m k; by destruct (m !! k)).
  assert (∀ (m : ports) k, m !! k = None → delete k m = m) as Hdel by (intros; by apply delete_id).
  destruct (GoStrings.HasPrefix _ securityGroupTCPPrefix); [|destruct (GoStrings.HasPrefix _ _)];
    rewrite ?Hp; unfold deref, mbind, result_bind; simpl; rewrite <-?Hd, ?Hnone;
    unfold map_of; simpl.
  - destruct (tcp !! destination r) eqn:E; simpl; [|by rewrite Hdel].
    rewrite ensureSettingDefaultRules_eq by done. by rewrite Hsome.
  - destruct (udp !! destination r) eqn:E; simpl; [|by rewrite Hdel].
    rewrite ensureSettingDefaultRules_eq by done. by rewrite Hsome.
  - rewrite bool_decide_false; [done|]. intros Hn. by apply Hn.
Qed.

Fixpoint survivors (rules : list SecurityRule) (tcp udp : ports) : list SecurityRule :=
  match rules with
  | [] => []
  | r :: rest =>
      let l := survivors rest (take securityGroupTCPPrefix tcp r) (take securityGroupUDPPrefix udp r) in
      match outcome r tcp udp with Some r' => r' :: l | None => l end
  end.

(** The priorities of the rules that do not stay. *)
Fixpoint freed (rules : list SecurityRule) (tcp udp : ports) : list Z :=
  match rules with
  | [] => []
  | r :: rest =>
      let l := freed rest (take securityGroupTCPPrefix tcp r) (take securityGroupUDPPrefix udp r) in
      match outcome r tcp udp with Some _ => l | None => priority_of r :: l end
  end.

Definition left (prefix : string) (rules : list SecurityRule) (m : ports) : ports :=
  foldl (take prefix) m rules.

Lemma survivors_length rules tcp udp : length (survivors rules tcp udp) <= length rules.
Proof.
  revert tcp udp. induction rules as [|r rules IH]; intros tcp udp; simpl; [done|].
  specialize (IH (take securityGroupTCPPrefix tcp r) (take securityGroupUDPPrefix udp r)).
  destruct (outcome r tcp udp); simpl; lia.
Qed.

Lemma outcome_facts r tcp udp r' :
  has_properties r → outcome r tcp udp = Some r' →
  has_properties r' ∧ priority_of r' = priority_of r ∧ prefix_of r' = prefix_of r ∧
  destination r' = destination r.
Proof.
  unfold outcome. intros Hr. destruct (prefix_of r) as [prefix|] eqn:E; [|by intros [= <-]].
  destruct (map_of prefix tcp udp !! destination r); [|done]. intros [= <-].
  pose proof (prefix_of_prefixes _ _ E) as Hpre.
  destruct (normalized_facts prefix r Hpre Hr) as (Hd & ? & ?).
  destruct (default_for_facts _ _ _ Hpre Hd) as (? & ? & _). done.
Qed.

Lemma priority_deref r :
  has_properties r → ∃ p, sr_Properties r = Some p ∧ to_Int32 (sp_Priority p) = priority_of r.
Proof. intros [p Hp]. exists p. unfold priority_of. by rewrite Hp. Qed.

Lemma visit_rules_eq rules v tcp udp :
  Forall has_properties rules →
  visit_rules rules v tcp udp =
    Ok ({| newRules := newRules v ++ survivors rules tcp udp;
           sgUsedPriority := list_to_set (priority_of <$> survivors rules tcp udp) ∪ sgUsedPriority v;
           sgDeletePriority := list_to_set (freed rules tcp udp) ∪ sgDeletePriority v;
           changed := bool_decide (survivors rules tcp udp ≠ rules) || changed v |},
        (left securityGroupTCPPrefix rules tcp, left securityGroupUDPPrefix rules udp)).
Proof.
  intros H. revert v tcp udp. induction H as [|r rules Hr _ IH]; intros v tcp udp.
  { simpl. rewrite app_nil_r, !union_empty_l_L. by destruct v. }
  cbn [visit_rules survivors freed]. rewrite ensureSyncWithDefaultSetting_eq by done.
  change (mbind ?f (Ok ?a)) with (f a). cbv beta iota.
  assert (has_properties (default r (outcome r tcp udp)) ∧
    priority_of (default r (outcome r tcp udp)) = priority_of r) as [Hr' Hprio].
  { destruct (outcome r tcp udp) eqn:E; [|done]. by apply outcome_facts in E as (? & ? & _). }
  destruct (priority_deref _ Hr') as (p & Hp & Hpp). rewrite Hp.
  change (mbind ?f (deref (Some ?a))) with (f a). cbv beta zeta. rewrite Hpp, Hprio, IH.
  pose proof (survivors_length rules (take securityGroupTCPPrefix tcp r)
    (take securityGroupUDPPrefix udp r)) as Hlen.
  unfold left. cbn [foldl]. destruct (outcome r tcp udp) as [r'|] eqn:E.
  - rewrite (bool_decide_true (is_Some (Some r'))) by by eexists.
    cbn [newRules sgUsedPriority sgDeletePriority changed default from_option].
    do 3 f_equal.
    + by rewrite <-(assoc_L (++)).
    + apply outcome_facts in E as (_ & Hpr & _); [|done]. simpl. rewrite Hpr. set_solver.
    + rewrite orb_assoc. f_equal.
      destruct (decide (r' = r)) as [->|Hne].
      * rewrite (bool_decide_false (Some r ≠ Some r)) by (intros Hn; by apply Hn).
        rewrite orb_false_r. apply bool_decide_ext. split; [by intros ? [=]|].
        intros Hn Heq. apply Hn. by rewrite Heq.
      * rewrite (bool_decide_true (Some r' ≠ Some r)) by congruence.
        rewrite (bool_decide_true (_ :: _ ≠ _)) by congruence. by rewrite orb_true_r.
  - rewrite (bool_decide_false (is_Some None)) by by intros [].
    cbn [newRules sgUsedPriority sgDeletePriority changed].
    do 3 f_equal.
    + simpl. set_solver.
    + rewrite (bool_decide_true (None ≠ Some r)) by done.
      rewrite (bool_decide_true (survivors _ _ _ ≠ r :: rules)).
      * by rewrite orb_true_r.
      * intros Heq. rewrite Heq in Hlen. simpl in Hlen. lia.
Qed.

Definition claims (prefix k : string) (r : SecurityRule) : Prop :=
  prefix_of r = Some prefix ∧ destination r = k.

#[export] Instance claims_dec prefix k r : Decision (claims prefix k r).
Proof. unfold claims. apply _. Defined.

Lemma left_lookup prefix rules m k :
  left prefix rules m !! k = if bool_decide (Exists (claims prefix k) rules) then None else m !! k.
Proof.
  unfold left. revert m. induction rules as [|r rules IH]; intros m; simpl; [done|].
  rewrite IH. unfold take. destruct (decide (claims prefix k r)) as [Hc|Hc].
  - rewrite (bool_decide_true (Exists _ (r :: rules))) by by left.
    case_bool_decide; [done|]. destruct Hc as [-> <-]. rewrite bool_decide_true by done.
    by rewrite lookup_delete_eq.
  - rewrite (bool_decide_ext (Exists _ (r :: rules)) (Exists (claims prefix k) rules));
      [|rewrite Exists_cons; tauto].
    case_bool_decide; [done|]. case_bool_decide as Hd; [|done].
    rewrite lookup_delete_ne; [done|]. intros <-. by apply Hc.
Qed.

Lemma survivors_app l1 l2 tcp udp :
  survivors (l1 ++ l2) tcp udp =
    survivors l1 tcp udp ++ survivors l2 (left securityGroupTCPPrefix l1 tcp)
                              (left securityGroupUDPPrefix l1 udp).
Proof.
  revert tcp udp. induction l1 as [|r l1 IH]; intros tcp udp; simpl; [done|].
  rewrite IH. by destruct (outcome r tcp udp).
Qed.

Lemma left_app prefix l1 l2 m : left prefix (l1 ++ l2) m = left prefix l2 (left prefix l1 m).
Proof. apply foldl_app. Qed.

Lemma map_of_take prefix tcp udp r :
  prefix ∈ prefixes →
  map_of prefix (take securityGroupTCPPrefix tcp r) (take securityGroupUDPPrefix udp r) =
  take prefix (map_of prefix tcp udp) r.
Proof. unfold prefixes, map_of. intros. decompose_list_elem_of; subst; done. Qed.

Lemma outcome_None r tcp udp :
  outcome r tcp udp = None →
  take securityGroupTCPPrefix tcp r = tcp ∧ take securityGroupUDPPrefix udp r = udp.
Proof.
  unfold outcome, take. destruct (prefix_of r) as [prefix|] eqn:E; [|done].
  pose proof (prefix_of_prefixes _ _ E) as Hpre. unfold prefixes, map_of in *.
  destruct (_ !! destination r) eqn:Hl; [done|]. intros _.
  decompose_list_elem_of; subst prefix; simpl in Hl |- *; split; try done; by apply delete_id.
Qed.

Lemma outcome_again r r' tcp udp :
  has_properties r → outcome r tcp udp = Some r' →
  outcome r' tcp udp = Some r' ∧ ∀ prefix m, take prefix m r' = take prefix m r.
Proof.
  intros Hr H. destruct (outcome_facts _ _ _ _ Hr H) as (Hr' & _ & Hpre & Hdest). split.
  - unfold outcome in *. rewrite Hpre, Hdest. destruct (prefix_of r) as [prefix|] eqn:E; [|done].
    destruct (map_of prefix tcp udp !! destination r); [|done]. injection H as <-. f_equal.
    apply prefix_of_prefixes in E. destruct (normalized_facts prefix r E Hr) as [Hd _].
    by apply default_for_facts in Hd as (_ & _ & ? & _).
  - intros prefix m. unfold take. by rewrite Hpre, Hdest.
Qed.

Lemma survivors_again rules tcp udp :
  Forall has_properties rules →
  survivors (survivors rules tcp udp) tcp udp = survivors rules tcp udp ∧
  left securityGroupTCPPrefix (survivors rules tcp udp) tcp = left securityGroupTCPPrefix rules tcp ∧
  left securityGroupUDPPrefix (survivors rules tcp udp) udp = left securityGroupUDPPrefix rules udp.
Proof.
  unfold left. intros H. revert tcp udp. induction H as [|r rules Hr _ IH]; intros tcp udp; [done|].
  cbn [survivors foldl]. destruct (outcome r tcp udp) as [r'|] eqn:E.
  - cbn [survivors foldl]. destruct (outcome_again _ _ _ _ Hr E) as [-> Htake].
    rewrite !Htake. destruct (IH (take securityGroupTCPPrefix tcp r)
      (take securityGroupUDPPrefix udp r)) as (-> & -> & ->). done.
  - destruct (outcome_None _ _ _ E) as [-> ->]. apply IH.
Qed.

Lemma survivors_properties rules tcp udp :
  Forall has_properties rules → Forall has_properties (survivors rules tcp udp).
Proof.
  intros H. revert tcp udp. induction H as [|r rules Hr _ IH]; intros tcp udp; [constructor|].
  cbn [survivors]. destruct (outcome r tcp udp) eqn:E; [|apply IH].
  constructor; [by eapply outcome_facts|apply IH].
Qed.

Lemma survivors_user rules tcp udp :
  Forall has_properties rules → filter user_rule (survivors rules tcp udp) = filter user_rule rules.
Proof.
  intros H. revert tcp udp. induction H as [|r rules Hr _ IH]; intros tcp udp; [done|].
  cbn [survivors]. destruct (decide (user_rule r)) as [Hu|Hu].
  - unfold outcome. rewrite Hu. rewrite !filter_cons_True by done. by rewrite IH.
  - rewrite (filter_cons_False _ r) by done. destruct (outcome r tcp udp) eqn:E; [|apply IH].
    rewrite filter_cons_False; [apply IH|]. unfold user_rule in *.
    by apply outcome_facts in E as (_ & _ & -> & _).
Qed.

Lemma survivors_priorities rules tcp udp :
  Forall has_properties rules →
  (priority_of <$> survivors rules tcp udp) ++ freed rules tcp udp ≡ₚ priority_of <$> rules.
Proof.
  intros H. revert tcp udp. induction H as [|r rules Hr _ IH]; intros tcp udp; [done|].
  cbn [survivors freed]. destruct (outcome r tcp udp) as [r'|] eqn:E; cbn [fmap list_fmap].
  - apply outcome_facts in E as (_ & -> & _); [|done]. simpl. by rewrite IH.
  - rewrite <-Permutation_middle. by rewrite IH.
Qed.

Lemma survivors_sound rules tcp udp r :
  Forall has_properties rules → r ∈ survivors rules tcp udp →
  user_rule r ∨ ∃ prefix k, prefix ∈ prefixes ∧ default_for prefix k r ∧
                            is_Some (map_of prefix tcp udp !! k).
Proof.
  intros H. revert tcp udp. induction H as [|r' rules Hr _ IH]; intros tcp udp; [by intros ?%elem_of_nil|].
  assert (∀ prefix k, prefix ∈ prefixes →
    is_Some (map_of prefix (take securityGroupTCPPrefix tcp r') (take securityGroupUDPPrefix udp r') !! k) →
    is_Some (map_of prefix tcp udp !! k)) as Hsub.
  { intros prefix k Hpre. rewrite map_of_take by done. unfold take.
    case_bool_decide; [|done]. rewrite lookup_delete_is_Some. tauto. }
  assert (r ∈ survivors rules (take securityGroupTCPPrefix tcp r') (take securityGroupUDPPrefix udp r') →
    user_rule r ∨ ∃ prefix k, prefix ∈ prefixes ∧ default_for prefix k r ∧
                              is_Some (map_of prefix tcp udp !! k)) as Hrest.
  { intros [?|(prefix & k & ? & ? & ?)]%IH; [by left|right; exists prefix, k; auto]. }
  cbn [survivors]. destruct (outcome r' tcp udp) as [o|] eqn:E; [|done].
  intros [->|?]%elem_of_cons; [|by apply Hrest]. unfold outcome in E.
  destruct (prefix_of r') as [prefix|] eqn:Ep; [|left; injection E as <-; done].
  destruct (map_of prefix tcp udp !! destination r') eqn:El; [|done]. injection E as <-.
  right. exists prefix, (destination r'). apply prefix_of_prefixes in Ep.
  split_and!; [done|by apply normalized_facts|by eexists].
Qed.

Lemma left_None prefix rules m k : m !! k = None → left prefix rules m !! k = None.
Proof. rewrite left_lookup. by case_bool_decide. Qed.

(** One rule stays for a port that was in the map and is not any more. *)
Lemma survivors_count rules tcp udp prefix k :
  Forall has_properties rules → prefix ∈ prefixes →
  let m := map_of prefix tcp udp in
  length (filter (default_for prefix k) (survivors rules tcp udp)) =
    used_up (m !! k) (left prefix rules m !! k).
Proof.
  intros H Hpre. revert tcp udp. induction H as [|r rules Hr _ IH]; intros tcp udp m.
  { unfold left. simpl. by destruct (m !! k). }
  specialize (IH (take securityGroupTCPPrefix tcp r) (take securityGroupUDPPrefix udp r)).
  cbv zeta in IH. rewrite map_of_take in IH by done. fold m in IH. cbn [survivors].
  change (left prefix (r :: rules) m) with (left prefix rules (take prefix m r)).
  destruct (decide (claims prefix k r)) as [[Hp <-]|Hc].
  - assert (take prefix m r = delete (destination r) m) as Ht
      by (unfold take; by rewrite bool_decide_true).
    unfold outcome. rewrite Hp. fold m.
    destruct (m !! destination r) as [v|] eqn:Hm.
    + rewrite filter_cons_True by by apply normalized_facts.
      simpl. rewrite IH, Ht, lookup_delete_eq. rewrite left_None by apply lookup_delete_eq. done.
    + rewrite IH, Ht, lookup_delete_eq. done.
  - assert (take prefix m r !! k = m !! k) as <-.
    { unfold take. case_bool_decide as Hp; [|done]. rewrite lookup_delete_ne; [done|].
      intros <-. by apply Hc. }
    rewrite <-IH. destruct (outcome r tcp udp) as [r'|] eqn:E; [|done].
    rewrite filter_cons_False; [done|]. intros Hd. apply Hc.
    destruct (default_for_facts _ _ _ Hpre Hd) as (Hp & Hk & _).
    apply outcome_facts in E as (_ & _ & Hp' & Hd'); [|done]. unfold claims. by rewrite <-Hp', <-Hd'.
Qed.

(** ** The rules that are added *)
Section sync.
Context (range_map : ports → list (string * string)) (range_set : gset Z → list Z).
Context (range_map_order : ∀ m, map_order (range_map m) m).
Context (range_set_order : ∀ s, set_order (range_set s) s).

(** The rules so far have distinct priorities, the used ones, none of which is
    deleted. *)
Definition fair (v : visited) : Prop :=
  sgUsedPriority v = list_to_set (priority_of <$> newRules v) ∧
  sgUsedPriority v ## sgDeletePriority v ∧ NoDup (priority_of <$> newRules v).

Lemma add_ports_spec prefix range v :
  fair v → length (newRules v) + length range <= priorities →
  ∃ v' added,
    add_ports range_set prefix range v = Ok v' ∧ fair v' ∧ changed v' = changed v ∧
    newRules v' = newRules v ++ added ∧
    Forall2 (λ k r, default_for prefix k r) range.*1 added.
Proof.
  revert v. induction range as [|[port svc] range IH]; intros v Hv Hlen.
  { exists v, []. rewrite app_nil_r. split_and!; [done|done|done|done|constructor]. }
  destruct Hv as (Hu & Hd & Hnd). cbn [add_ports]. simpl in Hlen.
  destruct (getValidPriority_Ok range_set range_set_order (sgUsedPriority v) (sgDeletePriority v))
    as [[priority del] Hp].
  { rewrite Hu, size_list_to_set, length_fmap by done. lia. }
  rewrite Hp. change (mbind ?f (Ok ?a)) with (f a). cbv beta iota.
  destruct (getValidPriority_fresh range_set range_set_order _ _ _ _ Hp Hd) as [Hfresh Hdis].
  set (rule := getDefaultSecurityGroupRule prefix port (Some priority)).
  match goal with |- context [add_ports _ _ _ ?x] => set (v1 := x) end.
  destruct (IH v1) as (v' & added & Ha & Hf & Hc & Hn & Hall).
  - split_and!; [|done|].
    + simpl. rewrite fmap_app, list_to_set_app_L, Hu. simpl. set_solver.
    + simpl. rewrite fmap_app. simpl. apply NoDup_snoc. split; [|done].
      change (priority_of rule) with priority. intros Hin. apply Hfresh. rewrite Hu.
      by apply elem_of_list_to_set.
  - simpl. rewrite length_app. simpl. lia.
  - exists v', (rule :: added). split_and!; [done|done|done| |].
    + rewrite Hn. simpl. by rewrite <-(assoc_L (++)).
    + constructor; [done|done].
Qed.

(** The rules of ports that are in the map, each once, stay as they are. *)
Lemma added_survive prefix ks added tcp udp :
  prefix ∈ prefixes → Forall2 (λ k r, default_for prefix k r) ks added → NoDup ks →
  Forall (λ k, is_Some (map_of prefix tcp udp !! k)) ks →
  survivors added tcp udp = added.
Proof.
  intros Hpre H. revert tcp udp. induction H as [|k r ks added Hd H IH]; intros tcp udp; [done|].
  rewrite NoDup_cons, Forall_cons. intros [Hnot Hnd] [[v Hv] Hall]. cbn [survivors].
  destruct (default_for_facts _ _ _ Hpre Hd) as (Hp & <- & Hn & _).
  unfold outcome. rewrite Hp, Hv, Hn. f_equal. apply IH; [done|].
  rewrite Forall_forall in Hall |- *. intros k Hk. rewrite map_of_take by done. unfold take.
  rewrite bool_decide_true by done. rewrite lookup_delete_is_Some.
  split; [by intros <-|by apply Hall].
Qed.

Lemma added_left prefix prefix' ks added m :
  prefix' ∈ prefixes → Forall2 (λ k r, default_for prefix' k r) ks added →
  left prefix added m = if bool_decide (prefix' = prefix) then without ks m else m.
Proof.
  intros Hpre H. apply map_eq. intros k. rewrite left_lookup.
  assert (Exists (claims prefix k) added ↔ prefix' = prefix ∧ k ∈ ks) as Hex.
  { induction H as [|k' r ks added Hd _ IH]; [rewrite Exists_nil; set_solver|].
    rewrite Exists_cons, IH, elem_of_cons. unfold claims.
    destruct (default_for_facts _ _ _ Hpre Hd) as (-> & -> & _). naive_solver. }
  rewrite (bool_decide_ext _ _ Hex). case_bool_decide as Hp; case_bool_decide as Hp';
    rewrite ?without_lookup; [| |by rewrite bool_decide_false by tauto|done].
  - by rewrite bool_decide_true by apply Hp.
  - by destruct Hp.
Qed.

(** Every port of the maps has its rule and only they have. *)
Definition settled (rules : list SecurityRule) (tcp udp : ports) : Prop :=
  survivors rules tcp udp = rules ∧ left securityGroupTCPPrefix rules tcp = ∅ ∧
  left securityGroupUDPPrefix rules udp = ∅.

Lemma settled_unchanged rules tcp udp :
  Forall has_properties rules → settled rules tcp udp →
  sync_group_rules range_map range_set rules tcp udp = Ok (false, rules, (∅, ∅)).
Proof.
  intros Hrules (Hs & Ht & Hu). unfold sync_group_rules. rewrite visit_rules_eq by done.
  change (mbind ?f (Ok ?a)) with (f a). cbv beta iota zeta. rewrite Hs, Ht, Hu.
  assert (range_map ∅ = []) as ->.
  { pose proof (range_map_order ∅) as Hr. unfold map_order in Hr. rewrite map_to_list_empty in Hr.
    by apply Permutation_nil_r in Hr. }
  cbn [add_ports]. unfold mbind, result_bind, mret, result_ret. cbn [newRules changed app].
  by rewrite (bool_decide_false (rules ≠ rules)) by (intros Hn; by apply Hn).
Qed.

Lemma group_settled_count rules tcp udp prefix k :
  Forall has_properties rules → prefix ∈ prefixes → settled rules tcp udp →
  length (filter (default_for prefix k) rules) =
    if bool_decide (is_Some (map_of prefix tcp udp !! k)) then 1 else 0.
Proof.
  intros Hrules Hpre (Hs & Ht & Hu).
  pose proof (survivors_count rules tcp udp prefix k Hrules Hpre) as Hc. cbv zeta in Hc.
  assert (left prefix rules (map_of prefix tcp udp) = ∅) as Hl.
  { unfold prefixes, map_of in *. by decompose_list_elem_of; subst. }
  rewrite Hs, Hl, lookup_empty in Hc. rewrite Hc. by destruct (map_of prefix tcp udp !! k).
Qed.

Lemma range_left rules m prefix :
  NoDup (range_map (left prefix rules m)).*1 ∧
  Forall (λ k, is_Some (left prefix rules m !! k)) (range_map (left prefix rules m)).*1.
Proof.
  split; [by eapply map_order_keys_NoDup|]. apply Forall_forall. intros k.
  by apply map_order_keys.
Qed.

Lemma left_size rules m prefix : size (left prefix rules m) <= size m.
Proof.
  unfold left. revert m. induction rules as [|r rules IH]; intros m; simpl; [done|].
  etransitivity; [apply IH|]. unfold take. case_bool_decide; [|done].
  apply map_subseteq_size, delete_subseteq.
Qed.

Lemma range_length m : length (range_map m) = size m.
Proof. rewrite (range_map_order m : range_map m ≡ₚ _). by rewrite length_map_to_list. Qed.

Lemma added_settled rules tcp udp addedU addedT :
  Forall has_properties rules →
  let tcp' := left securityGroupTCPPrefix rules tcp in
  let udp' := left securityGroupUDPPrefix rules udp in
  Forall2 (λ k r, default_for securityGroupUDPPrefix k r) (range_map udp').*1 addedU →
  Forall2 (λ k r, default_for securityGroupTCPPrefix k r) (range_map tcp').*1 addedT →
  settled (survivors rules tcp udp ++ addedU ++ addedT) tcp udp.
Proof.
  intros Hrules tcp' udp' HU HT. destruct (survivors_again rules tcp udp Hrules) as (Hk & Ht & Hu).
  destruct (range_left rules tcp securityGroupTCPPrefix) as [Hnt Hint].
  destruct (range_left rules udp securityGroupUDPPrefix) as [Hnu Hinu].
  fold tcp' in Ht, Hnt, Hint. fold udp' in Hu, Hnu, Hinu.
  assert (∀ prefix m, left prefix addedU m =
    if bool_decide (securityGroupUDPPrefix = prefix) then without (range_map udp').*1 m else m) as HlU
    by (intros; apply added_left; [by right; left|done]).
  assert (∀ prefix m, left prefix addedT m =
    if bool_decide (securityGroupTCPPrefix = prefix) then without (range_map tcp').*1 m else m) as HlT
    by (intros; apply added_left; [by left|done]).
  unfold settled. rewrite !survivors_app, !left_app, Hk, Ht, Hu, !HlU, !HlT. simpl. split_and!.
  - do 2 f_equal.
    + by eapply (added_survive securityGroupUDPPrefix); [right; left|..].
    + by eapply (added_survive securityGroupTCPPrefix); [left|..].
  - by apply without_order.
  - by apply without_order.
Qed.

Lemma defaults_properties prefix ks l :
  prefix ∈ prefixes → Forall2 (λ k r, default_for prefix k r) ks l →
  Forall has_properties l ∧ filter user_rule l = [].
Proof.
  intros Hpre. induction 1 as [|k r ks l Hd _ [IH1 IH2]]; [split; constructor|].
  destruct (default_for_facts _ _ _ Hpre Hd) as (Hp & _ & _ & Hr). split; [by constructor|].
  rewrite filter_cons_False; [done|]. unfold user_rule. by rewrite Hp.
Qed.

(** What one turn makes of the rules of a group. *)
Lemma sync_group_rules_eq rules tcp udp :
  Forall has_properties rules → NoDup (priority_of <$> rules) →
  length rules + size tcp + size udp <= priorities →
  ∃ new,
    sync_group_rules range_map range_set rules tcp udp =
      Ok (bool_decide (¬ settled rules tcp udp), new,
          (left securityGroupTCPPrefix rules tcp, left securityGroupUDPPrefix rules udp)) ∧
    settled new tcp udp ∧ Forall has_properties new ∧ NoDup (priority_of <$> new) ∧
    filter user_rule new = filter user_rule rules ∧ (settled rules tcp udp → new = rules).
Proof.
  intros Hrules Hnd Hsize. unfold sync_group_rules. rewrite visit_rules_eq by done.
  change (mbind ?f (Ok ?a)) with (f a). cbv beta iota zeta.
  set (kept := survivors rules tcp udp).
  set (tcp' := left securityGroupTCPPrefix rules tcp).
  set (udp' := left securityGroupUDPPrefix rules udp).
  match goal with |- context [add_ports _ _ _ ?x] => set (v := x) end.
  pose proof (survivors_length rules tcp udp) as Hk. fold kept in Hk.
  pose proof (left_size rules tcp securityGroupTCPPrefix) as Hlt. fold tcp' in Hlt.
  pose proof (left_size rules udp securityGroupUDPPrefix) as Hlu. fold udp' in Hlu.
  assert (fair v) as Hv.
  { pose proof (survivors_priorities rules tcp udp Hrules) as Hp. fold kept in Hp.
    rewrite <-Hp, NoDup_app in Hnd. destruct Hnd as (Hn1 & Hdis & _).
    split_and!; cbn [sgUsedPriority sgDeletePriority newRules v nothing_visited app].
    - set_solver.
    - rewrite !union_empty_r_L. intros x Hx Hy. apply elem_of_list_to_set in Hx, Hy.
      by apply (Hdis x).
    - done. }
  destruct (add_ports_spec securityGroupUDPPrefix (range_map udp') v Hv) as
    (v1 & addedU & -> & Hv1 & Hc1 & Hn1 & HU).
  { rewrite range_length. simpl. fold kept. lia. }
  change (mbind ?f (Ok ?a)) with (f a). cbv beta.
  assert (length addedU = size udp') as HlenU.
  { apply Forall2_length in HU. rewrite length_fmap, range_length in HU. done. }
  destruct (add_ports_spec securityGroupTCPPrefix (range_map tcp') v1 Hv1) as
    (v2 & addedT & -> & Hv2 & Hc2 & Hn2 & HT).
  { rewrite range_length, Hn1, length_app, HlenU. simpl. fold kept. lia. }
  change (mbind ?f (Ok ?a)) with (f a). cbv beta.
  assert (newRules v2 = kept ++ addedU ++ addedT) as Hnew.
  { rewrite Hn2, Hn1. simpl. by rewrite <-(assoc_L (++)). }
  destruct (defaults_properties securityGroupUDPPrefix _ _ ltac:(by right; left) HU) as [HpU HfU].
  destruct (defaults_properties securityGroupTCPPrefix _ _ ltac:(by left) HT) as [HpT HfT].
  exists (newRules v2). split_and!.
  - unfold mret, result_ret. do 3 f_equal. cbn [changed v nothing_visited]. rewrite orb_false_r.
    unfold settled. fold kept tcp' udp'.
    repeat case_bool_decide; simpl; try done; exfalso; tauto.
  - rewrite Hnew. by apply added_settled.
  - rewrite Hnew, !Forall_app. split_and!; [by apply survivors_properties|done|done].
  - apply Hv2.
  - rewrite Hnew, !filter_app, HfU, HfT, !app_nil_r. by apply survivors_user.
  - intros Hs. rewrite Hnew. destruct Hs as (Hs & Ht & Hu). fold kept in Hs. fold tcp' in Ht. fold udp' in Hu.
    assert (addedU = []) as ->.
    { apply nil_length_inv. by rewrite HlenU, Hu, map_size_empty. }
    assert (addedT = []) as ->.
    { apply Forall2_length in HT. rewrite length_fmap, range_length, Ht, map_size_empty in HT.
      by apply nil_length_inv. }
    by rewrite !app_nil_r.
Qed.

(** The rules [new] of a group that had [rules] follow the ports: the rules of
    others are kept in place, every port has exactly one rule, no other port has
    one, and the priorities are distinct. *)
Definition group_follows (rules : list SecurityRule) (tcp udp : ports) (new : list SecurityRule)
    : Prop :=
  filter user_rule new = filter user_rule rules ∧
  (∀ prefix k, prefix ∈ prefixes →
     length (filter (default_for prefix k) new) =
       if bool_decide (is_Some (map_of prefix tcp udp !! k)) then 1 else 0) ∧
  Forall (λ r, user_rule r ∨ ∃ prefix k, prefix ∈ prefixes ∧ default_for prefix k r ∧
                                         is_Some (map_of prefix tcp udp !! k)) new ∧
  NoDup (priority_of <$> new).

Lemma sync_group_follows rules tcp udp :
  Forall has_properties rules → NoDup (priority_of <$> rules) →
  length rules + size tcp + size udp <= priorities →
  ∃ change new maps,
    sync_group_rules range_map range_set rules tcp udp = Ok (change, new, maps) ∧
    group_follows rules tcp udp new ∧ (change = false → new = rules) ∧
    sync_group_rules range_map range_set new tcp udp = Ok (false, new, (∅, ∅)).
Proof.
  intros Hrules Hnd Hsize.
  destruct (sync_group_rules_eq rules tcp udp Hrules Hnd Hsize) as
    (new & Heq & Hs & Hp & Hn & Hf & Hsame).
  eexists _, new, _. split_and!; [exact Heq|split_and!; [done| | |done]| |].
  - intros. by apply group_settled_count.
  - apply Forall_forall. intros r Hr. apply (survivors_sound new); [done|]. by rewrite (proj1 Hs).
  - intros Hc. apply bool_decide_eq_false in Hc. apply Hsame.
    by apply dec_stable.
  - by apply settled_unchanged.
Qed.

(** C15: What one turn of [ensureSyncRulesToSecurityGroups] does to a security group
    whose rules have distinct priorities, when rules and ports are at most 310.
    The rules of others are kept in place; every port of the maps has exactly
    one rule, with the default settings, and no other port has one; the new
    rules have distinct priorities; the group is updated unless its rules were
    so already, and a second turn with the same ports updates nothing. *)
Theorem security_rules_follow rules tcp udp :
  Forall has_properties rules → NoDup (priority_of <$> rules) →
  length rules + size tcp + size udp <= priorities →
  ∃ change new maps,
    sync_group_rules range_map range_set rules tcp udp = Ok (change, new, maps) ∧
    filter user_rule new = filter user_rule rules ∧
    (∀ prefix k, prefix ∈ prefixes →
       length (filter (default_for prefix k) new) =
         if bool_decide (is_Some (map_of prefix tcp udp !! k)) then 1 else 0) ∧
    Forall (λ r, user_rule r ∨ ∃ prefix k, prefix ∈ prefixes ∧ default_for prefix k r ∧
                                           is_Some (map_of prefix tcp udp !! k)) new ∧
    NoDup (priority_of <$> new) ∧
    (change = false → new = rules) ∧
    sync_group_rules range_map range_set new tcp udp = Ok (false, new, (∅, ∅)).
Proof.
  intros Hr Hn Hs. destruct (sync_group_follows rules tcp udp Hr Hn Hs)
    as (change & new & maps & ? & (? & ? & ? & ?) & ? & ?). by exists change, new, maps.
Qed.

(** The security groups share one pair of maps.  A port for which the first
    group has a rule is deleted from them, so the next group is left without a
    rule for that port, and loses the one it had. *)
Theorem second_group_loses prefix r rules1 rules2 tcp udp :
  Forall has_properties rules1 → NoDup (priority_of <$> rules1) →
  length rules1 + size tcp + size udp <= priorities →
  Forall has_properties rules2 → NoDup (priority_of <$> rules2) →
  length rules2 + size tcp + size udp <= priorities →
  prefix_of r = Some prefix → r ∈ rules1 →
  ∃ change1 new1 tcp' udp' change2 new2 maps,
    sync_group_rules range_map range_set rules1 tcp udp = Ok (change1, new1, (tcp', udp')) ∧
    sync_group_rules range_map range_set rules2 tcp' udp' = Ok (change2, new2, maps) ∧
    Forall (λ r', ¬ default_for prefix (destination r) r') new2.
Proof.
  intros Hr1 Hn1 Hs1 Hr2 Hn2 Hs2 Hp Hin.
  destruct (sync_group_rules_eq rules1 tcp udp Hr1 Hn1 Hs1) as (new1 & H1 & _).
  set (tcp' := left securityGroupTCPPrefix rules1 tcp) in H1.
  set (udp' := left securityGroupUDPPrefix rules1 udp) in H1.
  pose proof (left_size rules1 tcp securityGroupTCPPrefix) as Hlt. fold tcp' in Hlt.
  pose proof (left_size rules1 udp securityGroupUDPPrefix) as Hlu. fold udp' in Hlu.
  destruct (sync_group_rules_eq rules2 tcp' udp' Hr2 Hn2) as (new2 & H2 & Hset & Hp2 & _); [lia|].
  eexists _, new1, tcp', udp', _, new2, _. split_and!; [exact H1|exact H2|].
  pose proof (prefix_of_prefixes _ _ Hp) as Hpre.
  pose proof (group_settled_count new2 tcp' udp' prefix (destination r) Hp2 Hpre Hset) as Hc.
  assert (map_of prefix tcp' udp' !! destination r = None) as Hnone.
  { assert (∀ m, left prefix rules1 m !! destination r = None) as Hl.
    { intros m. rewrite left_lookup, bool_decide_true; [done|]. apply Exists_exists. by exists r. }
    unfold map_of, prefixes in *. decompose_list_elem_of; subst prefix; simpl; apply Hl. }
  rewrite Hnone in Hc. simpl in Hc. apply Forall_forall. intros r' Hin' Hd.
  apply nil_length_inv in Hc. assert (r' ∈ filter (default_for prefix (destination r)) new2) as Hf
    by by apply list_elem_of_filter.
  rewrite Hc in Hf. by apply elem_of_nil in Hf.
Qed.
End sync.

(** ** Witnesses *)
Lemma set_order_self (s : gset Z) : set_order (elements s) s.
Proof. by unfold set_order. Qed.

Definition example_group : list SecurityRule :=
  [ getDefaultSecurityGroupRule "ssh" "22" (Some 100%Z);
    getDefaultSecurityGroupRule securityGroupTCPPrefix "80" (Some 1000%Z);
    getDefaultSecurityGroupRule securityGroupUDPPrefix "53" (Some 1010%Z) ].

Definition example_tcp : ports := {[ "80" := ""; "443" := "" ]}.

Lemma getValidPriority_spec_witness :
  match getValidPriority elements {[1000%Z]} ∅ with
  | Ok (priority, _) => priority = 1010%Z
  | _ => False
  end.
Proof.
  pose proof (getValidPriority_spec elements set_order_self {[1000%Z]} ∅) as H.
  assert (∃ r, getValidPriority elements {[1000%Z]} ∅ = Ok r) as [[priority del] Hr]
    by (eexists; vm_compute; reflexivity).
  rewrite Hr in H |- *. destruct H as [[H _]|(_ & _ & i & _ & -> & Hnot & Hall)]; [set_solver|].
  destruct i as [|[|i]]; [|reflexivity|].
  - exfalso. apply Hnot. by_compute.
  - exfalso. specialize (Hall 1 ltac:(lia)). revert Hall. by_compute.
Defined.

Example security_rules_names :
  (match sync_group_rules map_to_list elements example_group example_tcp ∅ with
   | Ok (change, new, _) => Some (change, (λ r, (sr_Name r, priority_of r)) <$> new)
   | _ => None
   end) = Some (true, [(Some "ssh22", 100%Z); (Some "cps-lb-tcp-80", 1000%Z);
                       (Some "cps-lb-tcp-443", 1010%Z)]).
Proof. vm_compute. reflexivity. Qed.

Lemma security_rules_follow_witness :
  ∃ change new maps,
    sync_group_rules map_to_list elements example_group example_tcp ∅ = Ok (change, new, maps) ∧
    filter user_rule new = filter user_rule example_group ∧
    length (filter (default_for securityGroupTCPPrefix "443") new) = 1.
Proof.
  destruct (security_rules_follow map_to_list elements map_order_self set_order_self
    example_group example_tcp ∅) as (change & new & maps & H & Hu & Hc & _).
  - repeat constructor; eexists; reflexivity.
  - by_compute.
  - vm_compute. lia.
  - exists change, new, maps. split; [exact H|]. split; [exact Hu|].
    rewrite Hc by by left. by_compute.
Defined.

(** Both groups have the rule for port 80; the second loses it. *)
Lemma second_group_loses_witness :
  ∃ change1 new1 tcp' udp' change2 new2 maps,
    sync_group_rules map_to_list elements example_group example_tcp ∅ =
      Ok (change1, new1, (tcp', udp')) ∧
    sync_group_rules map_to_list elements example_group tcp' udp' = Ok (change2, new2, maps) ∧
    Forall (λ r', ¬ default_for securityGroupTCPPrefix "80" r') new2.
Proof.
  apply (second_group_loses map_to_list elements map_order_self set_order_self
    securityGroupTCPPrefix (getDefaultSecurityGroupRule securityGroupTCPPrefix "80" (Some 1000%Z))
    example_group example_group example_tcp ∅).
  - repeat constructor; eexists; reflexivity.
  - by_compute.
  - vm_compute. lia.
  - repeat constructor; eexists; reflexivity.
  - by_compute.
  - vm_compute. lia.
  - reflexivity.
  - right. left.
Defined.
