(* ===== verification/AzureGroups.v ===== *)
(** * Security groups in the cloud

    What [syncSecurityGroupRules] makes of the security groups: those of the
    interfaces that left lose the rules of the provider, the one of the nodes
    follows the ports, and no other group is touched. *)

From S2P Require Import Prelude GoStd AzureNet AzureIds AzureSecurity AzureSecurityFacts.

Definition group_rules (sg : SecurityGroup) : list SecurityRule :=
  match sg_Properties sg with Some p => elems (SecurityRules p) | None => [] end.

(** A rule without what Azure assigns: its ID, its etag, which changes with every
    update, and the state of provisioning. *)
Definition stable (r : SecurityRule) : option string * option SecurityRuleProperties :=
  (sr_Name r,
   (λ p, {| sp_Description := sp_Description p; sp_Protocol := sp_Protocol p;
            sp_SourcePortRange := sp_SourcePortRange p;
            sp_DestinationPortRange := sp_DestinationPortRange p;
            sp_SourceAddressPrefix := sp_SourceAddressPrefix p;
            sp_DestinationAddressPrefix := sp_DestinationAddressPrefix p;
            sp_Access := sp_Access p; sp_Priority := sp_Priority p; sp_Direction := sp_Direction p;
            sp_rest := filter (λ m, m.1 ≠ "provisioningState") (sp_rest p) |}) <$> sr_Properties r).

(** The same rules in the same order, up to what Azure assigns. *)
Definition same_rules (l l' : list SecurityRule) : Prop := stable <$> l = stable <$> l'.

(** What Azure documents of security groups: a read changes nothing and returns
    the rules that are there, a successful update stores the rules that were
    sent, with new etags and the like, and a read of an interface touches none. *)
Class AzureSGs (E : Type) `{!AzureSDK E} := {
  groups_at : E → gmap (string * string) (list SecurityRule);
  SecurityGroups_Get_groups c g n e r e' :
    SecurityGroups_Get c g n e = (r, e') →
    groups_at e' = groups_at e ∧
    match r with Ok sg => groups_at e !! (g, n) = Some (group_rules sg) | _ => True end;
  SecurityGroups_CreateOrUpdate_groups c g n sg e sg' e' :
    SecurityGroups_CreateOrUpdate c g n sg e = (Ok sg', e') →
    ∃ stored, groups_at e' = <[(g, n) := stored]> (groups_at e) ∧
      same_rules stored (group_rules sg);
  Interfaces_Get_groups c g n e : groups_at (Interfaces_Get c g n e).2 = groups_at e;
}.

#[export] Instance same_rules_equivalence : Equivalence same_rules.
Proof. unfold same_rules. split; [done|intros ??; done|]. intros ??? -> ->. done. Qed.

Lemma user_rule_stable r r' : stable r = stable r' → user_rule r ↔ user_rule r'.
Proof. intros [= Hn _]. unfold user_rule, prefix_of. by rewrite Hn. Qed.

Lemma same_rules_filter l l' : same_rules l l' → same_rules (filter user_rule l) (filter user_rule l').
Proof.
  unfold same_rules. revert l'. induction l as [|r l IH]; intros [|r' l']; try done.
  rewrite !fmap_cons. intros [= Hn Hp Hl]. assert (stable r = stable r') as Hr
    by (unfold stable; by rewrite Hn, Hp).
  pose proof (user_rule_stable _ _ Hr) as Hu. rewrite !filter_cons.
  destruct (decide (user_rule r)), (decide (user_rule r')); try tauto; [|by apply IH].
  rewrite !fmap_cons, Hr. f_equal. by apply IH.
Qed.

(** The group and the name in the ID of a security group. *)
Definition group_key (sgID : string) : result (string * string) :=
  getGroupAndResourceNameFromID sgID azureSecurityGroups.

(** [id] is the ID of the group under [key]. *)
Definition denotes_group (key : string * string) (id : string) : Prop := group_key id = Ok key.

#[export] Instance denotes_group_dec key id : Decision (denotes_group key id).
Proof.
  unfold denotes_group. destruct (group_key id) as [k| |]; [|by right..].
  destruct (decide (k = key)) as [->|]; [by left|right; by intros [= ->]].
Defined.

Lemma filter_all {A} (P : A → Prop) `{!∀ x, Decision (P x)} (l : list A) :
  (∀ x, x ∈ l → P x) → filter P l = l.
Proof.
  induction l as [|x l IH]; [done|]. intros Hl. rewrite filter_cons_True by (apply Hl; by left).
  f_equal. apply IH. intros y Hy. apply Hl. by right.
Qed.

Section groups.
Context {E : Type} `{!AzureSDK E, !AzureSGs E}.
Context (range_map : ports → list (string * string)) (range_set : gset Z → list Z).
Context (range_ids : gset string → list string) (c : Config).
Context (range_map_order : ∀ m, map_order (range_map m) m).
Context (range_set_order : ∀ s, set_order (range_set s) s).
Context (range_ids_order : ∀ s, set_order (range_ids s) s).
Implicit Types e : E.

Lemma managed_user r : managed_name (to_String (sr_Name r)) = false ↔ user_rule r.
Proof.
  unfold managed_name, user_rule, prefix_of.
  destruct (GoStrings.HasPrefix _ securityGroupTCPPrefix), (GoStrings.HasPrefix _ securityGroupUDPPrefix);
    simpl; done.
Qed.

Lemma filter_managed (rules : list SecurityRule) :
  filter (λ r, managed_name (to_String (sr_Name r)) = false) rules = filter user_rule rules.
Proof. apply list_filter_iff. apply managed_user. Qed.

(** A turn over a group reads it and, when its rules change, writes it. *)
Lemma write_group (key : string * string) sg rules r e e1 e' :
  SecurityGroups_Get c key.1 key.2 e = (Ok sg, e1) → is_Some (sg_Properties sg) →
  SecurityGroups_CreateOrUpdate c key.1 key.2 (with_security_rules sg (Some rules)) e1 = (Ok r, e') →
  groups_at e !! key = Some (group_rules sg) ∧
  ∃ stored, groups_at e' = <[key := stored]> (groups_at e) ∧ same_rules stored rules.
Proof.
  destruct key as [g n]. intros [He1 Hsg]%SecurityGroups_Get_groups [q Hq]
    (stored & -> & Hs)%SecurityGroups_CreateOrUpdate_groups.
  rewrite He1. split; [done|]. exists stored. split; [done|].
  unfold group_rules, with_security_rules in Hs. simpl in Hs. by rewrite Hq in Hs.
Qed.

(** *** The groups whose rules go *)
Definition without_rules (e e' : E) (l : list string) : Prop :=
  ∀ key,
    (Exists (denotes_group key) l → is_Some (groups_at e !! key)) ∧
    ∀ rules, groups_at e !! key = Some rules →
      ∃ new, groups_at e' !! key = Some new ∧
        if decide (Exists (denotes_group key) l) then same_rules new (filter user_rule rules)
        else new = rules.

Lemma without_rules_cons id key rules kept e e1 e' l :
  group_key id = Ok key → groups_at e !! key = Some rules →
  groups_at e1 = <[key := kept]> (groups_at e) → same_rules kept (filter user_rule rules) →
  without_rules e1 e' l → without_rules e e' (id :: l).
Proof.
  intros Hid He He1 Hkept Hl k. destruct (Hl k) as [Hs Heq]. rewrite He1 in Hs, Heq.
  destruct (decide (k = key)) as [->|Hne].
  - rewrite lookup_insert_eq in Heq. rewrite He. split; [by eexists|]. intros ? [= <-].
    destruct (Heq _ eq_refl) as (new & -> & Hnew). exists new. split; [done|].
    rewrite (decide_True _ _ (P := Exists (denotes_group key) (id :: l))) by by left.
    case_decide; [|by subst].
    rewrite Hnew, (same_rules_filter _ _ Hkept), list_filter_filter.
    unfold same_rules. f_equal. apply list_filter_iff. tauto.
  - rewrite lookup_insert_ne in Hs, Heq by done.
    assert (Exists (denotes_group k) (id :: l) ↔ Exists (denotes_group k) l) as Hiff.
    { rewrite Exists_cons. unfold denotes_group at 1. rewrite Hid. split; [|by right].
      intros [[= ->]|?]; done. }
    split; [by rewrite Hiff|]. intros rules' Hrules. destruct (Heq _ Hrules) as (new & ? & Hnew).
    exists new. split; [done|]. by rewrite (decide_ext _ _ _ _ Hiff).
Qed.

Lemma deleteUseless_groups ids e e' :
  deleteUselessSecurityRules range_ids c ids e = (Ok (), e') →
  without_rules e e' (range_ids ids).
Proof.
  unfold deleteUselessSecurityRules. generalize (range_ids ids) as l. intros l. revert e.
  induction l as [|id l IH]; intros e H; cbn [for_each] in H.
  { injection H as <-. intros k. split; [by intros []%Exists_nil|]. intros rules Hr.
    exists rules. split; [done|]. by rewrite decide_False by by intros []%Exists_nil. }
  run_back.
  match goal with
  | Hk : getGroupAndResourceNameFromID id _ = Ok (?g, ?n), Hg : SecurityGroups_Get _ _ _ _ = (Ok ?sg, ?e1),
    Hp : sg_Properties ?sg = Some ?p, Hb : (if _ then _ else _) ?e1 = (Ok (), ?e2) |- _ =>
      assert (groups_at e !! (g, n) = Some (group_rules sg) ∧
        ∃ kept, groups_at e2 = <[(g, n) := kept]> (groups_at e) ∧
          same_rules kept (filter user_rule (group_rules sg))) as (H1 & kept & H2 & H3);
      [|apply (without_rules_cons id (g, n) (group_rules sg) kept e e2);
        [exact Hk|exact H1|exact H2|exact H3|by apply IH]];
      rename Hg into Hget, Hb into Hbody, Hp into Hprop
  end.
  unfold group_rules in *. rewrite Hprop. case_bool_decide as Hex; run_back.
  - match goal with H : SecurityGroups_CreateOrUpdate _ _ _ _ _ = _ |- _ => rename H into Hput end.
    rewrite filter_managed in Hput.
    apply (write_group (_, _) _ _ _ _ _ _ Hget) in Hput; [|by eexists].
    unfold group_rules in Hput. by rewrite Hprop in Hput.
  - apply SecurityGroups_Get_groups in Hget as [He Hsg]. unfold group_rules in Hsg. rewrite Hprop in Hsg.
    split; [done|]. eexists. split; [rewrite He; symmetry; by apply insert_id|].
    rewrite filter_all; [done|]. intros r Hr. apply managed_user. apply not_true_is_false. intros Hm.
    apply Hex, Exists_exists. by exists r.
Qed.

(** *** The groups of the nodes *)
Lemma sync_groups_cons id l tcp udp e e' :
  sync_groups range_map range_set c (id :: l) tcp udp e = (Ok (), e') →
  ∃ key rules change new stored tcp' udp' e1,
    group_key id = Ok key ∧ groups_at e !! key = Some rules ∧
    sync_group_rules range_map range_set rules tcp udp = Ok (change, new, (tcp', udp')) ∧
    same_rules stored new ∧
    groups_at e1 = (if change : bool then <[key := stored]> (groups_at e) else groups_at e) ∧
    sync_groups range_map range_set c l tcp' udp' e1 = (Ok (), e').
Proof.
  cbn [sync_groups]. intros H. run_back.
  match goal with
  | Hk : getGroupAndResourceNameFromID id _ = Ok (?g, ?n), Hg : SecurityGroups_Get _ _ _ _ = (Ok ?sg, _) |- _ =>
    exists (g, n), (group_rules sg); rename Hg into Hget end.
  pose proof Hget as [He Hsg]%SecurityGroups_Get_groups.
  match goal with Hp : sg_Properties ?sg = Some ?p, Hr : SecurityRules ?p = Some _ |- _ =>
    assert (is_Some (sg_Properties sg)) as Hsome by (by eexists);
    assert (elems (SecurityRules p) = group_rules sg) as Hrules by (unfold group_rules; by rewrite Hp);
    rewrite Hr in Hrules; simpl in Hrules; subst end.
  match goal with Hb : (if ?b then _ else _) _ = _ |- _ => destruct b; run_back end.
  - match goal with Hb : SecurityGroups_CreateOrUpdate _ _ _ _ _ = _ |- _ =>
      apply (write_group (_, _) _ _ _ _ _ _ Hget) in Hb as (_ & stored & Hst & Hsame); [|done] end.
    do 6 eexists. split_and!; [done|done|done|exact Hsame|exact Hst|done].
  - do 6 eexists. split_and!; [done|done|done|reflexivity|done|done].
Qed.

Lemma sync_groups_frame l tcp udp e e' key :
  sync_groups range_map range_set c l tcp udp e = (Ok (), e') →
  ¬ Exists (denotes_group key) l → groups_at e' !! key = groups_at e !! key.
Proof.
  revert tcp udp e. induction l as [|id l IH]; intros tcp udp e H Hne; [by injection H as <-|].
  apply sync_groups_cons in H as (k & rules & change & new & stored & tcp' & udp' & e1 & Hk & _ & _ & _ & He1 & H).
  assert (k ≠ key) as Hkey by (intros ->; apply Hne; by left).
  rewrite (IH _ _ _ H) by (intros ?; apply Hne; by right). rewrite He1.
  destruct change; [|done]. by rewrite lookup_insert_ne.
Qed.

(** The first group that is visited. *)
Lemma sync_groups_first id l tcp udp e e' key rules :
  sync_groups range_map range_set c (id :: l) tcp udp e = (Ok (), e') →
  group_key id = Ok key → ¬ Exists (denotes_group key) l →
  groups_at e !! key = Some rules →
  Forall has_properties rules → NoDup (priority_of <$> rules) →
  length rules + size tcp + size udp <= priorities →
  ∃ stored new, groups_at e' !! key = Some stored ∧ same_rules stored new ∧
    group_follows rules tcp udp new.
Proof.
  intros H Hk Hne Hr Hp Hn Hs.
  apply sync_groups_cons in H as (k & rules' & change & new & stored & tcp' & udp' & e1 & Hk' & Hr' & Hg & Hst & He1 & H).
  assert (k = key) as -> by congruence. assert (rules' = rules) as -> by congruence.
  destruct (sync_group_follows range_map range_set range_map_order range_set_order rules tcp udp Hp Hn Hs)
    as (change2 & new2 & maps & Hg2 & Hf & Hsame & _).
  rewrite Hg in Hg2. injection Hg2 as <- <- _.
  rewrite (sync_groups_frame _ _ _ _ _ _ H Hne), He1. destruct change.
  - exists stored, new. by rewrite lookup_insert_eq.
  - specialize (Hsame eq_refl). subst new. by exists rules, rules.
Qed.

(** *** All of it *)
Lemma getSuitableSecurityGroup_groups detachs nets e r e' :
  getSuitableSecurityGroup range_ids c detachs nets e = (r, e') → groups_at e' = groups_at e.
Proof.
  set (R := λ x y : E, groups_at y = groups_at x).
  assert (PreOrder R) as HR by (split; [by intros ?|by unfold R; intros ??? -> ->]).
  assert (∀ l, steps R (security_groups_of c l)) as Hl.
  { induction l as [|x l IH]; cbn [security_groups_of]; unfold getSecurityGroupIDFromNetWork; steps_auto.
    intros w. apply Interfaces_Get_groups. }
  assert (steps R (getSuitableSecurityGroup range_ids c detachs nets)) as H.
  { unfold getSuitableSecurityGroup. apply steps_bind; [exact HR|apply Hl|]. intros a.
    apply steps_bind; [exact HR|apply Hl|]. intros b. by apply steps_ret. }
  intros Hrun. specialize (H e). by rewrite Hrun in H.
Qed.

(** The security groups after they were synced, up to what Azure assigns to a rule.
    Those in [gone] that are not in [synced] have lost the rules of the provider
    and keep the others; when [synced] is one group, its rules follow the ports:
    every port has exactly one rule with the default settings, the rules of others
    stay in place and the priorities are distinct; every other group is as
    before. *)
Definition groups_synced e e' (gone synced : gset string) (tcp udp : ports) : Prop :=
  ∀ key rules, groups_at e !! key = Some rules →
    let is_gone := Exists (denotes_group key) (elements gone) in
    let is_synced := Exists (denotes_group key) (elements synced) in
    (is_gone → ¬ is_synced →
     ∃ kept, groups_at e' !! key = Some kept ∧ same_rules kept (filter user_rule rules)) ∧
    (¬ is_gone → ¬ is_synced → groups_at e' !! key = Some rules) ∧
    (¬ is_gone → is_synced → size synced = 1 →
     Forall has_properties rules → NoDup (priority_of <$> rules) →
     length rules + size tcp + size udp <= priorities →
     ∃ stored new, groups_at e' !! key = Some stored ∧ same_rules stored new ∧
       group_follows rules tcp udp new).

Lemma security_groups_synced tcp udp detachs nets e e' :
  syncSecurityGroupRules range_map range_set range_ids c tcp udp detachs nets e = (Ok (), e') →
  ∃ gone synced e1, getSuitableSecurityGroup range_ids c detachs nets e = (Ok (gone, synced), e1) ∧
    groups_synced e e' gone synced tcp udp.
Proof.
  unfold syncSecurityGroupRules. intros H. run_back.
  match goal with
  | Hg : getSuitableSecurityGroup _ _ _ _ e = (Ok (?gone, ?synced), ?e1),
    Hd : deleteUselessSecurityRules _ _ _ _ = (_, ?e2) |- _ =>
      exists gone, synced, e1; split; [exact Hg|]; apply getSuitableSecurityGroup_groups in Hg;
      apply deleteUseless_groups in Hd; rename Hg into Hsame, Hd into Hdel; rename e2 into w2
  end.
  unfold ensureSyncRulesToSecurityGroups in H. intros key rules Hr.
  assert (∀ ids : gset string, Exists (denotes_group key) (range_ids ids) ↔
    Exists (denotes_group key) (elements ids)) as Hids by (intros ids; by rewrite range_ids_order).
  destruct (Hdel key) as [_ Hw2]. rewrite Hsame in Hw2. destruct (Hw2 _ Hr) as (kept & Hkept & Hw3).
  split; [|split].
  - intros Hg Hs. rewrite (sync_groups_frame _ _ _ _ _ _ H) by by rewrite Hids.
    rewrite decide_True in Hw3 by by apply Hids. by exists kept.
  - intros Hg Hs. rewrite (sync_groups_frame _ _ _ _ _ _ H) by by rewrite Hids.
    rewrite decide_False in Hw3 by by rewrite Hids. by subst.
  - intros Hg Hs Hone Hp Hn Hsize. rewrite decide_False in Hw3 by by rewrite Hids. subst kept.
    apply size_1_elem_of in Hone as [id Hone]. apply leibniz_equiv in Hone. rewrite Hone in *.
    assert (range_ids {[id]} = [id]) as Hl.
    { apply Permutation_singleton_r. by rewrite (range_ids_order {[id]}), elements_singleton. }
    rewrite elements_singleton, Exists_cons, Exists_nil in Hs. destruct Hs as [Hk|[]].
    rewrite Hl in H. by eapply sync_groups_first; [exact H|exact Hk|intros []%Exists_nil|..].
Qed.
End groups.
