(* ===== verification/AzurePools.v ===== *)
(** * providers/azure: backend pools

    The network interfaces of the nodes are attached to the backend pool of the
    load balancer; the interfaces Azure reports in the pool that belong to no
    node are detached. *)

From S2P Require Import Prelude GoStd LbApi AzureNet AzureIds.

(** ** What the provider looks up in the cluster *)
Record Secret := {
  secret_Type : string;
  secret_Data : gomap string;
}.

(** [core.StoreLister] *)
Class StoreLister (E : Type) := {
  lister_Node : string → E → result Node;
  lister_ConfigMap : string → string → E → result ConfigMap;
  lister_LoadBalancer : string → string → E → result LoadBalancer;
  lister_Secrets : string → E → result (list Secret);
}.

Definition annotationCaicloudAzure : string := "caicloud-azure".
Definition annotationMachineCloudProvider : string := "machine.resource.caicloud.io/cloud-provider".
Definition annotationVirtualMachineID : string := "machine.resource.caicloud.io/virtual-machine-id".
Definition labelCaicloudAKSResource : string := "kubernetes.azure.com/cluster".

(** ** The pools of a network interface *)
Definition is_pool (poolID : string) (pool : reference) : bool :=
  GoStrings.EqualFold (to_String (ref_ID pool)) poolID.

Definition with_pools (ipc : InterfaceIPConfiguration) (pools : slice reference)
    : InterfaceIPConfiguration :=
  {| ipc_Properties := (λ p, {| LoadBalancerBackendAddressPools := pools; ipc_rest := ipc_rest p |})
                       <$> ipc_Properties ipc;
     ipc_other := ipc_other ipc |}.

Fixpoint detach_configs (poolID : string) (ipcs : list InterfaceIPConfiguration)
    : result (bool * list InterfaceIPConfiguration) :=
  match ipcs with
  | [] => mret (false, [])
  | ipc :: rest =>
      p ← deref (ipc_Properties ipc);
      let pools := elems (LoadBalancerBackendAddressPools p) in
      let found := bool_decide (Exists (λ pool, is_pool poolID pool = true) pools) in
      let ipc' := if found then
                    with_pools ipc (Some (filter (λ pool, is_pool poolID pool = false) pools))
                  else ipc in
      '(needUpdate, ipcs') ← detach_configs poolID rest;
      mret (found || needUpdate, ipc' :: ipcs')
  end.

Fixpoint attach_configs (poolID : string) (ipcs : list InterfaceIPConfiguration)
    : result (bool * list InterfaceIPConfiguration) :=
  match ipcs with
  | [] => mret (false, [])
  | ipc :: rest =>
      p ← deref (ipc_Properties ipc);
      let pools := elems (LoadBalancerBackendAddressPools p) in
      let found := bool_decide (Exists (λ pool, is_pool poolID pool = true) pools) in
      let ipc' := if found then ipc
                  else with_pools ipc (Some (pools ++ [{| ref_ID := Some poolID; ref_other := [] |}])) in
      '(needUpdate, ipcs') ← attach_configs poolID rest;
      mret (negb found || needUpdate, ipc' :: ipcs')
  end.

Definition with_configs (nic : Interface) (ipcs : list InterfaceIPConfiguration) : Interface :=
  {| nic_Properties :=
       (λ p, {| NetworkSecurityGroup := NetworkSecurityGroup p; IPConfigurations := Some ipcs;
                nic_rest := nic_rest p |}) <$> nic_Properties nic;
     nic_other := nic_other nic |}.

(** ** The set of interfaces Azure reports *)
Fixpoint interface_ids (configs : list reference) : gset string :=
  match configs with
  | [] => ∅
  | config :: rest =>
      match getIPIDFromIPConfig (to_String (ref_ID config)) with
      | Ok id => {[id]} ∪ interface_ids rest
      | _ => interface_ids rest
      end
  end.

Definition getAzureBackendPoolIP (azlb : AzureLB) : result (gset string) :=
  p ← lb_properties azlb;
  match elems (BackendAddressPools p) with
  | [] => Err (ErrorString "azure lb backendAddressPools is nil")
  | azBackendPool :: _ =>
      bp ← deref (pool_Properties azBackendPool);
      mret (interface_ids (elems (bp_BackendIPConfigurations bp)))
  end.

Section pools.
Context {E : Type} `{!AzureSDK E, !StoreLister E}.
Context (range_ids : gset string → list string) (c : Config).

(** ** The interfaces of a node *)
Definition getMachineInfoInAKSCluster (node : Node) : result machineInfo :=
  match entries (node_Labels node) !! labelCaicloudAKSResource with
  | None => Err (ErrorString ("get " +:+ labelCaicloudAKSResource +:+ " label failed"))
  | Some resourceGroup =>
      Ok {| VMID := ""; VMName := node_Name node; GroupName := resourceGroup |}
  end.

Definition getMachineInfoFromNode (nodeName : string) : prog E machineInfo :=
  node ← reads (lister_Node nodeName);
  match entries (node_Annotations node) !! annotationMachineCloudProvider with
  | None => lift (getMachineInfoInAKSCluster node)
  | Some cloudProvider =>
      if bool_decide (cloudProvider ≠ annotationCaicloudAzure) then
        fail (ErrorString (" azure node type " +:+ cloudProvider +:+ " error"))
      else
        match entries (node_Annotations node) !! annotationVirtualMachineID with
        | None => fail (ErrorString "get node virtual machine ID failed")
        | Some vmID => mret {| VMID := vmID; VMName := ""; GroupName := "" |}
        end
  end.

Definition getNetworkInterfacesFromVM (machine : machineInfo) : prog E (list string) :=
  machine ← lift (Parse machine);
  vm ← VirtualMachines_Get c (GroupName machine) (VMName machine);
  profile ← lift (deref (vm_Properties vm));
  networkInterfaces ← lift (deref profile);
  match elems networkInterfaces with
  | [] => fail (ErrorString ("vm " +:+ to_String (vm_Name vm) +:+ " has no networkInterfaces"))
  | l => mret ((λ networkInterface, to_String (ref_ID networkInterface)) <$> l)
  end.

Definition getAzureNetworkInterfacesByNodeName (nodeName : string) : prog E (list string) :=
  machine ← getMachineInfoFromNode nodeName;
  getNetworkInterfacesFromVM machine.

Fixpoint getBackendPoolIPFromNodes (nodes : list string) : prog E (gset string) :=
  match nodes with
  | [] => mret ∅
  | node :: rest =>
      nets ← getAzureNetworkInterfacesByNodeName node;
      set ← getBackendPoolIPFromNodes rest;
      mret (list_to_set nets ∪ set)
  end.

(** ** Attaching and detaching *)
Definition getDiffBetweenNetworkInterfaces (one two : gset string) : list string :=
  filter (λ id, id ∉ two) (range_ids one).

Definition diffBackendPoolNetworkInterfaecs (azlb : AzureLB) (nodes : list string)
    : prog E (list string * list string * gset string) :=
  azBackendPoolMap ← lift (getAzureBackendPoolIP azlb);
  cpsLBBackendConfigMap ← getBackendPoolIPFromNodes nodes;
  mret (getDiffBetweenNetworkInterfaces azBackendPoolMap cpsLBBackendConfigMap,
        getDiffBetweenNetworkInterfaces cpsLBBackendConfigMap azBackendPoolMap,
        cpsLBBackendConfigMap).

Definition detachNetworkInterfacesAndLoadBalancer (detachID poolID : string) : prog E () :=
  '(groupName, name) ← lift (getGroupAndResourceNameFromID detachID azureNetworkInterfaces);
  nic ← Interfaces_Get c groupName name;
  p ← lift (deref (nic_Properties nic));
  match IPConfigurations p with
  | None => mret ()
  | Some ipcs =>
      '(needUpdate, ipcs) ← lift (detach_configs poolID ipcs);
      if needUpdate : bool then
        _ ← Interfaces_CreateOrUpdate c groupName name (with_configs nic ipcs); mret ()
      else mret ()
  end.

Definition attachNetworkInterfacesAndLoadBalancer (attachID poolID : string) : prog E () :=
  '(groupName, name) ← lift (getGroupAndResourceNameFromID attachID azureNetworkInterfaces);
  nic ← Interfaces_Get c groupName name;
  p ← lift (deref (nic_Properties nic));
  match IPConfigurations p with
  | None => fail (ErrorString "ipc is zero")
  | Some ipcs =>
      '(needUpdate, ipcs) ← lift (attach_configs poolID ipcs);
      if needUpdate : bool then
        _ ← Interfaces_CreateOrUpdate c groupName name (with_configs nic ipcs); mret ()
      else mret ()
  end.

Definition syncBackendPoolsWithNodes (azlb : AzureLB) (nodes : list string)
    : prog E (list string * gset string) :=
  '(detachs, attachs, azlbBackendNetworksMap) ← diffBackendPoolNetworkInterfaecs azlb nodes;
  p ← lift (lb_properties azlb);
  match elems (BackendAddressPools p) with
  | [] => fail (ErrorString "backend pools is empty")
  | pool :: _ =>
      let poolID := to_String (pool_ID pool) in
      _ ← for_each detachs (λ detach, detachNetworkInterfacesAndLoadBalancer detach poolID);
      _ ← for_each attachs (λ attach, attachNetworkInterfacesAndLoadBalancer attach poolID);
      mret (detachs, azlbBackendNetworksMap)
  end.

Definition syncBackendPools (azlb : AzureLB) (lb : LoadBalancer) : prog E (list string * gset string) :=
  syncBackendPoolsWithNodes azlb (elems (Names (Nodes (Spec lb)))).
End pools.
