(* ===== verification/AzurePoolsFacts.v ===== *)
(** * Backend pools: properties

    What attaching and detaching does to the IP configurations of a network
    interface, and what [syncBackendPools] achieves in the cloud. *)

From S2P Require Import Prelude GoStd LbApi AzureNet AzureIds AzurePools.

(** ** One network interface *)

(** The pool IDs of an IP configuration. *)
Definition pool_ids (ipc : InterfaceIPConfiguration) : list string :=
  match ipc_Properties ipc with
  | Some p => (λ pool, to_String (ref_ID pool)) <$> elems (LoadBalancerBackendAddressPools p)
  | None => []
  end.

Definition in_pool (poolID : string) (ids : list string) : Prop :=
  Exists (λ id, GoStrings.EqualFold id poolID = true) ids.

#[export] Instance in_pool_dec poolID ids : Decision (in_pool poolID ids).
Proof. unfold in_pool. apply _. Defined.

Definition leave (poolID : string) (ids : list string) : list string :=
  filter (λ id, GoStrings.EqualFold id poolID = false) ids.

Definition enter (poolID : string) (ids : list string) : list string :=
  if decide (in_pool poolID ids) then ids else ids ++ [poolID].

Definition has_properties (ipc : InterfaceIPConfiguration) : Prop := is_Some (ipc_Properties ipc).

Lemma leave_not_in poolID ids : ¬ in_pool poolID (leave poolID ids).
Proof.
  unfold in_pool, leave. rewrite Exists_exists. intros (id & Hin & Hid).
  apply list_elem_of_filter in Hin as [Hf _]. congruence.
Qed.

Lemma leave_id poolID ids : ¬ in_pool poolID ids → leave poolID ids = ids.
Proof.
  unfold in_pool, leave. induction ids as [|id ids IH]; [done|]. rewrite Exists_cons. intros Hn.
  rewrite filter_cons_True by (destruct (GoStrings.EqualFold id poolID); tauto). rewrite IH; tauto.
Qed.

Lemma leave_idem poolID ids : leave poolID (leave poolID ids) = leave poolID ids.
Proof. apply leave_id, leave_not_in. Qed.

Lemma enter_in poolID ids : in_pool poolID (enter poolID ids).
Proof.
  unfold enter. case_decide; [done|]. unfold in_pool. rewrite Exists_app, Exists_cons. right. left.
  apply GoStrings.EqualFold_refl.
Qed.

Lemma enter_idem poolID ids : enter poolID (enter poolID ids) = enter poolID ids.
Proof. unfold enter at 1. rewrite decide_True; [done|apply enter_in]. Qed.

Lemma leave_enter poolID ids : leave poolID (enter poolID ids) = leave poolID ids.
Proof.
  unfold enter. case_decide; [done|]. unfold leave. rewrite filter_app, filter_cons_False;
    [by rewrite app_nil_r|]. by rewrite GoStrings.EqualFold_refl.
Qed.

Lemma found_in_pool poolID ipc p :
  ipc_Properties ipc = Some p →
  (Exists (λ pool, is_pool poolID pool = true) (elems (LoadBalancerBackendAddressPools p)) ↔
   in_pool poolID (pool_ids ipc)).
Proof. intros Hp. unfold in_pool, pool_ids. rewrite Hp, Exists_fmap. done. Qed.

Lemma detach_configs_spec poolID ipcs :
  Forall has_properties ipcs →
  ∃ needUpdate ipcs',
    detach_configs poolID ipcs = Ok (needUpdate, ipcs') ∧ Forall has_properties ipcs' ∧
    (pool_ids <$> ipcs') = leave poolID ∘ pool_ids <$> ipcs ∧
    (needUpdate = false → ipcs' = ipcs) ∧
    (needUpdate = bool_decide (Exists (λ ipc, in_pool poolID (pool_ids ipc)) ipcs)).
Proof.
  induction 1 as [|ipc ipcs [p Hp] _ (b & ipcs' & H & Hall & Hids & Hsame & Hb)];
    [by exists false, []|]. cbn [detach_configs]. rewrite Hp.
  change (mbind ?f (deref (Some ?a))) with (f a). cbv beta zeta. rewrite H.
  change (mbind ?f (Ok ?a)) with (f a). cbv beta iota.
  rewrite (bool_decide_ext _ _ (found_in_pool poolID ipc p Hp)).
  eexists _, _. split; [done|]. rewrite bool_decide_decide. case_decide as Hf.
  - split_and!.
    + constructor; [|done]. unfold has_properties. simpl. rewrite Hp. by eexists.
    + rewrite !fmap_cons, Hids. f_equal. unfold pool_ids. simpl. rewrite Hp. simpl.
      unfold leave. by rewrite filter_fmap.
    + done.
    + rewrite bool_decide_true; [done|by left].
  - split_and!.
    + constructor; [|done]. unfold has_properties. by eexists.
    + rewrite !fmap_cons, Hids. simpl. by rewrite (leave_id _ (pool_ids ipc)).
    + simpl. intros Hfalse. by rewrite Hsame.
    + simpl. rewrite Hb. apply bool_decide_ext. rewrite Exists_cons. tauto.
Qed.

Lemma attach_configs_spec poolID ipcs :
  Forall has_properties ipcs →
  ∃ needUpdate ipcs',
    attach_configs poolID ipcs = Ok (needUpdate, ipcs') ∧ Forall has_properties ipcs' ∧
    (pool_ids <$> ipcs') = enter poolID ∘ pool_ids <$> ipcs ∧
    (needUpdate = false → ipcs' = ipcs) ∧
    (needUpdate = bool_decide (Exists (λ ipc, ¬ in_pool poolID (pool_ids ipc)) ipcs)).
Proof.
  induction 1 as [|ipc ipcs [p Hp] _ (b & ipcs' & H & Hall & Hids & Hsame & Hb)];
    [by exists false, []|]. cbn [attach_configs]. rewrite Hp.
  change (mbind ?f (deref (Some ?a))) with (f a). cbv beta zeta. rewrite H.
  change (mbind ?f (Ok ?a)) with (f a). cbv beta iota.
  rewrite (bool_decide_ext _ _ (found_in_pool poolID ipc p Hp)).
  eexists _, _. split; [done|]. rewrite bool_decide_decide. case_decide as Hf.
  - split_and!.
    + constructor; [|done]. by eexists.
    + rewrite !fmap_cons, Hids. simpl. unfold enter at 2. by rewrite decide_True.
    + simpl. intros Hfalse. by rewrite Hsame.
    + simpl. rewrite Hb. apply bool_decide_ext. rewrite Exists_cons. tauto.
  - split_and!.
    + constructor; [|done]. unfold has_properties. simpl. rewrite Hp. by eexists.
    + rewrite !fmap_cons, Hids. f_equal. simpl. unfold enter. rewrite decide_False by done.
      unfold pool_ids. simpl. rewrite Hp. simpl. by rewrite fmap_app.
    + done.
    + rewrite bool_decide_true; [done|by left].
Qed.

(** Attaching puts every IP configuration of an interface into the pool, once;
    doing it again needs no update.  Detaching takes every configuration out,
    however the ID is capitalised, and leaves the other pools: after attaching
    and detaching an interface that was not in the pool its pools are the same. *)
Theorem attach_detach poolID ipcs :
  Forall has_properties ipcs →
  ∃ b1 ipcs1 b2 ipcs2,
    attach_configs poolID ipcs = Ok (b1, ipcs1) ∧
    Forall (λ ipc, in_pool poolID (pool_ids ipc)) ipcs1 ∧
    attach_configs poolID ipcs1 = Ok (false, ipcs1) ∧
    detach_configs poolID ipcs1 = Ok (b2, ipcs2) ∧
    Forall (λ ipc, ¬ in_pool poolID (pool_ids ipc)) ipcs2 ∧
    (pool_ids <$> ipcs2) = leave poolID ∘ pool_ids <$> ipcs ∧
    (Forall (λ ipc, ¬ in_pool poolID (pool_ids ipc)) ipcs →
       (pool_ids <$> ipcs2) = pool_ids <$> ipcs).
Proof.
  intros H. destruct (attach_configs_spec poolID ipcs H) as (b1 & ipcs1 & H1 & Hp1 & Hi1 & _).
  destruct (detach_configs_spec poolID ipcs1 Hp1) as (b2 & ipcs2 & H2 & _ & Hi2 & _).
  assert (Forall (λ ipc, in_pool poolID (pool_ids ipc)) ipcs1) as Hall1.
  { change (Forall (in_pool poolID ∘ pool_ids) ipcs1). rewrite <-Forall_fmap, Hi1. apply Forall_fmap, Forall_true.
    intros ipc. apply enter_in. }
  assert ((pool_ids <$> ipcs2) = leave poolID ∘ pool_ids <$> ipcs) as Hids.
  { rewrite Hi2, list_fmap_compose, Hi1, <-list_fmap_compose. apply list_fmap_ext.
    intros _ ipc _. apply leave_enter. }
  exists b1, ipcs1, b2, ipcs2. split_and!; [done|done| |done| |done|].
  - destruct (attach_configs_spec poolID ipcs1 Hp1) as (b & ipcs' & -> & _ & _ & Hsame & Hb).
    rewrite bool_decide_false in Hb; [by rewrite Hb, Hsame|].
    rewrite <-Forall_Exists_neg. eapply Forall_impl; [exact Hall1|]. by intros ? ? ?.
  - change (Forall ((λ ids, ¬ in_pool poolID ids) ∘ pool_ids) ipcs2). rewrite <-Forall_fmap, Hids.
    apply Forall_fmap, Forall_true. intros ipc. apply leave_not_in.
  - intros Hnone. rewrite Hids. apply list_fmap_ext. intros i ipc Hin.
    apply leave_id. rewrite Forall_lookup in Hnone. by eapply Hnone.
Qed.

(** ** The interfaces in the cloud

    [pools_at e k] is, for the interface stored under a group and a name, the
    pool IDs of its IP configurations.  What Azure documents of its calls: a
    read does not change them and returns what is there, a successful update
    stores those of the interface that was sent. *)
Definition nic_pools (nic : Interface) : list (list string) :=
  match nic_Properties nic with
  | Some p => pool_ids <$> elems (IPConfigurations p)
  | None => []
  end.

Class AzureNics (E : Type) `{!AzureSDK E} := {
  pools_at : E → gmap (string * string) (list (list string));
  Interfaces_Get_pools c g n e r e' :
    Interfaces_Get c g n e = (r, e') → pools_at e' = pools_at e ∧
    match r with
    | Ok nic => pools_at e !! (g, n) = Some (nic_pools nic) ∧
                (∀ p, nic_Properties nic = Some p → Forall has_properties (elems (IPConfigurations p)))
    | Err _ => True
    | Panic _ => False
    end;
  Interfaces_CreateOrUpdate_pools c g n nic e r e' :
    Interfaces_CreateOrUpdate c g n nic e = (Ok r, e') →
    pools_at e' = <[(g, n) := nic_pools nic]> (pools_at e);
  VirtualMachines_Get_pools c g n e :
    pools_at (VirtualMachines_Get c g n e).2 = pools_at e;
}.

Section cloud.
Context {E : Type} `{!AzureSDK E, !StoreLister E, !AzureNics E}.
Context (range_ids : gset string → list string) (c : Config).
Context (range_ids_order : ∀ s, set_order (range_ids s) s).

Definition nic_key (id : string) : result (string * string) :=
  getGroupAndResourceNameFromID id azureNetworkInterfaces.

(** Some ID of the list names the interface. *)
Definition names (ids : list string) (k : string * string) : Prop :=
  Exists (λ id, nic_key id = Ok k) ids.

#[local] Instance names_dec ids k : Decision (names ids k).
Proof. unfold names. apply _. Defined.

(** What a successful call does to the pools of the interface it names. *)
Definition updates (f : list string → list string) (id : string) (e e' : E) : Prop :=
  ∃ k l, nic_key id = Ok k ∧ pools_at e !! k = Some l ∧ pools_at e' = <[k := f <$> l]> (pools_at e).

Lemma insert_same_pools (m : gmap (string * string) (list (list string))) k l l' :
  m !! k = Some l → l' = l → m = <[k := l']> m.
Proof. intros ? ->. by rewrite insert_id. Qed.

Lemma nic_pools_with_configs nic p ipcs :
  nic_Properties nic = Some p → nic_pools (with_configs nic ipcs) = pool_ids <$> ipcs.
Proof. intros Hp. unfold nic_pools, with_configs. simpl. by rewrite Hp. Qed.

(** Both calls read the interface, change its configurations and write it back
    when that is needed; a missing list of configurations is [missing]. *)
Definition change_nic (change : list InterfaceIPConfiguration → result (bool * list InterfaceIPConfiguration))
    (missing : prog E ()) (id : string) : prog E () :=
  '(groupName, name) ← lift (nic_key id);
  nic ← Interfaces_Get c groupName name;
  p ← lift (deref (nic_Properties nic));
  match IPConfigurations p with
  | None => missing
  | Some ipcs =>
      '(needUpdate, ipcs) ← lift (change ipcs);
      if needUpdate : bool then
        _ ← Interfaces_CreateOrUpdate c groupName name (with_configs nic ipcs); mret ()
      else mret ()
  end.

Lemma change_nic_updates change missing f id e e' :
  (∀ ipcs, Forall has_properties ipcs → ∃ b ipcs',
     change ipcs = Ok (b, ipcs') ∧ (pool_ids <$> ipcs') = f ∘ pool_ids <$> ipcs ∧
     (b = false → ipcs' = ipcs)) →
  (∀ e e', missing e = (Ok (), e') → e' = e) →
  change_nic change missing id e = (Ok (), e') → updates f id e e'.
Proof.
  intros Hchange Hmissing. unfold change_nic, updates. rewrite prog_bind_lift.
  destruct (nic_key id) as [[g n]| |] eqn:Hk; [|done..]. cbv iota beta.
  unfold mbind at 1, prog_bind at 1.
  destruct (Interfaces_Get c g n e) as [[nic| |] e1] eqn:Hget; [|done..].
  apply Interfaces_Get_pools in Hget as [He1 [Hnic Hipcs]].
  rewrite prog_bind_lift. destruct (nic_Properties nic) as [p|] eqn:Hp; [|done]. simpl.
  destruct (IPConfigurations p) as [ipcs|] eqn:Hi.
  - rewrite prog_bind_lift. specialize (Hipcs p eq_refl). rewrite Hi in Hipcs. simpl in Hipcs.
    destruct (Hchange ipcs Hipcs) as (b & ipcs' & -> & Hids & Hsame). cbv iota beta.
    assert (nic_pools nic = pool_ids <$> ipcs) as Hl by (unfold nic_pools; by rewrite Hp, Hi).
    rewrite Hl in Hnic. rewrite list_fmap_compose in Hids. destruct b.
    + unfold mbind, prog_bind.
      destruct (Interfaces_CreateOrUpdate c g n (with_configs nic ipcs') e1) as [[r| |] e2] eqn:Hput;
        [|done..]. intros [= <-]. apply Interfaces_CreateOrUpdate_pools in Hput.
      exists (g, n), (pool_ids <$> ipcs). split_and!; [done|done|].
      by rewrite Hput, He1, (nic_pools_with_configs _ _ _ Hp), Hids.
    + intros [= <-]. rewrite Hsame in Hids by done.
      exists (g, n), (pool_ids <$> ipcs). split_and!; [done|done|].
      rewrite He1. by eapply insert_same_pools.
  - intros Hm%Hmissing. subst e'. exists (g, n), []. unfold nic_pools in Hnic. rewrite Hp, Hi in Hnic.
    split_and!; [done|done|]. rewrite He1. by eapply insert_same_pools.
Qed.

Lemma detach_updates poolID id e e' :
  detachNetworkInterfacesAndLoadBalancer c id poolID e = (Ok (), e') →
  updates (leave poolID) id e e'.
Proof.
  apply (change_nic_updates (detach_configs poolID) (mret ())).
  - intros ipcs H. destruct (detach_configs_spec poolID ipcs H) as (b & i & ? & _ & ? & ? & _).
    by exists b, i.
  - by intros ? ? [= <-].
Qed.

Lemma attach_updates poolID id e e' :
  attachNetworkInterfacesAndLoadBalancer c id poolID e = (Ok (), e') →
  updates (enter poolID) id e e'.
Proof.
  apply (change_nic_updates (attach_configs poolID) (fail (ErrorString "ipc is zero"))).
  - intros ipcs H. destruct (attach_configs_spec poolID ipcs H) as (b & i & ? & _ & ? & ? & _).
    by exists b, i.
  - by intros ? ? [=].
Qed.

(** A loop of such calls over a list of IDs. *)
Lemma updates_all f (m : string → prog E ()) ids e e' :
  (∀ l, f (f l) = f l) → (∀ id e e', m id e = (Ok (), e') → updates f id e e') →
  for_each ids m e = (Ok (), e') →
  (∀ id, id ∈ ids → ∃ k, nic_key id = Ok k ∧ is_Some (pools_at e !! k)) ∧
  ∀ k, pools_at e' !! k =
    (λ l, if decide (names ids k) then f <$> l else l) <$> pools_at e !! k.
Proof.
  intros Hf Hm. revert e. induction ids as [|id ids IH]; intros e.
  { intros [= <-]. split; [by intros id ?%elem_of_nil|]. intros k.
    by destruct (pools_at e !! k). }
  cbn [for_each]. unfold mbind at 1, prog_bind at 1.
  destruct (m id e) as [[[]| |] e1] eqn:H; [|done..]. intros Hrest.
  apply Hm in H as (k1 & l1 & Hk1 & Hl1 & He1). apply IH in Hrest as [Hall He'].
  split.
  - intros id' [->|Hin]%elem_of_cons; [by exists k1|].
    destruct (Hall id' Hin) as (k & Hk & Hs). exists k. split; [done|].
    rewrite He1, lookup_insert_is_Some in Hs. destruct Hs as [<-|[_ ?]]; [by exists l1|done].
  - intros k. rewrite He', He1. destruct (decide (k1 = k)) as [<-|Hne].
    + rewrite lookup_insert_eq, Hl1. cbn [fmap option_fmap option_map]. f_equal.
      rewrite (decide_True (P := names (id :: ids) k1)) by by left.
      case_decide; [|done]. rewrite <-list_fmap_compose. apply list_fmap_ext. intros. apply Hf.
    + rewrite lookup_insert_ne by done. destruct (pools_at e !! k); [|done]. cbn [fmap option_fmap option_map]. f_equal.
      apply decide_ext. unfold names. rewrite Exists_cons, Hk1. naive_solver.
Qed.

(** A call that changes no interface. *)
Definition same_pools (e e' : E) : Prop := pools_at e' = pools_at e.

#[local] Instance same_pools_preorder : PreOrder same_pools.
Proof. split; [by intros ?|]. unfold same_pools. intros ??? -> ->. done. Qed.

Lemma VirtualMachines_Get_same_pools g n : steps same_pools (VirtualMachines_Get c g n).
Proof. intros e. apply VirtualMachines_Get_pools. Qed.
#[local] Hint Resolve VirtualMachines_Get_same_pools : steps.

Lemma getBackendPoolIPFromNodes_same_pools nodes :
  steps same_pools (getBackendPoolIPFromNodes c nodes).
Proof.
  induction nodes as [|node nodes IH]; cbn [getBackendPoolIPFromNodes];
    unfold getAzureNetworkInterfacesByNodeName, getMachineInfoFromNode, getNetworkInterfacesFromVM;
    steps_auto.
Qed.

Lemma diff_elem one two id :
  id ∈ getDiffBetweenNetworkInterfaces range_ids one two ↔ id ∈ one ∧ id ∉ two.
Proof.
  unfold getDiffBetweenNetworkInterfaces. rewrite list_elem_of_filter.
  rewrite (set_order_elem _ _ _ (range_ids_order one)). tauto.
Qed.

Lemma diff_names one two k :
  names (getDiffBetweenNetworkInterfaces range_ids one two) k ↔
  ∃ id, id ∈ one ∧ (id ∉ two) ∧ nic_key id = Ok k.
Proof.
  unfold names. rewrite Exists_exists. split.
  - intros (id & [? ?]%diff_elem & ?). by exists id.
  - intros (id & ? & ? & ?). exists id. by rewrite diff_elem.
Qed.

(** What a successful call was made of, and what it makes of the pools. *)
Lemma syncBackendPools_inv azlb nodes e detachs nets e' :
  syncBackendPoolsWithNodes range_ids c azlb nodes e = (Ok (detachs, nets), e') →
  ∃ az pool pools p e1,
    getAzureBackendPoolIP azlb = Ok az ∧ getBackendPoolIPFromNodes c nodes e = (Ok nets, e1) ∧
    azlb_Properties azlb = Some p ∧ elems (BackendAddressPools p) = pool :: pools ∧
    detachs = getDiffBetweenNetworkInterfaces range_ids az nets ∧
    let poolID := to_String (pool_ID pool) in
    let attachs := getDiffBetweenNetworkInterfaces range_ids nets az in
    (∀ id, id ∈ detachs ∨ id ∈ attachs → ∃ k, nic_key id = Ok k ∧ is_Some (pools_at e !! k)) ∧
    ∀ k, pools_at e' !! k =
      (λ l, let l := if decide (names detachs k) then leave poolID <$> l else l in
            if decide (names attachs k) then enter poolID <$> l else l) <$> pools_at e !! k.
Proof.
  unfold syncBackendPoolsWithNodes, diffBackendPoolNetworkInterfaecs, lb_properties. intros H. run_back.
  destruct (azlb_Properties azlb) as [p|]; [|done]. simplify_eq/=.
  destruct (elems (BackendAddressPools _)) as [|pool pools] eqn:Hpools; [done|]. run_back. simplify_eq/=.
  match goal with H : getBackendPoolIPFromNodes c nodes e = (_, ?e1) |- _ =>
    pose proof (getBackendPoolIPFromNodes_same_pools nodes e) as He1; rewrite H in He1 end.
  unfold same_pools in He1. simpl in He1.
  match goal with H : for_each _ _ _ = _, H' : for_each _ _ _ = _ |- _ =>
    apply (updates_all (enter (to_String (pool_ID pool)))) in H' as [Haall Haeq];
      [|apply enter_idem|intros; by apply attach_updates];
    apply (updates_all (leave (to_String (pool_ID pool)))) in H as [Hdall Hdeq];
      [|apply leave_idem|intros; by apply detach_updates] end.
  eexists _, pool, pools, _, _. split_and!; [done|done|done|done|done| |].
  - intros id [Hin|Hin]; [rewrite <-He1; by apply Hdall|].
    destruct (Haall id Hin) as (k & Hk & [l Hl]). exists k. split; [done|].
    rewrite Hdeq, He1 in Hl. by destruct (pools_at e !! k).
  - intros k. rewrite Haeq, Hdeq, He1. by destruct (pools_at e !! k).
Qed.

(** C12: After a successful [syncBackendPools] the pool is that of the nodes.  The
    interfaces of the nodes that Azure did not report in the pool have all
    their configurations in it; those Azure reported that belong to no node
    have none in it, unless a node's interface is the same one under another
    spelling; and no other interface is touched. *)
Theorem syncBackendPools_pools azlb nodes e detachs nets e' :
  syncBackendPoolsWithNodes range_ids c azlb nodes e = (Ok (detachs, nets), e') →
  ∃ az pool pools p,
    getAzureBackendPoolIP azlb = Ok az ∧
    azlb_Properties azlb = Some p ∧ elems (BackendAddressPools p) = pool :: pools ∧
    let poolID := to_String (pool_ID pool) in
    (∀ id, id ∈ detachs ↔ id ∈ az ∧ id ∉ nets) ∧
    (∀ id, id ∈ nets → id ∉ az → ∃ k l, nic_key id = Ok k ∧
       pools_at e' !! k = Some l ∧ Forall (in_pool poolID) l) ∧
    (∀ id, id ∈ detachs → ∃ k l, nic_key id = Ok k ∧ pools_at e' !! k = Some l ∧
       ((∀ id', id' ∈ nets → id' ∉ az → nic_key id' ≠ Ok k) →
          Forall (λ ids, ¬ in_pool poolID ids) l)) ∧
    (∀ k, (∀ id, id ∈ az → id ∉ nets → nic_key id ≠ Ok k) →
          (∀ id, id ∈ nets → id ∉ az → nic_key id ≠ Ok k) →
          pools_at e' !! k = pools_at e !! k).
Proof.
  intros H. apply syncBackendPools_inv in H
    as (az & pool & pools & p & e1 & Haz & _ & Hp & Hpools & -> & Hall & Heq).
  exists az, pool, pools, p. cbv zeta. split_and!; [done|done|done|intros id; apply diff_elem|..].
  - intros id Hin Hnot. destruct (Hall id) as (k & Hk & [l Hl]); [right; by apply diff_elem|].
    eexists k, _. rewrite Heq, Hl. cbn [fmap option_fmap option_map]. split_and!; [done|done|].
    rewrite (decide_True (P := names (getDiffBetweenNetworkInterfaces range_ids nets az) k))
      by (apply diff_names; by exists id).
    apply Forall_fmap, Forall_true. intros ids. apply enter_in.
  - intros id Hin. destruct (Hall id) as (k & Hk & [l Hl]); [by left|].
    eexists k, _. rewrite Heq, Hl. cbn [fmap option_fmap option_map]. split_and!; [done|done|].
    intros Hno. rewrite decide_False by (intros (id' & ? & ? & ?)%diff_names; by eapply Hno).
    rewrite decide_True by (apply Exists_exists; by exists id).
    apply Forall_fmap, Forall_true. intros ids. apply leave_not_in.
  - intros k Hnod Hnoa. rewrite Heq. destruct (pools_at e !! k); [|done].
    cbn [fmap option_fmap option_map].
    rewrite decide_False by (intros (id' & ? & ? & ?)%diff_names; by eapply Hnoa).
    by rewrite decide_False by (intros (id' & ? & ? & ?)%diff_names; by eapply Hnod).
Qed.

(** The interface has a configuration in the pool. *)
Definition member (poolID : string) (e : E) (k : string * string) : Prop :=
  ∃ l, pools_at e !! k = Some l ∧ Exists (in_pool poolID) l.

(** The IDs name an interface. *)
Definition named_by (ids : gset string) (k : string * string) : Prop :=
  ∃ id, id ∈ ids ∧ nic_key id = Ok k.

(** What Azure reports with the load balancer is what is in the pool. *)
Definition reported (poolID : string) (az : gset string) (e : E) : Prop :=
  ∀ k, member poolID e k ↔ named_by az k.

(** An interface has one spelling. *)
Definition one_spelling (ids : gset string) : Prop :=
  ∀ id id' k, id ∈ ids → id' ∈ ids → nic_key id = Ok k → nic_key id' = Ok k → id = id'.

(** After a successful [syncBackendPools] the backend pool is that of the
    nodes: an interface is in it if and only if it is one of a node.  This needs
    that Azure reported what was in the pool, that nobody spells the ID of an
    interface in two ways, and that every interface has a configuration. *)
Theorem backend_pool_is_nodes azlb p pool pools az nodes e detachs nets e' :
  azlb_Properties azlb = Some p → elems (BackendAddressPools p) = pool :: pools →
  getAzureBackendPoolIP azlb = Ok az →
  syncBackendPoolsWithNodes range_ids c azlb nodes e = (Ok (detachs, nets), e') →
  let poolID := to_String (pool_ID pool) in
  reported poolID az e → one_spelling (az ∪ nets) →
  (∀ k l, pools_at e !! k = Some l → l ≠ []) →
  (∃ e1, getBackendPoolIPFromNodes c nodes e = (Ok nets, e1)) ∧
  ∀ k, member poolID e' k ↔ named_by nets k.
Proof.
  intros Hp Hpools Haz H poolID Hrep Hone Hconf. apply syncBackendPools_inv in H
    as (az' & pool' & pools' & p' & e1 & Haz' & Hnets & Hp' & Hpools' & -> & Hall & Heq).
  assert (az' = az) as -> by congruence. assert (p' = p) as -> by congruence.
  assert (pool' = pool) as -> by congruence. split; [by exists e1|]. intros k.
  unfold member. setoid_rewrite Heq. fold poolID. setoid_rewrite fmap_Some. split.
  - intros (l' & (l & Hl & ->) & Hin). cbv zeta in Hin.
    destruct (decide (names (getDiffBetweenNetworkInterfaces range_ids nets az) k)) as [Ha|Ha].
    { apply diff_names in Ha as (id & ? & _ & ?). by exists id. }
    destruct (decide (names (getDiffBetweenNetworkInterfaces range_ids az nets) k)) as [Hd|Hd].
    { exfalso. rewrite Exists_fmap, Exists_exists in Hin. destruct Hin as (ids & _ & Hids).
      by apply leave_not_in in Hids. }
    destruct (proj1 (Hrep k)) as (id & Hid & Hk); [by exists l|].
    destruct (decide (id ∈ nets)); [by exists id|]. exfalso. apply Hd, diff_names. by exists id.
  - intros (id & Hid & Hk).
    destruct (decide (names (getDiffBetweenNetworkInterfaces range_ids nets az) k)) as [Ha|Ha].
    + apply diff_names in Ha as (id' & Hid' & Hnot & Hk').
      destruct (Hall id') as (k' & Hk2 & [l Hl]); [right; by apply diff_elem|].
      rewrite Hk' in Hk2. injection Hk2 as <-. eexists. split; [by exists l|].
      destruct l as [|ids l]; [by apply Hconf in Hl|].
      case_decide; apply Exists_cons; left; apply enter_in.
    + assert (id ∈ az) as Hin_az.
      { destruct (decide (id ∈ az)); [done|]. exfalso. apply Ha, diff_names. by exists id. }
      destruct (proj2 (Hrep k)) as (l & Hl & Hin); [by exists id|].
      exists l. split; [|done]. exists l. split; [done|].
      rewrite decide_False; [done|]. intros (id' & Hid' & Hnot & Hk')%diff_names.
      apply Hnot. rewrite (Hone id' id k); set_solver.
Qed.
End cloud.
