(* ===== verification/AzureClient.v ===== *)
(** * providers/azure/client

    The errors of the Azure API, and how the provider gets a client. *)

From S2P Require Import Prelude GoStd AzureNet AzurePools.

(** ** Errors *)

(** [err.(autorest.DetailedError)] succeeds, then [StatusCode.(int)] panics when
    there is no int in it. *)
Definition IsNotFound (err : option error) : result bool :=
  match err with
  | Some (DetailedError (Some statusCode) _ _) => mret (bool_decide (statusCode = 404%Z))
  | Some (DetailedError None _ _) => Panic "interface conversion: interface {} is not int"
  | _ => mret false
  end.

Definition ServiceError_Error (e : service_error) : string :=
  "statusCode " +:+ Strconv.Itoa (StatusCode e) +:+ " Code " +:+ Code e +:+ " Message " +:+ Message e.

Definition error_message (e : error) : string :=
  match e with
  | ErrorString msg => msg
  | StatusError _ msg => msg
  | DetailedError _ _ msg => msg
  | ServiceErr e => ServiceError_Error e
  end.

Definition NewServiceError (code message : string) : error :=
  ServiceErr {| StatusCode := 0; Code := code; Message := message; Target := "" |}.

Definition ParseServiceError (err : error) : option service_error :=
  match err with
  | DetailedError (Some statusCode) original _ =>
      match original with
      | OriginalService code message target
      | OriginalRequest (Some (code, message, target)) =>
          Some {| StatusCode := statusCode; Code := code; Message := message;
                  Target := to_String target |}
      | _ => None
      end
  | _ => None
  end.

(** ** Clients *)
Definition SecretTypeAzure : string := "azure".
Definition NamespaceSystem : string := "kube-system".

Section client.
Context {E : Type} `{!AzureSDK E, !StoreLister E}.

Fixpoint first_secret (provider : string) (secrets : list Secret) : option Secret :=
  match secrets with
  | [] => None
  | secret :: rest =>
      if bool_decide (secret_Type secret = provider) then Some secret else first_secret provider rest
  end.

Definition getAPISecret (provider : string) : prog E (gomap string) :=
  secrets ← reads (lister_Secrets NamespaceSystem);
  match secrets with
  | [] => fail (ErrorString ("azure: there is no specify type of secret:" +:+ provider))
  | _ =>
      match first_secret provider secrets with
      | Some secret => mret (secret_Data secret)
      | None => fail (ErrorString ("azure: get " +:+ provider +:+ " type secret failed"))
      end
  end.

Definition NewConfig (data : gomap string) : Config :=
  {| SubscriptionID := default "" (entries data !! "subscriptionID");
     ClientID := default "" (entries data !! "clientID");
     ClientSecret := default "" (entries data !! "clientSecret");
     TenantID := default "" (entries data !! "tenantID") |}.

Definition NewClientWithConfig (config : Config) : prog E Config :=
  authorizer ← catch (reads (Authorizer config));
  match authorizer with
  | inl _ => mret config
  | inr err => fail (NewServiceError "InvalidAuth" (error_message err))
  end.

Definition NewClient : prog E Config :=
  secret ← getAPISecret SecretTypeAzure;
  NewClientWithConfig (NewConfig secret).

(** [loadBalancerClientWrapper.Delete]: a load balancer that is gone is deleted. *)
Definition LoadBalancer_Delete (c : Config) (resourceGroupName loadBalancerName : string) : prog E () :=
  r ← catch (LoadBalancers_Delete c resourceGroupName loadBalancerName);
  match r with
  | inl _ => mret ()
  | inr err =>
      notFound ← lift (IsNotFound (Some err));
      if notFound : bool then mret () else fail err
  end.
End client.

(** ** Properties *)

(** The client is made from the first secret of type [azure] in the system
    namespace; without one, or when the listing fails, no client is made, and
    an authentication failure is reported as the service error [InvalidAuth]. *)
Theorem NewClient_spec `{!AzureSDK E, !StoreLister E} (e : E) :
  NewClient e =
    (match lister_Secrets NamespaceSystem e with
     | Ok secrets =>
         match first_secret SecretTypeAzure secrets with
         | Some secret =>
             match Authorizer (NewConfig (secret_Data secret)) e with
             | Ok _ => Ok (NewConfig (secret_Data secret))
             | Err err => Err (NewServiceError "InvalidAuth" (error_message err))
             | Panic why => Panic why
             end
         | None =>
             Err (ErrorString (if bool_decide (secrets = []) then
                                 "azure: there is no specify type of secret:azure"
                               else "azure: get azure type secret failed"))
         end
     | Err err => Err err
     | Panic why => Panic why
     end, e).
Proof.
  unfold NewClient, getAPISecret, NewClientWithConfig, reads, catch, fail, lift, mbind, prog_bind,
    mret, prog_ret.
  destruct (lister_Secrets NamespaceSystem e) as [[|s secrets]| |]; [done| |done..].
  destruct (first_secret SecretTypeAzure (s :: secrets)) as [secret|]; [|done].
  by destruct (Authorizer _ e).
Qed.

Lemma first_secret_Some provider secrets secret :
  first_secret provider secrets = Some secret ↔
  ∃ i, secrets !! i = Some secret ∧ secret_Type secret = provider ∧
       ∀ j s, j < i → secrets !! j = Some s → secret_Type s ≠ provider.
Proof.
  induction secrets as [|s secrets IH]; simpl.
  - split; [done|]. by intros (i & ? & _).
  - case_bool_decide as Hs.
    + split.
      * intros [= ->]. exists 0. split_and!; [done|done|]. intros j ? ?. lia.
      * intros ([|i] & Hi & Ht & Hno); [done|]. exfalso. by apply (Hno 0 s); [lia|done|].
    + rewrite IH. split.
      * intros (i & Hi & Ht & Hno). exists (S i). split_and!; [done|done|].
        intros [|j] s' Hj Hs'; [by simplify_eq/=|]. apply (Hno j); [lia|done].
      * intros ([|i] & Hi & Ht & Hno); [by simplify_eq/=|]. exists i. split_and!; [done|done|].
        intros j s' Hj Hs'. apply (Hno (S j)); [lia|done].
Qed.
