(* ===== verification/AzureWrappers.v ===== *)
(** * providers/azure/client/types.go: the client wrappers

    The calls of azure-sdk-for-go start an operation and return a future, or
    return the first of a chain of pages; the wrappers wait for the future and
    collect the pages.  They implement the calls the provider makes. *)

From S2P Require Import Prelude GoStd AzureNet AzurePools AzureClient.

(** ** The client of one kind of resource

    A client of azure-sdk-for-go for the resource [A], with the futures and
    pages it returns. *)
Class ResourceClient (E A : Type) := {
  future : Type;
  page : Type;
  rc_Get : Config → string → string → prog E A;
  rc_CreateOrUpdate : Config → string → string → A → prog E future;
  rc_Delete : Config → string → string → prog E future;
  rc_ListAll : Config → prog E page;
  WaitForCompletionRef : future → prog E ();
  Result : future → prog E A;
  NotDone : page → bool;
  Values : page → list A;
  Next : page → prog E page;
}.

Section wrapper.
Context {E : Type} (A : Type) `{!ResourceClient E A} (c : Config).

(** The four [CreateOrUpdate] wrappers. *)
Definition CreateOrUpdate (resourceGroupName name : string) (parameters : A) : prog E A :=
  future ← rc_CreateOrUpdate c resourceGroupName name parameters;
  _ ← WaitForCompletionRef future;
  Result future.

(** [virtualMachineClientWrapper.Delete] and [networkInterfaceClientWrapper.Delete]. *)
Definition Delete (resourceGroupName name : string) : prog E () :=
  r ← catch (rc_Delete c resourceGroupName name);
  match r with
  | inr err =>
      notFound ← lift (IsNotFound (Some err));
      if notFound : bool then mret () else fail err
  | inl future => WaitForCompletionRef future
  end.

(** The loop of the three [ListAll] wrappers; how many pages there are is up to
    Azure. *)
Fixpoint collect (fuel : nat) (listPage : page) (re : list A) : prog E (list A) :=
  if NotDone listPage then
    match fuel with
    | 0 => lift (Panic "out of fuel")
    | S fuel =>
        next ← Next listPage;
        collect fuel next (re ++ Values listPage)
    end
  else mret re.

Definition ListAll (fuel : nat) : prog E (list A) :=
  listPage ← rc_ListAll c;
  collect fuel listPage [].

(** ** Pages *)

(** The chain of pages from [p] on: what it holds, and whether it ends or breaks
    off with an error or a panic of [Next]. *)
Inductive chain : page → E → list A → result () → E → Prop :=
| chain_end p e : NotDone p = false → chain p e [] (Ok ()) e
| chain_next p e p' e' l r e'' :
    NotDone p = true → Next p e = (Ok p', e') → chain p' e' l r e'' →
    chain p e (Values p ++ l) r e''
| chain_error p e err e' : NotDone p = true → Next p e = (Err err, e') → chain p e (Values p) (Err err) e'
| chain_panic p e why e' :
    NotDone p = true → Next p e = (Panic why, e') → chain p e (Values p) (Panic why) e'.

(** What is returned for a chain: all of it, or nothing of it. *)
Definition all_or_error (re l : list A) (r : result ()) : result (list A) :=
  match r with Ok _ => Ok (re ++ l) | Err err => Err err | Panic why => Panic why end.

Lemma collect_chain p e l r e' :
  chain p e l r e' →
  ∃ n, ∀ fuel re, n <= fuel → collect fuel p re e = (all_or_error re l r, e').
Proof.
  induction 1 as [p e Hd|p e p' e' l r e'' Hd Hn _ [n IH]|p e err e' Hd Hn|p e why e' Hd Hn].
  - exists 0. intros fuel re _. destruct fuel; simpl; rewrite Hd, app_nil_r; done.
  - exists (S n). intros [|fuel] re Hf; [lia|]. simpl. rewrite Hd.
    rewrite (prog_bind_Ok _ _ _ _ _ Hn), IH by lia.
    destruct r; simpl; [|done..]. by rewrite (assoc_L (++)).
  - exists 1. intros [|fuel] re Hf; [lia|]. simpl. by rewrite Hd, (prog_bind_eq _ _ _ _ _ Hn).
  - exists 1. intros [|fuel] re Hf; [lia|]. simpl. by rewrite Hd, (prog_bind_eq _ _ _ _ _ Hn).
Qed.

Lemma chain_collect fuel p re e l e' :
  collect fuel p re e = (Ok l, e') → ∃ l', l = re ++ l' ∧ chain p e l' (Ok ()) e'.
Proof.
  revert p re e. induction fuel as [|fuel IH]; intros p re e; simpl; destruct (NotDone p) eqn:Hd;
    try done.
  1,3: intros [= <- <-]; exists []; split; [by rewrite app_nil_r|by constructor].
  destruct (Next p e) as [[p'| |] e1] eqn:Hn; rewrite (prog_bind_eq _ _ _ _ _ Hn); [|done..].
  intros (l' & -> & Hc)%IH. exists (Values p ++ l'). split; [by rewrite (assoc_L (++))|].
  by econstructor.
Qed.

(** C39: [ListAll] returns the values of all pages in their order exactly when the
    chain of pages ends; a page that cannot be fetched makes it an error,
    whatever was collected before. *)
Theorem ListAll_pages e p e1 :
  rc_ListAll c e = (Ok p, e1) →
  (∀ l r e2, chain p e1 l r e2 →
     ∃ n, ∀ fuel, n <= fuel → ListAll fuel e = (all_or_error [] l r, e2)) ∧
  (∀ fuel l e2, ListAll fuel e = (Ok l, e2) → chain p e1 l (Ok ()) e2).
Proof.
  intros Hp. unfold ListAll. split.
  - intros l r e2 [n Hn]%collect_chain. exists n. intros fuel Hf.
    rewrite (prog_bind_Ok _ _ _ _ _ Hp). by apply Hn.
  - intros fuel l e2. rewrite (prog_bind_Ok _ _ _ _ _ Hp). by intros (l' & -> & Hc)%chain_collect.
Qed.
End wrapper.

(** ** The calls of the provider

    The wrappers implement the interfaces the provider is written against; the
    future of [loadBalancerClientWrapper.Delete] is not waited for. *)
Section sdk.
Context {E : Type}.
Context (authorize : Config → E → result ()).
Context `{!ResourceClient E AzureLB, !ResourceClient E SecurityGroup, !ResourceClient E Interface,
  !ResourceClient E VirtualMachine, !ResourceClient E PublicIP}.

(** The wrappers of the four kinds of client. *)
Definition securityGroup_CreateOrUpdate := CreateOrUpdate SecurityGroup.
Definition loadBalancer_ListAll := ListAll AzureLB.
Definition loadBalancer_CreateOrUpdate := CreateOrUpdate AzureLB.
Definition virtualMachine_ListAll := ListAll VirtualMachine.
Definition virtualMachine_CreateOrUpdate := CreateOrUpdate VirtualMachine.
Definition virtualMachine_Delete := Delete VirtualMachine.
Definition networkInterface_ListAll := ListAll Interface.
Definition networkInterface_CreateOrUpdate := CreateOrUpdate Interface.
Definition networkInterface_Delete := Delete Interface.

Definition wrapped_sdk : AzureSDK E := {|
  Authorizer := authorize;
  LoadBalancers_Get := rc_Get;
  LoadBalancers_CreateOrUpdate := loadBalancer_CreateOrUpdate;
  LoadBalancers_Delete c g n := _ ← rc_Delete (A := AzureLB) c g n; mret ();
  SecurityGroups_Get := rc_Get;
  SecurityGroups_CreateOrUpdate := securityGroup_CreateOrUpdate;
  Interfaces_Get := rc_Get;
  Interfaces_CreateOrUpdate := networkInterface_CreateOrUpdate;
  VirtualMachines_Get := rc_Get;
  PublicIPAddresses_Get := rc_Get;
|}.

(** Deleting a load balancer that is not there is a success, and so is one whose
    deletion goes on in the background: the operation that was started is not
    waited for. *)
Lemma LoadBalancer_Delete_wrapped c g n e :
  @LoadBalancer_Delete E wrapped_sdk c g n e =
    match rc_Delete (A := AzureLB) c g n e with
    | (Ok _, e') => (Ok (), e')
    | (Err err, e') => (match IsNotFound (Some err) with
                        | Ok true => Ok ()
                        | Ok false => Err err
                        | Err err => Err err
                        | Panic why => Panic why
                        end, e')
    | (Panic why, e') => (Panic why, e')
    end.
Proof.
  unfold LoadBalancer_Delete, catch, fail, lift. cbn [LoadBalancers_Delete wrapped_sdk]. unfold_prog.
  destruct (rc_Delete c g n e) as [[| |] e']; [done| |done]. by destruct (IsNotFound (Some e0)) as [[]| |].
Qed.
End sdk.

(** ** Witness *)

(** A client with two pages of numbers. *)
#[local] Instance paged : ResourceClient () nat := {|
  future := (); page := list (list nat);
  rc_Get c g n e := (Ok 0, e);
  rc_CreateOrUpdate c g n x e := (Ok (), e);
  rc_Delete c g n e := (Ok (), e);
  rc_ListAll c e := (Ok [[1; 2]; [3]], e);
  WaitForCompletionRef f e := (Ok (), e);
  Result f e := (Ok 0, e);
  NotDone p := match p with [] => false | _ => true end;
  Values p := match p with l :: _ => l | [] => [] end;
  Next p e := (Ok (tail p), e);
|}.

Lemma ListAll_pages_witness :
  let c := {| SubscriptionID := ""; ClientID := ""; ClientSecret := ""; TenantID := "" |} in
  @rc_ListAll () nat paged c () = (Ok ([[1; 2]; [3]] : list (list nat)), ()) ∧
  (∃ n, ∀ fuel, n <= fuel → ListAll nat c fuel () = (Ok [1; 2; 3], ())) ∧
  ListAll nat c 2 () = (Ok [1; 2; 3], ()).
Proof.
  intros c. split; [reflexivity|]. split; [|reflexivity].
  destruct (@ListAll_pages () nat paged c () [[1; 2]; [3]] () eq_refl) as [H _].
  destruct (H [1; 2; 3] (Ok ()) ()) as [n Hn].
  - change [1; 2; 3] with ([1; 2] ++ ([3] ++ [])). eapply chain_next; [done..|].
    eapply chain_next; [done..|]. by constructor.
  - exists n. exact Hn.
Defined.
