(* ===== verification/NodeLookup.v ===== *)
(** * core/pkg/node and core/util

    The node a pod runs on and its address, looked up with the API server, and
    the rate limits of the client. *)

From S2P Require Import Prelude GoStd GoNet LbApi NodeNetwork AzureNet AzurePools AzureClient.

(** ** The host IP of a node

    [nodeutil.GetNodeHostIP] of clientset; an IP that is nil is [None]. *)
Fixpoint getIPFromSource (keys : list string) (source : gomap string) : IP :=
  match keys with
  | [] => None
  | key :: rest =>
      if bool_decide (key = "") then getIPFromSource rest source
      else
        match entries source !! key with
        | None => getIPFromSource rest source
        | Some v =>
            match ParseIP v with
            | None => getIPFromSource rest source
            | Some ip => Some ip
            end
        end
  end.

(** [%v] of a list of addresses. *)
Definition format_addresses (l : list NodeAddress) : string :=
  "[" +:+ GoStrings.Join ((λ a, "{" +:+ addr_Type a +:+ " " +:+ addr_Address a +:+ "}") <$> l) " " +:+ "]".

Definition GetNodeHostIP (node : Node) (labels annotations : list string) : result IP :=
  match getIPFromSource labels (node_Labels node) with
  | Some ip => mret (Some ip)
  | None =>
      match getIPFromSource annotations (node_Annotations node) with
      | Some ip => mret (Some ip)
      | None =>
          match first_ip (addresses_of_type "ExternalIP" (node_Addresses node)) with
          | Some ip => mret (Some ip)
          | None =>
              match first_ip (addresses_of_type "InternalIP" (node_Addresses node)) with
              | Some ip => mret (Some ip)
              | None => Err (ErrorString ("host IP unknown; known addresses: " +:+
                                          format_addresses (node_Addresses node)))
              end
          end
      end
  end.

(** ** Looking up a pod *)
Record Pod := { pod_NodeName : string }.

Class CoreV1 (E : Type) := {
  Pods_Get : string → string → E → result Pod;
  Nodes_Get : string → E → result Node;
}.

Section lookup.
Context {E : Type} `{!CoreV1 E}.

Definition missing_env : error :=
  ErrorString "Please check the manifest (for missing POD_NAME or POD_NAMESPACE env variables)".

Definition unable (what : string) {A} (r : result A) : result A :=
  match r with
  | Err err => Err (ErrorString ("Unable to get " +:+ what +:+ ": " +:+ error_message err))
  | r => r
  end.

Definition GetNodeIPForPod (podNamespace podName : string) (labels annotations : list string)
    : prog E IP :=
  if bool_decide (podName = "" ∨ podNamespace = "") then fail missing_env
  else
    pod ← reads (λ e, unable "pod" (Pods_Get podNamespace podName e));
    node ← reads (λ e, unable "node" (Nodes_Get (pod_NodeName pod) e));
    lift (GetNodeHostIP node labels annotations).

Definition GetNodeNameForPod (podNamespace podName : string) : prog E string :=
  if bool_decide (podName = "" ∨ podNamespace = "") then fail missing_env
  else
    pod ← reads (Pods_Get podNamespace podName);
    mret (pod_NodeName pod).
End lookup.

(** ** core/util *)
Record rest_Config := {
  QPS : Z;
  Burst : Z;
}.

Definition DefaultQPS : Z := 50.
Definition DefaultBurst : Z := 100.

(** [float32(n)] of an [int]: an integer of more than 24 bits is rounded to the
    nearest one with 24 significant bits, to an even one when there are two. *)
Definition float32_round (n : Z) : Z :=
  let m := Z.abs n in
  let e := (Z.log2 m - 23)%Z in
  if bool_decide (e <= 0)%Z then n
  else
    let q := (m `div` 2 ^ e)%Z in
    let r := (m `mod` 2 ^ e)%Z in
    let up := bool_decide (2 ^ e < 2 * r)%Z || (bool_decide (2 ^ e = 2 * r)%Z && Z.odd q) in
    (Z.sgn n * ((if up then q + 1 else q) * 2 ^ e))%Z.

Definition getQPSEnvInt (Getenv : string → string) (key : string) (min : Z) : Z :=
  let s := Getenv key in
  let v := if bool_decide (s = "") then 0%Z else (Strconv.Atoi s).1 in
  if bool_decide (v < min)%Z then min else v.

Definition setupConfigQPS (Getenv : string → string) : rest_Config :=
  {| QPS := float32_round (getQPSEnvInt Getenv "ENV_KUBE_CLIENT_QPS" DefaultQPS);
     Burst := getQPSEnvInt Getenv "ENV_KUBE_CLIENT_BURST" DefaultBurst |}.

(** ** The address of a node: reference *)

(** What is looked at, in the order of preference. *)
Definition candidates (node : Node) (labels annotations : list string) : list string :=
  omap (λ key, if bool_decide (key = "") then None else entries (node_Labels node) !! key) labels ++
  omap (λ key, if bool_decide (key = "") then None else entries (node_Annotations node) !! key)
    annotations ++
  (addr_Address <$> addresses_of_type "ExternalIP" (node_Addresses node)) ++
  (addr_Address <$> addresses_of_type "InternalIP" (node_Addresses node)).

Lemma getIPFromSource_head keys source :
  getIPFromSource keys source =
    head (omap ParseIP (omap (λ key, if bool_decide (key = "") then None else entries source !! key) keys)).
Proof.
  induction keys as [|key keys IH]; [done|]. cbn [getIPFromSource omap list_omap].
  destruct (bool_decide (key = "")); [done|]. destruct (entries source !! key) as [v|]; [|done].
  cbn [omap list_omap]. by destruct (ParseIP v).
Qed.

Lemma first_ip_head l : first_ip l = head (omap ParseIP (addr_Address <$> l)).
Proof.
  induction l as [|a l IH]; [done|]. cbn. by destruct (ParseIP (addr_Address a)).
Qed.

Lemma head_app {A} (l k : list A) : head (l ++ k) = match head l with Some x => Some x | None => head k end.
Proof. by destruct l. Qed.

(** [GetNodeHostIP] gives the first candidate that is an IP address: those of
    the labels in the order of the keys, then those of the annotations, the
    external addresses and the internal addresses; it fails exactly when there
    is none. *)
Theorem GetNodeHostIP_reference node labels annotations :
  match GetNodeHostIP node labels annotations with
  | Ok ip => is_Some ip ∧ ip = head (omap ParseIP (candidates node labels annotations))
  | Err _ => head (omap ParseIP (candidates node labels annotations)) = None
  | Panic _ => False
  end.
Proof.
  unfold GetNodeHostIP, candidates. rewrite !omap_app, !head_app, !getIPFromSource_head, !first_ip_head.
  unfold mret, result_ret. repeat case_match; simplify_eq; eauto.
Qed.

(** ** Rate limits *)
Lemma getQPSEnvInt_max Getenv key min :
  getQPSEnvInt Getenv key min =
    Z.max min (if bool_decide (Getenv key = "") then 0%Z else (Strconv.Atoi (Getenv key)).1).
Proof. unfold getQPSEnvInt. cbv zeta. case_bool_decide; lia. Qed.

Lemma float32_exact n : (Z.abs n < 2 ^ 24)%Z → float32_round n = n.
Proof.
  intros Hn. unfold float32_round. cbv zeta. rewrite bool_decide_true; [done|].
  destruct (decide (n = 0)%Z) as [->|Hz]; [done|].
  assert (Z.log2 (Z.abs n) < 24)%Z by (apply Z.log2_lt_pow2; lia). lia.
Qed.

(** Rounding moves a positive number by at most one part in [2^24]. *)
Lemma float32_near n :
  (0 < n)%Z → (2 ^ 24 * Z.abs (float32_round n - n) <= n)%Z.
Proof.
  intros Hn. unfold float32_round. cbv zeta. rewrite (Z.abs_eq n), (Z.sgn_pos n) by lia.
  case_bool_decide as He; [rewrite Z.sub_diag; lia|].
  set (e := (Z.log2 n - 23)%Z) in *.
  assert (2 ^ (e - 1) * 2 = 2 ^ e)%Z as Hhalf.
  { rewrite <-(Z.pow_1_r 2) at 2. rewrite <-Z.pow_add_r by lia. f_equal. lia. }
  assert (0 < 2 ^ (e - 1))%Z as Hpos by (apply Z.pow_pos_nonneg; lia).
  pose proof (Z.div_mod n (2 ^ e) ltac:(lia)) as Hdm.
  pose proof (Z.mod_pos_bound n (2 ^ e) ltac:(lia)) as Hr.
  set (q := (n / 2 ^ e)%Z) in *. set (r := (n mod 2 ^ e)%Z) in *.
  assert (2 ^ 24 * 2 ^ (e - 1) <= n)%Z as Hbig.
  { rewrite <-Z.pow_add_r by lia. replace (24 + (e - 1))%Z with (Z.log2 n) by lia.
    apply Z.log2_spec. lia. }
  match goal with |- context [if ?b then _ else _] => set (up := b) end.
  assert (Z.abs (1 * ((if up then q + 1 else q) * 2 ^ e) - n) <= 2 ^ (e - 1))%Z as Hnear.
  { destruct up eqn:Hup; unfold up in Hup.
    - assert (2 ^ e <= 2 * r)%Z.
      { apply orb_true_iff in Hup as [H%bool_decide_eq_true|[H%bool_decide_eq_true _]%andb_true_iff]; lia. }
      nia.
    - apply orb_false_iff in Hup as [H%bool_decide_eq_false _]. nia. }
  nia.
Qed.

(** The rate limits of the client are never below the defaults, whatever the
    environment says: an unset, malformed or negative value is replaced, and one
    that is out of range is cut off at the largest [int].  The burst is exact;
    the rate is exact below 2^24 requests a second and off by at most one part
    in 2^24 above. *)
Theorem setupConfigQPS_bounds Getenv :
  let wanted key min :=
    Z.max min (if bool_decide (Getenv key = "") then 0%Z else (Strconv.Atoi (Getenv key)).1) in
  let qps := wanted "ENV_KUBE_CLIENT_QPS" DefaultQPS in
  let c := setupConfigQPS Getenv in
  Burst c = wanted "ENV_KUBE_CLIENT_BURST" DefaultBurst ∧ (DefaultBurst <= Burst c)%Z ∧
  (DefaultQPS <= QPS c)%Z ∧ (qps < 2 ^ 24 → QPS c = qps)%Z ∧
  (2 ^ 24 * Z.abs (QPS c - qps) <= qps)%Z.
Proof.
  intros wanted qps c.
  assert (Burst c = wanted "ENV_KUBE_CLIENT_BURST" DefaultBurst) as HB by apply getQPSEnvInt_max.
  assert (QPS c = float32_round qps) as HQ.
  { unfold c, setupConfigQPS. cbn [QPS]. f_equal. apply getQPSEnvInt_max. }
  assert (DefaultQPS <= qps)%Z as Hmin by (unfold qps, wanted; lia).
  pose proof (float32_near qps ltac:(unfold DefaultQPS in *; lia)) as Hnear.
  rewrite HQ. split_and!; [done|rewrite HB; unfold wanted; lia| | |done].
  - destruct (decide (qps < 2 ^ 24)%Z) as [Hlt|Hge].
    + rewrite float32_exact; [done|]. unfold DefaultQPS in *. lia.
    + unfold DefaultQPS in *. lia.
  - intros Hlt. apply float32_exact. unfold DefaultQPS in *. lia.
Qed.

Example setup_env : setupConfigQPS (λ key, if bool_decide (key = "ENV_KUBE_CLIENT_QPS") then "16777217" else "x") =
  {| QPS := 16777216; Burst := 100 |}.
Proof. vm_compute. reflexivity. Qed.
