(* ===== verification/AzureCloud.v ===== *)
(** * providers/azure/loadbalancer.go: the load balancer in the cloud

    The steps by which the provider reads, creates, repairs and clears the Azure
    load balancer. *)

From S2P Require Import Prelude GoStd LbApi AzureNet AzureIds AzureRules AzureConfig.
From S2P Require Import AzureSecurity AzurePools AzureClient.

(** The first element of the slice behind a pointer: it panics on a nil pointer
    and on an empty slice. *)
Definition first {A} (s : slice A) : result A :=
  l ← deref s;
  match l with x :: _ => mret x | [] => Panic "index out of range" end.

(** The slice behind a pointer is cut to length 0 when there is something in it. *)
Definition truncated {A} (s : slice A) : slice A :=
  match s with Some (_ :: _) => Some [] | _ => s end.

Section cloud.
Context {E : Type} `{!AzureSDK E, !StoreLister E}.
Context (range_map : ports → list (string * string)) (range_prio : gset Z → list Z).
Context (range_ids : gset string → list string).
Context (c : Config).

Definition getAzureLoadbalancer (groupName lbName : string) : prog E (option AzureLB) :=
  if bool_decide (lbName = "") then mret None
  else
    r ← catch (LoadBalancers_Get c groupName lbName);
    match r with
    | inl lb => mret (Some lb)
    | inr err =>
        notFound ← lift (IsNotFound (Some err));
        if notFound : bool then mret None else fail err
    end.

Definition createAzureLoadBalancer (lb : LoadBalancer) : prog E AzureLB :=
  azure ← lift (deref (Azure (Providers (Spec lb))));
  azlb ← lift (initClusterAzureLoadBalancerObject lb (az_ClusterID azure));
  LoadBalancers_CreateOrUpdate c (az_ResourceGroupName azure) (to_String (azlb_Name azlb)) azlb.

Definition ensureSyncDefaultRules (azlb : AzureLB) (lb : LoadBalancer) : prog E AzureLB :=
  p ← lift (lb_properties azlb);
  frontend ← lift (first (FrontendIPConfigurations p));
  backend ← lift (first (BackendAddressPools p));
  probes ← lift (deref (Probes p));
  lbRules ← lift (azureLBProbes2Rules (to_String (fe_ID frontend)) (to_String (pool_ID backend)) probes);
  '(change, rules) ← lift (match elems (LoadBalancingRules p) with
                           | [] => mret (true, lbRules)
                           | rules => patchAzureLoadBalancerDefaultRules rules lbRules
                           end);
  if change : bool then
    azure ← lift (deref (Azure (Providers (Spec lb))));
    LoadBalancers_CreateOrUpdate c (az_ResourceGroupName azure) (to_String (azlb_Name azlb))
      (with_properties azlb (with_rules p (Some rules)))
  else mret azlb.

(** [*azlb.LoadBalancingRules] is read through the pointer before anything is
    known of it: it panics when Azure returned no rules at all. *)
Definition ensureSyncDefaultAzureLBConfig (azlb : AzureLB) (lb : LoadBalancer) : prog E AzureLB :=
  '(azlb, change) ← lift (ensureSyncDefaultConfigExceptRules azlb lb);
  azlb ← (if change : bool then
            p ← lift (lb_properties azlb);
            rules ← lift (deref (LoadBalancingRules p));
            azure ← lift (deref (Azure (Providers (Spec lb))));
            LoadBalancers_CreateOrUpdate c (az_ResourceGroupName azure) (to_String (azlb_Name azlb))
              (with_properties azlb (with_rules p (truncated (Some rules))))
          else mret azlb);
  ensureSyncDefaultRules azlb lb.

Definition getPublicIPAddress (lb : LoadBalancer) : prog E string :=
  match Azure (Providers (Spec lb)) with
  | None => mret ""
  | Some azure =>
      match Public (az_IPAddressProperties azure) with
      | None => mret ""
      | Some public =>
          '(group, name) ← lift (getGroupAndResourceNameFromID
                                   (to_String (pub_PublicIPAddressID public)) azurePublicIPAddresses);
          address ← PublicIPAddresses_Get c group name;
          p ← lift (deref (pip_Properties address));
          mret (to_String (pip_IPAddress p))
      end
  end.

Definition getGroupName (lb : LoadBalancer) : string :=
  match Azure (Providers (Spec lb)) with Some azure => az_ResourceGroupName azure | None => "" end.

(** The caller's load balancer has the new rules whether the update succeeds or
    not; what Azure returns is dropped. *)
Definition syncRules (azlb : AzureLB) (tcpMap udpMap : gomap string) (groupName : string)
    : prog E AzureLB :=
  '(change, azlb) ← lift (makeUpRules range_map azlb (entries tcpMap) (entries udpMap));
  if change : bool then
    _ ← LoadBalancers_CreateOrUpdate c groupName (to_String (azlb_Name azlb)) azlb;
    mret azlb
  else mret azlb.

Definition usePublicAddress (lb : LoadBalancer) : bool :=
  match Azure (Providers (Spec lb)) with
  | Some azure => negb (bool_decide (Public (az_IPAddressProperties azure) = None))
  | None => false
  end.

Definition ensureSyncRulesAndBackendPools (azlb : AzureLB) (lb : LoadBalancer)
    (tcpMap udpMap : gomap string) : prog E () :=
  azlb ← syncRules azlb tcpMap udpMap (getGroupName lb);
  '(detachNetworks, azlbBackendNetworksMap) ← syncBackendPools range_ids c azlb lb;
  if usePublicAddress lb then
    syncSecurityGroupRules range_map range_prio range_ids c
      (<["443" := ""]> (<["80" := ""]> (entries tcpMap))) (entries udpMap)
      detachNetworks azlbBackendNetworksMap
  else mret ().

(** ** Clean-up *)
Definition recoverDefaultAzureLoadBalancer (groupName lbName : string) : prog E () :=
  r ← catch (LoadBalancers_Get c groupName lbName);
  match r with
  | inr err =>
      notFound ← lift (IsNotFound (Some err));
      if notFound : bool then mret () else fail err
  | inl azlb =>
      p ← lift (lb_properties azlb);
      let p' :=
        {| FrontendIPConfigurations := FrontendIPConfigurations p;
           BackendAddressPools := BackendAddressPools p;
           LoadBalancingRules := truncated (LoadBalancingRules p);
           Probes := truncated (Probes p);
           azlb_ProvisioningState := azlb_ProvisioningState p; azlb_rest := azlb_rest p |} in
      _ ← (match elems (BackendAddressPools p) with
           | [] => mret ()
           | pool :: _ =>
               bp ← lift (deref (pool_Properties pool));
               for_each (elems (bp_BackendIPConfigurations bp)) (λ config,
                 detachNetworkInterfacesAndLoadBalancer c (to_String (ref_ID config))
                   (to_String (pool_ID pool)))
           end);
      _ ← LoadBalancers_CreateOrUpdate c groupName lbName (with_properties azlb p');
      mret ()
  end.

(** The error of [getAzureBackendPoolIP] is dropped with a nil map; a nil pointer
    in it panics all the same. *)
Definition cleanUpSecurityGroup (groupName lbName : string) : prog E () :=
  r ← catch (LoadBalancers_Get c groupName lbName);
  match r with
  | inr err =>
      notFound ← lift (IsNotFound (Some err));
      if notFound : bool then mret () else fail err
  | inl azlb =>
      pools ← catch (lift (getAzureBackendPoolIP azlb));
      let azBackendPoolMap := match pools with inl set => set | inr _ => ∅ end in
      let detachs := getDiffBetweenNetworkInterfaces range_ids azBackendPoolMap ∅ in
      '(deleteSg, _) ← getSuitableSecurityGroup range_ids c detachs ∅;
      deleteUselessSecurityRules range_ids c deleteSg
  end.
End cloud.
