(* ===== verification/Azure.v ===== *)
(** * providers/azure/azure.go: the provider

    The state of the Azure provider and its methods.  It remembers the load
    balancer of the last successful sync and, separately, the Azure spec its
    cloud load balancer was made from; the latter may point into the former. *)

From S2P Require Import Prelude GoStd LbApi Controller.
From S2P Require Import AzureNet AzureIds AzureRules AzureConfig AzureSecurity AzurePools.
From S2P Require Import AzureClient AzureCloud.

Definition azureFinalizer : string := "finalizer.azure.loadbalancer.loadbalance.caicloud.io".
Definition AzureRunningPhase : string := "Running".
Definition AzureErrorPhase : string := "Error".
Definition AzureUpdatingPhase : string := "Updating".

(** The clientset: a merge patch of a load balancer. *)
Class LBPatcher (E : Type) := {
  LoadBalancers_Patch : string → string → string → prog E ();
}.

(** [l.lb]: nil, an object of the informer, or the provider's own copy. *)
Inductive lb_pointer :=
| NilLB
| InformerLB (l : nat)
| CopyLB (lb : LoadBalancer).

(** [l.oldAzureProvider]: nil, an object of its own, or the Azure spec of the
    copy in [l.lb]. *)
Inductive old_pointer :=
| NilOld
| OwnOld (azure : AzureProvider)
| CopyOld.

#[export] Instance lb_pointer_eq_dec : EqDecision lb_pointer.
Proof. solve_decision. Defined.
#[export] Instance old_pointer_eq_dec : EqDecision old_pointer.
Proof. solve_decision. Defined.

Record AzureState (E : Type) := {
  loadBalancerNamespace : string;
  loadBalancerName : string;
  oldAzureProvider : old_pointer;
  cached_nodes : slice string;
  tcpRuleMap : gomap string;
  udpRuleMap : gomap string;
  cached_lb : lb_pointer;
  cleanAzure : bool;
  cloud : E;
}.
Arguments loadBalancerNamespace {E} _.
Arguments loadBalancerName {E} _.
Arguments oldAzureProvider {E} _.
Arguments cached_nodes {E} _.
Arguments tcpRuleMap {E} _.
Arguments udpRuleMap {E} _.
Arguments cached_lb {E} _.
Arguments cleanAzure {E} _.
Arguments cloud {E} _.

Definition set_Azure (lb : LoadBalancer) (azure : option AzureProvider) : LoadBalancer :=
  {| lb_Namespace := lb_Namespace lb; lb_Name := lb_Name lb;
     lb_ResourceVersion := lb_ResourceVersion lb;
     lb_DeletionTimestamp := lb_DeletionTimestamp lb; lb_Finalizers := lb_Finalizers lb;
     Spec := {| Nodes := Nodes (Spec lb); Proxy := Proxy (Spec lb);
                Providers := {| External := External (Providers (Spec lb));
                                Ipvsdr := Ipvsdr (Providers (Spec lb)); Azure := azure |} |};
     Status := Status lb |}.

Definition zero_azure : AzureProvider :=
  {| az_Name := ""; az_ResourceGroupName := ""; az_Location := ""; az_SKU := ""; az_ClusterID := "";
     az_ReserveAzure := None; az_IPAddressProperties := {| Private := None; Public := None |} |}.

Section azure.
Context {E : Type} `{!AzureSDK E, !StoreLister E, !LBPatcher E}.
Context (range_map : ports → list (string * string)) (range_prio : gset Z → list Z).
Context (range_ids : gset string → list string).
Implicit Types p : AzureState E.

(** ** State changes *)
Definition with_cloud p (e : E) : AzureState E :=
  {| loadBalancerNamespace := loadBalancerNamespace p; loadBalancerName := loadBalancerName p;
     oldAzureProvider := oldAzureProvider p; cached_nodes := cached_nodes p;
     tcpRuleMap := tcpRuleMap p; udpRuleMap := udpRuleMap p; cached_lb := cached_lb p;
     cleanAzure := cleanAzure p; cloud := e |}.

Definition with_pointers p (old : old_pointer) (lb : lb_pointer) : AzureState E :=
  {| loadBalancerNamespace := loadBalancerNamespace p; loadBalancerName := loadBalancerName p;
     oldAzureProvider := old; cached_nodes := cached_nodes p;
     tcpRuleMap := tcpRuleMap p; udpRuleMap := udpRuleMap p; cached_lb := lb;
     cleanAzure := cleanAzure p; cloud := cloud p |}.

Definition set_cleanAzure p : AzureState E :=
  {| loadBalancerNamespace := loadBalancerNamespace p; loadBalancerName := loadBalancerName p;
     oldAzureProvider := oldAzureProvider p; cached_nodes := cached_nodes p;
     tcpRuleMap := tcpRuleMap p; udpRuleMap := udpRuleMap p; cached_lb := cached_lb p;
     cleanAzure := true; cloud := cloud p |}.

Definition on_cloud {A} (m : prog E A) : prog (AzureState E) A := λ p,
  let '(r, e) := m (cloud p) in (r, with_cloud p e).

(** The object [l.oldAzureProvider] points to. *)
Definition old_azure p : option AzureProvider :=
  match oldAzureProvider p with
  | NilOld => None
  | OwnOld azure => Some azure
  | CopyOld => match cached_lb p with CopyLB lb => Azure (Providers (Spec lb)) | _ => None end
  end.

(** A write through [l.oldAzureProvider]: it reaches the copy it points into. *)
Definition write_old p (f : AzureProvider → AzureProvider) : AzureState E :=
  match oldAzureProvider p with
  | NilOld => p
  | OwnOld azure => with_pointers p (OwnOld (f azure)) (cached_lb p)
  | CopyOld =>
      match cached_lb p with
      | CopyLB lb => with_pointers p CopyOld (CopyLB (set_Azure lb (f <$> Azure (Providers (Spec lb)))))
      | _ => p
      end
  end.

(** [l.lb = lb]: the old copy lives on behind [l.oldAzureProvider]. *)
Definition set_lb p (l : nat) : AzureState E :=
  with_pointers p
    (match oldAzureProvider p with
     | CopyOld => match old_azure p with Some azure => OwnOld azure | None => NilOld end
     | old => old
     end) (InformerLB l).

(** [if l.oldAzureProvider == nil { l.oldAzureProvider = &lbapi.AzureProvider{} }] *)
Definition ensure_old p : AzureState E :=
  match oldAzureProvider p with NilOld => with_pointers p (OwnOld zero_azure) (cached_lb p) | _ => p end.

Definition setCacheAzureLoadbalancer (azure : option AzureProvider) : prog (AzureState E) () :=
  _ ← modify ensure_old;
  azure ← lift (deref azure);
  modify (λ p, write_old p (λ old,
    {| az_Name := az_Name azure; az_ResourceGroupName := az_ResourceGroupName azure;
       az_Location := az_Location old; az_SKU := az_SKU old; az_ClusterID := az_ClusterID old;
       az_ReserveAzure := az_ReserveAzure old;
       az_IPAddressProperties := az_IPAddressProperties old |})).

Definition setCacheReserveStatus (reserve : option bool) : prog (AzureState E) () :=
  _ ← modify ensure_old;
  modify (λ p, write_old p (λ old,
    {| az_Name := az_Name old; az_ResourceGroupName := az_ResourceGroupName old;
       az_Location := az_Location old; az_SKU := az_SKU old; az_ClusterID := az_ClusterID old;
       az_ReserveAzure := reserve; az_IPAddressProperties := az_IPAddressProperties old |})).

(** ** Patches *)

(** [%q] of a text of printable bytes. *)
Fixpoint quote_body (s : string) : string :=
  match s with
  | "" => ""
  | String c s' =>
      if bool_decide (c = Ascii.ascii_of_nat 34 ∨ c = Ascii.ascii_of_nat 92) then
        String (Ascii.ascii_of_nat 92) (String c (quote_body s'))
      else String c (quote_body s')
  end.

Definition dquote : string := String (Ascii.ascii_of_nat 34) "".

Definition Quote (s : string) : string := dquote +:+ quote_body s +:+ dquote.

(** A JSON text with single quotes for double quotes. *)
Definition text (s : string) : string :=
  GoStrings.Replace s (Ascii.ascii_of_nat 39) (Ascii.ascii_of_nat 34).

Definition getFinalizersPatch (lb : option LoadBalancer) : string :=
  match lb with
  | None => ""
  | Some lb =>
      let remain := filter (λ f, f ≠ azureFinalizer) (elems (lb_Finalizers lb)) in
      if bool_decide (length remain = length (elems (lb_Finalizers lb))) then ""
      else text "'metadata':{'finalizers':[" +:+ GoStrings.Join (Quote <$> remain) "," +:+ "]}"
  end.

Definition getNilAzureStatus : string := text "'status':{'ProvidersStatuses':{'azure':{}}}".

Definition target p (lb : option LoadBalancer) : string * string :=
  match lb with
  | Some lb => (lb_Namespace lb, lb_Name lb)
  | None => (loadBalancerNamespace p, loadBalancerName p)
  end.

Definition patachFinalizersAndStatus (lb : option LoadBalancer) (deleteLB : bool)
    : prog (AzureState E) () :=
  let finalizers := getFinalizersPatch lb in
  let patchs := (if bool_decide (finalizers = "") then [] else [finalizers]) ++
                (if deleteLB then [] else [getNilAzureStatus]) in
  match patchs with
  | [] => mret ()
  | _ =>
      p ← get;
      on_cloud (LoadBalancers_Patch (target p lb).1 (target p lb).2
                  ("{" +:+ GoStrings.Join patchs "," +:+ "}"))
  end.

(** The reason and the message of an error. *)
Definition reason_and_message (result : option error) : string * string :=
  match result with
  | None => ("", "")
  | Some err =>
      match err with
      | DetailedError _ _ _ =>
          match ParseServiceError err with
          | Some e => (Code e, Message e)
          | None => ("Unknown", error_message err)
          end
      | ServiceErr e => (Code e, Message e)
      | _ => ("Unknown", error_message err)
      end
  end.

(** A nil [lb] has no status. *)
Definition status_patch (lb : option LoadBalancer) (phase : string) (result : option error) : string :=
  let '(reason, message) := reason_and_message result in
  let azure := lb ≫= (λ lb, AzureStatus (Status lb)) in
  let provisioningState := default "" (ProvisioningState <$> azure) in
  let publicIPAddress := to_String (azure ≫= PublicIPAddress) in
  text "{'status':{'providersStatuses':{'azure':{'phase':'" +:+ phase +:+
  text "','reason':'" +:+ reason +:+ text "','message':'" +:+ message +:+
  text "', 'provisioningState':'" +:+ provisioningState +:+
  (if bool_decide (result = None) then text "', 'publicIPAddress':'" +:+ publicIPAddress else "") +:+
  text "'}}}}".

Definition patchLoadBalancerAzureStatus (lb : option LoadBalancer) (phase : string)
    (result : option error) : prog (AzureState E) () :=
  p ← get;
  on_cloud (LoadBalancers_Patch (target p lb).1 (target p lb).2 (status_patch lb phase result)).

(** ** Syncing *)
Definition pathLoadBalancerName (lb : LoadBalancer) (name : string) : prog (AzureState E) () :=
  _ ← setCacheAzureLoadbalancer (Azure (Providers (Spec lb)));
  on_cloud (LoadBalancers_Patch (lb_Namespace lb) (lb_Name lb)
              (text "{'spec':{'providers':{'azure':{'name':'" +:+ name +:+ text "'}}}}")).

Definition set_azure_name (azure : AzureProvider) (name : string) : AzureProvider :=
  {| az_Name := name; az_ResourceGroupName := az_ResourceGroupName azure;
     az_Location := az_Location azure; az_SKU := az_SKU azure; az_ClusterID := az_ClusterID azure;
     az_ReserveAzure := az_ReserveAzure azure;
     az_IPAddressProperties := az_IPAddressProperties azure |}.

(** The load balancer in the cloud, and [lb], whose spec is given the name when
    it had none. *)
Definition ensureAzureLoadbalancer (c : Config) (lb : LoadBalancer)
    : prog (AzureState E) (AzureLB * LoadBalancer) :=
  azureSpec ← lift (deref (Azure (Providers (Spec lb))));
  found ← on_cloud (getAzureLoadbalancer c (az_ResourceGroupName azureSpec) (az_Name azureSpec));
  match found with
  | Some azlb => mret (azlb, lb)
  | None =>
      azlb ← on_cloud (createAzureLoadBalancer c lb);
      if bool_decide (az_Name azureSpec = "") then
        let name := to_String (azlb_Name azlb) in
        let lb := set_Azure lb (Some (set_azure_name azureSpec name)) in
        _ ← pathLoadBalancerName lb name;
        mret (azlb, lb)
      else mret (azlb, lb)
  end.

(** The steps before the rules: they return nothing when one of them fails. *)
Definition prepare_sync (lb : LoadBalancer)
    : prog (AzureState E) (Config * AzureLB * LoadBalancer * string) :=
  _ ← lift (deref (Azure (Providers (Spec lb))));
  _ ← patchLoadBalancerAzureStatus (Some lb) AzureUpdatingPhase None;
  c ← on_cloud NewClient;
  '(azlb, lb) ← ensureAzureLoadbalancer c lb;
  azlb ← on_cloud (ensureSyncDefaultAzureLBConfig c azlb lb);
  ip ← on_cloud (getPublicIPAddress c lb);
  mret (c, azlb, lb, ip).

(** The last step fails with the load balancer and the address at hand. *)
Definition ensureSync (lb : LoadBalancer) (tcp udp : gomap string)
    : prog (AzureState E) (option AzureLB * LoadBalancer * string * option error) :=
  prepared ← catch (prepare_sync lb);
  match prepared with
  | inr err => mret (None, lb, "", Some err)
  | inl (c, azlb, lb, ip) =>
      r ← catch (on_cloud (ensureSyncRulesAndBackendPools range_map range_prio range_ids c
                             azlb lb tcp udp));
      mret (Some azlb, lb, ip, match r with inl _ => None | inr err => Some err end)
  end.

(** ** Clean-up *)
Definition cleaned : prog (AzureState E) () := modify set_cleanAzure.

(** [wait.Poll(5 * time.Second, 60 * time.Second, ...)]: the condition is called
    once or more often before the time is up. *)
Context (ticks : nat).

Fixpoint poll_recover (n : nat) (c : Config) : prog (AzureState E) () :=
  azure ← reads (λ p, deref (old_azure p));
  r ← catch (on_cloud (recoverDefaultAzureLoadBalancer c (az_ResourceGroupName azure) (az_Name azure)));
  match r, n with
  | inl _, _ => mret ()
  | inr _, 0 => fail (ErrorString "timed out waiting for the condition")
  | inr _, S n => poll_recover n c
  end.

Definition finish_cleanup (lb : option LoadBalancer) (deleteLB : bool) : prog (AzureState E) () :=
  _ ← patachFinalizersAndStatus lb deleteLB;
  cleaned.

Definition reserves (old : AzureProvider) (lb : option LoadBalancer) : bool :=
  match lb ≫= (λ lb, Azure (Providers (Spec lb))) with
  | Some azure => to_Bool (az_ReserveAzure azure)
  | None => to_Bool (az_ReserveAzure old)
  end.

(** What follows the client: the deferred function clears [l.oldAzureProvider]
    when it succeeds. *)
Definition cleanup_cloud (c : Config) (old : AzureProvider) (lb : option LoadBalancer)
    (deleteLB : bool) : prog (AzureState E) () :=
  _ ← on_cloud (cleanUpSecurityGroup range_ids c (az_ResourceGroupName old) (az_Name old));
  if reserves old lb then
    r ← catch (poll_recover ticks c);
    match r with
    | inr err =>
        _ ← ignore (patchLoadBalancerAzureStatus lb AzureErrorPhase (Some err));
        fail err
    | inl _ => finish_cleanup lb deleteLB
    end
  else
    _ ← on_cloud (LoadBalancer_Delete c (az_ResourceGroupName old) (az_Name old));
    finish_cleanup lb deleteLB.

Definition cleanupAzureLB (lb : option LoadBalancer) (deleteLB : bool) : prog (AzureState E) () :=
  p ← get;
  if cleanAzure p then mret ()
  else
    match old_azure p with
    | Some old =>
        if bool_decide (az_Name old = "") then finish_cleanup lb deleteLB
        else
          c ← on_cloud NewClient;
          _ ← cleanup_cloud c old lb deleteLB;
          modify (λ p, with_pointers p NilOld (cached_lb p))
    | None => finish_cleanup lb deleteLB
    end.

(** ** OnUpdate *)
Definition on_azure {A} (m : prog (AzureState E) A) : prog (store * AzureState E) A := λ sp,
  let '(s, p) := sp in let '(r, p) := m p in (r, (s, p)).

Definition cached (s : store) p : option LoadBalancer :=
  match cached_lb p with
  | NilLB => None
  | InformerLB l => s !! l
  | CopyLB lb => Some lb
  end.

Definition isLBChanged (s : store) p (new : LoadBalancer) : bool :=
  match cached s p with
  | None => true
  | Some old =>
      negb (DeepEqual (Nodes (Spec old)) (Nodes (Spec new)) &&
            DeepEqual (Azure (Providers (Spec old))) (Azure (Providers (Spec new))) &&
            DeepEqual (TCPConfigMap (lb_ProxyStatus (Status old)))
                      (TCPConfigMap (lb_ProxyStatus (Status new))) &&
            DeepEqual (UDPConfigMap (lb_ProxyStatus (Status old)))
                      (UDPConfigMap (lb_ProxyStatus (Status new))) &&
            DeepEqual (lb_DeletionTimestamp old) (lb_DeletionTimestamp new) &&
            DeepEqual (lb_Finalizers old) (lb_Finalizers new))
  end.

(** An error of the lister, of whatever kind, becomes a service error. *)
Definition get_configmap (namespace name : string) : prog (AzureState E) ConfigMap :=
  r ← catch (on_cloud (reads (lister_ConfigMap namespace name)));
  match r with
  | inl cm => mret cm
  | inr err => fail (NewServiceError "K8SStore" (error_message err))
  end.

Definition getProxyConfigMapAndCompare (lb : LoadBalancer)
    : prog (AzureState E) (gomap string * gomap string * bool) :=
  tcpCm ← get_configmap (lb_Namespace lb) (TCPConfigMap (lb_ProxyStatus (Status lb)));
  udpCm ← get_configmap (lb_Namespace lb) (UDPConfigMap (lb_ProxyStatus (Status lb)));
  p ← get;
  mret (cm_Data tcpCm, cm_Data udpCm,
        negb (DeepEqual (tcpRuleMap p) (cm_Data tcpCm)) ||
        negb (DeepEqual (udpRuleMap p) (cm_Data udpCm))).

Definition status_or_zero (lb : LoadBalancer) : AzureProviderStatus :=
  default {| Phase := ""; Reason := ""; azs_Message := ""; ProvisioningState := "";
             PublicIPAddress := None |} (AzureStatus (Status lb)).

Definition setProvisioningPublicIPAddress (lb : LoadBalancer) (publicIPAddress : string) : LoadBalancer :=
  let st := status_or_zero lb in
  set_AzureStatus lb (Some {| Phase := Phase st; Reason := Reason st; azs_Message := azs_Message st;
                              ProvisioningState := ProvisioningState st;
                              PublicIPAddress := Some publicIPAddress |}).

Definition setProvisioningState (lb : LoadBalancer) (provisioningState : string) : LoadBalancer :=
  let st := status_or_zero lb in
  set_AzureStatus lb (Some {| Phase := Phase st; Reason := Reason st; azs_Message := azs_Message st;
                              ProvisioningState := provisioningState;
                              PublicIPAddress := PublicIPAddress st |}).

(** The status is written into the object of the informer. *)
Definition updateLoadBalancerAzureStatus (azlb : option AzureLB) (l : nat) (publicIPAddress : string)
    (err : option error) : prog (store * AzureState E) () :=
  state ← lift (match azlb with
                | None => mret None
                | Some azlb => props ← lb_properties azlb;
                               mret (Some (to_String (azlb_ProvisioningState props)))
                end);
  let write lb := setProvisioningPublicIPAddress
                    (match state with Some st => setProvisioningState lb st | None => lb end)
                    publicIPAddress in
  _ ← modify (λ sp, (alter write l sp.1, sp.2));
  sp ← get;
  ignore (on_azure (patchLoadBalancerAzureStatus (sp.1 !! l)
    (match err with None => AzureRunningPhase | Some _ => AzureErrorPhase end) err)).

(** [l.oldAzureProvider] is made to point into the copy that becomes [l.lb]. *)
Definition updateCacheData (lb : LoadBalancer) (tcp udp : gomap string) p : AzureState E :=
  {| loadBalancerNamespace := loadBalancerNamespace p; loadBalancerName := loadBalancerName p;
     oldAzureProvider := match Azure (Providers (Spec lb)) with Some _ => CopyOld | None => NilOld end;
     cached_nodes := Names (Nodes (Spec lb));
     tcpRuleMap := tcp; udpRuleMap := udp; cached_lb := CopyLB lb;
     cleanAzure := cleanAzure p; cloud := cloud p |}.

Definition sync_changed (l : nat) (lb : LoadBalancer) (tcp udp : gomap string)
    : prog (store * AzureState E) () :=
  exists_ ← catch (on_azure (on_cloud (reads (lister_LoadBalancer (lb_Namespace lb) (lb_Name lb)))));
  match exists_ with
  | inr err =>
      if k8s_IsNotFound (Some err) then on_azure (cleanupAzureLB (Some lb) true) else fail err
  | inl _ =>
      '(azlb, nlb, ip, err) ← on_azure (ensureSync lb tcp udp);
      _ ← updateLoadBalancerAzureStatus azlb l ip err;
      match err with
      | None => on_azure (modify (updateCacheData nlb tcp udp))
      | Some err => fail err
      end
  end.

Definition azure_OnUpdate (l : nat) : prog (store * AzureState E) () :=
  sp ← get;
  lb ← lift (deref (sp.1 !! l));
  let lbChanged := isLBChanged sp.1 sp.2 lb in
  if lbChanged && bool_decide (Azure (Providers (Spec lb)) = None) then
    on_azure (_ ← modify (λ p, set_lb p l); cleanupAzureLB None false)
  else if lbChanged && negb (bool_decide (lb_DeletionTimestamp lb = None)) then
    on_azure (_ ← modify (λ p, set_lb p l); cleanupAzureLB (Some lb) true)
  else
    _ ← on_azure (setCacheAzureLoadbalancer (Azure (Providers (Spec lb))));
    azure ← lift (deref (Azure (Providers (Spec lb))));
    _ ← on_azure (setCacheReserveStatus (az_ReserveAzure azure));
    '(tcp, udp, ruleChange) ← on_azure (getProxyConfigMapAndCompare lb);
    if negb lbChanged && negb ruleChange then mret () else sync_changed l lb tcp udp.

(** ** Start and Stop *)
Definition azure_Start : prog (AzureState E) () := mret ().

Definition azure_WaitForStart : prog (AzureState E) bool := mret true.

Definition azure_Stop : prog (AzureState E) () :=
  p ← get;
  r ← catch (on_cloud (reads (lister_LoadBalancer (loadBalancerNamespace p) (loadBalancerName p))));
  match r with
  | inr err => if k8s_IsNotFound (Some err) then cleanupAzureLB None true else mret ()
  | inl _ => mret ()
  end.

(** [New]. *)
Definition new_azure (name namespace : string) (e : E) : AzureState E :=
  {| loadBalancerNamespace := namespace; loadBalancerName := name; oldAzureProvider := NilOld;
     cached_nodes := None; tcpRuleMap := None; udpRuleMap := None; cached_lb := NilLB;
     cleanAzure := false; cloud := e |}.

#[export] Instance azure_provider : Provider (AzureState E) := {
  OnUpdate := azure_OnUpdate;
  Provider_Start := azure_Start;
  WaitForStart := azure_WaitForStart;
  Provider_Stop := azure_Stop;
}.
End azure.
