(* ===== verification/AzureFacts.v ===== *)
(** * The Azure provider: properties

    What [OnUpdate] leaves of the objects of the informer, and what becomes of
    the provider's memory of its last sync. *)

From S2P Require Import Prelude GoStd LbApi Controller.
From S2P Require Import AzureNet AzureIds AzureRules AzureConfig AzureSecurity AzurePools.
From S2P Require Import AzureClient AzureCloud Azure.

Section azure.
Context {E : Type} `{!AzureSDK E, !StoreLister E, !LBPatcher E}.
Context (range_map : ports → list (string * string)) (range_prio : gset Z → list Z).
Context (range_ids : gset string → list string) (ticks : nat).
Implicit Types (p : AzureState E) (s : store).

(** ** The objects of the informer *)

(** The identities of the stored objects. *)
Definition same_objects (sp sp' : store * AzureState E) : Prop :=
  identity <$> sp'.1 = identity <$> sp.1.

#[local] Instance same_objects_preorder : PreOrder same_objects.
Proof. split; [by intros ?|]. intros ??? H1 H2. unfold same_objects in *. congruence. Qed.

Lemma on_azure_objects {A} (m : prog (AzureState E) A) : steps same_objects (on_azure m).
Proof. intros [s p]. unfold on_azure. by destruct (m p). Qed.

#[local] Hint Resolve on_azure_objects : steps.

Lemma updateLoadBalancerAzureStatus_objects azlb l ip err :
  steps same_objects (updateLoadBalancerAzureStatus azlb l ip err).
Proof.
  unfold updateLoadBalancerAzureStatus. steps_auto.
  destruct w as [s p]. unfold same_objects. simpl. apply map_eq. intros l'.
  rewrite !lookup_fmap. destruct (decide (l = l')) as [<-|]; [|by rewrite lookup_alter_ne].
  rewrite lookup_alter_eq. destruct (s !! l); [|done]. simpl. by destruct a.
Qed.
#[local] Hint Resolve updateLoadBalancerAzureStatus_objects : steps.

Lemma OnUpdate_objects l :
  steps same_objects (azure_OnUpdate range_map range_prio range_ids ticks l).
Proof. unfold azure_OnUpdate, sync_changed. steps_auto. Qed.

(** The provider is one the controller can drive. *)
#[export] Instance azure_provider_laws :
  @ProviderLaws (AzureState E) (azure_provider range_map range_prio range_ids ticks).
Proof.
  split. intros l s b r s' b' H. pose proof (OnUpdate_objects l (s, b)) as Hs.
  unfold same_objects in Hs. cbn [OnUpdate azure_provider] in H. rewrite H in Hs. exact Hs.
Qed.

(** ** The flag of the clean-up *)

Definition stays_clean p p' : Prop := cleanAzure p = true → cleanAzure p' = true.

#[local] Instance stays_clean_preorder : PreOrder stays_clean.
Proof. split; [by intros ??|]. intros ??? H1 H2 H. by apply H2, H1. Qed.

Lemma on_cloud_clean {A} (m : prog E A) : steps stays_clean (on_cloud m).
Proof. intros p Hp. unfold on_cloud. destruct (m (cloud p)). exact Hp. Qed.

Lemma with_pointers_clean p old lb : stays_clean p (with_pointers p old lb).
Proof. by intros ?. Qed.

Lemma write_old_clean p f : stays_clean p (write_old p f).
Proof. unfold write_old. repeat case_match; by intros ?. Qed.

Lemma ensure_old_clean p : stays_clean p (ensure_old p).
Proof. unfold ensure_old. case_match; by intros ?. Qed.

#[local] Hint Resolve on_cloud_clean with_pointers_clean write_old_clean ensure_old_clean : steps.

Lemma setCacheAzureLoadbalancer_clean azure : steps stays_clean (setCacheAzureLoadbalancer azure).
Proof. unfold setCacheAzureLoadbalancer. steps_auto. Qed.

Lemma setCacheReserveStatus_clean reserve : steps stays_clean (setCacheReserveStatus reserve).
Proof. unfold setCacheReserveStatus. steps_auto. Qed.

Lemma patchLoadBalancerAzureStatus_clean lb phase err :
  steps stays_clean (patchLoadBalancerAzureStatus lb phase err).
Proof. unfold patchLoadBalancerAzureStatus. steps_auto. Qed.
#[local] Hint Resolve setCacheAzureLoadbalancer_clean setCacheReserveStatus_clean
  patchLoadBalancerAzureStatus_clean : steps.

Lemma ensureSync_clean lb tcp udp :
  steps stays_clean (ensureSync range_map range_prio range_ids lb tcp udp).
Proof. unfold ensureSync, prepare_sync, ensureAzureLoadbalancer, pathLoadBalancerName. steps_auto. Qed.

Lemma getProxyConfigMapAndCompare_clean lb : steps stays_clean (getProxyConfigMapAndCompare lb).
Proof. unfold getProxyConfigMapAndCompare, get_configmap. steps_auto. Qed.

(** A method of the provider inside [OnUpdate]. *)
Definition keeps_flag (sp sp' : store * AzureState E) : Prop := stays_clean sp.2 sp'.2.

#[local] Instance keeps_flag_preorder : PreOrder keeps_flag.
Proof. split; [by intros ??|]. intros ??? H1 H2 H. by apply H2, H1. Qed.

Lemma on_azure_clean {A} (m : prog (AzureState E) A) : steps stays_clean m → steps keeps_flag (on_azure m).
Proof. intros Hm [s p]. specialize (Hm p). unfold on_azure, keeps_flag in *. by destruct (m p). Qed.

Lemma cleanup_when_clean lb deleteLB p :
  cleanAzure p = true → cleanupAzureLB range_ids ticks lb deleteLB p = (Ok (), p).
Proof. intros Hp. unfold cleanupAzureLB. rewrite prog_bind_get. by rewrite Hp. Qed.

Lemma cleanup_clean lb deleteLB : steps stays_clean (cleanupAzureLB range_ids ticks lb deleteLB).
Proof. intros p Hp. by rewrite cleanup_when_clean. Qed.

#[local] Hint Resolve on_azure_clean ensureSync_clean getProxyConfigMapAndCompare_clean
  cleanup_clean : steps.

Lemma updateLoadBalancerAzureStatus_clean azlb l ip err :
  steps keeps_flag (updateLoadBalancerAzureStatus azlb l ip err).
Proof. unfold updateLoadBalancerAzureStatus. steps_auto. by intros ?. Qed.
#[local] Hint Resolve updateLoadBalancerAzureStatus_clean : steps.

Lemma OnUpdate_clean l : steps keeps_flag (azure_OnUpdate range_map range_prio range_ids ticks l).
Proof.
  unfold azure_OnUpdate, sync_changed. steps_auto; apply on_azure_clean; steps_auto; by intros ?.
Qed.

(** The provider after a list of updates, each with the store and the cloud it finds. *)
Definition after (updates : list (nat * store * E)) p : AzureState E :=
  foldl (λ p '(l, s, e),
    (azure_OnUpdate range_map range_prio range_ids ticks l (s, with_cloud p e)).2.2) p updates.

(** The clean-up happens once.  When it has succeeded, the flag that says so is
    never reset, whatever updates follow with whatever there is in the cluster
    and in the cloud, and every later clean-up returns at once: an Azure load
    balancer that is configured again afterwards is left in the cloud when it is
    removed a second time. *)
Theorem cleaned_forever (updates : list (nat * store * E)) p lb deleteLB :
  cleanAzure p = true →
  cleanAzure (after updates p) = true ∧
  cleanupAzureLB range_ids ticks lb deleteLB (after updates p) = (Ok (), after updates p).
Proof.
  intros Hp. assert (cleanAzure (after updates p) = true) as H; [|by split; [|apply cleanup_when_clean]].
  unfold after. revert p Hp. induction updates as [|[[l s] e] updates IH]; intros p Hp; [done|].
  cbn [foldl]. apply IH. by apply (OnUpdate_clean l (s, with_cloud p e)).
Qed.

(** ** Updates without an Azure spec *)

Lemma azure_OnUpdate_eq l s p lb :
  s !! l = Some lb →
  azure_OnUpdate range_map range_prio range_ids ticks l (s, p) =
    if isLBChanged s p lb && bool_decide (Azure (Providers (Spec lb)) = None) then
      on_azure (_ ← modify (λ p, set_lb p l); cleanupAzureLB range_ids ticks None false) (s, p)
    else if isLBChanged s p lb && negb (bool_decide (lb_DeletionTimestamp lb = None)) then
      on_azure (_ ← modify (λ p, set_lb p l); cleanupAzureLB range_ids ticks (Some lb) true) (s, p)
    else
      (_ ← on_azure (setCacheAzureLoadbalancer (Azure (Providers (Spec lb))));
       azure ← lift (deref (Azure (Providers (Spec lb))));
       _ ← on_azure (setCacheReserveStatus (az_ReserveAzure azure));
       '(tcp, udp, ruleChange) ← on_azure (getProxyConfigMapAndCompare lb);
       if negb (isLBChanged s p lb) && negb ruleChange then mret ()
       else sync_changed range_map range_prio range_ids ticks l lb tcp udp) (s, p).
Proof.
  intros Hl. unfold azure_OnUpdate. rewrite prog_bind_get, prog_bind_lift. cbn [fst snd].
  rewrite Hl. cbn [deref]. by repeat case_match.
Qed.

(** What [cleanupAzureLB] does to the pointer of the last load balancer. *)
Definition same_lb p p' : Prop := cached_lb p' = cached_lb p.

#[local] Instance same_lb_preorder : PreOrder same_lb.
Proof. split; [by intros ?|]. unfold same_lb. intros ??? -> ->. done. Qed.

Lemma on_cloud_same_lb {A} (m : prog E A) : steps same_lb (on_cloud m).
Proof. intros p. unfold on_cloud. by destruct (m (cloud p)). Qed.

#[local] Hint Resolve on_cloud_same_lb : steps.
#[local] Hint Extern 1 (same_lb _ _) => reflexivity : steps.

Lemma finish_cleanup_same_lb lb d : steps same_lb (finish_cleanup (E := E) lb d).
Proof. unfold finish_cleanup, cleaned, patachFinalizersAndStatus. cbv zeta. steps_auto. Qed.

Lemma poll_recover_same_lb n c : steps same_lb (poll_recover (E := E) n c).
Proof. induction n as [|n IH]; cbn [poll_recover]; steps_auto. Qed.
#[local] Hint Resolve finish_cleanup_same_lb poll_recover_same_lb : steps.

Lemma cleanup_same_lb lb d : steps same_lb (cleanupAzureLB range_ids ticks lb d).
Proof. unfold cleanupAzureLB, cleanup_cloud, patchLoadBalancerAzureStatus. steps_auto. Qed.

Lemma isLBChanged_self s p l lb :
  cached_lb p = InformerLB l → s !! l = Some lb → isLBChanged s p lb = false.
Proof.
  intros Hc Hl. unfold isLBChanged, cached. rewrite Hc, Hl.
  unfold DeepEqual. by rewrite !bool_decide_true.
Qed.

(** An update without an Azure spec is handled once.  If the first call with
    such a load balancer returns, the next call with the same object, nothing
    having changed, dereferences the nil spec and panics. *)
Theorem second_update_panics l s p lb r s' p' :
  s !! l = Some lb → Azure (Providers (Spec lb)) = None →
  azure_OnUpdate range_map range_prio range_ids ticks l (s, p) = (r, (s', p')) →
  is_panic r = false →
  s' = s ∧ (azure_OnUpdate range_map range_prio range_ids ticks l (s', p')).1 = nil_dereference.
Proof.
  intros Hl Ha. rewrite (azure_OnUpdate_eq l s p lb Hl), Ha.
  destruct (isLBChanged s p lb) eqn:Hc; cbn [andb].
  - rewrite (bool_decide_true (None = None)) by done. unfold on_azure.
    unfold mbind, prog_bind, modify.
    pose proof (cleanup_same_lb None false (set_lb p l)) as Hsame. unfold same_lb in Hsame.
    destruct (cleanupAzureLB range_ids ticks None false (set_lb p l)) as [r1 p1].
    intros Heq Hr. simpl in Hsame.
    assert (s' = s ∧ p' = p1) as [-> ->] by (destruct r1; simpl in Heq; by simplify_eq).
    split; [done|]. rewrite (azure_OnUpdate_eq l s p1 lb Hl), Ha.
    rewrite (isLBChanged_self s p1 l lb Hsame Hl). cbn [andb].
    unfold setCacheAzureLoadbalancer, on_azure, mbind, prog_bind, modify, lift. done.
  - unfold setCacheAzureLoadbalancer, on_azure, mbind, prog_bind, modify, lift. simpl.
    by intros [= <- _ _].
Qed.

(** ** A forgotten change *)

(** The fields of the spec that are written into the cache before the sync. *)
Definition renamed (old azure : AzureProvider) : AzureProvider :=
  {| az_Name := az_Name azure; az_ResourceGroupName := az_ResourceGroupName azure;
     az_Location := az_Location old; az_SKU := az_SKU old; az_ClusterID := az_ClusterID old;
     az_ReserveAzure := az_ReserveAzure azure;
     az_IPAddressProperties := az_IPAddressProperties old |}.

Definition cache_identity (azure old : AzureProvider) : AzureProvider :=
  {| az_Name := az_Name azure; az_ResourceGroupName := az_ResourceGroupName azure;
     az_Location := az_Location old; az_SKU := az_SKU old; az_ClusterID := az_ClusterID old;
     az_ReserveAzure := az_ReserveAzure old;
     az_IPAddressProperties := az_IPAddressProperties old |}.

Definition cache_reserve (azure old : AzureProvider) : AzureProvider :=
  {| az_Name := az_Name old; az_ResourceGroupName := az_ResourceGroupName old;
     az_Location := az_Location old; az_SKU := az_SKU old; az_ClusterID := az_ClusterID old;
     az_ReserveAzure := az_ReserveAzure azure;
     az_IPAddressProperties := az_IPAddressProperties old |}.

(** The state after both writes. *)
Definition cache_spec (azure : AzureProvider) p : AzureState E :=
  write_old (ensure_old (write_old (ensure_old p) (cache_identity azure))) (cache_reserve azure).

(** The load balancer is not being deleted, or this is no news. *)
Definition not_leaving s p lb : bool :=
  negb (isLBChanged s p lb) || bool_decide (lb_DeletionTimestamp lb = None).

Lemma OnUpdate_stays_eq l s p lb azure :
  s !! l = Some lb → Azure (Providers (Spec lb)) = Some azure → not_leaving s p lb = true →
  azure_OnUpdate range_map range_prio range_ids ticks l (s, p) =
    ('(tcp, udp, ruleChange) ← on_azure (getProxyConfigMapAndCompare lb);
     if negb (isLBChanged s p lb) && negb ruleChange then mret ()
     else sync_changed range_map range_prio range_ids ticks l lb tcp udp) (s, cache_spec azure p).
Proof.
  intros Hl Ha Hd. rewrite (azure_OnUpdate_eq l s p lb Hl), Ha.
  rewrite (bool_decide_false (Some azure = None)) by done. rewrite andb_false_r.
  replace (isLBChanged s p lb && negb _) with false
    by (unfold not_leaving in Hd; by destruct (isLBChanged s p lb), (bool_decide _)).
  rewrite (prog_bind_Ok (on_azure (setCacheAzureLoadbalancer (Some azure))) _ (s, p) ()
    (s, write_old (ensure_old p) (cache_identity azure)) eq_refl).
  rewrite prog_bind_lift. cbn [deref].
  by rewrite (prog_bind_Ok (on_azure (setCacheReserveStatus (az_ReserveAzure azure))) _
    (s, write_old (ensure_old p) (cache_identity azure)) () (s, cache_spec azure p) eq_refl).
Qed.

Lemma OnUpdate_sync_eq l s p lb azure :
  s !! l = Some lb → Azure (Providers (Spec lb)) = Some azure → lb_DeletionTimestamp lb = None →
  azure_OnUpdate range_map range_prio range_ids ticks l (s, p) =
    ('(tcp, udp, ruleChange) ← on_azure (getProxyConfigMapAndCompare lb);
     if negb (isLBChanged s p lb) && negb ruleChange then mret ()
     else sync_changed range_map range_prio range_ids ticks l lb tcp udp) (s, cache_spec azure p).
Proof.
  intros Hl Ha Hd. apply OnUpdate_stays_eq; [done..|]. unfold not_leaving.
  rewrite (bool_decide_true _ Hd). apply orb_true_r.
Qed.

Lemma with_cloud_same p : with_cloud p (cloud p) = p.
Proof. by destruct p. Qed.

Lemma get_configmap_eq ns name p :
  get_configmap ns name p =
    (match lister_ConfigMap ns name (cloud p) with
     | Ok cm => Ok cm
     | Err e => Err (NewServiceError "K8SStore" (error_message e))
     | Panic why => Panic why
     end, p).
Proof.
  unfold get_configmap, catch, on_cloud, reads, fail, mbind, prog_bind, mret, prog_ret.
  destruct (lister_ConfigMap ns name (cloud p)); by rewrite with_cloud_same.
Qed.

Lemma cache_spec_cloud azure p :
  cloud (cache_spec azure p) = cloud p ∧ tcpRuleMap (cache_spec azure p) = tcpRuleMap p ∧
  udpRuleMap (cache_spec azure p) = udpRuleMap p.
Proof. unfold cache_spec, write_old, ensure_old. destruct p. simpl. by repeat case_match; simplify_eq/=. Qed.

(** A clean-up that fails is not started again.  [OnUpdate] remembers the load
    balancer before it cleans up, so when the clean-up of one that is being deleted
    fails, the retry with the same object finds nothing changed: with the ports
    as remembered it returns without a call to Azure, and the load balancer stays
    there. *)
Theorem failed_cleanup_not_retried l s p lb azure err s' p' :
  s !! l = Some lb → Azure (Providers (Spec lb)) = Some azure →
  lb_DeletionTimestamp lb ≠ None → isLBChanged s p lb = true →
  azure_OnUpdate range_map range_prio range_ids ticks l (s, p) = (Err err, (s', p')) →
  s' = s ∧
  ∀ e tcp udp,
    lister_ConfigMap (lb_Namespace lb) (TCPConfigMap (lb_ProxyStatus (Status lb))) e = Ok tcp →
    lister_ConfigMap (lb_Namespace lb) (UDPConfigMap (lb_ProxyStatus (Status lb))) e = Ok udp →
    cm_Data tcp = tcpRuleMap p' → cm_Data udp = udpRuleMap p' →
    azure_OnUpdate range_map range_prio range_ids ticks l (s, with_cloud p' e) =
      (Ok (), (s, cache_spec azure (with_cloud p' e))).
Proof.
  intros Hl Ha Hd Hc. rewrite (azure_OnUpdate_eq l s p lb Hl), Ha, Hc.
  rewrite (bool_decide_false (Some azure = None)), (bool_decide_false _ Hd) by done. cbn [andb negb].
  unfold on_azure. unfold mbind at 1, prog_bind at 1, modify at 1.
  pose proof (cleanup_same_lb (Some lb) true (set_lb p l)) as Hsame. unfold same_lb in Hsame.
  destruct (cleanupAzureLB range_ids ticks (Some lb) true (set_lb p l)) as [r1 p1].
  intros [= -> <- <-]. simpl in Hsame. split; [done|]. intros e tcp udp Htcp Hudp Hdt Hdu.
  assert (isLBChanged s (with_cloud p1 e) lb = false) as Hno
    by (apply (isLBChanged_self s (with_cloud p1 e) l lb); done).
  rewrite (OnUpdate_stays_eq l s (with_cloud p1 e) lb azure Hl Ha), Hno
    by (unfold not_leaving; by rewrite Hno).
  destruct (cache_spec_cloud azure (with_cloud p1 e)) as (H1 & H2 & H3). simpl in H1, H2, H3.
  set (q := cache_spec azure (with_cloud p1 e)) in *.
  rewrite (prog_bind_Ok _ _ _ (cm_Data tcp, cm_Data udp, false) (s, q)); [done|].
  unfold getProxyConfigMapAndCompare, on_azure, get. unfold mbind, prog_bind, mret, prog_ret.
  rewrite !get_configmap_eq, H1, Htcp, Hudp, Hdt, Hdu, H2, H3.
  unfold DeepEqual. by rewrite !bool_decide_true.
Qed.

(** The cached copy takes the name, the group and the reservation. *)
Lemma cache_spec_copy p old a0 azure :
  oldAzureProvider p = CopyOld → cached_lb p = CopyLB old → Azure (Providers (Spec old)) = Some a0 →
  cache_spec azure p = with_pointers p CopyOld (CopyLB (set_Azure old (Some (renamed a0 azure)))).
Proof.
  intros Ho Hc Ha. unfold cache_spec.
  assert (ensure_old p = p) as -> by (unfold ensure_old; by rewrite Ho).
  assert (write_old p (cache_identity azure) =
    with_pointers p CopyOld (CopyLB (set_Azure old (Some (cache_identity azure a0))))) as ->
    by (unfold write_old; by rewrite Ho, Hc, Ha).
  done.
Qed.

(** What [isLBChanged] compares besides the Azure spec. *)
Definition same_watched (old new : LoadBalancer) : Prop :=
  Nodes (Spec old) = Nodes (Spec new) ∧
  TCPConfigMap (lb_ProxyStatus (Status old)) = TCPConfigMap (lb_ProxyStatus (Status new)) ∧
  UDPConfigMap (lb_ProxyStatus (Status old)) = UDPConfigMap (lb_ProxyStatus (Status new)) ∧
  lb_DeletionTimestamp old = lb_DeletionTimestamp new ∧ lb_Finalizers old = lb_Finalizers new.

(** An update that finds the load balancer and the ports of the last sync does
    nothing at all. *)
Lemma quiet_update l s p lb old azure tcp udp :
  s !! l = Some lb → Azure (Providers (Spec lb)) = Some azure → lb_DeletionTimestamp lb = None →
  oldAzureProvider p = CopyOld → cached_lb p = CopyLB old → Azure (Providers (Spec old)) = Some azure →
  same_watched old lb →
  lister_ConfigMap (lb_Namespace lb) (TCPConfigMap (lb_ProxyStatus (Status lb))) (cloud p) = Ok tcp →
  lister_ConfigMap (lb_Namespace lb) (UDPConfigMap (lb_ProxyStatus (Status lb))) (cloud p) = Ok udp →
  cm_Data tcp = tcpRuleMap p → cm_Data udp = udpRuleMap p →
  azure_OnUpdate range_map range_prio range_ids ticks l (s, p) = (Ok (), (s, p)).
Proof.
  intros Hl Ha Hd Ho Hc Hao (Hn & Ht & Hu & Hdt & Hf) Htcp Hudp Hdt' Hdu'.
  rewrite (OnUpdate_sync_eq l s p lb azure Hl Ha Hd).
  assert (isLBChanged s p lb = false) as ->.
  { unfold isLBChanged, cached. rewrite Hc, Hn, Ht, Hu, Hdt, Hf, Ha, Hao.
    unfold DeepEqual. by rewrite !bool_decide_true. }
  assert (cache_spec azure p = p) as ->.
  { rewrite (cache_spec_copy p old azure) by done. destruct old as [? ? ? ? ? [? ? []] ?].
    simpl in Hao. subst. destruct p, azure. simpl in *. by subst. }
  rewrite (prog_bind_Ok _ _ _ (cm_Data tcp, cm_Data udp, false) (s, p)); [done|].
  unfold getProxyConfigMapAndCompare, on_azure, get. unfold mbind, prog_bind, mret, prog_ret.
  rewrite !get_configmap_eq, Htcp, Hudp, Hdt', Hdu'.
  unfold DeepEqual. by rewrite !bool_decide_true.
Qed.

(** Nothing but the name, the group or the reservation is different. *)
Definition only_renamed (old new : LoadBalancer) (a0 azure : AzureProvider) : Prop :=
  same_watched old new ∧ azure = renamed a0 azure.

(** A change of the name, the group or the reservation can be lost.  After a
    successful sync the remembered Azure spec is that of the remembered load
    balancer, and [OnUpdate] writes the new values through it before the sync.
    If the sync then fails, say because a ConfigMap cannot be read, the retry
    finds nothing changed: with the ConfigMaps as before it returns without a
    call to Azure. *)
Theorem change_forgotten l s p lb old a0 azure err :
  s !! l = Some lb → oldAzureProvider p = CopyOld → cached_lb p = CopyLB old →
  Azure (Providers (Spec old)) = Some a0 → Azure (Providers (Spec lb)) = Some azure →
  lb_DeletionTimestamp lb = None → only_renamed old lb a0 azure →
  lister_ConfigMap (lb_Namespace lb) (TCPConfigMap (lb_ProxyStatus (Status lb))) (cloud p) = Err err →
  ∃ p',
    azure_OnUpdate range_map range_prio range_ids ticks l (s, p) =
      (Err (NewServiceError "K8SStore" (error_message err)), (s, p')) ∧
    ∀ e tcp udp,
      lister_ConfigMap (lb_Namespace lb) (TCPConfigMap (lb_ProxyStatus (Status lb))) e = Ok tcp →
      lister_ConfigMap (lb_Namespace lb) (UDPConfigMap (lb_ProxyStatus (Status lb))) e = Ok udp →
      cm_Data tcp = tcpRuleMap p → cm_Data udp = udpRuleMap p →
      azure_OnUpdate range_map range_prio range_ids ticks l (s, with_cloud p' e) =
        (Ok (), (s, with_cloud p' e)).
Proof.
  intros Hl Ho Hc Ha0 Ha Hd [Hw Hren] Herr.
  exists (cache_spec azure p). rewrite (cache_spec_copy p old a0) by done.
  set (p' := with_pointers p CopyOld (CopyLB (set_Azure old (Some (renamed a0 azure))))). split.
  - rewrite (OnUpdate_sync_eq l s p lb azure Hl Ha Hd), (cache_spec_copy p old a0) by done. fold p'.
    unfold getProxyConfigMapAndCompare, on_azure. unfold mbind, prog_bind.
    rewrite get_configmap_eq. cbn [cloud p' with_pointers]. by rewrite Herr.
  - intros e tcp udp Htcp Hudp Hdt Hdu.
    by apply (quiet_update l s (with_cloud p' e) lb (set_Azure old (Some (renamed a0 azure))) azure tcp udp);
      try done; rewrite <-Hren.
Qed.
End azure.
