(* ===== verification/AzurePatches.v ===== *)
(** * The patches of the Azure provider

    What the texts that src/providers/azure/azure.go puts together mean to the
    API server: the merge patches of the status, of the name, and of the
    finalizers when the load balancer is gone. *)

From S2P Require Import Prelude GoStd Json LbApi AzureNet AzureClient AzureCloud Azure.
From Stdlib Require Import Ascii.

(** The status patch as an object. *)
Definition azure_status (azure : members) : json :=
  JObject [("status", JObject [("providersStatuses", JObject [("azure", JObject azure)])])].

Definition status_state (lb : option LoadBalancer) : string :=
  default "" (ProvisioningState <$> (lb ≫= (λ lb, AzureStatus (Status lb)))).

Definition status_ip (lb : option LoadBalancer) : string :=
  to_String ((lb ≫= (λ lb, AzureStatus (Status lb))) ≫= PublicIPAddress).

(** What the names and the texts of a patch are built from. *)
#[local] Ltac text_eq :=
  unfold object_text, item_text, nested, quoted; simpl; autorewrite with json; reflexivity.

(** The members of a status patch; two of them follow a blank. *)
Definition status_items lb phase reason message (ok : bool) : list item :=
  let member w k v := {| it_before := w; it_key := k; it_after := ""; it_text := quoted v |} in
  [member "" "phase" phase; member "" "reason" reason; member "" "message" message;
   member " " "provisioningState" (status_state lb)] ++
  (if ok then [member " " "publicIPAddress" (status_ip lb)] else []).

Lemma status_patch_text lb phase result reason message :
  reason_and_message result = (reason, message) →
  status_patch lb phase result =
    nested "status" (nested "providersStatuses" (nested "azure"
      (object_text (status_items lb phase reason message (bool_decide (result = None))) ""))).
Proof.
  intros H. unfold status_patch. rewrite H. unfold status_items, status_state, status_ip.
  case_bool_decide; text_eq.
Qed.

(** C28: A status patch of texts without quotes, backslashes and control characters
    sets phase, reason, message and provisioning state of the Azure status, and the
    public address only when there is no error. *)
Theorem status_patch_denotes lb phase result reason message :
  reason_and_message result = (reason, message) →
  forallb plain [phase; reason; message; status_state lb; status_ip lb] = true →
  Unmarshal (status_patch lb phase result) = Some (azure_status (
    [("phase", JString phase); ("reason", JString reason); ("message", JString message);
     ("provisioningState", JString (status_state lb))] ++
    (if bool_decide (result = None) then [("publicIPAddress", JString (status_ip lb))] else []))).
Proof.
  intros H Hp. rewrite (status_patch_text _ _ _ _ _ H). apply Unmarshal_complete.
  simpl in Hp. rewrite !andb_true_iff in Hp. destruct Hp as (? & ? & ? & ? & ? & _).
  do 3 (apply nested_denotes; [done|]). apply object_text_denotes; [done|done|].
  unfold status_items. case_bool_decide; simpl; rewrite !Forall2_cons, Forall2_nil;
    split_and!; by try apply item_plain.
Qed.

Lemma quoted_cut before c after (rest : string) :
  quoted (before +:+ String quote (String c after)) +:+ rest =
  quoted before +:+ String c (after +:+ String quote rest).
Proof. unfold quoted. by autorewrite with json. Qed.

(** C29: A message with a quote in it makes the patch no JSON at all, provided the
    character after the first quote is no blank, no comma and no closing brace:
    the reader refuses the text, and by the grammar it denotes no value. *)
Theorem quoted_message_refused lb phase result reason message before c after :
  reason_and_message result = (reason, message) →
  message = before +:+ String quote (String c after) →
  forallb plain [phase; reason; before] = true →
  is_blank c = false → c ≠ ","%char → c ≠ "}"%char →
  Unmarshal (status_patch lb phase result) = None ∧
  ∀ j, ¬ denotes (status_patch lb phase result) j.
Proof.
  intros H -> Hp Hc ??. simpl in Hp. rewrite !andb_true_iff in Hp.
  destruct Hp as (Hphase & Hreason & Hbefore & _).
  enough (Unmarshal (status_patch lb phase result) = None) as Hn.
  { split; [done|]. intros j Hj%Unmarshal_complete. congruence. }
  rewrite (status_patch_text _ _ _ _ _ H). apply Unmarshal_refused.
  do 3 (apply refused_nested; [done|]).
  unfold object_text, item_text, status_items. simpl. autorewrite with json.
  apply refused_object. intros n rest. autorewrite with json.
  do 2 (apply refused_later; [done|done|]; clear n; intros n).
  rewrite quoted_cut. by apply refused_here.
Qed.

(** The finalizers a load balancer keeps, and the members of the patch that
    says so: none when the Azure finalizer was not there. *)
Definition finalizers_of (lb : option LoadBalancer) : list string :=
  elems (lb ≫= lb_Finalizers).

Definition final_members (lb : option LoadBalancer) (deleteLB : bool) : members :=
  (if bool_decide (azureFinalizer ∈ finalizers_of lb) then
     [("metadata", JObject [("finalizers",
        JArray (JString <$> filter (λ f, f ≠ azureFinalizer) (finalizers_of lb)))])]
   else []) ++
  (if deleteLB then []
   else [("status", JObject [("ProvidersStatuses", JObject [("azure", JObject [])])])]).

(** [%q] leaves printable ASCII as it is, up to quotes and backslashes. *)
Definition printable (s : string) : bool :=
  forallb (λ c, bool_decide (32 <= byte_of c <= 126)%Z) (String.list_ascii_of_string s).

Lemma Quote_denotes s : printable s = true → denotes (Quote s) (JString s).
Proof.
  intros Hs. apply denotes_quoted. revert Hs. unfold printable.
  induction s as [|c s IH]; [constructor|]. simpl.
  intros [Hc%bool_decide_eq_true Hs]%andb_true_iff. case_bool_decide as H.
  - apply text_escape; [|auto]. unfold escaped. by rewrite bool_decide_true by naive_solver.
  - apply text_plain; [|auto]. apply bool_decide_eq_true. split_and!; [lia|..]; naive_solver.
Qed.

(** The members as they stand in the text. *)
Definition finalizers_item (lb : option LoadBalancer) : item :=
  {| it_before := ""; it_key := "metadata"; it_after := "";
     it_text := nested "finalizers" (String "[" (GoStrings.Join
       (Quote <$> filter (λ f, f ≠ azureFinalizer) (finalizers_of lb)) "," +:+ "]")) |}.

Definition final_items (lb : option LoadBalancer) (deleteLB : bool) : list item :=
  (if bool_decide (azureFinalizer ∈ finalizers_of lb) then [finalizers_item lb] else []) ++
  (if deleteLB then []
   else [{| it_before := ""; it_key := "status"; it_after := "";
            it_text := nested "ProvidersStatuses" (nested "azure" "{}") |}]).

Lemma final_items_denote lb deleteLB :
  Forall (λ f, printable f = true) (finalizers_of lb) →
  Forall2 item_denotes (final_items lb deleteLB) (final_members lb deleteLB).
Proof.
  intros Hp. unfold final_items, final_members. apply Forall2_app.
  - case_bool_decide; [|done]. apply Forall2_cons_2; [apply item_value; [done..|]|done].
    apply nested_denotes, array_text_denotes; [done|].
    apply Forall2_fmap, Forall_Forall2_diag, Forall_forall. intros f [_ Hf]%list_elem_of_filter.
    apply Quote_denotes. by eapply Forall_forall in Hp.
  - destruct deleteLB; [done|]. apply Forall2_cons_2; [apply item_value; [done..|]|done].
    do 2 (apply nested_denotes; [done|]). by apply (denotes_empty_object "").
Qed.

Lemma filter_ne_id (x : string) (l : list string) : x ∉ l → filter (λ y, y ≠ x) l = l.
Proof.
  induction l as [|y l IH]; [done|]. intros [Hy Hl]%not_elem_of_cons.
  rewrite filter_cons_True by congruence. by rewrite IH.
Qed.

Lemma getFinalizersPatch_text lb :
  getFinalizersPatch lb =
    if bool_decide (azureFinalizer ∈ finalizers_of lb) then item_text (finalizers_item lb) else "".
Proof.
  destruct lb as [lb|]; [|by rewrite bool_decide_false by (intros H; inversion H)].
  unfold getFinalizersPatch. change (elems (lb_Finalizers lb)) with (finalizers_of (Some lb)).
  destruct (decide (azureFinalizer ∈ finalizers_of (Some lb))) as [Hin|Hin].
  - rewrite (bool_decide_true _ Hin), bool_decide_false; [unfold finalizers_item; text_eq|].
    pose proof (length_filter_lt (λ f, f ≠ azureFinalizer) _ _ Hin). intros Heq. naive_solver lia.
  - rewrite (bool_decide_false _ Hin), bool_decide_true; [done|]. by rewrite filter_ne_id.
Qed.

Lemma getFinalizersPatch_items lb (deleteLB : bool) :
  (if bool_decide (getFinalizersPatch lb = "") then [] else [getFinalizersPatch lb]) ++
  (if deleteLB then [] else [getNilAzureStatus]) = item_text <$> final_items lb deleteLB.
Proof.
  unfold final_items. rewrite fmap_app, getFinalizersPatch_text.
  f_equal; [|by destruct deleteLB].
  destruct (bool_decide (azureFinalizer ∈ _)); [by rewrite bool_decide_false|done].
Qed.

(** C27: The merge patch that is sent when the load balancer has left Azure: the Azure
    finalizer is taken out of the finalizers, the others stay in their order, and
    unless the load balancer is deleted its status is patched under the name
    [ProvidersStatuses].  Nothing is sent when there is nothing to change. *)
Theorem final_patch `{!LBPatcher E} lb deleteLB (p : AzureState E) :
  Forall (λ f, printable f = true) (finalizers_of lb) →
  match final_members lb deleteLB with
  | [] => patachFinalizersAndStatus lb deleteLB p = (Ok (), p)
  | m => ∃ patch, Unmarshal patch = Some (JObject m) ∧
      patachFinalizersAndStatus lb deleteLB p =
        on_cloud (LoadBalancers_Patch (target p lb).1 (target p lb).2 patch) p
  end.
Proof.
  intros Hp. pose proof (final_items_denote lb deleteLB Hp) as Hd.
  unfold patachFinalizersAndStatus. rewrite getFinalizersPatch_items.
  destruct Hd as [|i f l m Hi Hl]; [done|].
  exists (object_text (i :: l) ""). split.
  - apply Unmarshal_complete, object_text_denotes; [done..|by constructor].
  - unfold object_text. autorewrite with json. done.
Qed.

(** ** At a concrete input *)
Lemma status_patch_denotes_witness :
  Unmarshal (status_patch None AzureErrorPhase (Some (NewServiceError "NotFound" "no group rg"))) =
    Some (azure_status [("phase", JString "Error"); ("reason", JString "NotFound");
                        ("message", JString "no group rg"); ("provisioningState", JString "")]).
Proof.
  exact (status_patch_denotes None AzureErrorPhase (Some (NewServiceError "NotFound" "no group rg"))
           "NotFound" "no group rg" eq_refl eq_refl).
Defined.

(** The answer of the token service to wrong credentials, in the error of a call. *)
Definition invalid_client : error :=
  DetailedError None OriginalOther (text "Response body: {'error':'invalid_client'}").

Lemma quoted_message_refused_witness :
  Unmarshal (status_patch None AzureErrorPhase (Some invalid_client)) = None ∧
  ∀ j, ¬ denotes (status_patch None AzureErrorPhase (Some invalid_client)) j.
Proof.
  exact (quoted_message_refused None AzureErrorPhase (Some invalid_client) "Unknown" _
           "Response body: {" "e" (text "rror':'invalid_client'}")
           eq_refl eq_refl eq_refl eq_refl ltac:(done) ltac:(done)).
Defined.
