(* ===== verification/AzureSync.v ===== *)
(** * The Azure provider: what a sync achieves

    The steps of [ensureSync] put together: after a successful sync the rules of
    the load balancer in the cloud follow the ports, and its backend pool is that
    of the nodes. *)

From S2P Require Import Prelude GoStd LbApi AzureNet AzureIds AzureRules AzureConfig.
From S2P Require Import Controller AzureSecurity AzurePools AzurePoolsFacts AzureClient AzureCloud.
From S2P Require Import Azure AzureFacts.

(** ** After a sync *)

(** The spec of the load balancer and the one the sync works with: the name is
    filled in when there is none. *)
Definition spec_named (lb lb' : LoadBalancer) (azure azure' : AzureProvider) : Prop :=
  Azure (Providers (Spec lb)) = Some azure ∧ lb' = set_Azure lb (Some azure') ∧
  azure' = set_azure_name azure (az_Name azure') ∧
  (az_Name azure ≠ "" → az_Name azure' = az_Name azure).

Lemma spec_named_refl lb azure : Azure (Providers (Spec lb)) = Some azure → spec_named lb lb azure azure.
Proof.
  intros Ha. split_and!; [done| |by destruct azure|done]. destruct lb as [? ? ? ? ? [? ? []] ?].
  simpl in *. by rewrite Ha.
Qed.

Section after.
Context {E : Type} `{!AzureSDK E, !StoreLister E, !LBPatcher E}.
Context (range_map : ports → list (string * string)) (range_prio : gset Z → list Z).
Context (range_ids : gset string → list string) (ticks : nat).
Implicit Types (p : AzureState E) (s : store).

Lemma ensureAzureLoadbalancer_spec c lb p azlb lb' p' :
  ensureAzureLoadbalancer c lb p = (Ok (azlb, lb'), p') → ∃ azure azure', spec_named lb lb' azure azure'.
Proof.
  unfold ensureAzureLoadbalancer. intros H. run_back.
  match goal with H : Azure _ = Some ?a |- _ => rename a into azure, H into Ha end.
  case_match; run_back; simplify_eq; [by exists azure, azure; apply spec_named_refl|].
  case_bool_decide as He; run_back; simplify_eq; [|by exists azure, azure; apply spec_named_refl].
  eexists azure, _. split_and!; [done|reflexivity|by destruct azure|done].
Qed.

Lemma prepare_sync_spec lb p c azlb lb' ip p' :
  prepare_sync lb p = (Ok (c, azlb, lb', ip), p') → ∃ azure azure', spec_named lb lb' azure azure'.
Proof.
  unfold prepare_sync. intros H. run_back. simplify_eq.
  match goal with H : ensureAzureLoadbalancer _ _ _ = _ |- _ =>
    by apply ensureAzureLoadbalancer_spec in H end.
Qed.

Lemma ensureSync_spec lb tcp udp p at_hand lb' ip p' :
  ensureSync range_map range_prio range_ids lb tcp udp p = (Ok (at_hand, lb', ip, None), p') →
  ∃ azure azure', spec_named lb lb' azure azure'.
Proof.
  unfold ensureSync. intros H. run_back.
  match goal with H : catch _ p = _ |- _ => apply prog_catch_inv in H; rename H into Hprep end.
  destruct a as [[[[c azlb1] lb1] ip1]|err]; [|by run_back]. run_back. simplify_eq.
  by apply prepare_sync_spec in Hprep.
Qed.

Lemma on_azure_inv {A} (m : prog (AzureState E) A) s p a sp' :
  on_azure m (s, p) = (Ok a, sp') → ∃ p', m p = (Ok a, p') ∧ sp' = (s, p').
Proof. unfold on_azure. destruct (m p) as [r p']. intros [= -> <-]. by exists p'. Qed.

Lemma getProxyConfigMapAndCompare_inv lb p tcp udp t u ch p' :
  lister_ConfigMap (lb_Namespace lb) (TCPConfigMap (lb_ProxyStatus (Status lb))) (cloud p) = Ok tcp →
  lister_ConfigMap (lb_Namespace lb) (UDPConfigMap (lb_ProxyStatus (Status lb))) (cloud p) = Ok udp →
  getProxyConfigMapAndCompare lb p = (Ok (t, u, ch), p') →
  t = cm_Data tcp ∧ u = cm_Data udp ∧ p' = p ∧
  (ch = false → cm_Data tcp = tcpRuleMap p ∧ cm_Data udp = udpRuleMap p).
Proof.
  intros Htcp Hudp. unfold getProxyConfigMapAndCompare, mbind, prog_bind, get, mret, prog_ret.
  rewrite !get_configmap_eq, Htcp, Hudp. intros [= <- <- Hch <-]. split_and!; [done..|].
  intros ->. apply orb_false_iff in Hch as [Ht Hu]. unfold DeepEqual in *.
  apply negb_false_iff, bool_decide_eq_true in Ht, Hu. done.
Qed.

(** What a successful sync remembers. *)
Lemma sync_changed_inv l s p lb tcp udp obj s' p' :
  lister_LoadBalancer (lb_Namespace lb) (lb_Name lb) (cloud p) = Ok obj →
  sync_changed range_map range_prio range_ids ticks l lb tcp udp (s, p) = (Ok (), (s', p')) →
  ∃ azure azure' lb', spec_named lb lb' azure azure' ∧ oldAzureProvider p' = CopyOld ∧
    cached_lb p' = CopyLB lb' ∧ tcpRuleMap p' = tcp ∧ udpRuleMap p' = udp.
Proof.
  intros Hobj. unfold sync_changed. intros H. run_back.
  match goal with H : catch _ _ = _ |- _ => apply prog_catch_inv in H;
    unfold on_azure, on_cloud, reads in H; rewrite Hobj in H; rename H into Hget end.
  destruct a as [obj'|err]; [|done]. injection Hget as <- <-. run_back.
  match goal with H : on_azure (ensureSync _ _ _ _ _ _) _ = _ |- _ =>
    apply on_azure_inv in H as (p2 & H & ->); rename H into Hsync end.
  case_match; run_back; simplify_eq.
  apply ensureSync_spec in Hsync as (azure & azure' & Hspec).
  match goal with H : on_azure _ ?sp = _ |- _ => destruct sp as [s3 p3];
    apply on_azure_inv in H as (p4 & H & [= -> ->]); injection H as <- end.
  eexists azure, azure', _. split; [exact Hspec|]. destruct Hspec as (_ & -> & _). done.
Qed.

(** C24: A sync that succeeds puts the provider at rest.  Whatever object describes
    the load balancer afterwards, with the spec the sync worked with and the
    ConfigMaps as they were, and whatever happened in the cloud meanwhile, the
    next update returns without a call and leaves the provider as it is. *)
Theorem update_after_sync l s p lb azure tcp udp obj s' p' :
  s !! l = Some lb → Azure (Providers (Spec lb)) = Some azure → lb_DeletionTimestamp lb = None →
  isLBChanged s p lb = true ∨ cm_Data tcp ≠ tcpRuleMap p ∨ cm_Data udp ≠ udpRuleMap p →
  lister_ConfigMap (lb_Namespace lb) (TCPConfigMap (lb_ProxyStatus (Status lb))) (cloud p) = Ok tcp →
  lister_ConfigMap (lb_Namespace lb) (UDPConfigMap (lb_ProxyStatus (Status lb))) (cloud p) = Ok udp →
  lister_LoadBalancer (lb_Namespace lb) (lb_Name lb) (cloud p) = Ok obj →
  azure_OnUpdate range_map range_prio range_ids ticks l (s, p) = (Ok (), (s', p')) →
  ∃ azure', azure' = set_azure_name azure (az_Name azure') ∧
    (az_Name azure ≠ "" → az_Name azure' = az_Name azure) ∧
    ∀ l2 s2 lb2 e tcp2 udp2,
      s2 !! l2 = Some lb2 → Azure (Providers (Spec lb2)) = Some azure' → same_watched lb lb2 →
      lister_ConfigMap (lb_Namespace lb2) (TCPConfigMap (lb_ProxyStatus (Status lb2))) e = Ok tcp2 →
      lister_ConfigMap (lb_Namespace lb2) (UDPConfigMap (lb_ProxyStatus (Status lb2))) e = Ok udp2 →
      cm_Data tcp2 = cm_Data tcp → cm_Data udp2 = cm_Data udp →
      azure_OnUpdate range_map range_prio range_ids ticks l2 (s2, with_cloud p' e) =
        (Ok (), (s2, with_cloud p' e)).
Proof.
  intros Hl Ha Hd Hch Htcp Hudp Hobj. rewrite (OnUpdate_sync_eq _ _ _ _ l s p lb azure Hl Ha Hd). intros H. run_back.
  match goal with H : on_azure (getProxyConfigMapAndCompare _) _ = _ |- _ =>
    apply on_azure_inv in H as (p1 & H & ->);
    destruct (cache_spec_cloud azure p) as (Hcl & Ht & Hu);
    apply (getProxyConfigMapAndCompare_inv lb _ tcp udp) in H as (-> & -> & -> & Hsame);
    [|by rewrite Hcl..] end.
  rewrite Ht, Hu in Hsame. case_match eqn:Hskip.
  { exfalso. apply andb_true_iff in Hskip as [Hs1 Hs2]. apply negb_true_iff in Hs1, Hs2.
    destruct (Hsame Hs2), Hch as [?|[?|?]]; congruence. }
  apply (sync_changed_inv _ _ _ _ _ _ obj) in H
    as (a0 & azure' & lb' & (Ha0 & -> & Hren & Hname) & Ho & Hc & Htr & Hur); [|by rewrite Hcl].
  assert (a0 = azure) as -> by congruence.
  exists azure'. split_and!; [done|done|]. intros l2 s2 lb2 e tcp2 udp2 Hl2 Ha2 Hw Htcp2 Hudp2 Hdt Hdu.
  eapply (quiet_update _ _ _ _ l2 s2 (with_cloud p' e) lb2 (set_Azure lb (Some azure')) azure');
    [done|done| |done|done|done|done|exact Htcp2|exact Hudp2| |].
  - destruct Hw as (_ & _ & _ & <- & _). done.
  - simpl. congruence.
  - simpl. congruence.
Qed.
End after.

(** ** The load balancers in the cloud *)

(** What is observed of a rule: its name, its protocol and its port. *)
Definition rule_view (r : LoadBalancingRule) : string * string * Z :=
  (to_String (rule_Name r), protocol_of r, port_of r).

Definition lb_rules (azlb : AzureLB) : list LoadBalancingRule :=
  match azlb_Properties azlb with Some p => elems (LoadBalancingRules p) | None => [] end.

(** A load balancer as Azure returns it. *)
Definition named_lb (n : string) (azlb : AzureLB) : Prop :=
  azlb_Name azlb = Some n ∧ is_Some (azlb_Properties azlb) ∧
  Forall AzureRules.has_properties (lb_rules azlb).

#[export] Instance named_lb_dec n azlb : Decision (named_lb n azlb).
Proof. unfold named_lb, AzureRules.has_properties. apply _. Defined.

(** As many probes, frontends and backend pools. *)
Definition children (azlb : AzureLB) : nat * nat * nat :=
  match azlb_Properties azlb with
  | Some p => (length (elems (Probes p)), length (elems (FrontendIPConfigurations p)),
               length (elems (BackendAddressPools p)))
  | None => (0, 0, 0)
  end.

(** What Azure and the API server document: a read changes nothing and returns
    the rules that are there, or fails with 404 when there is no such load
    balancer; a successful update stores the rules that were sent, which come
    back with IDs, and leaves the other load balancers and the interfaces alone;
    nothing else but a deletion touches a load balancer.  Nothing is said of what
    a deletion leaves behind: it is not waited for. *)
Class AzureLBs (E : Type) `{!AzureSDK E, !LBPatcher E, !AzureNics E} := {
  rules_at : E → gmap (string * string) (list (string * string * Z));
  LoadBalancers_Get_rules c g n e :
    rules_at (LoadBalancers_Get c g n e).2 = rules_at e ∧
    pools_at (LoadBalancers_Get c g n e).2 = pools_at e ∧
    ∀ azlb, (LoadBalancers_Get c g n e).1 = Ok azlb →
      named_lb n azlb ∧ rules_at e !! (g, n) = Some (rule_view <$> lb_rules azlb);
  LoadBalancers_CreateOrUpdate_rules c g n azlb e azlb' e' :
    LoadBalancers_CreateOrUpdate c g n azlb e = (Ok azlb', e') →
    rules_at e' = <[(g, n) := rule_view <$> lb_rules azlb]> (rules_at e) ∧
    pools_at e' = pools_at e ∧ named_lb n azlb' ∧ children azlb' = children azlb ∧
    rule_view <$> lb_rules azlb' = rule_view <$> lb_rules azlb;
  LoadBalancers_Get_missing c g n e err :
    (LoadBalancers_Get c g n e).1 = Err err → IsNotFound (Some err) = Ok true →
    rules_at e !! (g, n) = None;
  Interfaces_Get_rules c g n e : rules_at (Interfaces_Get c g n e).2 = rules_at e;
  Interfaces_CreateOrUpdate_rules c g n nic e :
    rules_at (Interfaces_CreateOrUpdate c g n nic e).2 = rules_at e;
  VirtualMachines_Get_rules c g n e : rules_at (VirtualMachines_Get c g n e).2 = rules_at e;
  PublicIPAddresses_Get_frame c g n e :
    rules_at (PublicIPAddresses_Get c g n e).2 = rules_at e ∧
    pools_at (PublicIPAddresses_Get c g n e).2 = pools_at e;
  SecurityGroups_Get_frame c g n e :
    rules_at (SecurityGroups_Get c g n e).2 = rules_at e ∧
    pools_at (SecurityGroups_Get c g n e).2 = pools_at e;
  SecurityGroups_CreateOrUpdate_frame c g n sg e :
    rules_at (SecurityGroups_CreateOrUpdate c g n sg e).2 = rules_at e ∧
    pools_at (SecurityGroups_CreateOrUpdate c g n sg e).2 = pools_at e;
  LoadBalancers_Patch_frame ns n patch e :
    rules_at (LoadBalancers_Patch ns n patch e).2 = rules_at e ∧
    pools_at (LoadBalancers_Patch ns n patch e).2 = pools_at e;
}.

Section sync.
Context {E : Type} `{!AzureSDK E, !StoreLister E, !LBPatcher E, !AzureNics E, !AzureLBs E}.
Context (range_map : ports → list (string * string)) (range_prio : gset Z → list Z).
Context (range_ids : gset string → list string).
Context (range_map_order : ∀ m, map_order (range_map m) m).
Context (range_ids_order : ∀ s, set_order (range_ids s) s).
Implicit Types (e : E) (azlb : AzureLB).

(** ** What the steps leave alone *)
Definition same_rules_at e e' : Prop := rules_at e' = rules_at e.
Definition same_cloud e e' : Prop := rules_at e' = rules_at e ∧ pools_at e' = pools_at e.

#[local] Instance same_rules_at_preorder : PreOrder same_rules_at.
Proof. split; [by intros ?|]. unfold same_rules_at. intros ??? -> ->. done. Qed.
#[local] Instance same_cloud_preorder : PreOrder same_cloud.
Proof. split; [by intros ?|]. unfold same_cloud. intros ??? [-> ->] [-> ->]. done. Qed.

Lemma Interfaces_Get_cloud c g n : steps same_cloud (Interfaces_Get c g n).
Proof.
  intros e. split; [apply Interfaces_Get_rules|].
  destruct (Interfaces_Get c g n e) as [r e'] eqn:H. by apply Interfaces_Get_pools in H as [? _].
Qed.

#[local] Hint Resolve Interfaces_Get_cloud : steps.
#[local] Hint Extern 1 (steps same_rules_at _) =>
  intros ?; first [apply Interfaces_Get_rules | apply Interfaces_CreateOrUpdate_rules |
                   apply VirtualMachines_Get_rules] : steps.
#[local] Hint Extern 2 (steps same_cloud _) =>
  intros ?; first [apply PublicIPAddresses_Get_frame | apply SecurityGroups_Get_frame |
                   apply SecurityGroups_CreateOrUpdate_frame | apply LoadBalancers_Patch_frame] : steps.

Lemma syncBackendPools_rules c azlb nodes :
  steps same_rules_at (syncBackendPoolsWithNodes range_ids c azlb nodes).
Proof.
  unfold syncBackendPoolsWithNodes, diffBackendPoolNetworkInterfaecs.
  assert (steps same_rules_at (getBackendPoolIPFromNodes c nodes)) as Hn.
  { induction nodes as [|node nodes IH]; cbn [getBackendPoolIPFromNodes];
      unfold getAzureNetworkInterfacesByNodeName, getMachineInfoFromNode, getNetworkInterfacesFromVM;
      steps_auto. }
  unfold detachNetworkInterfacesAndLoadBalancer, attachNetworkInterfacesAndLoadBalancer. steps_auto.
Qed.

Lemma security_groups_of_cloud c l : steps same_cloud (security_groups_of c l).
Proof.
  induction l as [|network l IH]; cbn [security_groups_of];
    unfold getSecurityGroupIDFromNetWork; steps_auto.
Qed.

Lemma sync_groups_cloud c l tcp udp : steps same_cloud (sync_groups range_map range_prio c l tcp udp).
Proof. revert tcp udp. induction l as [|sg l IH]; intros; cbn [sync_groups]; steps_auto. Qed.
#[local] Hint Resolve security_groups_of_cloud sync_groups_cloud : steps.

Lemma syncSecurityGroupRules_cloud c tcp udp detachs nets :
  steps same_cloud (syncSecurityGroupRules range_map range_prio range_ids c tcp udp detachs nets).
Proof.
  unfold syncSecurityGroupRules, getSuitableSecurityGroup, deleteUselessSecurityRules,
    ensureSyncRulesToSecurityGroups. steps_auto.
Qed.

Lemma getPublicIPAddress_cloud c lb : steps same_cloud (getPublicIPAddress c lb).
Proof. unfold getPublicIPAddress. steps_auto. Qed.

(** ** A load balancer at hand, as it is stored *)
Definition stored e azlb (g n : string) : Prop :=
  named_lb n azlb ∧ rules_at e !! (g, n) = Some (rule_view <$> lb_rules azlb).

(** A probe, a frontend and a backend pool to make rules from. *)
Definition complete azlb : Prop := ∃ i j k, children azlb = (S i, S j, S k).

Lemma complete_parts azlb p :
  azlb_Properties azlb = Some p → complete azlb → is_Some (lb_parts p).
Proof.
  intros Hp (i & j & k & H). unfold children in H. rewrite Hp in H. unfold lb_parts.
  destruct (elems (Probes p)), (elems (FrontendIPConfigurations p)),
    (elems (BackendAddressPools p)); by (discriminate H || eexists).
Qed.

Lemma CreateOrUpdate_stored c g n azlb e azlb' e' :
  LoadBalancers_CreateOrUpdate c g n azlb e = (Ok azlb', e') →
  stored e' azlb' g n ∧ pools_at e' = pools_at e ∧ children azlb' = children azlb.
Proof.
  intros H. apply LoadBalancers_CreateOrUpdate_rules in H as (Hr & Hp & Hn & Hc & Hv).
  split_and!; [|done|done]. split; [done|]. by rewrite Hr, lookup_insert_eq, Hv.
Qed.

Lemma stored_mono e e' azlb g n : same_rules_at e e' → stored e azlb g n → stored e' azlb g n.
Proof. intros Hs [??]. split; [done|]. by rewrite Hs. Qed.

Lemma createAzureLoadBalancer_stored c lb azure e azlb e' :
  Azure (Providers (Spec lb)) = Some azure → createAzureLoadBalancer c lb e = (Ok azlb, e') →
  ∃ n, stored e' azlb (az_ResourceGroupName azure) n ∧ pools_at e' = pools_at e ∧
       (az_Name azure ≠ "" → n = az_Name azure).
Proof.
  intros Ha. unfold createAzureLoadBalancer, initClusterAzureLoadBalancerObject. rewrite Ha. intros H.
  run_back. simplify_eq/=. run_back. simplify_eq/=.
  apply CreateOrUpdate_stored in H as (Hs & Hp & _). eexists. split_and!; [exact Hs|done|].
  intros Hn. by rewrite bool_decide_false.
Qed.

(** The probes, the pool and the frontend are there once the configuration is
    repaired; the rules are those of before. *)
Lemma ensureSyncDefaultConfigExceptRules_rules azlb lb azlb' change :
  ensureSyncDefaultConfigExceptRules azlb lb = Ok (azlb', change) →
  azlb_Name azlb' = azlb_Name azlb ∧ is_Some (azlb_Properties azlb') ∧
  lb_rules azlb' = lb_rules azlb ∧ (children azlb').1.1 ≠ 0.
Proof.
  unfold ensureSyncDefaultConfigExceptRules, lb_properties, lb_rules, children.
  destruct (azlb_Properties azlb) as [q|]; [|done].
  change (mbind ?f (deref (Some ?a))) with (f a). cbv beta zeta.
  destruct (getProbesBrief (Probes q)) as [brief| |] eqn:Hbrief; [|done..].
  change (mbind ?f (Ok ?a)) with (f a). cbv beta.
  intros (pools & _ & H)%result_bind_inv. apply result_bind_inv in H as (azure & _ & [= <- _]).
  split_and!; [done|by eexists|done|]. cbn [azlb_Properties with_properties Probes fst].
  unfold isEqual. case_bool_decide as Heq; [|done]. unfold getProbesBrief in Hbrief.
  destruct (elems (Probes q)) eqn:Hq; [|done]. injection Hbrief as <-. done.
Qed.

Lemma first_Ok {A} (s : slice A) x : first s = Ok x → length (elems s) ≠ 0.
Proof. destruct s as [[|y l]|]; done. Qed.

Lemma complete_intro azlb q :
  azlb_Properties azlb = Some q → length (elems (Probes q)) ≠ 0 →
  length (elems (FrontendIPConfigurations q)) ≠ 0 → length (elems (BackendAddressPools q)) ≠ 0 →
  complete azlb.
Proof.
  intros Hq. unfold complete, children. rewrite Hq.
  destruct (elems (Probes q)), (elems (FrontendIPConfigurations q)), (elems (BackendAddressPools q));
    intros; try done. by do 3 eexists.
Qed.

Lemma ensureSyncDefaultRules_stored c lb azure azlb n e azlb' e' :
  Azure (Providers (Spec lb)) = Some azure →
  stored e azlb (az_ResourceGroupName azure) n → (children azlb).1.1 ≠ 0 →
  ensureSyncDefaultRules c azlb lb e = (Ok azlb', e') →
  stored e' azlb' (az_ResourceGroupName azure) n ∧ pools_at e' = pools_at e ∧ complete azlb'.
Proof.
  intros Ha Hs Hc. unfold ensureSyncDefaultRules, lb_properties. rewrite Ha. intros H. run_back.
  destruct (azlb_Properties azlb) as [q|] eqn:Hq; [|done]. simplify_eq/=.
  match goal with H : first (FrontendIPConfigurations _) = _, H' : first (BackendAddressPools _) = _ |- _ =>
    apply first_Ok in H, H' end.
  assert (complete azlb) as Hcomplete.
  { apply (complete_intro azlb a); [done| |done|done]. unfold children in Hc. by rewrite Hq in Hc. }
  case_match.
  - run_back. simplify_eq/=. rewrite (proj1 (proj1 Hs)) in H.
    apply CreateOrUpdate_stored in H as (Hs' & Hp & Hch). split_and!; [done|done|].
    unfold complete in *. rewrite Hch. unfold children in *. by rewrite Hq in Hcomplete.
  - run_back. by simplify_eq/=.
Qed.

Lemma ensureSyncDefaultAzureLBConfig_stored c lb azure azlb n e azlb' e' :
  Azure (Providers (Spec lb)) = Some azure →
  stored e azlb (az_ResourceGroupName azure) n →
  ensureSyncDefaultAzureLBConfig c azlb lb e = (Ok azlb', e') →
  stored e' azlb' (az_ResourceGroupName azure) n ∧ pools_at e' = pools_at e ∧ complete azlb'.
Proof.
  intros Ha Hs. unfold ensureSyncDefaultAzureLBConfig, lb_properties. intros H. run_back.
  match goal with H : ensureSyncDefaultConfigExceptRules _ _ = Ok (?x, _) |- _ =>
    rename x into azlb1; apply ensureSyncDefaultConfigExceptRules_rules in H
      as (Hn & [q Hq] & Hrules & Hprobes) end.
  match goal with H : (if ?b then _ else _) _ = (Ok ?x, ?w) |- _ =>
    rename x into azlb2; rename w into e2;
    assert (stored e2 azlb2 (az_ResourceGroupName azure) n ∧ pools_at e2 = pools_at e ∧
            children azlb2 = children azlb1) as (Hs2 & Hp2 & Hc2); [destruct b|] end.
  - rewrite Hq in *. run_back. simplify_eq/=.
    match goal with H : LoadBalancers_CreateOrUpdate _ _ _ _ _ = _ |- _ =>
      rewrite Hn, (proj1 (proj1 Hs)) in H; apply CreateOrUpdate_stored in H as (? & ? & Hch) end.
    split_and!; [done|done|]. rewrite Hch. unfold children. by rewrite Hq.
  - run_back. simplify_eq/=. split_and!; [|done|done]. destruct Hs as [(? & ? & ?) ?].
    split; [split_and!|]; [congruence|by eexists|congruence|congruence].
  - rewrite <-Hp2. eapply ensureSyncDefaultRules_stored; [done|done| |done]. by rewrite Hc2.
Qed.

(** ** The provider around the cloud *)
Definition cloud_kept (p p' : AzureState E) : Prop := same_cloud (cloud p) (cloud p').

#[local] Instance cloud_kept_preorder : PreOrder cloud_kept.
Proof. split; [by intros ?|]. intros ??? H1 H2. unfold cloud_kept. by etransitivity. Qed.

Lemma on_cloud_kept {A} (m : prog E A) : steps same_cloud m → steps cloud_kept (on_cloud m).
Proof. intros Hm p. specialize (Hm (cloud p)). unfold on_cloud, cloud_kept. by destruct (m (cloud p)). Qed.

Lemma on_cloud_inv {A} (m : prog E A) (p : AzureState E) a p' :
  on_cloud m p = (Ok a, p') → m (cloud p) = (Ok a, cloud p').
Proof. unfold on_cloud. destruct (m (cloud p)) as [r e]. by intros [= -> <-]. Qed.
#[local] Hint Resolve on_cloud_kept : steps.

Lemma patchLoadBalancerAzureStatus_kept lb phase err :
  steps cloud_kept (patchLoadBalancerAzureStatus lb phase err).
Proof. unfold patchLoadBalancerAzureStatus. steps_auto. Qed.

Lemma write_old_kept p f : cloud_kept p (write_old p f).
Proof. unfold write_old. repeat case_match; done. Qed.
Lemma ensure_old_kept p : cloud_kept p (ensure_old p).
Proof. unfold ensure_old. case_match; done. Qed.
#[local] Hint Resolve write_old_kept ensure_old_kept : steps.

Lemma pathLoadBalancerName_kept lb name : steps cloud_kept (pathLoadBalancerName lb name).
Proof. unfold pathLoadBalancerName, setCacheAzureLoadbalancer. steps_auto. Qed.

Lemma NewClient_kept : steps cloud_kept (on_cloud NewClient).
Proof. apply on_cloud_kept. unfold NewClient, getAPISecret, NewClientWithConfig. steps_auto. Qed.

(** A program that keeps the cloud, run. *)
Lemma kept_run {A} (m : prog (AzureState E) A) p r p' :
  steps cloud_kept m → m p = (r, p') →
  rules_at (cloud p') = rules_at (cloud p) ∧ pools_at (cloud p') = pools_at (cloud p).
Proof. intros Hm H. specialize (Hm p). by rewrite H in Hm. Qed.

Lemma ensureAzureLoadbalancer_stored c lb p azlb lb' p' :
  ensureAzureLoadbalancer c lb p = (Ok (azlb, lb'), p') →
  ∃ azure azure', spec_named lb lb' azure azure' ∧
    stored (cloud p') azlb (az_ResourceGroupName azure') (az_Name azure') ∧
    pools_at (cloud p') = pools_at (cloud p).
Proof.
  unfold ensureAzureLoadbalancer. intros H. run_back.
  match goal with H : Azure _ = Some ?a |- _ => rename a into azure, H into Ha end.
  match goal with H : on_cloud _ p = (Ok ?x, ?w) |- _ => rename x into found, w into p1, H into Hget end.
  apply on_cloud_inv in Hget.
  unfold getAzureLoadbalancer in Hget. destruct found as [azlb1|].
  - run_back. simplify_eq/=. exists azure, azure. split; [by apply spec_named_refl|].
    case_bool_decide; run_back; [done|]. case_match; run_back; [|by case_match; run_back].
    simplify_eq/=.
    match goal with H : catch _ _ = _ |- _ => apply prog_catch_inv in H; rename H into Hget end.
    pose proof (LoadBalancers_Get_rules c (az_ResourceGroupName azure) (az_Name azure) (cloud p))
      as (Hr & Hp & Hok). rewrite Hget in *. simpl in *. destruct (Hok _ eq_refl) as [Hn Hs].
    split; [|done]. split; [done|]. by rewrite Hr.
  - assert (pools_at (cloud p1) = pools_at (cloud p)) as Hp1.
    { case_bool_decide; run_back; [by simplify_eq/=|]. case_match; run_back; [by simplify_eq/=|].
      case_match; run_back. clear Hget.
      match goal with H : catch _ _ = _ |- _ => apply prog_catch_inv in H; rename H into Hget end.
      pose proof (LoadBalancers_Get_rules c (az_ResourceGroupName azure) (az_Name azure) (cloud p))
        as (_ & Hp & _). by rewrite Hget in Hp. }
    run_back. match goal with H : on_cloud _ p1 = (Ok ?x, ?w) |- _ =>
      rename x into azlb1, w into p2; apply on_cloud_inv in H;
      apply (createAzureLoadBalancer_stored _ _ azure) in H as (n & Hs & Hp2 & Hn); [|done] end.
    case_bool_decide as He; run_back.
    + match goal with H : pathLoadBalancerName _ _ _ = _ |- _ =>
        apply kept_run in H as [Hr3 Hp3]; [|apply pathLoadBalancerName_kept] end. simplify_eq.
      eexists azure, _. split; [split_and!; [done|reflexivity|by destruct azure|done]|].
      cbn [az_Name az_ResourceGroupName set_azure_name]. rewrite (proj1 (proj1 Hs)).
      split; [by eapply stored_mono; [|exact Hs]|congruence].
    + simplify_eq. exists azure, azure. split; [by apply spec_named_refl|]. rewrite <-(Hn He). split; [done|congruence].
Qed.

Lemma syncRules_stored c azlb q tcp udp g n e azlb' e' :
  stored e azlb g n → azlb_Properties azlb = Some q → complete azlb →
  (∀ k, is_Some (entries tcp !! k) ∨ is_Some (entries udp !! k) → canonical k) →
  syncRules range_map c azlb tcp udp g e = (Ok azlb', e') →
  ∃ rules, azlb' = with_properties azlb (with_rules q rules) ∧
    rules_at e' !! (g, n) = Some (rule_view <$> elems rules) ∧ pools_at e' = pools_at e ∧
    (∀ protocol k, protocol ∈ port_protocols →
       is_Some (map_of protocol (entries tcp) (entries udp) !! k) →
       Exists (serves protocol k) (elems rules)) ∧
    (∀ protocol k, protocol ∈ port_protocols → no_default protocol k →
       length (filter (for_port protocol k) (elems rules)) =
         if bool_decide (is_Some (map_of protocol (entries tcp) (entries udp) !! k)) then 1 else 0) ∧
    filter foreign (elems rules) = filter foreign (lb_rules azlb).
Proof.
  intros Hs Hq Hc Hcan. unfold syncRules. rewrite prog_bind_lift.
  assert (lb_rules azlb = elems (LoadBalancingRules q)) as Hrules by (unfold lb_rules; by rewrite Hq).
  pose proof (proj1 Hs) as (Hname & _ & Hprops). rewrite Hrules in Hprops.
  destruct (complete_parts azlb q Hq Hc) as [parts Hparts].
  rewrite (makeUpRules_eq range_map range_map_order azlb q parts) by done.
  case_bool_decide as Hset; intros H; run_back; simplify_eq/=.
  - exists (LoadBalancingRules q). rewrite <-Hrules in *. split_and!; [|apply Hs|done|..|done].
    + destruct azlb', q. simpl in *. by simplify_eq.
    + intros. by eapply settled_serves.
    + intros. by apply settled_count.
  - match goal with H : LoadBalancers_CreateOrUpdate _ _ _ _ _ = _ |- _ =>
      rewrite Hname in H; apply LoadBalancers_CreateOrUpdate_rules in H as (Hr & Hp & _) end.
    pose proof (made_up_settled range_map range_map_order parts (elems (LoadBalancingRules q)) _ _ Hcan)
      as Hnew.
    eexists (Some _). split_and!; [reflexivity|by rewrite Hr, lookup_insert_eq|done|..].
    + intros. by eapply settled_serves.
    + intros. by apply settled_count.
    + rewrite Hrules. by apply made_up_foreign.
Qed.

(** What the steps before the rules achieve. *)
Lemma prepare_sync_stored lb p c azlb lb' ip p' :
  prepare_sync lb p = (Ok (c, azlb, lb', ip), p') →
  ∃ azure azure', spec_named lb lb' azure azure' ∧
    stored (cloud p') azlb (az_ResourceGroupName azure') (az_Name azure') ∧ complete azlb ∧
    pools_at (cloud p') = pools_at (cloud p).
Proof.
  unfold prepare_sync. intros H. run_back. simplify_eq.
  repeat match goal with
  | H : patchLoadBalancerAzureStatus _ _ _ _ = _ |- _ =>
      apply kept_run in H as [_ Hp1]; [|apply patchLoadBalancerAzureStatus_kept]
  | H : on_cloud NewClient _ = _ |- _ => apply kept_run in H as [_ Hp2]; [|apply NewClient_kept]
  | H : on_cloud (getPublicIPAddress _ _) _ = _ |- _ =>
      apply kept_run in H as [Hr5 Hp5]; [|apply on_cloud_kept, getPublicIPAddress_cloud]
  | H : ensureAzureLoadbalancer _ _ _ = _ |- _ =>
      apply ensureAzureLoadbalancer_stored in H as (azure & azure' & Hspec & Hs & Hp3)
  end.
  match goal with H : on_cloud _ _ = _ |- _ => apply on_cloud_inv in H;
    eapply ensureSyncDefaultAzureLBConfig_stored in H as (Hs4 & Hp4 & Hc); [| |exact Hs] end.
  - exists azure, azure'. split_and!; [done| |done|congruence]. by eapply stored_mono; [|exact Hs4].
  - destruct Hspec as (_ & -> & _). done.
Qed.

(** The rules are those of the ports. *)
Definition rules_follow (rules : list LoadBalancingRule) (tcp udp : ports) : Prop :=
  (∀ protocol k, protocol ∈ port_protocols → is_Some (map_of protocol tcp udp !! k) →
     Exists (serves protocol k) rules) ∧
  (∀ protocol k, protocol ∈ port_protocols → no_default protocol k →
     length (filter (for_port protocol k) rules) =
       if bool_decide (is_Some (map_of protocol tcp udp !! k)) then 1 else 0).

(** The backend pool of the load balancer, and what Azure reports in it. *)
Definition pool_of azlb (pool : BackendAddressPool) (az : gset string) : Prop :=
  (∃ q pools, azlb_Properties azlb = Some q ∧ elems (BackendAddressPools q) = pool :: pools) ∧
  getAzureBackendPoolIP azlb = Ok az.

(** The interfaces in the pool are those of the nodes, provided Azure reports the
    pool as it is, every interface has one spelling and some configuration. *)
Definition pool_follows e e' (pool : BackendAddressPool) (az nets : gset string) : Prop :=
  let poolID := to_String (pool_ID pool) in
  reported poolID az e → one_spelling (az ∪ nets) → (∀ k l, pools_at e !! k = Some l → l ≠ []) →
  ∀ k, member poolID e' k ↔ named_by nets k.

Lemma pool_follows_ext e1 e2 e1' e2' pool az nets :
  pools_at e2 = pools_at e1 → pools_at e2' = pools_at e1' →
  pool_follows e1 e1' pool az nets → pool_follows e2 e2' pool az nets.
Proof. unfold pool_follows, reported, member. by intros -> ->. Qed.

Lemma ensureSyncRulesAndBackendPools_establishes c azlb lb azure tcp udp n e e' :
  stored e azlb (az_ResourceGroupName azure) n → complete azlb →
  Azure (Providers (Spec lb)) = Some azure →
  (∀ k, is_Some (entries tcp !! k) ∨ is_Some (entries udp !! k) → canonical k) →
  ensureSyncRulesAndBackendPools range_map range_prio range_ids c azlb lb tcp udp e = (Ok (), e') →
  ∃ rules pool az nets,
    rules_at e' !! (az_ResourceGroupName azure, n) = Some (rule_view <$> rules) ∧
    rules_follow rules (entries tcp) (entries udp) ∧ pool_of azlb pool az ∧
    (∃ e1 e2, getBackendPoolIPFromNodes c (elems (Names (Nodes (Spec lb)))) e1 = (Ok nets, e2)) ∧
    pool_follows e e' pool az nets.
Proof.
  intros Hs Hc Ha Hcan. unfold ensureSyncRulesAndBackendPools, syncBackendPools, getGroupName.
  rewrite Ha. intros H. run_back.
  destruct (proj1 (proj2 (proj1 Hs))) as [q Hq].
  match goal with H : syncRules _ _ _ _ _ _ _ = (Ok ?x, _) |- _ =>
    eapply syncRules_stored in H as (rules & Hazlb & Hr1 & Hp1 & Hserves & Hcount & _);
      [|exact Hs|exact Hq|exact Hc|exact Hcan]; subst x end.
  match goal with H : syncBackendPoolsWithNodes _ _ _ _ ?x = (Ok (_, ?z), ?y) |- _ =>
    rename H into Hpools; pose proof (syncBackendPools_rules c
      (with_properties azlb (with_rules q rules)) (elems (Names (Nodes (Spec lb)))) x) as Hr2;
    rewrite Hpools in Hr2; unfold same_rules_at in Hr2; simpl in Hr2; rename y into e2, x into e1, z into nets end.
  assert (rules_at e' = rules_at e2 ∧ pools_at e' = pools_at e2) as [Hr3 Hp3].
  { case_match; [|by run_back; simplify_eq].
    match goal with H : syncSecurityGroupRules _ _ _ ?a ?b ?c ?d ?f ?x = _ |- _ =>
      pose proof (syncSecurityGroupRules_cloud a b c d f x) as Hk; by rewrite H in Hk end. }
  pose proof Hpools as Hinv. apply syncBackendPools_inv in Hinv
    as (az & pool & pools & q' & e3 & Haz & Hnets & Hq' & Hpl & _).
  cbn [azlb_Properties with_properties] in Hq'. injection Hq' as <-.
  exists (elems rules), pool, az, nets. split_and!; [by rewrite Hr3, Hr2|done| |by do 2 eexists|].
  - split; [by exists q, pools|]. rewrite <-Haz. unfold getAzureBackendPoolIP, lb_properties. by rewrite Hq.
  - intros Hrep Hone Hconf.
    pose proof (backend_pool_is_nodes range_ids c range_ids_order
      (with_properties azlb (with_rules q rules)) (with_rules q rules) pool pools az
      _ _ _ _ _ eq_refl Hpl Haz Hpools) as Hm. cbv zeta in Hm.
    unfold reported, member in *. rewrite Hp1 in Hm. rewrite Hp3. by apply (Hm Hrep Hone Hconf).
Qed.

(** The cloud after a sync of [lb], with the name filled in as [lb'], which has
    [at_hand] at hand. *)
Definition established lb lb' (tcp udp : gomap string) (at_hand : option AzureLB) e e' : Prop :=
  ∃ azure azure' azlb rules pool az nets,
    spec_named lb lb' azure azure' ∧ at_hand = Some azlb ∧
    rules_at e' !! (az_ResourceGroupName azure', az_Name azure') = Some (rule_view <$> rules) ∧
    rules_follow rules (entries tcp) (entries udp) ∧ pool_of azlb pool az ∧
    (∃ c e1 e2, getBackendPoolIPFromNodes c (elems (Names (Nodes (Spec lb)))) e1 = (Ok nets, e2)) ∧
    pool_follows e e' pool az nets.

Lemma ensureSync_established lb tcp udp p at_hand lb' ip p' :
  ensureSync range_map range_prio range_ids lb tcp udp p = (Ok (at_hand, lb', ip, None), p') →
  (∀ k, is_Some (entries tcp !! k) ∨ is_Some (entries udp !! k) → canonical k) →
  established lb lb' tcp udp at_hand (cloud p) (cloud p').
Proof.
  unfold ensureSync. intros H Hcan. run_back.
  match goal with H : catch (prepare_sync _) _ = _ |- _ => apply prog_catch_inv in H; rename H into Hprep end.
  destruct a as [[[[c azlb1] lb1] ip1]|err]; [|by run_back]. run_back. simplify_eq.
  match goal with H : catch _ _ = (Ok ?r, _) |- _ => destruct r as [[]|err]; [|done];
    apply prog_catch_inv, on_cloud_inv in H; rename H into Hrules end.
  apply prepare_sync_stored in Hprep as (azure & azure' & Hspec & Hs & Hc & Hp1).
  eapply ensureSyncRulesAndBackendPools_establishes in Hrules
    as (rules & pool & az & nets & Hr & Hf & Hpool & (e1 & e2 & Hnets) & Hp2);
    [|exact Hs|exact Hc| |exact Hcan]; destruct Hspec as (Ha & -> & Hren); [|done].
  exists azure, azure', azlb1, rules, pool, az, nets. split_and!; try done.
  - by exists c, e1, e2.
  - by eapply pool_follows_ext; [symmetry; exact Hp1|reflexivity|].
Qed.

(** C13: A sync that reports no error has done its work.  The load balancer is in the
    cloud under the group and the name of the spec (with the name filled in when
    it had none): each port of the ConfigMaps has its rule there, and a port that
    is not a default one has exactly one or, when it is in neither, none.  The
    interfaces in its backend pool are those of the nodes. *)
Theorem ensureSync_establishes lb tcp udp p at_hand lb' ip p' :
  ensureSync range_map range_prio range_ids lb tcp udp p = (Ok (at_hand, lb', ip, None), p') →
  (∀ k, is_Some (entries tcp !! k) ∨ is_Some (entries udp !! k) → canonical k) →
  established lb lb' tcp udp at_hand (cloud p) (cloud p').
Proof. by apply ensureSync_established. Qed.
End sync.
