(* ===== verification/AzureHistory.v ===== *)
(** * What the Azure provider asks of others and cannot observe

    The deletion of a load balancer is asked for and not waited for, and a patch
    is sent to the API server, which nothing reads back.  Theorems about them
    are about a history of these calls. *)

From S2P Require Import Prelude GoStd LbApi AzureNet AzureIds AzureSecurity AzurePools AzureClient AzureCloud Azure.

(** A call and its answer. *)
Inductive azure_event :=
| DeleteSent (group name : string) (answer : result ())
| PatchSent (namespace name patch : string) (answer : result ()).

(** A history variable, which no program reads: the deletions and the patches so
    far.  Any cloud can be extended by it. *)
Class AzureHistory (E : Type) `{!AzureSDK E, !LBPatcher E} := {
  events : E → list azure_event;
  LoadBalancers_Delete_events c g n e :
    events (LoadBalancers_Delete c g n e).2 =
      events e ++ [DeleteSent g n (LoadBalancers_Delete c g n e).1];
  LoadBalancers_Patch_events ns n patch e :
    events (LoadBalancers_Patch ns n patch e).2 =
      events e ++ [PatchSent ns n patch (LoadBalancers_Patch ns n patch e).1];
  LoadBalancers_Get_events c g n e : events (LoadBalancers_Get c g n e).2 = events e;
  LoadBalancers_CreateOrUpdate_events c g n azlb e :
    events (LoadBalancers_CreateOrUpdate c g n azlb e).2 = events e;
  SecurityGroups_Get_events c g n e : events (SecurityGroups_Get c g n e).2 = events e;
  SecurityGroups_CreateOrUpdate_events c g n sg e :
    events (SecurityGroups_CreateOrUpdate c g n sg e).2 = events e;
  Interfaces_Get_events c g n e : events (Interfaces_Get c g n e).2 = events e;
  Interfaces_CreateOrUpdate_events c g n nic e :
    events (Interfaces_CreateOrUpdate c g n nic e).2 = events e;
  VirtualMachines_Get_events c g n e : events (VirtualMachines_Get c g n e).2 = events e;
  PublicIPAddresses_Get_events c g n e : events (PublicIPAddresses_Get c g n e).2 = events e;
}.

(** The answer says that the load balancer goes, or that there is none. *)
Definition granted (answer : result ()) : Prop :=
  answer = Ok () ∨ ∃ err, answer = Err err ∧ IsNotFound (Some err) = Ok true.

Section history.
Context {E : Type} `{!AzureSDK E, !StoreLister E, !LBPatcher E, !AzureHistory E}.
Context (range_ids : gset string → list string).
Implicit Types e : E.

Definition same_events e e' : Prop := events e' = events e.

(** The calls on the way from [e] to [e']. *)
Definition logged (evs : list azure_event) e e' : Prop := events e' = events e ++ evs.

(** Between [e] and [e'] the deletion of the load balancer was asked for and granted. *)
Definition deletion_granted (g n : string) e e' : Prop :=
  ∃ evs answer, logged evs e e' ∧ DeleteSent g n answer ∈ evs ∧ granted answer.

#[export] Instance same_events_preorder : PreOrder same_events.
Proof. split; [by intros ?|]. unfold same_events. intros ??? -> ->. done. Qed.

#[local] Hint Extern 1 (steps same_events _) =>
  intros ?; first [apply LoadBalancers_Get_events | apply SecurityGroups_Get_events |
                   apply SecurityGroups_CreateOrUpdate_events | apply Interfaces_Get_events] : steps.

Lemma cleanUpSecurityGroup_events c g n :
  steps same_events (cleanUpSecurityGroup range_ids c g n).
Proof.
  assert (∀ l, steps same_events (security_groups_of c l)) as Hl.
  { induction l as [|x l IH]; cbn [security_groups_of]; unfold getSecurityGroupIDFromNetWork; steps_auto. }
  unfold cleanUpSecurityGroup, getSuitableSecurityGroup, deleteUselessSecurityRules. steps_auto; apply Hl.
Qed.

Lemma NewClient_events : steps same_events NewClient.
Proof. unfold NewClient, getAPISecret, NewClientWithConfig. steps_auto. Qed.

Lemma LoadBalancer_Delete_granted c g n e e' :
  LoadBalancer_Delete c g n e = (Ok (), e') → deletion_granted g n e e'.
Proof.
  unfold LoadBalancer_Delete. intros H. run_back. unfold deletion_granted, logged.
  match goal with H : catch _ _ = (Ok ?r, _) |- _ => apply prog_catch_inv in H;
    pose proof (LoadBalancers_Delete_events c g n e) as Hev; rewrite H in Hev; destruct r as [[]|err] end;
    run_back; simpl in Hev.
  - exists [DeleteSent g n (Ok ())], (Ok ()). split_and!; [done|by left|by left].
  - match goal with H : (if ?b then _ else _) _ = _ |- _ => destruct b; [|done] end. run_back.
    exists [DeleteSent g n (Err err)], (Err err). split_and!; [done|by left|].
    right. by exists err.
Qed.

Lemma deletion_granted_mono g n e0 e1 e2 e3 evs :
  same_events e0 e1 → deletion_granted g n e1 e2 → logged evs e2 e3 → deletion_granted g n e0 e3.
Proof.
  unfold deletion_granted, logged, same_events. intros H0 (evs' & r & H1 & Hin & Hr) H2.
  exists (evs' ++ evs), r. split_and!; [|by apply elem_of_app; left|done].
  by rewrite H2, H1, H0, (assoc_L (++)).
Qed.

(** Every part of the provider that sends patches logs them. *)
Lemma patachFinalizersAndStatus_logged lb d (p : AzureState E) :
  ∃ evs, logged evs (cloud p) (cloud (patachFinalizersAndStatus lb d p).2).
Proof.
  unfold patachFinalizersAndStatus, logged. cbv zeta. case_match; [exists []; by rewrite app_nil_r|].
  rewrite prog_bind_get. unfold on_cloud.
  match goal with |- context [LoadBalancers_Patch ?a ?b ?c (cloud p)] =>
    pose proof (LoadBalancers_Patch_events a b c (cloud p)) as Hev;
    destruct (LoadBalancers_Patch a b c (cloud p)) end.
  by eexists.
Qed.

(** A status patch is the last call. *)
Lemma patchLoadBalancerAzureStatus_logged lb phase err (p : AzureState E) :
  ∃ answer, logged [PatchSent (target p lb).1 (target p lb).2 (status_patch lb phase err) answer]
              (cloud p) (cloud (patchLoadBalancerAzureStatus lb phase err p).2).
Proof.
  unfold patchLoadBalancerAzureStatus, logged. rewrite prog_bind_get. unfold on_cloud.
  match goal with |- context [LoadBalancers_Patch ?a ?b ?c (cloud p)] =>
    pose proof (LoadBalancers_Patch_events a b c (cloud p)) as Hev;
    destruct (LoadBalancers_Patch a b c (cloud p)) end.
  by eexists.
Qed.
End history.
