(* ===== verification/AzureSyncGroups.v ===== *)
(** * The Azure provider: a sync and the security groups

    A whole sync of AzureSync.v seen by the security groups of AzureGroups.v: only
    its last step, [syncSecurityGroupRules], touches them. *)

From S2P Require Import Prelude GoStd LbApi AzureNet AzureIds AzureRules AzureConfig.
From S2P Require Import Controller AzureSecurity AzureSecurityFacts AzureGroups AzurePools.
From S2P Require Import AzurePoolsFacts AzureClient AzureCloud Azure AzureFacts AzureSync.

(** What Azure and the API server document: no call but an update of a security
    group changes one. *)
Class AzureGroupFrame (E : Type) `{!AzureSDK E, !LBPatcher E, !AzureSGs E} := {
  LoadBalancers_Get_groups c g n e : groups_at (LoadBalancers_Get c g n e).2 = groups_at e;
  LoadBalancers_CreateOrUpdate_groups c g n azlb e :
    groups_at (LoadBalancers_CreateOrUpdate c g n azlb e).2 = groups_at e;
  Interfaces_CreateOrUpdate_groups c g n nic e :
    groups_at (Interfaces_CreateOrUpdate c g n nic e).2 = groups_at e;
  VirtualMachines_Get_groups c g n e : groups_at (VirtualMachines_Get c g n e).2 = groups_at e;
  PublicIPAddresses_Get_groups c g n e : groups_at (PublicIPAddresses_Get c g n e).2 = groups_at e;
  LoadBalancers_Patch_groups ns n patch e :
    groups_at (LoadBalancers_Patch ns n patch e).2 = groups_at e;
}.

Section secure.
Context {E : Type} `{!AzureSDK E, !StoreLister E, !LBPatcher E, !AzureNics E, !AzureSGs E}.
Context `{!AzureGroupFrame E}.
Context (range_map : ports → list (string * string)) (range_prio : gset Z → list Z).
Context (range_ids : gset string → list string).
Context (range_map_order : ∀ m, map_order (range_map m) m).
Context (range_prio_order : ∀ s, set_order (range_prio s) s).
Context (range_ids_order : ∀ s, set_order (range_ids s) s).
Implicit Types (e : E) (azlb : AzureLB) (p : AzureState E).

(** ** The steps before leave the groups alone *)
Definition same_groups e e' : Prop := groups_at e' = groups_at e.

#[local] Instance same_groups_preorder : PreOrder same_groups.
Proof. split; [by intros ?|]. unfold same_groups. intros ??? -> ->. done. Qed.

#[local] Hint Extern 1 (steps same_groups _) =>
  intros ?; first [apply LoadBalancers_Get_groups | apply LoadBalancers_CreateOrUpdate_groups |
                   apply Interfaces_CreateOrUpdate_groups | apply VirtualMachines_Get_groups |
                   apply PublicIPAddresses_Get_groups | apply LoadBalancers_Patch_groups |
                   apply Interfaces_Get_groups] : steps.

Definition groups_kept p p' : Prop := same_groups (cloud p) (cloud p').

#[local] Instance groups_kept_preorder : PreOrder groups_kept.
Proof. split; [by intros ?|]. intros ??? H1 H2. unfold groups_kept. by etransitivity. Qed.

Lemma on_cloud_groups {A} (m : prog E A) : steps same_groups m → steps groups_kept (on_cloud m).
Proof. intros Hm p. specialize (Hm (cloud p)). unfold on_cloud, groups_kept. by destruct (m (cloud p)). Qed.

Lemma write_old_groups p f : groups_kept p (write_old p f).
Proof. unfold write_old. repeat case_match; done. Qed.
Lemma ensure_old_groups p : groups_kept p (ensure_old p).
Proof. unfold ensure_old. case_match; done. Qed.
#[local] Hint Resolve on_cloud_groups write_old_groups ensure_old_groups : steps.

Lemma default_config_groups c azlb lb :
  steps same_groups (ensureSyncDefaultAzureLBConfig c azlb lb).
Proof. unfold ensureSyncDefaultAzureLBConfig, ensureSyncDefaultRules. steps_auto. Qed.
#[local] Hint Resolve default_config_groups : steps.

Lemma prepare_sync_groups lb : steps groups_kept (prepare_sync lb).
Proof.
  unfold prepare_sync, patchLoadBalancerAzureStatus, ensureAzureLoadbalancer, pathLoadBalancerName,
    setCacheAzureLoadbalancer. steps_auto; apply on_cloud_groups;
    unfold NewClient, getAPISecret, NewClientWithConfig, getAzureLoadbalancer, createAzureLoadBalancer,
      getPublicIPAddress; steps_auto.
Qed.

Lemma syncRules_groups c azlb tcp udp g : steps same_groups (syncRules range_map c azlb tcp udp g).
Proof. unfold syncRules. steps_auto. Qed.

Lemma syncBackendPools_groups c azlb nodes :
  steps same_groups (syncBackendPoolsWithNodes range_ids c azlb nodes).
Proof.
  unfold syncBackendPoolsWithNodes, diffBackendPoolNetworkInterfaecs.
  assert (steps same_groups (getBackendPoolIPFromNodes c nodes)) as Hn.
  { induction nodes as [|node nodes IH]; cbn [getBackendPoolIPFromNodes];
      unfold getAzureNetworkInterfacesByNodeName, getMachineInfoFromNode, getNetworkInterfacesFromVM;
      steps_auto. }
  unfold detachNetworkInterfacesAndLoadBalancer, attachNetworkInterfacesAndLoadBalancer. steps_auto.
Qed.

Lemma groups_run {A} (m : prog E A) e r e' :
  steps same_groups m → m e = (r, e') → groups_at e' = groups_at e.
Proof. intros Hm H. specialize (Hm e). by rewrite H in Hm. Qed.

Lemma groups_synced_ext e1 e2 e' gone synced tcp udp :
  groups_at e2 = groups_at e1 → groups_synced e1 e' gone synced tcp udp →
  groups_synced e2 e' gone synced tcp udp.
Proof. unfold groups_synced. by intros ->. Qed.

(** ** The last step *)

(** The interfaces of the nodes and those that leave the pool; the groups of
    these; and what becomes of the groups. *)
Definition secured c azlb nodes e e' (tcp udp : gomap string) : Prop :=
  ∃ az nets gone synced e0 e1 e2 e3,
    getAzureBackendPoolIP azlb = Ok az ∧
    getBackendPoolIPFromNodes c nodes e0 = (Ok nets, e1) ∧
    getSuitableSecurityGroup range_ids c (getDiffBetweenNetworkInterfaces range_ids az nets) nets e2 =
      (Ok (gone, synced), e3) ∧
    groups_synced e e' gone synced (<["443" := ""]> (<["80" := ""]> (entries tcp))) (entries udp).

Lemma makeUpRules_pool azlb tcp udp change azlb' :
  makeUpRules range_map azlb tcp udp = Ok (change, azlb') →
  getAzureBackendPoolIP azlb' = getAzureBackendPoolIP azlb.
Proof.
  unfold makeUpRules. intros (q & Hq & H)%result_bind_inv.
  apply result_bind_inv in H as ([[remaining diff] [t u]] & _ & H).
  apply result_bind_inv in H as (tcpRules & _ & H). apply result_bind_inv in H as (udpRules & _ & H).
  injection H as _ <-. case_match; [|done]. unfold getAzureBackendPoolIP, lb_properties in *.
  apply deref_inv in Hq. by rewrite Hq.
Qed.

Lemma syncRules_pool c azlb tcp udp g e azlb' e' :
  syncRules range_map c azlb tcp udp g e = (Ok azlb', e') →
  getAzureBackendPoolIP azlb' = getAzureBackendPoolIP azlb.
Proof.
  unfold syncRules. intros H. run_back.
  match goal with H : makeUpRules _ _ _ _ = _ |- _ => apply makeUpRules_pool in H; rename H into Hpool end.
  case_match; run_back; by simplify_eq.
Qed.

Lemma ensureSyncRulesAndBackendPools_secures c azlb lb tcp udp e e' :
  ensureSyncRulesAndBackendPools range_map range_prio range_ids c azlb lb tcp udp e = (Ok (), e') →
  if usePublicAddress lb then secured c azlb (elems (Names (Nodes (Spec lb)))) e e' tcp udp
  else groups_at e' = groups_at e.
Proof.
  unfold ensureSyncRulesAndBackendPools, syncBackendPools. intros H. run_back.
  match goal with H : syncRules _ _ _ _ _ _ _ = _ |- _ =>
    pose proof (groups_run _ _ _ _ (syncRules_groups _ _ _ _ _) H) as Hg1;
    apply syncRules_pool in H; rename H into Hpool end.
  match goal with H : syncBackendPoolsWithNodes _ _ _ _ _ = _ |- _ =>
    pose proof (groups_run _ _ _ _ (syncBackendPools_groups _ _ _) H) as Hg2;
    apply syncBackendPools_inv in H as (az & pool & pools & q & e1 & Haz & Hnets & _ & _ & -> & _) end.
  destruct (usePublicAddress lb); [|run_back; congruence].
  apply security_groups_synced in H as (gone & synced & e3 & Hs & Hsync); [|done..].
  exists az, g, gone, synced. do 4 eexists. split_and!; [by rewrite <-Hpool|exact Hnets|exact Hs|].
  eapply groups_synced_ext; [|exact Hsync]. congruence.
Qed.

Lemma usePublicAddress_named lb lb' azure azure' :
  spec_named lb lb' azure azure' → usePublicAddress lb' = usePublicAddress lb.
Proof. intros (Ha & -> & -> & _). unfold usePublicAddress. by rewrite Ha. Qed.

(** The security groups after a sync of [lb]. *)
Definition groups_secured lb at_hand e e' (tcp udp : gomap string) : Prop :=
  if usePublicAddress lb then
    ∃ c azlb, at_hand = Some azlb ∧ secured c azlb (elems (Names (Nodes (Spec lb)))) e e' tcp udp
  else groups_at e' = groups_at e.

Lemma ensureSync_secured lb tcp udp p at_hand lb' ip p' :
  ensureSync range_map range_prio range_ids lb tcp udp p = (Ok (at_hand, lb', ip, None), p') →
  groups_secured lb at_hand (cloud p) (cloud p') tcp udp.
Proof.
  unfold ensureSync, groups_secured. intros H. run_back.
  match goal with H : catch (prepare_sync _) _ = _ |- _ => apply prog_catch_inv in H; rename H into Hprep end.
  destruct a as [[[[c azlb1] lb1] ip1]|err]; [|by run_back]. run_back. simplify_eq.
  match goal with H : catch _ _ = (Ok ?r, _) |- _ => destruct r as [[]|err]; [|done];
    apply prog_catch_inv, on_cloud_inv in H; rename H into Hrules end.
  match goal with Hprep : prepare_sync lb p = (_, ?p1) |- _ =>
    pose proof (prepare_sync_groups lb p) as Hg; rewrite Hprep in Hg; unfold groups_kept, same_groups in Hg;
    simpl in Hg; apply prepare_sync_spec in Hprep as (azure & azure' & Hspec) end.
  apply ensureSyncRulesAndBackendPools_secures in Hrules.
  rewrite (usePublicAddress_named _ _ _ _ Hspec) in Hrules.
  destruct (usePublicAddress lb); [|congruence]. exists c, azlb1. split; [done|].
  destruct Hspec as (_ & -> & _).
  destruct Hrules as (az & nets & gone & synced & e0 & e1 & e2 & e3 & ? & ? & ? & Hsync).
  exists az, nets, gone, synced, e0, e1, e2, e3. split_and!; [done..|].
  by eapply groups_synced_ext; [|exact Hsync].
Qed.

Lemma groups_secured_ext lb at_hand e e1 e2 tcp udp :
  groups_at e2 = groups_at e1 → groups_secured lb at_hand e e1 tcp udp →
  groups_secured lb at_hand e e2 tcp udp.
Proof.
  unfold groups_secured, secured, groups_synced. intros ->. done.
Qed.

Lemma patchLoadBalancerAzureStatus_groups lb phase err :
  steps groups_kept (patchLoadBalancerAzureStatus lb phase err).
Proof. unfold patchLoadBalancerAzureStatus. steps_auto. Qed.

(** C16: A sync that reports no error and the security groups.  Without a public
    address no group is touched.  With one, the groups of the interfaces that
    leave the pool lose the rules of the provider, unless they are those of a
    node; when the nodes share one group, every port of the ConfigMaps and the
    ports 80 and 443 have exactly one rule there; the rules of others and all
    other groups stay. *)
Theorem ensureSync_secures lb tcp udp p at_hand lb' ip p' :
  ensureSync range_map range_prio range_ids lb tcp udp p = (Ok (at_hand, lb', ip, None), p') →
  groups_secured lb at_hand (cloud p) (cloud p') tcp udp.
Proof. apply ensureSync_secured. Qed.
End secure.
