(* ===== verification/AzureCleanup.v ===== *)
(** * The Azure provider: what a clean-up achieves

    A load balancer that is reserved is emptied, the deletion of another one is
    asked for; the provider forgets it when that had no error. *)

From S2P Require Import Prelude GoStd LbApi AzureNet AzureIds AzureRules AzurePools.
From S2P Require Import AzurePoolsFacts AzureClient AzureCloud Azure AzureSync AzureHistory.

Section cleanup.
Context {E : Type} `{!AzureSDK E, !StoreLister E, !LBPatcher E, !AzureNics E, !AzureLBs E}.
Context `{!AzureHistory E}.
Context (range_ids : gset string → list string) (ticks : nat).
Implicit Types (p : AzureState E) (e : E).

(** ** A reserved load balancer *)

(** The pool that is emptied and the configurations Azure reports in it. *)
Definition first_pool (q : LBProperties) : string * list string :=
  match elems (BackendAddressPools q) with
  | [] => ("", [])
  | pool :: _ =>
      (to_String (pool_ID pool),
       match pool_Properties pool with
       | Some bp => (λ config, to_String (ref_ID config)) <$> elems (bp_BackendIPConfigurations bp)
       | None => []
       end)
  end.

#[local] Instance names_decision ids k : Decision (names ids k).
Proof. unfold names. apply _. Defined.

Lemma recover_inv c g n e e' :
  recoverDefaultAzureLoadBalancer c g n e = (Ok (), e') →
  (rules_at e' !! (g, n) = None ∧ pools_at e' = pools_at e) ∨
  ∃ azlb q, (LoadBalancers_Get c g n e).1 = Ok azlb ∧ azlb_Properties azlb = Some q ∧
    rules_at e' !! (g, n) = Some [] ∧
    ∀ k, pools_at e' !! k =
      (λ l, if decide (names (first_pool q).2 k) then leave (first_pool q).1 <$> l else l) <$>
      pools_at e !! k.
Proof.
  unfold recoverDefaultAzureLoadBalancer. intros H. run_back.
  match goal with H : catch _ _ = (Ok ?r, ?w) |- _ =>
    apply prog_catch_inv in H; rename H into Hget, r into found, w into e1 end.
  destruct (LoadBalancers_Get_rules c g n e) as (Hr1 & Hp1 & _).
  pose proof (LoadBalancers_Get_missing c g n e) as Hmiss.
  rewrite Hget in *. simpl in *. destruct found as [azlb|err].
  - right. unfold lb_properties in *. run_back. exists azlb.
    match goal with H : azlb_Properties azlb = Some ?x |- _ => rename x into q; exists q end.
    match goal with H : LoadBalancers_CreateOrUpdate _ _ _ _ _ = _ |- _ =>
      apply LoadBalancers_CreateOrUpdate_rules in H as (Hr3 & Hp3 & _) end.
    split_and!; [done|done| |].
    + rewrite Hr3, lookup_insert_eq. unfold lb_rules. cbn. by destruct (LoadBalancingRules q) as [[]|].
    + rewrite Hp3, <-Hp1.
      match goal with H : (match elems _ with _ => _ end) _ = (Ok (), ?w) |- _ =>
        rename H into Hdetach, w into e2 end.
      unfold first_pool. destruct (elems (BackendAddressPools q)) as [|pool pools]; run_back.
      * intros k. by destruct (pools_at e1 !! k).
      * match goal with H : pool_Properties _ = Some _ |- _ => rewrite H end.
        rewrite <-(for_each_fmap (λ config, to_String (ref_ID config)) _ (λ id,
          detachNetworkInterfacesAndLoadBalancer c id (to_String (pool_ID pool)))) in Hdetach.
        apply (updates_all (leave (to_String (pool_ID pool)))) in Hdetach as [_ Hall];
          [|apply leave_idem|intros; by apply (detach_updates c)].
        intros k. rewrite Hall. by destruct (pools_at e1 !! k).
  - left. run_back. destruct a; [|done]. run_back. rewrite Hr1. by rewrite (Hmiss err).
Qed.

(** C26: Recovering a reserved load balancer empties it.  Afterwards it is gone, or
    it has no rules left and no interface is in its backend pool, provided Azure
    had reported those that were. *)
Theorem recover_empties c g n e e' :
  recoverDefaultAzureLoadBalancer c g n e = (Ok (), e') →
  rules_at e' !! (g, n) = None ∨
  ∃ azlb q, (LoadBalancers_Get c g n e).1 = Ok azlb ∧ azlb_Properties azlb = Some q ∧
    rules_at e' !! (g, n) = Some [] ∧
    let '(poolID, configs) := first_pool q in
    (∀ k, member poolID e k → names configs k) → ∀ k, ¬ member poolID e' k.
Proof.
  intros [[? _]|(azlb & q & Hget & Hq & Hr & Hp)]%recover_inv; [by left|right].
  exists azlb, q. split_and!; [done..|]. destruct (first_pool q) as [poolID configs]. simpl in Hp.
  intros Hrep k (l & Hl & Hin). rewrite Hp in Hl. apply fmap_Some in Hl as (l0 & Hl0 & ->).
  case_decide as Hn.
  - rewrite Exists_fmap, Exists_exists in Hin. destruct Hin as (ids & _ & Hids).
    by apply leave_not_in in Hids.
  - apply Hn, Hrep. by exists l0.
Qed.

(** ** The whole clean-up *)

(** What the provider remembers of the load balancer. *)
Definition same_memory p p' : Prop :=
  cleanAzure p' = cleanAzure p ∧ oldAzureProvider p' = oldAzureProvider p ∧
  cached_lb p' = cached_lb p.

#[local] Instance same_memory_preorder : PreOrder same_memory.
Proof. split; [by intros ?|]. unfold same_memory. intros ??? (-> & -> & ->) (-> & -> & ->). done. Qed.

Lemma same_memory_old p p' : same_memory p p' → old_azure p' = old_azure p.
Proof. intros (_ & Ho & Hc). unfold old_azure. by rewrite Ho, Hc. Qed.

Lemma on_cloud_memory {A} (m : prog E A) : steps same_memory (on_cloud m).
Proof. intros p. unfold on_cloud. by destruct (m (cloud p)). Qed.
#[local] Hint Resolve on_cloud_memory : steps.

Lemma patachFinalizersAndStatus_memory lb d :
  steps same_memory (patachFinalizersAndStatus (E := E) lb d).
Proof. unfold patachFinalizersAndStatus. cbv zeta. steps_auto. Qed.

Lemma patchLoadBalancerAzureStatus_memory lb phase err :
  steps same_memory (patchLoadBalancerAzureStatus (E := E) lb phase err).
Proof. unfold patchLoadBalancerAzureStatus. steps_auto. Qed.

Lemma poll_recover_memory n c : steps same_memory (poll_recover (E := E) n c).
Proof. induction n as [|n IH]; cbn [poll_recover]; steps_auto. Qed.
#[local] Hint Resolve patachFinalizersAndStatus_memory patchLoadBalancerAzureStatus_memory
  poll_recover_memory : steps.

(** The rules of the load balancers are those of before. *)
Definition rules_kept p p' : Prop := rules_at (cloud p') = rules_at (cloud p).

Lemma patachFinalizersAndStatus_rules lb d p :
  rules_kept p (patachFinalizersAndStatus lb d p).2.
Proof.
  unfold patachFinalizersAndStatus, rules_kept. cbv zeta. case_match; [done|].
  rewrite prog_bind_get. unfold on_cloud.
  match goal with |- context [LoadBalancers_Patch ?a ?b ?c (cloud p)] =>
    destruct (LoadBalancers_Patch_frame a b c (cloud p)) as [Hr _];
    by destruct (LoadBalancers_Patch a b c (cloud p)) end.
Qed.

Lemma finish_cleanup_inv lb d p p' :
  finish_cleanup lb d p = (Ok (), p') →
  cleanAzure p' = true ∧ oldAzureProvider p' = oldAzureProvider p ∧ cached_lb p' = cached_lb p ∧
  rules_at (cloud p') = rules_at (cloud p) ∧ ∃ evs, logged evs (cloud p) (cloud p').
Proof.
  unfold finish_cleanup, cleaned, modify. intros H. run_back.
  pose proof (patachFinalizersAndStatus_memory lb d p) as Hm.
  pose proof (patachFinalizersAndStatus_rules lb d p) as Hr.
  pose proof (patachFinalizersAndStatus_logged lb d p) as He.
  match goal with H : patachFinalizersAndStatus _ _ _ = _ |- _ => rewrite H in Hm, Hr, He end.
  injection H as <-. destruct Hm as (_ & ? & ?). by split_and!.
Qed.

(** Polling succeeds with the load balancer empty or gone. *)
Lemma poll_recover_inv n c p p' old :
  old_azure p = Some old → poll_recover n c p = (Ok (), p') →
  default [] (rules_at (cloud p') !! (az_ResourceGroupName old, az_Name old)) = [].
Proof.
  revert p. induction n as [|n IH]; intros p Hold H; cbn [poll_recover] in H; run_back;
    match goal with H : old_azure p = Some ?a |- _ => rewrite Hold in H; injection H as <- end;
    match goal with H : catch _ _ = (Ok ?r, ?w) |- _ =>
      pose proof (on_cloud_memory (recoverDefaultAzureLoadBalancer c (az_ResourceGroupName old)
        (az_Name old)) p) as Hm; apply prog_catch_inv in H; rewrite H in Hm;
      rename H into Hrec, r into outcome, w into p1 end;
    destruct outcome as [[]|err]; run_back.
  3: { apply (IH p1); [|done]. by rewrite (same_memory_old p p1). }
  all: apply on_cloud_inv, recover_inv in Hrec as [[-> _]|(azlb & q & _ & _ & -> & _)]; done.
Qed.

(** What the clean-up does to the load balancer [old]: one that is reserved has no
    rules left, or is gone; the deletion of another one was asked for and Azure
    granted it. *)
Definition cleaned_up (old : AzureProvider) lb (e e' : E) : Prop :=
  if reserves old lb
  then default [] (rules_at e' !! (az_ResourceGroupName old, az_Name old)) = []
  else deletion_granted (az_ResourceGroupName old) (az_Name old) e e'.

Lemma cleanup_cloud_inv c old lb d p p' :
  old_azure p = Some old → cleanup_cloud range_ids ticks c old lb d p = (Ok (), p') →
  cleanAzure p' = true ∧ cached_lb p' = cached_lb p ∧ cleaned_up old lb (cloud p) (cloud p').
Proof.
  unfold cleanup_cloud, cleaned_up. intros Hold H. run_back.
  match goal with H : on_cloud ?m p = (Ok _, ?w) |- _ =>
    pose proof (on_cloud_memory m p) as Hm1; rewrite H in Hm1; rename w into p1;
    apply on_cloud_inv in H; rename H into Hsg end. simpl in Hm1.
  pose proof (cleanUpSecurityGroup_events range_ids c (az_ResourceGroupName old) (az_Name old) (cloud p))
    as He1. rewrite Hsg in He1. simpl in He1.
  pose proof (same_memory_old _ _ Hm1) as Hold1. rewrite Hold in Hold1.
  destruct Hm1 as (_ & _ & Hc1). destruct (reserves old lb); run_back.
  - match goal with H : catch _ _ = (Ok ?r, ?w) |- _ =>
      pose proof (poll_recover_memory ticks c p1) as Hm2; apply prog_catch_inv in H;
      rewrite H in Hm2; rename H into Hpoll, w into p2; destruct r as [[]|err] end; run_back.
    apply (poll_recover_inv _ _ _ _ old) in Hpoll; [|done].
    apply finish_cleanup_inv in H as (? & _ & Hc & -> & _). destruct Hm2 as (_ & _ & Hc2).
    simpl in Hc2. split_and!; [done|congruence|done].
  - match goal with H : on_cloud ?m p1 = (Ok _, ?w) |- _ =>
      pose proof (on_cloud_memory m p1) as Hm2; rewrite H in Hm2; rename w into p2, H into Hdel end.
    apply finish_cleanup_inv in H as (? & _ & Hc & _ & evs & Hev). destruct Hm2 as (_ & _ & Hc2).
    simpl in Hc2. split_and!; [done|congruence|]. apply on_cloud_inv, LoadBalancer_Delete_granted in Hdel.
    by eapply deletion_granted_mono.
Qed.

(** *** A clean-up that fails *)

(** An error leaves the memory alone. *)
Definition fails_safe {A} (m : prog (AzureState E) A) : Prop :=
  ∀ p, match m p with (Err _, p') => same_memory p p' | _ => True end.

Lemma steps_fails_safe {A} (m : prog (AzureState E) A) : steps same_memory m → fails_safe m.
Proof. intros Hm p. specialize (Hm p). by destruct (m p) as [[]]. Qed.

Lemma fails_safe_bind {A B} (m : prog (AzureState E) A) (f : A → prog (AzureState E) B) :
  steps same_memory m → (∀ a, fails_safe (f a)) → fails_safe (m ≫= f).
Proof.
  intros Hm Hf p. specialize (Hm p). unfold mbind, prog_bind.
  destruct (m p) as [[a| |] p1]; simpl in Hm; [|done..]. specialize (Hf a p1).
  destruct (f a p1) as [[]]; [done| |done]. by etransitivity.
Qed.

Lemma fails_safe_last {A B} (m : prog (AzureState E) A) (f : A → prog (AzureState E) B) :
  fails_safe m → (∀ a, no_error (f a)) → fails_safe (m ≫= f).
Proof.
  intros Hm Hf p. specialize (Hm p). unfold mbind, prog_bind.
  destruct (m p) as [[a| |] p1]; [|done..]. specialize (Hf a p1).
  by destruct (f a p1) as [[]].
Qed.

Lemma finish_cleanup_fails lb d : fails_safe (finish_cleanup (E := E) lb d).
Proof. apply fails_safe_last; [|by intros []]. apply steps_fails_safe. auto with steps. Qed.

Lemma cleanup_cloud_fails c old lb d : fails_safe (cleanup_cloud range_ids ticks c old lb d).
Proof.
  unfold cleanup_cloud. apply fails_safe_bind; [auto with steps|intros _].
  case_match; (apply fails_safe_bind; [steps_auto|]); [intros [[]|err]|intros []];
    try apply finish_cleanup_fails. apply steps_fails_safe. steps_auto.
Qed.

(** A clean-up that succeeds. *)
Definition cleanup_done lb p p' : Prop :=
  if cleanAzure p then p' = p
  else cleanAzure p' = true ∧ cached_lb p' = cached_lb p ∧
    match old_azure p with
    | Some old =>
        if decide (az_Name old = "") then rules_at (cloud p') = rules_at (cloud p)
        else oldAzureProvider p' = NilOld ∧ cleaned_up old lb (cloud p) (cloud p')
    | None => rules_at (cloud p') = rules_at (cloud p)
    end.

Lemma cleanup_Ok lb d p p' :
  cleanupAzureLB range_ids ticks lb d p = (Ok (), p') → cleanup_done lb p p'.
Proof.
  unfold cleanupAzureLB, cleanup_done. rewrite prog_bind_get. intros H.
  destruct (cleanAzure p); [by injection H as <-|].
  destruct (old_azure p) as [old|] eqn:Hold; [|by apply finish_cleanup_inv in H as (? & _ & ? & ? & _)].
  case_bool_decide as Hname; [rewrite decide_True by done|rewrite decide_False by done].
  { by apply finish_cleanup_inv in H as (? & _ & ? & ? & _). }
  run_back. match goal with H : on_cloud NewClient p = (_, ?w) |- _ =>
    pose proof (on_cloud_memory NewClient p) as Hm; rewrite H in Hm; rename w into p1;
    apply on_cloud_inv in H; pose proof (NewClient_events (cloud p)) as He; rewrite H in He end.
  match goal with H : cleanup_cloud _ _ _ _ _ _ _ = _ |- _ =>
    apply cleanup_cloud_inv in H as (Hc & Hl & Hr); [|by rewrite (same_memory_old p p1)] end.
  injection H as <-. destruct Hm as (_ & _ & Hl1). simpl in Hl1.
  split_and!; [done|simpl; congruence|done|]. unfold cleaned_up in *. simpl in *.
  destruct (reserves old lb); [done|]. eapply deletion_granted_mono; [exact He|exact Hr|].
  unfold logged. by rewrite app_nil_r.
Qed.

(** C25: What a clean-up does that had something to clean.  When it has no error, a
    reserved load balancer has no rules left or is gone; of another one, Azure
    was asked for the deletion and accepted it or answered that there is none;
    and the provider has forgotten it and counts as cleaned.  Whether an accepted
    deletion succeeds is not waited for.  When the clean-up fails, the
    provider still remembers the load balancer as not cleaned up. *)
Theorem cleanup_outcome lb d p old r p' :
  cleanAzure p = false → old_azure p = Some old → az_Name old ≠ "" →
  cleanupAzureLB range_ids ticks lb d p = (r, p') →
  match r with
  | Ok _ =>
      cleanAzure p' = true ∧ oldAzureProvider p' = NilOld ∧ cached_lb p' = cached_lb p ∧
      if reserves old lb
      then default [] (rules_at (cloud p') !! (az_ResourceGroupName old, az_Name old)) = []
      else deletion_granted (az_ResourceGroupName old) (az_Name old) (cloud p) (cloud p')
  | Err _ => cleanAzure p' = false ∧ old_azure p' = Some old ∧ cached_lb p' = cached_lb p
  | Panic _ => True
  end.
Proof.
  intros Hclean Hold Hname H. destruct r as [[]|err|why]; [| |done].
  - apply cleanup_Ok in H. unfold cleanup_done in H. rewrite Hclean, Hold, decide_False in H by done.
    by destruct H as (? & ? & ? & ?).
  - unfold cleanupAzureLB in H. rewrite prog_bind_get, Hclean, Hold, bool_decide_false in H by done.
    assert (same_memory p p') as Hm; [|pose proof (same_memory_old _ _ Hm) as Ho; destruct Hm as (? & ? & ?);
      split_and!; congruence].
    match type of H with ?m p = _ => assert (fails_safe m) as Hm; [|specialize (Hm p); by rewrite H in Hm] end.
    apply fails_safe_bind; [auto with steps|intros c]. apply fails_safe_last; [|by intros []].
    apply cleanup_cloud_fails.
Qed.
End cleanup.
