(* ===== verification/AzureUpdate.v ===== *)
(** * The Azure provider: what an update achieves

    [OnUpdate] as a whole: a successful update cleans up, finds nothing to do, or
    has synced the load balancer in the cloud with the one of the cluster. *)

From S2P Require Import Prelude GoStd LbApi Controller AzureNet AzureIds AzureRules AzureConfig.
From S2P Require Import AzureSecurity AzurePools AzurePoolsFacts AzureClient AzureCloud Azure.
From S2P Require Import AzureGroups AzureFacts AzureSync AzureHistory AzureSyncGroups AzureCleanup.

Section update.
Context {E : Type} `{!AzureSDK E, !StoreLister E, !LBPatcher E, !AzureNics E, !AzureLBs E}.
Context `{!AzureSGs E, !AzureGroupFrame E, !AzureHistory E}.
Context (range_map : ports → list (string * string)) (range_prio : gset Z → list Z).
Context (range_ids : gset string → list string) (ticks : nat).
Context (range_map_order : ∀ m, map_order (range_map m) m).
Context (range_prio_order : ∀ s, set_order (range_prio s) s).
Context (range_ids_order : ∀ s, set_order (range_ids s) s).
Implicit Types (p : AzureState E) (s : store).

(** The ports of a load balancer in the ConfigMaps of the cluster. *)
Definition configmaps lb (e : E) : result (gomap string * gomap string) :=
  tcp ← lister_ConfigMap (lb_Namespace lb) (TCPConfigMap (lb_ProxyStatus (Status lb))) e;
  udp ← lister_ConfigMap (lb_Namespace lb) (UDPConfigMap (lb_ProxyStatus (Status lb))) e;
  Ok (cm_Data tcp, cm_Data udp).

(** The ports are those of the last sync. *)
Definition same_ports (tcp udp : gomap string) p : bool :=
  DeepEqual (tcpRuleMap p) tcp && DeepEqual (udpRuleMap p) udp.

Lemma getProxyConfigMapAndCompare_ports lb p tcp udp ch p' :
  getProxyConfigMapAndCompare lb p = (Ok (tcp, udp, ch), p') →
  configmaps lb (cloud p) = Ok (tcp, udp) ∧ ch = negb (same_ports tcp udp p) ∧ p' = p.
Proof.
  unfold getProxyConfigMapAndCompare, configmaps, mbind, prog_bind, result_bind, get, mret, prog_ret.
  rewrite !get_configmap_eq.
  destruct (lister_ConfigMap _ (TCPConfigMap _) _) as [t| |]; [|done..].
  destruct (lister_ConfigMap _ (UDPConfigMap _) _) as [u| |]; [|done..].
  intros [= <- <- <- <-]. unfold same_ports. by rewrite negb_andb.
Qed.

Lemma on_azure_result {A} (m : prog (AzureState E) A) s p r sp' :
  on_azure m (s, p) = (r, sp') → m p = (r, sp'.2) ∧ sp'.1 = s.
Proof. unfold on_azure. destruct (m p) as [r' p']. by intros [= <- <-]. Qed.

(** ** The status *)

(** The status of a load balancer that was synced: the state of provisioning is
    that of the load balancer [azlb] in the cloud, and the address [ip]. *)
Definition with_status azlb (ip : string) lb : LoadBalancer :=
  let st := status_or_zero lb in
  let state := match azlb_Properties azlb with
               | Some q => to_String (azlb_ProvisioningState q)
               | None => ""
               end in
  set_AzureStatus lb (Some {| Phase := Phase st; Reason := Reason st; azs_Message := azs_Message st;
                              ProvisioningState := state; PublicIPAddress := Some ip |}).

(** It is written into the object, and the last call there was is the patch with
    this status and the phase [Running], whatever the API server answered. *)
Definition status_published (l : nat) lb azlb ip s s' (e' : E) : Prop :=
  s' = <[l := with_status azlb ip lb]> s ∧
  ∃ answer, last (events e') =
    Some (PatchSent (lb_Namespace lb) (lb_Name lb)
            (status_patch (Some (with_status azlb ip lb)) AzureRunningPhase None) answer).

(** The address of a load balancer: none unless it is public, else the one Azure
    has reported, by the call that ended in [e']. *)
Definition address_reported lb (ip : string) (e' : E) : Prop :=
  match Azure (Providers (Spec lb)) ≫= (λ azure, Public (az_IPAddressProperties azure)) with
  | None => ip = ""
  | Some public =>
      ∃ c g n address q e,
        getGroupAndResourceNameFromID (to_String (pub_PublicIPAddressID public))
          azurePublicIPAddresses = Ok (g, n) ∧
        PublicIPAddresses_Get c g n e = (Ok address, e') ∧
        pip_Properties address = Some q ∧ ip = to_String (pip_IPAddress q)
  end.

Lemma getPublicIPAddress_reported c lb e ip e' :
  getPublicIPAddress c lb e = (Ok ip, e') → address_reported lb ip e'.
Proof.
  unfold getPublicIPAddress, address_reported. destruct (Azure _) as [azure|]; [|by intros [= <- _]].
  cbn [mbind option_bind]. destruct (Public _) as [public|]; [|by intros [= <- _]].
  intros H. run_back. by do 6 eexists.
Qed.

Lemma with_status_eq azlb ip lb q :
  azlb_Properties azlb = Some q →
  setProvisioningPublicIPAddress (setProvisioningState lb (to_String (azlb_ProvisioningState q))) ip =
    with_status azlb ip lb.
Proof. intros Hq. unfold with_status. rewrite Hq. by destruct lb. Qed.

Lemma updateLoadBalancerAzureStatus_inv azlb l ip s p s' p' lb :
  s !! l = Some lb →
  updateLoadBalancerAzureStatus (Some azlb) l ip None (s, p) = (Ok (), (s', p')) →
  status_published l lb azlb ip s s' (cloud p') ∧ same_cloud (cloud p) (cloud p') ∧
  groups_at (cloud p') = groups_at (cloud p).
Proof.
  unfold updateLoadBalancerAzureStatus. intros Hl H. rewrite prog_bind_lift in H.
  unfold lb_properties in H. destruct (azlb_Properties azlb) as [q|] eqn:Hq; [|done].
  cbn [deref mbind result_bind mret result_ret] in H. cbv zeta in H. unfold ignore in H. run_back.
  match goal with H : modify _ _ = _ |- _ => injection H as <- end.
  match goal with H : get _ = _ |- _ => injection H as <- <- end.
  match goal with H : catch _ _ = (Ok _, _) |- _ => apply prog_catch_inv, on_azure_result in H;
    destruct H as [Hp Hs] end.
  apply prog_ret_inv in H as [_ Hw]. subst w1. simpl in Hp, Hs. subst s'.
  rewrite lookup_alter_eq, Hl in Hp. simpl in Hp. rewrite (with_status_eq azlb ip lb q Hq) in Hp.
  match type of Hp with patchLoadBalancerAzureStatus ?a ?b ?c _ = _ =>
    pose proof (patchLoadBalancerAzureStatus_groups a b c p) as Hg;
    destruct (patchLoadBalancerAzureStatus_logged a b c p) as [answer He] end.
  rewrite Hp in Hg, He. simpl in Hg, He.
  split; [|split; [by apply (kept_run _ _ _ _ (patchLoadBalancerAzureStatus_kept _ _ _)) in Hp|done]].
  split; [|by exists answer; rewrite He, last_snoc].
  rewrite <-(with_status_eq azlb ip lb q Hq). apply map_eq. intros k.
  destruct (decide (k = l)) as [->|Hne]; [by rewrite lookup_alter_eq, lookup_insert_eq, Hl|].
  by rewrite lookup_alter_ne, lookup_insert_ne.
Qed.

Lemma ensureSync_prepared lb tcp udp p at_hand lb' ip p' :
  ensureSync range_map range_prio range_ids lb tcp udp p = (Ok (at_hand, lb', ip, None), p') →
  ∃ c azlb p1, at_hand = Some azlb ∧ prepare_sync lb p = (Ok (c, azlb, lb', ip), p1) ∧
    address_reported lb' ip (cloud p1).
Proof.
  unfold ensureSync. intros H. run_back.
  match goal with H : catch (prepare_sync _) _ = _ |- _ => apply prog_catch_inv in H; rename H into Hprep end.
  destruct a as [[[[c azlb1] lb1] ip1]|err]; [|by run_back]. run_back. simplify_eq.
  do 3 eexists. split_and!; [done|exact Hprep|].
  unfold prepare_sync in Hprep. run_back. simplify_eq.
  match goal with H : on_cloud (getPublicIPAddress _ _) _ = _ |- _ => apply on_cloud_inv in H;
    by apply getPublicIPAddress_reported in H end.
Qed.

(** ** A successful update *)

(** The load balancer is synced: with the load balancer [azlb] and the address [ip]
    that [prepare_sync] found or made, the status is published, the cloud and its
    security groups are as the sync makes them, and the provider remembers the
    load balancer and the ports. *)
Definition synced_with l lb tcp udp s p s' p' : Prop :=
  ∃ c azlb lb' ip p1, prepare_sync lb p = (Ok (c, azlb, lb', ip), p1) ∧
    address_reported lb' ip (cloud p1) ∧ status_published l lb azlb ip s s' (cloud p') ∧
    oldAzureProvider p' = CopyOld ∧ cached_lb p' = CopyLB lb' ∧
    tcpRuleMap p' = tcp ∧ udpRuleMap p' = udp ∧
    ((∀ k, is_Some (entries tcp !! k) ∨ is_Some (entries udp !! k) → canonical k) →
     established lb lb' tcp udp (Some azlb) (cloud p) (cloud p')) ∧
    groups_secured range_ids lb (Some azlb) (cloud p) (cloud p') tcp udp.

(** What a sync comes to: the load balancer is synced, or cleaned up when the
    cluster has it no more. *)
Definition sync_outcome l lb tcp udp s p s' p' : Prop :=
  match lister_LoadBalancer (lb_Namespace lb) (lb_Name lb) (cloud p) with
  | Ok _ => synced_with l lb tcp udp s p s' p'
  | Err err => k8s_IsNotFound (Some err) = true ∧ s' = s ∧ cleanup_done (Some lb) p p'
  | Panic _ => False
  end.

Lemma established_ext lb lb' tcp udp at_hand e e1 e2 :
  same_cloud e1 e2 → established lb lb' tcp udp at_hand e e1 →
  established lb lb' tcp udp at_hand e e2.
Proof.
  intros [Hr Hp] (azure & azure' & azlb & rules & pool & az & nets & ? & ? & ? & ? & ? & ? & ?).
  exists azure, azure', azlb, rules, pool, az, nets. rewrite Hr. split_and!; try done.
  by eapply pool_follows_ext; [reflexivity|exact Hp|].
Qed.

Lemma sync_changed_outcome l lb tcp udp s p s' p' :
  s !! l = Some lb →
  sync_changed range_map range_prio range_ids ticks l lb tcp udp (s, p) = (Ok (), (s', p')) →
  sync_outcome l lb tcp udp s p s' p'.
Proof.
  intros Hl. unfold sync_changed, sync_outcome. intros H. run_back.
  match goal with H : catch _ _ = _ |- _ => apply prog_catch_inv in H;
    unfold on_azure, on_cloud, reads in H; rename H into Hget end.
  rewrite with_cloud_same in Hget.
  destruct a as [obj|err].
  2: { injection Hget as -> <-. destruct (k8s_IsNotFound (Some err)); [|run_back].
       apply on_azure_result in H as [H Hs]. simpl in *. split_and!; [done|done|].
       by apply cleanup_Ok in H. }
  injection Hget as -> <-. run_back.
  match goal with H : on_azure (ensureSync _ _ _ _ _ _) _ = _ |- _ =>
    apply on_azure_inv in H as (p2 & H & ->); rename H into Hsync end.
  destruct o as [err|]; [run_back|].
  pose proof (ensureSync_prepared _ _ _ _ _ _ _ _ Hsync) as (c & azlb & p1 & -> & Hprep & Haddr).
  match goal with H : updateLoadBalancerAzureStatus _ _ _ _ _ = (_, ?w) |- _ =>
    destruct w as [s3 p3]; apply (updateLoadBalancerAzureStatus_inv _ _ _ _ _ _ _ lb Hl) in H
      as (Hst & Hcloud & Hgroups) end.
  apply on_azure_inv in H as (p4 & H & [= -> ->]). injection H as <-.
  pose proof Hsync as (azure & azure' & Ha & -> & _)%ensureSync_spec.
  do 5 eexists. split; [exact Hprep|]. split; [exact Haddr|]. split; [exact Hst|].
  split_and!; [done..| |].
  - intros Hcan. simpl. eapply established_ext; [exact Hcloud|]. by eapply ensureSync_established.
  - simpl. eapply groups_secured_ext; [exact Hgroups|]. by eapply ensureSync_secured.
Qed.

(** What a successful update comes to. *)
Definition azure_outcome l lb s p s' p' : Prop :=
  match Azure (Providers (Spec lb)) with
  | None => isLBChanged s p lb = true ∧ s' = s ∧ cleanup_done None (set_lb p l) p'
  | Some azure =>
      if not_leaving s p lb then
        let q := cache_spec azure p in
        ∃ tcp udp, configmaps lb (cloud p) = Ok (tcp, udp) ∧
          if negb (isLBChanged s p lb) && same_ports tcp udp p then s' = s ∧ p' = q
          else sync_outcome l lb tcp udp s q s' p'
      else s' = s ∧ cleanup_done (Some lb) (set_lb p l) p'
  end.

Lemma azure_OnUpdate_outcome l lb s p s' p' :
  s !! l = Some lb →
  azure_OnUpdate range_map range_prio range_ids ticks l (s, p) = (Ok (), (s', p')) →
  azure_outcome l lb s p s' p'.
Proof.
  intros Hl H. unfold azure_outcome. destruct (Azure (Providers (Spec lb))) as [azure|] eqn:Ha.
  - destruct (not_leaving s p lb) eqn:Hn.
    + rewrite (OnUpdate_stays_eq _ _ _ _ l s p lb azure Hl Ha Hn) in H. cbv zeta.
      destruct (cache_spec_cloud azure p) as (Hc & Ht & Hu). run_back.
      match goal with H : on_azure _ _ = _ |- _ => apply on_azure_inv in H as (p1 & H & ->);
        apply getProxyConfigMapAndCompare_ports in H as (Hcm & -> & ->) end.
      rewrite Hc in Hcm. do 2 eexists. split; [exact Hcm|].
      unfold same_ports in *. rewrite Ht, Hu, negb_involutive in H.
      destruct (negb (isLBChanged s p lb) && _); [by injection H as <- <-|].
      by apply sync_changed_outcome.
    + rewrite (azure_OnUpdate_eq _ _ _ _ l s p lb Hl), Ha in H.
      rewrite (bool_decide_false (Some azure = None)), andb_false_r in H by done.
      unfold not_leaving in Hn. apply orb_false_iff in Hn as [Hn1%negb_false_iff Hn2].
      rewrite Hn1, Hn2 in H. simpl in H. apply on_azure_result in H as [H Hs]. simpl in H, Hs. subst s'. run_back.
      match goal with H : modify _ _ = _ |- _ => injection H as <- end.
      split; [done|]. by apply cleanup_Ok in H.
  - rewrite (azure_OnUpdate_eq _ _ _ _ l s p lb Hl), Ha in H.
    rewrite (bool_decide_true (None = None)), andb_true_r in H by done.
    destruct (isLBChanged s p lb); simpl in H.
    + apply on_azure_result in H as [H Hs]. simpl in H, Hs. subst s'. run_back.
      match goal with H : modify _ _ = _ |- _ => injection H as <- end.
      split_and!; [done..|]. by apply cleanup_Ok in H.
    + exfalso. run_back. done.
Qed.

(** C10: What a successful update of the Azure provider amounts to.  A load balancer
    that has lost its Azure spec or is being deleted, or that the cluster has no
    more, is cleaned up ([cleanup_done]): what the provider remembers is emptied
    when it is reserved, else Azure has granted its deletion; nothing is done when
    the provider cleaned up before.  When neither the load balancer nor its ports
    changed nothing is called.  Otherwise the load balancer is synced: its rules in
    the cloud follow the ports of the ConfigMaps, the pool is that of the nodes,
    the security groups follow when the address is public, the provider remembers
    what it synced, and exactly the state of provisioning and the address of the
    object's status are set, to those of the load balancer in the cloud, and sent
    to the API server as a patch with the phase Running, whose answer is
    dropped. *)
Theorem azure_OnUpdate_establishes l lb s p s' p' :
  s !! l = Some lb →
  azure_OnUpdate range_map range_prio range_ids ticks l (s, p) = (Ok (), (s', p')) →
  azure_outcome l lb s p s' p'.
Proof. apply azure_OnUpdate_outcome. Qed.
End update.
