(* ===== verification/AzureExample.v ===== *)
(** * An example cloud

    Azure and the cluster in memory, satisfying what the Azure provider relies
    on, and the theorems about the provider applied to it. *)

From S2P Require Import Prelude GoStd GoNet LbApi Controller.
From S2P Require Import AzureNet AzureIds AzureRules AzureConfig AzureSecurity AzurePools.
From S2P Require Import AzurePoolsFacts AzureClient AzureCloud Azure AzureFacts AzureSync AzureHistory.

(** ** The cloud *)

(** Resources are stored under their group and name, objects of the cluster under
    their namespace and name. *)
Record azure_cloud := {
  c_lbs : gmap (string * string) AzureLB;
  c_nics : gmap (string * string) Interface;
  c_vms : gmap (string * string) VirtualMachine;
  c_sgs : gmap (string * string) SecurityGroup;
  c_ips : gmap (string * string) PublicIP;
  c_nodes : gmap string Node;
  c_cms : gmap (string * string) ConfigMap;
  c_objects : gmap (string * string) LoadBalancer;
  c_secrets : list Secret;
  (** the deletions and the patches so far *)
  c_events : list azure_event;
}.

Definition with_lbs (e : azure_cloud) x : azure_cloud :=
  {| c_lbs := x; c_nics := c_nics e; c_vms := c_vms e; c_sgs := c_sgs e; c_ips := c_ips e;
     c_nodes := c_nodes e; c_cms := c_cms e; c_objects := c_objects e; c_secrets := c_secrets e;
     c_events := c_events e |}.
Definition with_nics (e : azure_cloud) x : azure_cloud :=
  {| c_lbs := c_lbs e; c_nics := x; c_vms := c_vms e; c_sgs := c_sgs e; c_ips := c_ips e;
     c_nodes := c_nodes e; c_cms := c_cms e; c_objects := c_objects e; c_secrets := c_secrets e;
     c_events := c_events e |}.
Definition with_sgs (e : azure_cloud) x : azure_cloud :=
  {| c_lbs := c_lbs e; c_nics := c_nics e; c_vms := c_vms e; c_sgs := x; c_ips := c_ips e;
     c_nodes := c_nodes e; c_cms := c_cms e; c_objects := c_objects e; c_secrets := c_secrets e;
     c_events := c_events e |}.
Definition with_cms (e : azure_cloud) x : azure_cloud :=
  {| c_lbs := c_lbs e; c_nics := c_nics e; c_vms := c_vms e; c_sgs := c_sgs e; c_ips := c_ips e;
     c_nodes := c_nodes e; c_cms := x; c_objects := c_objects e; c_secrets := c_secrets e;
     c_events := c_events e |}.
Definition with_events (e : azure_cloud) x : azure_cloud :=
  {| c_lbs := c_lbs e; c_nics := c_nics e; c_vms := c_vms e; c_sgs := c_sgs e; c_ips := c_ips e;
     c_nodes := c_nodes e; c_cms := c_cms e; c_objects := c_objects e; c_secrets := c_secrets e;
     c_events := x |}.

Definition azure_not_found : error :=
  DetailedError (Some 404%Z) (OriginalRequest (Some ("NotFound", "no such resource", None))) "not found".

Definition found {A} (x : option A) : result A :=
  match x with Some a => Ok a | None => Err azure_not_found end.

Definition in_cluster {A} (x : option A) : result A :=
  match x with Some a => Ok a | None => Err (StatusError "NotFound" "not found") end.

(** ** What Azure makes of a load balancer

    The children get IDs below that of the load balancer, and lists that were
    not sent come back empty. *)
Definition child_id (g n kind : string) (name : option string) : option string :=
  Some (path [""; "subscriptions"; "S"; azureResourceGroups; g; "providers"; "Microsoft.Network";
              "loadBalancers"; n; kind; to_String name]).

Definition stored_properties (g n : string) (p : LBProperties) : LBProperties :=
  {| FrontendIPConfigurations := Some ((λ f,
       {| fe_Name := fe_Name f; fe_ID := child_id g n "frontendIPConfigurations" (fe_Name f);
          fe_Properties := fe_Properties f; fe_other := fe_other f |}) <$>
       elems (FrontendIPConfigurations p));
     BackendAddressPools := Some ((λ b,
       {| pool_Name := pool_Name b; pool_ID := child_id g n "backendAddressPools" (pool_Name b);
          pool_Properties := Some (default {| bp_BackendIPConfigurations := None; bp_rest := [] |}
                                     (pool_Properties b));
          pool_other := pool_other b |}) <$> elems (BackendAddressPools p));
     LoadBalancingRules := Some (elems (LoadBalancingRules p));
     Probes := Some ((λ pr,
       {| probe_Name := probe_Name pr; probe_Etag := probe_Etag pr;
          probe_ID := child_id g n "probes" (probe_Name pr);
          probe_Properties := probe_Properties pr |}) <$> elems (Probes p));
     azlb_ProvisioningState := Some "Succeeded"; azlb_rest := azlb_rest p |}.

Definition stored_lb (g n : string) (azlb : AzureLB) : AzureLB :=
  match azlb_Properties azlb with
  | Some p => with_properties azlb (stored_properties g n p)
  | None => azlb
  end.

(** The rules of a security group get new etags. *)
Definition stored_rule (r : SecurityRule) : SecurityRule :=
  {| sr_Name := sr_Name r; sr_Properties := sr_Properties r;
     sr_other := ("etag", Json.JString "W/1") :: filter (λ m, m.1 ≠ "etag") (sr_other r) |}.

Definition stored_group (sg : SecurityGroup) : SecurityGroup :=
  with_security_rules sg
    (match sg_Properties sg with
     | Some {| SecurityRules := Some rules |} => Some (stored_rule <$> rules)
     | _ => None
     end).

(** ** The instances *)

(** Every IP configuration of an interface Azure returns has properties. *)
Definition well_formed (nic : Interface) : Prop :=
  match nic_Properties nic with
  | Some p => Forall (λ ipc, ipc_Properties ipc ≠ None) (elems (IPConfigurations p))
  | None => True
  end.

#[export] Instance well_formed_dec nic : Decision (well_formed nic).
Proof. unfold well_formed. destruct (nic_Properties nic); apply _. Defined.

#[export] Instance example_sdk : AzureSDK azure_cloud := {
  Authorizer c e :=
    if bool_decide (ClientID c = "") then Err (ErrorString "parameter 'clientID' cannot be empty")
    else Ok ();
  LoadBalancers_Get c g n e :=
    (match c_lbs e !! (g, n) with
     | Some azlb => if decide (named_lb n azlb) then Ok azlb else Err (ErrorString "bad response")
     | None => Err azure_not_found
     end, e);
  LoadBalancers_CreateOrUpdate c g n azlb e :=
    if decide (named_lb n azlb) then
      (Ok (stored_lb g n azlb), with_lbs e (<[(g, n) := stored_lb g n azlb]> (c_lbs e)))
    else (Err (ErrorString "bad request"), e);
  LoadBalancers_Delete c g n e :=
    let r := (_ ← found (c_lbs e !! (g, n)); Ok ()) in
    (r, with_events (with_lbs e (delete (g, n) (c_lbs e))) (c_events e ++ [DeleteSent g n r]));
  SecurityGroups_Get c g n e := (found (c_sgs e !! (g, n)), e);
  SecurityGroups_CreateOrUpdate c g n sg e :=
    (Ok (stored_group sg), with_sgs e (<[(g, n) := stored_group sg]> (c_sgs e)));
  Interfaces_Get c g n e :=
    (match c_nics e !! (g, n) with
     | Some nic => if decide (well_formed nic) then Ok nic else Err (ErrorString "bad response")
     | None => Err azure_not_found
     end, e);
  Interfaces_CreateOrUpdate c g n nic e := (Ok nic, with_nics e (<[(g, n) := nic]> (c_nics e)));
  VirtualMachines_Get c g n e := (found (c_vms e !! (g, n)), e);
  PublicIPAddresses_Get c g n e := (found (c_ips e !! (g, n)), e);
}.

#[export] Instance example_lister : StoreLister azure_cloud := {
  lister_Node name e := in_cluster (c_nodes e !! name);
  lister_ConfigMap ns name e := in_cluster (c_cms e !! (ns, name));
  lister_LoadBalancer ns name e := in_cluster (c_objects e !! (ns, name));
  lister_Secrets ns e := Ok (c_secrets e);
}.

#[export] Instance example_patcher : LBPatcher azure_cloud := {
  LoadBalancers_Patch ns name patch e := (Ok (), with_events e (c_events e ++ [PatchSent ns name patch (Ok ())]));
}.

#[export] Program Instance example_nics : AzureNics azure_cloud := {
  pools_at e := nic_pools <$> c_nics e;
}.
Next Obligation.
  intros c g n e r e'. simpl. intros [= <- <-]. split; [done|]. rewrite lookup_fmap.
  destruct (c_nics e !! (g, n)) as [nic|]; [|done]. case_decide as Hw; [|done]. split; [done|].
  intros p Hp. unfold well_formed in Hw. rewrite Hp in Hw.
  eapply Forall_impl; [exact Hw|]. intros ipc. apply not_eq_None_Some.
Qed.
Next Obligation. intros c g n nic e r e'. simpl. intros [= <- <-]. simpl. by rewrite fmap_insert. Qed.
Next Obligation. done. Qed.

Lemma stored_lb_named g n azlb :
  named_lb n azlb →
  named_lb n (stored_lb g n azlb) ∧ lb_rules (stored_lb g n azlb) = lb_rules azlb ∧
  children (stored_lb g n azlb) = children azlb.
Proof.
  intros (Hn & [q Hq] & Hr). unfold named_lb, stored_lb, children, lb_rules in *. rewrite Hq in *.
  cbn. rewrite !length_fmap. by split_and!.
Qed.

#[export] Program Instance example_lbs : AzureLBs azure_cloud := {
  rules_at e := (λ azlb, rule_view <$> lb_rules azlb) <$> c_lbs e;
}.
Next Obligation.
  intros c g n e. simpl. split_and!; [done..|]. intros azlb. rewrite lookup_fmap.
  destruct (c_lbs e !! (g, n)); [|done]. case_decide; [|done]. by intros [= ->].
Qed.
Next Obligation.
  intros c g n azlb e azlb' e'. simpl. case_decide as Hn; [|done]. intros [= <- <-].
  apply (stored_lb_named g) in Hn as (? & Hr & ?). simpl. by rewrite fmap_insert, Hr.
Qed.
Next Obligation.
  intros c g n e err. simpl. rewrite lookup_fmap.
  destruct (c_lbs e !! (g, n)); [|done]. case_decide; [done|]. by intros [= <-].
Qed.
Solve All Obligations with done.

#[export] Instance example_history : AzureHistory azure_cloud.
Proof.
  refine {| events := c_events |}; try done. intros c g n azlb e. simpl. by case_decide.
Defined.

(** ** A cluster with one node and one load balancer *)
Definition vm_id : string :=
  path [""; "subscriptions"; "S"; azureResourceGroups; "rg"; "providers"; "Microsoft.Compute";
        azureVirtualMachines; "vm-1"].

Definition nic_id (name : string) : string :=
  path [""; "subscriptions"; "S"; azureResourceGroups; "rg"; "providers"; "Microsoft.Network";
        azureNetworkInterfaces; name].

Definition node_1 : Node :=
  {| node_Name := "node-1"; node_Labels := None;
     node_Annotations := Some {[ annotationMachineCloudProvider := annotationCaicloudAzure;
                                 annotationVirtualMachineID := vm_id ]};
     node_Addresses := [] |}.

Definition vm_1 : VirtualMachine :=
  {| vm_Name := Some "vm-1";
     vm_Properties := Some (Some (Some [{| ref_ID := Some (nic_id "nic-1"); ref_other := [] |}])) |}.

Definition nic_in (pools : list string) : Interface :=
  {| nic_Properties := Some
       {| NetworkSecurityGroup := None;
          IPConfigurations := Some
            [{| ipc_Properties := Some
                  {| LoadBalancerBackendAddressPools :=
                       Some ((λ id, {| ref_ID := Some id; ref_other := [] |}) <$> pools);
                     ipc_rest := [] |};
                ipc_other := [] |}];
          nic_rest := [] |};
     nic_other := [] |}.

Definition example_azure (name : string) : AzureProvider :=
  {| az_Name := name; az_ResourceGroupName := "rg"; az_Location := "chinaeast"; az_SKU := "Standard";
     az_ClusterID := "cluster"; az_ReserveAzure := Some false;
     az_IPAddressProperties :=
       {| Private := Some {| pri_IPAllocationMethod := "Static"; pri_VPCID := "vpc";
                             pri_SubnetID := "subnet"; pri_PrivateIPAddress := Some "10.0.0.9" |};
          Public := None |} |}.

Definition example_lb (azure : option AzureProvider) : LoadBalancer :=
  {| lb_Namespace := "default"; lb_Name := "lb"; lb_ResourceVersion := "1";
     lb_DeletionTimestamp := None; lb_Finalizers := Some [azureFinalizer];
     Spec := {| Nodes := {| Replicas := None; Names := Some ["node-1"]; Effect := None |};
                Proxy := {| ProxyType := "nginx"; HTTPPort := 80; HTTPSPort := 443 |};
                Providers := {| External := None; Ipvsdr := None; Azure := azure |} |};
     Status := {| lb_ProxyStatus := {| TCPConfigMap := "tcp"; UDPConfigMap := "udp" |};
                  Vrid := None; AzureStatus := None; lb_NodeStatuses := None |} |}.

Definition example_cm (name : string) (data : gmap string string) : ConfigMap :=
  {| cm_Namespace := "default"; cm_Name := name; cm_ResourceVersion := "1"; cm_Data := Some data |}.

Definition example_cms : gmap (string * string) ConfigMap :=
  {[ ("default", "tcp") := example_cm "tcp" {["8080" := "ns/svc:80"]};
     ("default", "udp") := example_cm "udp" {["53" := "ns/dns:53"]} ]}.

Definition example_cloud : azure_cloud :=
  {| c_lbs := ∅; c_nics := {[ ("rg", "nic-1") := nic_in []; ("rg", "nic-2") := nic_in ["POOL"; "other"] ]};
     c_vms := {[ ("rg", "vm-1") := vm_1 ]}; c_sgs := ∅; c_ips := ∅;
     c_nodes := {[ "node-1" := node_1 ]}; c_cms := example_cms;
     c_objects := {[ ("default", "lb") := example_lb None ]};
     c_secrets := [{| secret_Type := "azure"; secret_Data := Some {["clientID" := "id"]} |}];
     c_events := [] |}.

Abbreviation update := (azure_OnUpdate map_to_list elements elements 2).

Definition example_new : AzureState azure_cloud := new_azure "lb" "default" example_cloud.

(** The store with [lb] as its only object. *)
Definition one (lb : LoadBalancer) : store := {[ 0 := lb ]}.

(** ** A first update

    Azure has no load balancer yet: it is created with the default rules and
    those of the ConfigMaps, and the interface of the node is put into the
    pool. *)
Definition lb_named (name : string) : LoadBalancer := example_lb (Some (example_azure name)).

Definition synced : AzureState azure_cloud := (update 0 (one (lb_named ""), example_new)).2.2.

Definition rules_in (e : azure_cloud) (g n : string) : list (option string) :=
  match c_lbs e !! (g, n) ≫= azlb_Properties with
  | Some p => rule_Name <$> elems (LoadBalancingRules p)
  | None => []
  end.

Definition pool_id : string :=
  to_String (child_id "rg" "lb-cluster" "backendAddressPools" (Some azureLoadBalancerBackendName)).

Example first_update :
  (update 0 (one (lb_named ""), example_new)).1 = Ok () ∧
  rules_in (cloud synced) "rg" "lb-cluster" =
    [Some "tcp-80"; Some "tcp-443"; Some "tcp-8080"; Some "udp-53"] ∧
  pools_at (cloud synced) !! ("rg", "nic-1") = Some [[pool_id]].
Proof. split_and!; by_compute. Qed.

(** A second update with the same objects changes nothing in the cloud. *)
Example second_update :
  let p := (update 0 (one (lb_named "lb-cluster"), synced)).2.2 in
  c_lbs (cloud p) = c_lbs (cloud synced) ∧ pools_at (cloud p) = pools_at (cloud synced).
Proof. split; by_compute. Qed.

(** ** Interfaces and pools *)
Lemma attach_detach_witness :
  let ipcs := elems (nic_Properties (nic_in ["POOL"; "other"]) ≫= IPConfigurations) in
  Forall has_properties ipcs ∧
  ∃ b1 ipcs1 b2 ipcs2,
    attach_configs "pool-2" ipcs = Ok (b1, ipcs1) ∧
    Forall (λ ipc, in_pool "pool-2" (pool_ids ipc)) ipcs1 ∧
    attach_configs "pool-2" ipcs1 = Ok (false, ipcs1) ∧
    detach_configs "pool-2" ipcs1 = Ok (b2, ipcs2) ∧
    Forall (λ ipc, ¬ in_pool "pool-2" (pool_ids ipc)) ipcs2 ∧
    (pool_ids <$> ipcs2) = leave "pool-2" ∘ pool_ids <$> ipcs ∧
    (Forall (λ ipc, ¬ in_pool "pool-2" (pool_ids ipc)) ipcs →
       (pool_ids <$> ipcs2) = pool_ids <$> ipcs).
Proof.
  intros ipcs. assert (Forall has_properties ipcs) as H.
  { constructor; [by eexists|constructor]. }
  split; [exact H|]. exact (attach_detach "pool-2" ipcs H).
Defined.

Definition example_config : Config :=
  {| SubscriptionID := "S"; ClientID := "id"; ClientSecret := ""; TenantID := "" |}.

(** A load balancer with the second interface in its pool. *)
Definition pool_lb : AzureLB :=
  with_properties zero_lb
    {| FrontendIPConfigurations := Some [];
       BackendAddressPools := Some
         [{| pool_Name := None; pool_ID := Some "pool";
             pool_Properties := Some
               {| bp_BackendIPConfigurations := Some
                    [{| ref_ID := Some (nic_id "nic-2" +:+ "/ipConfigurations/c"); ref_other := [] |}];
                  bp_rest := [] |};
             pool_other := [] |}];
       LoadBalancingRules := Some []; Probes := Some []; azlb_ProvisioningState := None;
       azlb_rest := [] |}.

Definition pool_sync : result (list string * gset string) * azure_cloud :=
  syncBackendPoolsWithNodes elements example_config pool_lb ["node-1"] example_cloud.

Lemma syncBackendPools_pools_witness :
  let detachs := [nic_id "nic-2"] in let nets : gset string := {[ nic_id "nic-1" ]} in
  pool_sync.1 = Ok (detachs, nets) ∧
  pools_at pool_sync.2 = {[ ("rg", "nic-1") := [["pool"]]; ("rg", "nic-2") := [["other"]] ]} ∧
  ∃ az pool pools p,
    getAzureBackendPoolIP pool_lb = Ok az ∧
    azlb_Properties pool_lb = Some p ∧ elems (BackendAddressPools p) = pool :: pools ∧
    let poolID := to_String (pool_ID pool) in
    (∀ id, id ∈ detachs ↔ id ∈ az ∧ id ∉ nets) ∧
    (∀ id, id ∈ nets → id ∉ az → ∃ k l, nic_key id = Ok k ∧
       pools_at pool_sync.2 !! k = Some l ∧ Forall (in_pool poolID) l) ∧
    (∀ id, id ∈ detachs → ∃ k l, nic_key id = Ok k ∧ pools_at pool_sync.2 !! k = Some l ∧
       ((∀ id', id' ∈ nets → id' ∉ az → nic_key id' ≠ Ok k) →
          Forall (λ ids, ¬ in_pool poolID ids) l)) ∧
    (∀ k, (∀ id, id ∈ az → id ∉ nets → nic_key id ≠ Ok k) →
          (∀ id, id ∈ nets → id ∉ az → nic_key id ≠ Ok k) →
          pools_at pool_sync.2 !! k = pools_at example_cloud !! k).
Proof.
  intros detachs nets. assert (pool_sync.1 = Ok (detachs, nets)) as H by by_compute.
  split; [exact H|]. split; [by_compute|].
  apply (syncBackendPools_pools elements example_config (λ s, reflexivity _)
           pool_lb ["node-1"] example_cloud detachs nets).
  change (pool_sync = (Ok (detachs, nets), pool_sync.2)). rewrite <-H. apply surjective_pairing.
Defined.

(** ** A clean-up that is never repeated

    The load balancer is seen first without an Azure spec, then with one, and
    then without: the load balancer made in between stays in the cloud. *)
Definition cleaned_once : AzureState azure_cloud := (update 0 (one (example_lb None), example_new)).2.2.

Definition configured_again : list (nat * store * azure_cloud) :=
  [(0, one (lb_named ""), example_cloud)].

Definition removed_again : AzureState azure_cloud :=
  let p := after map_to_list elements elements 2 configured_again cleaned_once in
  (update 0 (one (example_lb None), p)).2.2.

Lemma cleaned_forever_witness :
  cleanAzure cleaned_once = true ∧
  let p := after map_to_list elements elements 2 configured_again cleaned_once in
  cleanAzure p = true ∧ cleanupAzureLB elements 2 None false p = (Ok (), p) ∧
  rules_in (cloud removed_again) "rg" "lb-cluster" =
    [Some "tcp-80"; Some "tcp-443"; Some "tcp-8080"; Some "udp-53"].
Proof.
  assert (cleanAzure cleaned_once = true) as H by by_compute. split; [exact H|].
  destruct (cleaned_forever map_to_list elements elements 2 configured_again cleaned_once None false H)
    as [H1 H2].
  split; [exact H1|]. split; [exact H2|]. by_compute.
Defined.

(** ** The second update panics *)
Lemma second_update_panics_witness :
  let s := one (example_lb None) in
  s !! 0 = Some (example_lb None) ∧ Azure (Providers (Spec (example_lb None))) = None ∧
  update 0 (s, example_new) = (Ok (), (s, cleaned_once)) ∧ @is_panic () (Ok ()) = false ∧
  s = s ∧ (update 0 (s, cleaned_once)).1 = nil_dereference.
Proof.
  intros s. assert (update 0 (s, example_new) = (Ok (), (s, cleaned_once))) as H.
  { assert ((update 0 (s, example_new)).1 = Ok ()) as H1 by by_compute.
    assert ((update 0 (s, example_new)).2.1 = s) as H2 by by_compute.
    change cleaned_once with (update 0 (s, example_new)).2.2.
    destruct (update 0 (s, example_new)) as [r [s' p']]. simpl in H1, H2 |- *. by rewrite H1, H2. }
  split; [done|]. split; [done|]. split; [exact H|]. split; [done|].
  exact (second_update_panics map_to_list elements elements 2 0 s example_new (example_lb None)
           (Ok ()) s cleaned_once eq_refl eq_refl H eq_refl).
Defined.

(** ** A clean-up that fails and is not started again

    The load balancer is being deleted while the secret is missing.  When it is
    back, the retry does nothing, and the load balancer stays in the cloud. *)
Definition leaving : LoadBalancer :=
  let lb := lb_named "lb-cluster" in
  {| lb_Namespace := lb_Namespace lb; lb_Name := lb_Name lb;
     lb_ResourceVersion := lb_ResourceVersion lb; lb_DeletionTimestamp := Some "now";
     lb_Finalizers := lb_Finalizers lb; Spec := Spec lb; Status := Status lb |}.

Definition with_secrets (e : azure_cloud) x : azure_cloud :=
  {| c_lbs := c_lbs e; c_nics := c_nics e; c_vms := c_vms e; c_sgs := c_sgs e; c_ips := c_ips e;
     c_nodes := c_nodes e; c_cms := c_cms e; c_objects := c_objects e; c_secrets := x;
     c_events := c_events e |}.

Definition failed_cleanup : result () * (store * AzureState azure_cloud) :=
  update 0 (one leaving, with_cloud synced (with_secrets (cloud synced) [])).

Definition retried : result () * (store * AzureState azure_cloud) :=
  update 0 (one leaving, with_cloud failed_cleanup.2.2 (cloud synced)).

Example failed_cleanup_stays :
  failed_cleanup.1 = Err (ErrorString "azure: there is no specify type of secret:azure") ∧ retried.1 = Ok () ∧
  c_lbs (cloud retried.2.2) = c_lbs (cloud synced) ∧
  c_events (cloud retried.2.2) = c_events (cloud synced) ∧
  rules_in (cloud retried.2.2) "rg" "lb-cluster" =
    [Some "tcp-80"; Some "tcp-443"; Some "tcp-8080"; Some "udp-53"].
Proof. split_and!; first [by_compute|vm_compute; reflexivity]. Qed.

(** ** A forgotten change: the reservation *)
Definition reserving (azure : AzureProvider) : AzureProvider :=
  {| az_Name := az_Name azure; az_ResourceGroupName := az_ResourceGroupName azure;
     az_Location := az_Location azure; az_SKU := az_SKU azure; az_ClusterID := az_ClusterID azure;
     az_ReserveAzure := Some true; az_IPAddressProperties := az_IPAddressProperties azure |}.

Definition last_lb : LoadBalancer := match cached_lb synced with CopyLB lb => lb | _ => lb_named "" end.

(** The ConfigMaps cannot be read for a while. *)
Definition without_cms : AzureState azure_cloud := with_cloud synced (with_cms (cloud synced) ∅).

Lemma change_forgotten_witness :
  let a0 := example_azure "lb-cluster" in
  let lb := example_lb (Some (reserving a0)) in
  let err := StatusError "NotFound" "not found" in
  one lb !! 0 = Some lb ∧ oldAzureProvider without_cms = CopyOld ∧
  cached_lb without_cms = CopyLB last_lb ∧ Azure (Providers (Spec last_lb)) = Some a0 ∧
  Azure (Providers (Spec lb)) = Some (reserving a0) ∧ lb_DeletionTimestamp lb = None ∧
  only_renamed last_lb lb a0 (reserving a0) ∧ lister_ConfigMap "default" "tcp" (cloud without_cms) = Err err ∧
  ∃ p',
    update 0 (one lb, without_cms) =
      (Err (NewServiceError "K8SStore" (error_message err)), (one lb, p')) ∧
    ∀ e tcp udp,
      lister_ConfigMap (lb_Namespace lb) (TCPConfigMap (lb_ProxyStatus (Status lb))) e = Ok tcp →
      lister_ConfigMap (lb_Namespace lb) (UDPConfigMap (lb_ProxyStatus (Status lb))) e = Ok udp →
      cm_Data tcp = tcpRuleMap without_cms → cm_Data udp = udpRuleMap without_cms →
      update 0 (one lb, with_cloud p' e) = (Ok (), (one lb, with_cloud p' e)).
Proof.
  intros a0 lb err.
  assert (oldAzureProvider without_cms = CopyOld) as H1 by by_compute.
  assert (cached_lb without_cms = CopyLB last_lb) as H2 by by_compute.
  assert (Azure (Providers (Spec last_lb)) = Some a0) as H3 by by_compute.
  assert (only_renamed last_lb lb a0 (reserving a0)) as H4 by (split_and!; by_compute).
  assert (lister_ConfigMap "default" "tcp" (cloud without_cms) = Err err) as H5 by reflexivity.
  refine (conj eq_refl (conj H1 (conj H2 (conj H3 (conj eq_refl (conj eq_refl (conj H4 (conj H5 _)))))))).
  exact (change_forgotten map_to_list elements elements 2 0 (one lb) without_cms lb last_lb a0
           (reserving a0) err eq_refl H1 H2 H3 eq_refl eq_refl H4 H5).
Defined.
