(* ===== verification/AzureSyncExample.v ===== *)
(** * The example cloud, synced and cleaned up

    The theorems about a sync and a clean-up of the Azure provider applied to the
    cloud in memory. *)

From S2P Require Import Prelude GoStd LbApi Controller AzureNet AzureIds AzureRules AzureConfig.
From S2P Require Import AzureSecurity AzurePools AzurePoolsFacts AzureClient AzureCloud Azure.
From S2P Require Import Json AzurePatches AzureFacts AzureSync AzureHistory AzureCleanup AzureExample.

Definition tcp_data : gomap string := Some {["8080" := "ns/svc:80"]}.
Definition udp_data : gomap string := Some {["53" := "ns/dns:53"]}.

Definition first_sync := ensureSync map_to_list elements elements (lb_named "") tcp_data udp_data example_new.

Definition sync_lb : option AzureLB :=
  match first_sync.1 with Ok (azlb, _, _, _) => azlb | _ => None end.
Definition sync_object : LoadBalancer :=
  match first_sync.1 with Ok (_, lb, _, _) => lb | _ => lb_named "" end.

Lemma example_canonical k :
  is_Some (entries tcp_data !! k) ∨ is_Some (entries udp_data !! k) → canonical k.
Proof.
  unfold tcp_data, udp_data, entries. cbn [default from_option id].
  intros [H|H]; apply lookup_singleton_is_Some in H as <-;
    [exists 8080%Z|exists 53%Z]; by (split; [lia|reflexivity]).
Qed.

(** Azure reports nothing in the pool of the new load balancer, and nothing is. *)
Lemma example_reported :
  reported pool_id ∅ example_cloud ∧ one_spelling (∅ ∪ {[ nic_id "nic-1" ]}) ∧
  ∀ k l, pools_at example_cloud !! k = Some l → l ≠ [].
Proof.
  assert (pools_at example_cloud =
    {[ ("rg", "nic-1") := [[]]; ("rg", "nic-2") := [["POOL"; "other"]] ]}) as Hp by by_compute.
  split_and!.
  - intros k. split; [|by intros (? & ?%elem_of_empty & _)].
    intros (l & Hl & Hin). rewrite Hp in Hl.
    apply lookup_insert_Some in Hl as [[_ <-]|[_ [_ <-]%lookup_singleton_Some]];
      exfalso; revert Hin; by_compute.
  - intros id id' k. rewrite (left_id_L ∅ (∪)). by intros ->%elem_of_singleton ->%elem_of_singleton.
  - intros k l Hl. rewrite Hp in Hl.
    by apply lookup_insert_Some in Hl as [[_ <-]|[_ [_ <-]%lookup_singleton_Some]].
Qed.

Lemma ensureSync_establishes_witness :
  first_sync = (Ok (sync_lb, sync_object, "", None), first_sync.2) ∧
  rules_at (cloud first_sync.2) !! ("rg", "lb-cluster") =
    Some [("tcp-80", "Tcp", 80%Z); ("tcp-443", "Tcp", 443%Z); ("tcp-8080", "Tcp", 8080%Z);
          ("udp-53", "Udp", 53%Z)] ∧
  ∃ azure azure' azlb rules pool az nets,
    spec_named (lb_named "") sync_object azure azure' ∧ sync_lb = Some azlb ∧
    rules_at (cloud first_sync.2) !! (az_ResourceGroupName azure', az_Name azure') =
      Some (rule_view <$> rules) ∧
    rules_follow rules (entries tcp_data) (entries udp_data) ∧ pool_of azlb pool az ∧
    (∃ c e1 e2, getBackendPoolIPFromNodes c (elems (Names (Nodes (Spec (lb_named ""))))) e1 =
                  (Ok nets, e2)) ∧
    pool_follows (cloud example_new) (cloud first_sync.2) pool az nets.
Proof.
  assert (first_sync.1 = Ok (sync_lb, sync_object, "", None)) as H1 by by_compute.
  assert (first_sync = (Ok (sync_lb, sync_object, "", None), first_sync.2)) as H.
  { rewrite <-H1. apply surjective_pairing. }
  split; [exact H|]. split; [by_compute|].
  exact (ensureSync_establishes map_to_list elements elements map_order_self (λ s, reflexivity _)
    (lb_named "") tcp_data udp_data example_new sync_lb sync_object "" first_sync.2 H example_canonical).
Defined.

(** ** At rest after the first update *)
Definition synced_store : store := (update 0 (one (lb_named ""), example_new)).2.1.

Lemma update_after_sync_witness :
  let lb := lb_named "" in let azure := example_azure "" in
  let tcp := example_cm "tcp" {["8080" := "ns/svc:80"]} in
  let udp := example_cm "udp" {["53" := "ns/dns:53"]} in
  isLBChanged (one lb) example_new lb = true ∧
  update 0 (one lb, example_new) = (Ok (), (synced_store, synced)) ∧
  ∃ azure', azure' = set_azure_name azure (az_Name azure') ∧
    (az_Name azure ≠ "" → az_Name azure' = az_Name azure) ∧
    ∀ l2 s2 lb2 e tcp2 udp2,
      s2 !! l2 = Some lb2 → Azure (Providers (Spec lb2)) = Some azure' → same_watched lb lb2 →
      lister_ConfigMap (lb_Namespace lb2) (TCPConfigMap (lb_ProxyStatus (Status lb2))) e = Ok tcp2 →
      lister_ConfigMap (lb_Namespace lb2) (UDPConfigMap (lb_ProxyStatus (Status lb2))) e = Ok udp2 →
      cm_Data tcp2 = cm_Data tcp → cm_Data udp2 = cm_Data udp →
      update l2 (s2, with_cloud synced e) = (Ok (), (s2, with_cloud synced e)).
Proof.
  intros lb azure tcp udp.
  assert (isLBChanged (one lb) example_new lb = true) as Hch by reflexivity.
  assert ((update 0 (one lb, example_new)).1 = Ok ()) as H1 by by_compute.
  assert (update 0 (one lb, example_new) = (Ok (), (synced_store, synced))) as H.
  { rewrite <-H1. unfold synced_store, synced. by destruct (update _ _) as [? []]. }
  split; [exact Hch|]. split; [exact H|].
  assert (lister_ConfigMap "default" "tcp" example_cloud = Ok tcp) as Ht by reflexivity.
  assert (lister_ConfigMap "default" "udp" example_cloud = Ok udp) as Hu by reflexivity.
  exact (update_after_sync map_to_list elements elements 2 0 (one lb) example_new lb azure tcp udp
    (example_lb None) synced_store synced eq_refl eq_refl eq_refl (or_introl Hch) Ht Hu eq_refl H).
Defined.

(** ** Cleaning up *)
Definition cleanup_run : result () * AzureState azure_cloud :=
  cleanupAzureLB elements 2 None true synced.

Lemma cleanup_outcome_witness :
  let old := example_azure "lb-cluster" in
  cleanAzure synced = false ∧ old_azure synced = Some old ∧ az_Name old ≠ "" ∧
  cleanup_run = (Ok (), cleanup_run.2) ∧
  cleanAzure cleanup_run.2 = true ∧ oldAzureProvider cleanup_run.2 = NilOld ∧
  cached_lb cleanup_run.2 = cached_lb synced ∧
  deletion_granted "rg" "lb-cluster" (cloud synced) (cloud cleanup_run.2).
Proof.
  intros old. assert (cleanAzure synced = false) as H1 by by_compute.
  assert (old_azure synced = Some old) as H2 by by_compute. assert (az_Name old ≠ "") as H3 by done.
  assert (cleanup_run.1 = Ok ()) as Hr by by_compute.
  assert (cleanup_run = (Ok (), cleanup_run.2)) as H by (rewrite <-Hr; apply surjective_pairing).
  refine (conj H1 (conj H2 (conj H3 (conj H _)))).
  exact (cleanup_outcome elements 2 None true synced old (Ok ()) cleanup_run.2 H1 H2 H3 H).
Defined.

(** A load balancer with an interface in its pool. *)
Definition reserved_cloud : azure_cloud :=
  with_lbs example_cloud {[ ("rg", "pooled") := {|
    azlb_Name := Some "pooled"; azlb_Location := None; azlb_Sku := None;
    azlb_Properties := azlb_Properties pool_lb; azlb_other := [] |} ]}.

Definition recovered : result () * azure_cloud :=
  recoverDefaultAzureLoadBalancer example_config "rg" "pooled" reserved_cloud.

Lemma recover_empties_witness :
  recovered = (Ok (), recovered.2) ∧
  pools_at recovered.2 !! ("rg", "nic-2") = Some [["other"]] ∧
  (rules_at recovered.2 !! ("rg", "pooled") = None ∨
   ∃ azlb q, (LoadBalancers_Get example_config "rg" "pooled" reserved_cloud).1 = Ok azlb ∧
     azlb_Properties azlb = Some q ∧ rules_at recovered.2 !! ("rg", "pooled") = Some [] ∧
     let '(poolID, configs) := first_pool q in
     (∀ k, member poolID reserved_cloud k → names configs k) → ∀ k, ¬ member poolID recovered.2 k).
Proof.
  assert (recovered.1 = Ok ()) as H1 by by_compute.
  assert (recovered = (Ok (), recovered.2)) as H by (rewrite <-H1; apply surjective_pairing).
  split; [exact H|]. split; [by_compute|].
  exact (recover_empties example_config "rg" "pooled" reserved_cloud recovered.2 H).
Defined.

(** The example load balancer has the Azure finalizer and no other. *)
Lemma final_patch_witness :
  ∃ patch,
    Unmarshal patch = Some (JObject
      [("metadata", JObject [("finalizers", JArray [])]);
       ("status", JObject [("ProvidersStatuses", JObject [("azure", JObject [])])])]) ∧
    patachFinalizersAndStatus (Some (example_lb None)) false example_new =
      on_cloud (LoadBalancers_Patch "default" "lb" patch) example_new.
Proof.
  apply (final_patch (Some (example_lb None)) false example_new). by repeat constructor.
Defined.
