(* ===== verification/AzureGroupsExample.v ===== *)
(** * The example cloud and its security groups

    The security groups of the cloud in memory, synced alone and by a whole sync
    of a load balancer with a public address. *)

From S2P Require Import Prelude GoStd LbApi Controller AzureNet AzureIds AzureRules AzureConfig.
From S2P Require Import AzureSecurity AzureSecurityFacts AzureGroups AzurePools AzurePoolsFacts.
From S2P Require Import AzureClient AzureCloud Azure AzureFacts AzureSync AzureHistory AzureSyncGroups.
From S2P Require Import AzureExample AzureSyncExample.

(** ** The groups alone

    One interface is in the pool and its group gets the rules of the ports; the
    other one has left the pool and its group loses them. *)
Lemma stored_group_rules sg : same_rules (group_rules (stored_group sg)) (group_rules sg).
Proof.
  unfold same_rules, group_rules, stored_group, with_security_rules.
  destruct (sg_Properties sg) as [[[rules|] rest]|]; [|done..]. simpl.
  rewrite <-list_fmap_compose. done.
Qed.

#[export] Program Instance example_sgs : AzureSGs azure_cloud := {
  groups_at e := group_rules <$> c_sgs e;
}.
Next Obligation.
  intros c g n e r e'. simpl. intros [= <- <-]. split; [done|]. rewrite lookup_fmap.
  by destruct (c_sgs e !! (g, n)).
Qed.
Next Obligation.
  intros c g n sg e sg' e'. simpl. intros [= <- <-]. simpl. eexists. split; [by rewrite fmap_insert|].
  apply stored_group_rules.
Qed.
Next Obligation. done. Qed.

Definition sg_id (name : string) : string :=
  path [""; "subscriptions"; "S"; azureResourceGroups; "rg"; "providers"; "Microsoft.Network";
        azureSecurityGroups; name].

Definition guarded_nic (sg : string) : Interface :=
  {| nic_Properties := Some
       {| NetworkSecurityGroup := Some {| ref_ID := Some (sg_id sg); ref_other := [] |};
          IPConfigurations := None; nic_rest := [] |};
     nic_other := [] |}.

Definition group_of (rules : list SecurityRule) : SecurityGroup :=
  {| sg_ID := None; sg_Properties := Some {| SecurityRules := Some rules; sg_rest := [] |};
     sg_other := [] |}.

Definition guarded_cloud : azure_cloud :=
  with_sgs (with_nics example_cloud
    {[ ("rg", "nic-1") := guarded_nic "sg-1"; ("rg", "nic-2") := guarded_nic "sg-2" ]})
    {[ ("rg", "sg-1") := group_of example_group; ("rg", "sg-2") := group_of example_group ]}.

Definition group_sync : result () * azure_cloud :=
  syncSecurityGroupRules map_to_list elements elements example_config example_tcp ∅
    [nic_id "nic-2"] {[ nic_id "nic-1" ]} guarded_cloud.

Lemma security_groups_synced_witness :
  group_sync = (Ok (), group_sync.2) ∧
  (∃ kept, groups_at group_sync.2 !! ("rg", "sg-2") = Some kept ∧
     same_rules kept (filter user_rule example_group)) ∧
  ∃ stored new, groups_at group_sync.2 !! ("rg", "sg-1") = Some stored ∧ same_rules stored new ∧
    group_follows example_group example_tcp ∅ new.
Proof.
  assert (group_sync.1 = Ok ()) as H1 by by_compute.
  assert (group_sync = (Ok (), group_sync.2)) as H by (rewrite <-H1; apply surjective_pairing).
  split; [exact H|].
  destruct (security_groups_synced map_to_list elements elements example_config map_order_self
    set_order_self (λ s, reflexivity _) example_tcp ∅ [nic_id "nic-2"] {[ nic_id "nic-1" ]}
    guarded_cloud group_sync.2 H) as (gone & synced & e1 & Hg & Hall).
  assert ((getSuitableSecurityGroup elements example_config [nic_id "nic-2"] {[ nic_id "nic-1" ]}
    guarded_cloud).1 = Ok ({[ sg_id "sg-2" ]}, {[ sg_id "sg-1" ]})) as Hg' by by_compute.
  rewrite Hg in Hg'. injection Hg' as -> ->. split.
  - apply (Hall ("rg", "sg-2") example_group); by_compute.
  - apply (Hall ("rg", "sg-1") example_group); by_compute.
Defined.

(** ** A whole sync *)
#[export] Instance example_group_frame : AzureGroupFrame azure_cloud.
Proof. split; try done. intros c g n azlb e. simpl. by case_decide. Qed.

Definition ip_id : string :=
  path [""; "subscriptions"; "S"; azureResourceGroups; "rg"; "providers"; "Microsoft.Network";
        azurePublicIPAddresses; "ip-1"].

Definition public_azure : AzureProvider :=
  {| az_Name := ""; az_ResourceGroupName := "rg"; az_Location := "chinaeast"; az_SKU := "Standard";
     az_ClusterID := "cluster"; az_ReserveAzure := Some false;
     az_IPAddressProperties :=
       {| Private := None;
          Public := Some {| pub_IPAllocationMethod := "Static"; pub_PublicIPAddressID := Some ip_id |} |} |}.

Definition public_lb : LoadBalancer := example_lb (Some public_azure).

(** The interface of the node is in no pool yet; its group has rules. *)
Definition public_cloud : azure_cloud :=
  {| c_lbs := ∅;
     c_nics := {[ ("rg", "nic-1") :=
       {| nic_Properties := Some
            {| NetworkSecurityGroup := Some {| ref_ID := Some (sg_id "sg-1"); ref_other := [] |};
               IPConfigurations := nic_Properties (nic_in []) ≫= IPConfigurations;
               nic_rest := [] |};
          nic_other := [] |} ]};
     c_vms := c_vms example_cloud;
     c_sgs := {[ ("rg", "sg-1") := group_of example_group; ("rg", "sg-2") := group_of example_group ]};
     c_ips := {[ ("rg", "ip-1") :=
       {| pip_ID := Some ip_id;
          pip_Properties := Some {| pip_IPAddress := Some "40.0.0.1"; pip_rest := [] |};
          pip_other := [] |} ]};
     c_nodes := c_nodes example_cloud; c_cms := c_cms example_cloud;
     c_objects := c_objects example_cloud; c_secrets := c_secrets example_cloud; c_events := [] |}.

Definition public_new : AzureState azure_cloud := new_azure "lb" "default" public_cloud.

Definition public_sync :=
  ensureSync map_to_list elements elements public_lb tcp_data udp_data public_new.

Definition public_at_hand : option AzureLB :=
  match public_sync.1 with Ok (azlb, _, _, _) => azlb | _ => None end.
Definition public_object : LoadBalancer :=
  match public_sync.1 with Ok (_, lb, _, _) => lb | _ => public_lb end.

Definition views (rules : list SecurityRule) : list (option string * Z) :=
  (λ r, (sr_Name r, priority_of r)) <$> rules.

Lemma ensureSync_secures_witness :
  public_sync = (Ok (public_at_hand, public_object, "40.0.0.1", None), public_sync.2) ∧
  option_map views (groups_at (cloud public_sync.2) !! ("rg", "sg-1")) =
    Some [(Some "ssh22", 100%Z); (Some "cps-lb-tcp-80", 1000%Z); (Some "cps-lb-udp-53", 1010%Z);
          (Some "cps-lb-tcp-443", 1020%Z); (Some "cps-lb-tcp-8080", 1030%Z)] ∧
  (∃ c azlb, public_at_hand = Some azlb ∧
     secured elements c azlb ["node-1"] public_cloud (cloud public_sync.2) tcp_data udp_data).
Proof.
  assert (public_sync.1 = Ok (public_at_hand, public_object, "40.0.0.1", None)) as H1 by by_compute.
  assert (public_sync = (Ok (public_at_hand, public_object, "40.0.0.1", None), public_sync.2)) as H.
  { rewrite <-H1. apply surjective_pairing. }
  split; [exact H|]. split; [|exact (ensureSync_secures map_to_list elements elements
    map_order_self set_order_self (λ s, reflexivity _) public_lb tcp_data udp_data public_new
    public_at_hand public_object "40.0.0.1" public_sync.2 H)].
  vm_compute. reflexivity.
Defined.
