(* ===== verification/AzureSystem.v ===== *)
(** * The Azure provider under the controller

    The provider of Azure.v as the backend of the system of ControllerSystem.v,
    and a run of the two with the cloud of AzureExample.v. *)

From S2P Require Import Prelude GoStd LbApi AzureNet AzureIds AzureRules AzureConfig.
From S2P Require Import AzureSecurity AzurePools AzurePoolsFacts AzureClient AzureCloud Azure.
From S2P Require Import AzureGroups AzureFacts AzureSync AzureHistory AzureSyncGroups AzureCleanup AzureUpdate.
From S2P Require Import AzureSecurityFacts AzureExample AzureSyncExample AzureGroupsExample.
From S2P Require Import Workqueue Controller ControllerSystem ControllerProgress ControllerSettles.

Section system.
Context {E : Type} `{!AzureSDK E, !StoreLister E, !LBPatcher E, !AzureNics E, !AzureLBs E}.
Context `{!AzureSGs E, !AzureGroupFrame E, !AzureHistory E}.
Context (range_map : ports → list (string * string)) (range_prio : gset Z → list Z).
Context (range_ids : gset string → list string) (ticks : nat).
Context (range_map_order : ∀ m, map_order (range_map m) m).
Context (range_prio_order : ∀ s, set_order (range_prio s) s).
Context (range_ids_order : ∀ s, set_order (range_ids s) s).

#[local] Instance backend : Provider (AzureState E) :=
  azure_provider range_map range_prio range_ids ticks.
#[local] Instance backend_laws : ProviderLaws (AzureState E) :=
  azure_provider_laws range_map range_prio range_ids ticks.

(** The provider and the cloud are as the update for the current version of the
    configured load balancer left them, and this version is valid. *)
Definition cloud_applied c (s : system (AzureState E)) (m : monitor (AzureState E)) : Prop :=
  ∀ l lb, lister_Get (provider s) (LoadBalancerNamespace c) (LoadBalancerName c) = Some (l, lb) →
  ∃ p l0 lb0 h, before m = Some p ∧
    lister_Get p (LoadBalancerNamespace c) (LoadBalancerName c) = Some (l0, lb0) ∧
    lb_ResourceVersion lb0 = lb_ResourceVersion lb ∧ ValidateLoadBalancer lb0 = Ok () ∧
    azure_outcome range_ids l0 lb0 (heap p) (Backend p) h (Backend (provider s)).

Lemma azure_applied c b (s : system (AzureState E)) m :
  no_slash (LoadBalancerNamespace c) → no_slash (LoadBalancerName c) → watched c b (s, m) →
  quiescent s → queued_keys (gp_queue (provider s)) = ∅ →
  streak m <= maxRetries → shutdown (provider s) = false → cloud_applied c s m.
Proof.
  intros Hns Hn Hw Hq Hk Hst Hsd l lb Hget.
  destruct (quiescent_applied c b s m Hns Hn Hw Hq Hk Hst Hsd l lb Hget)
    as (p & l0 & lb0 & h & Hp & Hl0 & Hv & Hval & Hup).
  exists p, l0, lb0, h. split_and!; [done..|].
  by eapply azure_OnUpdate_outcome; [..|exact (lister_Get_heap _ _ _ _ _ Hl0)|exact Hup].
Qed.

(** C6: The Azure controller brings the cloud to what the cluster says.  From
    every reachable state the process can come to rest by steps of its own.  When
    it rests, its worker has not ended, it was not told to stop and the last sync
    was not given up after the retries, then the last update was one for the
    current version of the load balancer and the provider and the cloud are as it
    left them: cleaned up ([cleanup_done]), unchanged, or synced with the ports of
    the ConfigMaps and the nodes, with the status published. *)
Theorem azure_converges c b (s : system (AzureState E)) m :
  no_slash (LoadBalancerNamespace c) → no_slash (LoadBalancerName c) → watched c b (s, m) →
  (∃ ls y, forallb internal ls = true ∧ watch_run ls (s, m) = Some y ∧ at_rest y.1) ∧
  (∀ ls y, watch_run ls (s, m) = Some y → at_rest y.1 → ¬ ended y.1 →
     streak y.2 <= maxRetries → shutdown (provider y.1) = false → cloud_applied c y.1 y.2).
Proof.
  intros Hns Hn Hw. split; [by apply (settle c b)|]. intros ls y Hrun Hrest He Hst Hsd.
  destruct (settled c b (s, m) ls y Hw Hrun Hrest He) as (Hw' & Hq & Hk).
  by eapply azure_applied.
Qed.
End system.

(** ** An update, alone and under the controller *)
Lemma azure_OnUpdate_establishes_witness :
  update 0 (one (lb_named ""), example_new) = (Ok (), (synced_store, synced)) ∧
  isLBChanged (one (lb_named "")) example_new (lb_named "") = true ∧
  azure_outcome elements 0 (lb_named "") (one (lb_named "")) example_new synced_store synced.
Proof.
  assert ((update 0 (one (lb_named ""), example_new)).1 = Ok ()) as H1 by by_compute.
  assert (update 0 (one (lb_named ""), example_new) = (Ok (), (synced_store, synced))) as H.
  { rewrite <-H1. unfold synced_store, synced. by destruct (update _ _) as [? []]. }
  split; [exact H|]. split; [reflexivity|].
  exact (azure_OnUpdate_establishes map_to_list elements elements 2 map_order_self
    set_order_self (λ s, reflexivity _) 0 (lb_named "") (one (lb_named "")) example_new synced_store synced
    eq_refl H).
Defined.

#[local] Instance cloud_provider : Provider (AzureState azure_cloud) :=
  azure_provider map_to_list elements elements 2.

Definition cloud_cfg : Configuration :=
  {| LoadBalancerName := "lb"; LoadBalancerNamespace := "default";
     cfg_TCPConfigMap := ""; cfg_UDPConfigMap := "" |}.

Definition cloud_start : system (AzureState azure_cloud) * monitor (AzureState azure_cloud) :=
  (init cloud_cfg example_new, {| before := None; streak := 0 |}).

(** The informer has seen the load balancer. *)
Definition cloud_added : system (AzureState azure_cloud) * monitor (AzureState azure_cloud) :=
  default cloud_start (watch_run [InformerAdd 0 (lb_named "")] cloud_start).

Definition cloud_run : list action := [Deliver; StartProvider; WorkerGet; WorkerHandle; WorkerDone].

Definition cloud_end : system (AzureState azure_cloud) * monitor (AzureState azure_cloud) :=
  default cloud_added (watch_run cloud_run cloud_added).

(** The object of the informer, into which the status was written. *)
Definition cloud_object : LoadBalancer :=
  default (lb_named "") (heap (provider cloud_end.1) !! 0).

Lemma azure_converges_witness :
  rules_at (cloud (Backend (provider cloud_end.1))) !! ("rg", "lb-cluster") =
    Some [("tcp-80", "Tcp", 80%Z); ("tcp-443", "Tcp", 443%Z); ("tcp-8080", "Tcp", 8080%Z);
          ("udp-53", "Udp", 53%Z)] ∧
  ∃ p l0 lb0 h, before cloud_end.2 = Some p ∧
    lister_Get p (LoadBalancerNamespace cloud_cfg) (LoadBalancerName cloud_cfg) = Some (l0, lb0) ∧
    lb_ResourceVersion lb0 = lb_ResourceVersion cloud_object ∧ ValidateLoadBalancer lb0 = Ok () ∧
    azure_outcome elements l0 lb0 (heap p) (Backend p) h (Backend (provider cloud_end.1)).
Proof.
  split; [by_compute|].
  assert (watched cloud_cfg example_new (cloud_added.1, cloud_added.2)) as Hw.
  { rewrite <-surjective_pairing. apply watch_run_watched. vm_compute. reflexivity. }
  assert (watch_run cloud_run (cloud_added.1, cloud_added.2) = Some cloud_end) as Hrun.
  { rewrite <-surjective_pairing.
    assert (is_done (watch_run cloud_run cloud_added) = true) as H by (vm_compute; reflexivity).
    unfold cloud_end. by destruct (watch_run cloud_run cloud_added). }
  assert (at_rest cloud_end.1) as Hrest by (apply rests_at_rest; vm_compute; reflexivity).
  assert (¬ ended cloud_end.1) as He by by_compute.
  assert (streak cloud_end.2 <= maxRetries) as Hst by (vm_compute; lia).
  assert (shutdown (provider cloud_end.1) = false) as Hsd by (vm_compute; reflexivity).
  assert (lister_Get (provider cloud_end.1) (LoadBalancerNamespace cloud_cfg)
    (LoadBalancerName cloud_cfg) = Some (0, cloud_object)) as Hl by (vm_compute; reflexivity).
  exact (proj2 (azure_converges map_to_list elements elements 2 map_order_self set_order_self
    (λ s, reflexivity _) cloud_cfg example_new _ _ eq_refl eq_refl Hw) cloud_run cloud_end
    Hrun Hrest He Hst Hsd 0 cloud_object Hl).
Defined.
