(* ===== verification/Program.v ===== *)
(** * cmd and core/options: the programs

    The command line options, the start of the three programs up to the running
    controller, and their end on SIGTERM.  [log.Fatal] and an uncaught panic end
    the process; both are a [Panic] here, told apart by its text. *)

From S2P Require Import Prelude GoStd GoNet Json Version LbApi Sysctl Workqueue Controller ControllerSystem.
From S2P Require Import Execd Ingress Iptables Ipvsdr IpvsdrExample.
From S2P Require Import AzurePools AzureClient Azure NodeLookup.

(** ** Options *)
Record Options := {
  Debug : bool;
  Kubeconfig : string;
  opt_LoadBalancerNamespace : string;
  opt_LoadBalancerName : string;
  PodNamespace : string;
  PodName : string;
  NodeIPLabel : string;
  NodeIPAnnotation : string;
}.

Inductive cli_flag :=
| StringFlag (name env : string)
| BoolFlag (name : string)
| BoolTFlag (name : string).

Definition flag_name (f : cli_flag) : string :=
  match f with StringFlag name _ | BoolFlag name | BoolTFlag name => name end.

Definition AddFlags (flags : list cli_flag) : list cli_flag :=
  flags ++
  [StringFlag "kubeconfig" "";
   BoolFlag "debug";
   StringFlag "loadbalancer-namespace" "LOADBALANCER_NAMESPACE";
   StringFlag "loadbalancer-name" "LOADBALANCER_NAME";
   StringFlag "pod-namespace" "POD_NAMESPACE";
   StringFlag "pod-name" "POD_NAME";
   StringFlag "nodeip-label" "NODEIP_LABEL";
   StringFlag "nodeip-annotation" "NODEIP_ANNOTATION"].

(** [AddFlags] of cmd/ipvsdr; those of the other programs add nothing. *)
Definition ipvsdr_AddFlags (flags : list cli_flag) : list cli_flag :=
  AddFlags flags ++ [BoolTFlag "unicast"].

(** ** What a program finds when it starts *)
Class StartHost (E : Type) := {
  Getenv : E → string → string;
  BuildConfigFromFlags : string → E → result ();
  NewForConfig : rest_Config → E → result ();
  API_LoadBalancer : string → string → E → result LoadBalancer;
  modprobe_ip_vs : prog E ();
  Stat_ip_vs : E → result ();
  (** [template.ParseFiles] of the keepalived template *)
  ParseFiles : E → result ();
}.

Section start.
Context {E : Type} `{!StartHost E, !CoreV1 E}.

Definition NewClientSet (kubeconfig : string) : prog E () :=
  _ ← reads (BuildConfigFromFlags kubeconfig);
  e ← get;
  reads (NewForConfig (setupConfigQPS (Getenv e))).

Definition fatal_text : string := "exit status 255".
Definition fatal {A} : prog E A := lift (Panic fatal_text).

(** An error of [m] ends the process. *)
Definition or_fatal {A} (m : prog E A) : prog E A :=
  r ← catch m;
  match r with inl a => mret a | inr _ => fatal end.

Definition Configuration_of (opts : Options) (lb : LoadBalancer) : Configuration :=
  {| LoadBalancerName := opt_LoadBalancerName opts;
     LoadBalancerNamespace := opt_LoadBalancerNamespace opts;
     cfg_TCPConfigMap := TCPConfigMap (lb_ProxyStatus (Status lb));
     cfg_UDPConfigMap := UDPConfigMap (lb_ProxyStatus (Status lb)) |}.

(** [Run] of a program whose backend is made by [create], up to [lp.Start()]. *)
Definition Run_with {P} (opts : Options) (create : LoadBalancer → prog E P)
    : prog E (GenericProvider P) :=
  _ ← or_fatal (NewClientSet (Kubeconfig opts));
  lb ← or_fatal (reads (API_LoadBalancer (opt_LoadBalancerNamespace opts) (opt_LoadBalancerName opts)));
  backend ← create lb;
  mret (provider (init (Configuration_of opts lb) backend)).

Definition loadIPVSModule : prog E () :=
  _ ← modprobe_ip_vs;
  reads Stat_ip_vs.

(** The template itself is a part of the world. *)
Definition loadTemplate : prog E () := reads ParseFiles.

(** The world of a backend is the one it was made in. *)
Definition NewIpvsdrProvider (nodeName : string) : prog E (IpvsProvider E) :=
  _ ← loadTemplate;
  e ← get;
  mret {| nodeName := nodeName; k_cmd := None; sysctlDefault := Some ∅; cfgMD5 := "";
          cache_lb := None; cache_tcps := None; cache_udps := None; env := e |}.

Definition create_ipvsdr (opts : Options) (lb : LoadBalancer) : prog E (IpvsProvider E) :=
  if bool_decide (Ipvsdr (Providers (Spec lb)) = None) then
    fail (ErrorString "no ipvsdr spec specified")
  else
    _ ← loadIPVSModule;
    nodeName ← or_fatal (GetNodeNameForPod (PodNamespace opts) (PodName opts));
    NewIpvsdrProvider nodeName.

Definition ipvsdr_Run (opts : Options) : prog E (GenericProvider (IpvsProvider E)) :=
  Run_with opts (create_ipvsdr opts).

Definition ingress_Run (opts : Options) : prog E (GenericProvider (Sidecar E)) :=
  Run_with opts (λ lb, e ← get; mret (NewIngressSidecar e)).

Definition azure_Run (opts : Options) : prog E (GenericProvider (AzureState E)) :=
  Run_with opts (λ lb, e ← get;
    mret (new_azure (opt_LoadBalancerName opts) (opt_LoadBalancerNamespace opts) e)).

(** The exit code when [Run] does not get as far as the controller: an error is
    turned into an [ExitError] by [main]. *)
Definition exit_code {A} (r : result A) : option Z :=
  match r with
  | Ok _ => None
  | Err _ => Some 1%Z
  | Panic why => Some (if bool_decide (why = fatal_text) then 255 else 2)%Z
  end.

(** ** main

    The application [cli] runs: its flags are sorted by their names. *)
Record cli_App := {
  app_Name : string;
  app_Version : string;
  app_Flags : list cli_flag;
}.

Definition flag_le (f g : cli_flag) : Prop := String.le (flag_name f) (flag_name g).

#[export] Instance flag_le_dec f g : Decision (flag_le f g).
Proof. unfold flag_le. apply _. Defined.

Definition FlagsByName (flags : list cli_flag) : list cli_flag := merge_sort flag_le flags.

Definition ipvsdr_main (b : base) (r : runtime) : cli_App * (Options → E → option Z) :=
  ({| app_Name := "provider-ipvsdr"; app_Version := Version (GetInfo b r);
      app_Flags := FlagsByName (ipvsdr_AddFlags []) |},
   λ opts e, exit_code (ipvsdr_Run opts e).1).

Definition ingress_main (b : base) (r : runtime) : cli_App * (Options → E → option Z) :=
  ({| app_Name := "ingress sidecar"; app_Version := Version (GetInfo b r);
      app_Flags := FlagsByName (AddFlags []) |},
   λ opts e, exit_code (ingress_Run opts e).1).

Definition azure_main (b : base) (r : runtime) : cli_App * (Options → E → option Z) :=
  ({| app_Name := "azure provider"; app_Version := Version (GetInfo b r);
      app_Flags := FlagsByName (AddFlags []) |},
   λ opts e, exit_code (azure_Run opts e).1).
End start.

(** ** SIGTERM *)
Section sigterm.
Context {P : Type} `{!Provider P}.

(** The exit code. *)
Definition handleSigterm : prog (GenericProvider P) Z :=
  r ← catch Controller.Stop;
  mret (match r with inl _ => 0 | inr _ => 1 end)%Z.
End sigterm.

(** The three programs have the same function, over their backends. *)
Definition ingress_handleSigterm {E} `{!Provider (Sidecar E)} : prog (GenericProvider (Sidecar E)) Z :=
  handleSigterm.
Definition azure_handleSigterm {E} `{!Provider (AzureState E)}
    : prog (GenericProvider (AzureState E)) Z := handleSigterm.

(** ** Properties *)

(** [cli] panics when two flags have one name. *)
Lemma flag_names_distinct : NoDup (flag_name <$> ipvsdr_AddFlags []) ∧ NoDup (flag_name <$> AddFlags []).
Proof. split; by_compute. Qed.

(** *** The start of the ipvs-dr provider *)

(** What a program finds returns a value or an error. *)
Class StartHostLaws (E : Type) `{!StartHost E, !CoreV1 E} := {
  BuildConfigFromFlags_calm k e : is_panic (BuildConfigFromFlags k e) = false;
  NewForConfig_calm c e : is_panic (NewForConfig c e) = false;
  API_LoadBalancer_calm ns n e : is_panic (API_LoadBalancer ns n e) = false;
  modprobe_ip_vs_calm e : is_panic (modprobe_ip_vs e).1 = false;
  Stat_ip_vs_calm e : is_panic (Stat_ip_vs e) = false;
  ParseFiles_calm e : is_panic (ParseFiles e) = false;
  Pods_Get_calm ns n e : is_panic (Pods_Get ns n e) = false;
}.

Section outcome.
Context {E : Type} `{!StartHost E, !CoreV1 E, !StartHostLaws E}.

Definition is_ok {A} (r : result A) : bool := match r with Ok _ => true | _ => false end.

Definition client_ok (opts : Options) (e : E) : bool :=
  is_ok (BuildConfigFromFlags (Kubeconfig opts) e) &&
  is_ok (NewForConfig (setupConfigQPS (Getenv e)) e).

(** The node of the pod can be found. *)
Definition node_ok (opts : Options) (e : E) : bool :=
  negb (bool_decide (PodName opts = "")) && negb (bool_decide (PodNamespace opts = "")) &&
  is_ok (Pods_Get (PodNamespace opts) (PodName opts) e).

Lemma or_fatal_calm {A} (m : prog E A) e :
  is_panic (m e).1 = false →
  or_fatal m e = (match (m e).1 with Ok a => Ok a | _ => Panic fatal_text end, (m e).2).
Proof.
  intros Hm. unfold or_fatal, catch, fatal, lift. unfold_prog. by destruct (m e) as [[]].
Qed.

Lemma NewClientSet_eq opts e :
  or_fatal (NewClientSet (Kubeconfig opts)) e =
    (if client_ok opts e then Ok () else Panic fatal_text, e).
Proof.
  pose proof (BuildConfigFromFlags_calm (Kubeconfig opts) e) as H1.
  pose proof (NewForConfig_calm (setupConfigQPS (Getenv e)) e) as H2.
  rewrite or_fatal_calm; unfold NewClientSet, client_ok, reads; unfold_prog.
  - destruct (BuildConfigFromFlags _ e); simpl; [|done..].
    by destruct (NewForConfig _ e) as [[]| |].
  - by destruct (BuildConfigFromFlags _ e).
Qed.

Lemma GetNodeNameForPod_eq opts e :
  or_fatal (GetNodeNameForPod (PodNamespace opts) (PodName opts)) e =
    (if node_ok opts e then
       match Pods_Get (PodNamespace opts) (PodName opts) e with
       | Ok pod => Ok (pod_NodeName pod)
       | _ => Panic fatal_text
       end
     else Panic fatal_text, e).
Proof.
  pose proof (Pods_Get_calm (PodNamespace opts) (PodName opts) e) as H.
  rewrite or_fatal_calm; unfold GetNodeNameForPod, node_ok, reads, fail; unfold_prog;
    destruct (decide (PodName opts = "")), (decide (PodNamespace opts = ""));
    repeat case_bool_decide; try tauto; simpl; by destruct (Pods_Get _ _ e).
Qed.

(** C40: How the ipvs-dr program starts.  Without a client, the load balancer or the
    node of the pod it exits with 255; without an ipvs-dr spec, the kernel
    module or the template with 1; otherwise it runs the controller, for the
    load balancer of the options and the ConfigMaps of its status, with a fresh
    provider of the pod's node and an empty queue. *)
Theorem ipvsdr_Run_outcome opts e :
  let e1 := (modprobe_ip_vs e).2 in
  exit_code (ipvsdr_Run opts e).1 =
    (if negb (client_ok opts e) then Some 255%Z
     else match API_LoadBalancer (opt_LoadBalancerNamespace opts) (opt_LoadBalancerName opts) e with
     | Ok lb =>
         if bool_decide (Ipvsdr (Providers (Spec lb)) = None) then Some 1%Z
         else if negb (is_ok (modprobe_ip_vs e).1 && is_ok (Stat_ip_vs e1)) then Some 1%Z
         else if negb (node_ok opts e1) then Some 255%Z
         else if negb (is_ok (ParseFiles e1)) then Some 1%Z
         else None
     | _ => Some 255%Z
     end) ∧
  ∀ p, (ipvsdr_Run opts e).1 = Ok p →
    ∃ lb pod,
      API_LoadBalancer (opt_LoadBalancerNamespace opts) (opt_LoadBalancerName opts) e = Ok lb ∧
      Pods_Get (PodNamespace opts) (PodName opts) e1 = Ok pod ∧
      p = provider (init (Configuration_of opts lb) (Backend p)) ∧
      nodeName (Backend p) = pod_NodeName pod ∧ k_cmd (Backend p) = None ∧ env (Backend p) = e1.
Proof.
  intros e1. unfold ipvsdr_Run, Run_with.
  rewrite (prog_bind_eq _ _ _ _ _ (NewClientSet_eq opts e)).
  destruct (client_ok opts e); [|by split]. cbn [negb].
  pose proof (API_LoadBalancer_calm (opt_LoadBalancerNamespace opts) (opt_LoadBalancerName opts) e) as Hlb.
  rewrite (prog_bind_eq _ _ _ _ _ (or_fatal_calm (reads _) e Hlb)). cbn [fst snd reads].
  destruct (API_LoadBalancer _ _ e) as [lb| |]; [|by split|done].
  unfold create_ipvsdr. case_bool_decide; [by split|].
  pose proof (modprobe_ip_vs_calm e) as Hm. unfold loadIPVSModule, e1 in *.
  destruct (modprobe_ip_vs e) as [[[]| |] e2] eqn:Hmod; [| |done];
    rewrite !prog_bind_assoc, (prog_bind_eq _ _ _ _ _ Hmod); cbn [fst snd is_ok andb negb]; [|by split].
  pose proof (Stat_ip_vs_calm e2) as Hs. rewrite prog_bind_reads.
  destruct (Stat_ip_vs e2) as [[]| |]; [|by split|done]. cbn [negb is_ok].
  rewrite prog_bind_assoc, (prog_bind_eq _ _ _ _ _ (GetNodeNameForPod_eq opts e2)).
  destruct (node_ok opts e2) eqn:Hnode; [|by split]. cbn [negb].
  unfold node_ok in Hnode. apply andb_true_iff in Hnode as [_ Hpod].
  destruct (Pods_Get (PodNamespace opts) (PodName opts) e2) as [pod| |]; [|done..].
  pose proof (ParseFiles_calm e2) as Hp. unfold NewIpvsdrProvider.
  unfold loadTemplate. rewrite prog_bind_assoc, prog_bind_reads. destruct (ParseFiles e2) as [[]| |]; [|by split|done].
  split; [done|]. intros p [= <-]. by exists lb, pod.
Qed.
End outcome.

(** *** SIGTERM *)

Section sigterm_ipvsdr.
Context {E : Type} `{!ProcFS E, !OS E, !Iptables E, !IpvsEnv E}.
Context (GOOS : string) (range_map : ∀ m : gmap string string, list (string * string)).

#[local] Existing Instance ipvsdr_provider.
#[local] Arguments ipvsdr_provider {E _ _ _ _} GOOS range_map.

Lemma deleteChain_no_error : no_error (deleteChain (T := E)).
Proof.
  unfold deleteChain, flushChain.
  repeat first [apply no_error_ignore | apply no_error_for_each; intros ? | apply no_error_bind; [|intros _]].
Qed.

(** [Stop] of a provider whose [keepalived.Start] has not run. *)
Lemma ipvsdr_Stop_unstarted (b : IpvsProvider E) :
  k_cmd b = None → is_panic (ipvsdr_Stop GOOS range_map b).1 = true.
Proof.
  intros Hk. unfold ipvsdr_Stop.
  assert (∃ r b1, ignore (resetSysctl GOOS range_map) b = (r, b1) ∧ k_cmd b1 = None ∧
    (r = Ok () ∨ is_panic r = true)) as (r & b1 & H1 & Hk1 & Hr).
  { unfold ignore, catch, resetSysctl, mbind, prog_bind.
    destruct (BulkModify GOOS _ (env b)) as [[[x [err|]]|err|why] e];
      (eexists _, _; split; [done|split; [exact Hk|]]); eauto. }
  rewrite (prog_bind_eq _ _ _ _ _ H1). destruct r as [[]| |]; [|by destruct Hr|done].
  pose proof (deleteChain_no_error (env b1)) as Hd. unfold on_env.
  destruct (deleteChain (env b1)) as [[[]| |] e2] eqn:H2; [|done|].
  - erewrite (prog_bind_eq _ _ b1 (Ok ())); [|by rewrite H2].
    unfold keepalived_Stop, ignore, catch, on_daemon, mbind, prog_bind. cbn [k_cmd with_env].
    by rewrite Hk1.
  - by erewrite (prog_bind_eq _ _ b1 (Panic why)); [|by rewrite H2].
Qed.

(** A SIGTERM that arrives before the backend is started, while the caches are
    still being synced, ends the ipvs-dr program with a panic: [Stop] of the
    provider dereferences the keepalived command that was never made. *)
Theorem sigterm_before_start (p : GenericProvider (IpvsProvider E)) :
  Controller.shutdown p = false → k_cmd (Backend p) = None →
  is_panic (@handleSigterm _ (ipvsdr_provider GOOS range_map) p).1 = true.
Proof.
  intros Hs Hk. pose proof (ipvsdr_Stop_unstarted (Backend p) Hk) as Hp.
  unfold handleSigterm, Controller.Stop, Stop_backend, ignore, catch, on_backend. unfold_prog.
  rewrite Hs. simpl. by destruct (ipvsdr_Stop GOOS range_map (Backend p)) as [[]].
Qed.
End sigterm_ipvsdr.

(** The first SIGTERM makes the program exit with 0 when the backend does not
    panic: an error of its [Stop] is dropped, and afterwards nothing is
    enqueued. *)
Theorem sigterm_exit_code `{!Provider P} (p : GenericProvider P) :
  Controller.shutdown p = false → sq_stopped (gp_queue p) = false → is_panic (Provider_Stop (Backend p)).1 = false →
  ∃ p', handleSigterm p = (Ok 0%Z, p') ∧ stopCh_closed p' = true ∧
    Backend p' = (Provider_Stop (Backend p)).2 ∧ ∀ key, Enqueue (gp_queue p') key = gp_queue p'.
Proof.
  intros Hs Hq Hp. unfold handleSigterm, Controller.Stop, Stop_backend, Stop_queue, ignore, catch,
    on_backend, sq_ShutDown. unfold_prog. rewrite Hs. simpl.
  destruct (Provider_Stop (Backend p)) as [[] b]; simpl in *; rewrite ?Hq; simpl; try done;
    eexists; split_and!; done.
Qed.

(** ** Witnesses *)
Definition example_options : Options :=
  {| Debug := false; Kubeconfig := ""; opt_LoadBalancerNamespace := "default";
     opt_LoadBalancerName := "lb"; PodNamespace := "default"; PodName := "pod"; NodeIPLabel := "";
     NodeIPAnnotation := "" |}.

Definition started_lb : LoadBalancer := lb_with "1" None.

#[local] Instance host_start : StartHost host := {
  Getenv h key := "";
  BuildConfigFromFlags k h := Ok ();
  NewForConfig c h := Ok ();
  API_LoadBalancer ns n h :=
    if bool_decide (n = "lb") then Ok started_lb else Err (StatusError "NotFound" "not found");
  modprobe_ip_vs h := (Ok (), h);
  Stat_ip_vs h := Ok ();
  ParseFiles h := Ok ();
}.

#[local] Instance host_core : CoreV1 host := {
  Pods_Get ns n h := Ok {| pod_NodeName := "node1" |};
  Nodes_Get n h := match h_nodes h !! n with Some nd => Ok nd | None => Err (ErrorString "not found") end;
}.

#[local] Instance host_start_laws : StartHostLaws host.
Proof. split; try done. intros ns n h. simpl. by case_bool_decide. Qed.

Definition started : result (GenericProvider (IpvsProvider host)) :=
  (ipvsdr_Run example_options (example_host None false false)).1.

Lemma ipvsdr_Run_outcome_witness :
  exit_code started = None ∧
  ∀ p, started = Ok p →
    ∃ lb pod,
      API_LoadBalancer "default" "lb" (example_host None false false) = Ok lb ∧
      Pods_Get "default" "pod" (example_host None false false) = Ok pod ∧
      p = provider (init (Configuration_of example_options lb) (Backend p)) ∧
      nodeName (Backend p) = pod_NodeName pod ∧ k_cmd (Backend p) = None ∧
      env (Backend p) = example_host None false false.
Proof. exact (ipvsdr_Run_outcome example_options (example_host None false false)). Defined.

Definition started_provider : GenericProvider (IpvsProvider host) :=
  provider (init (Configuration_of example_options started_lb) (fresh_provider (example_host None false false))).

Lemma sigterm_before_start_witness :
  Controller.shutdown started_provider = false ∧ k_cmd (Backend started_provider) = None ∧
  is_panic (@handleSigterm _ (ipvsdr_provider "linux" map_to_list) started_provider).1 = true.
Proof.
  split; [reflexivity|]. split; [reflexivity|].
  exact (sigterm_before_start "linux" map_to_list started_provider eq_refl eq_refl).
Defined.

Lemma sigterm_exit_code_witness :
  Controller.shutdown named_provider = false ∧ sq_stopped (gp_queue named_provider) = false ∧
  ∃ p', @handleSigterm () rejecting named_provider = (Ok 0%Z, p') ∧ stopCh_closed p' = true ∧
    Backend p' = (@Provider_Stop () rejecting (Backend named_provider)).2 ∧
    ∀ key, Enqueue (gp_queue p') key = gp_queue p'.
Proof.
  split; [reflexivity|]. split; [reflexivity|].
  exact (@sigterm_exit_code () rejecting named_provider eq_refl eq_refl eq_refl).
Defined.
